(** * Setback (Pitch): the card model, the action engine, the scoring engine,
      the message handlers of the server and its connection registry,
      embedded from the Go sources [game/card.go], [game/state.go],
      [game/engine.go], [game/scoring.go], [server/protocol.go],
      [server/handlers.go] and [server/hub.go]. *)

From Stdlib Require Import ZArith List String Ascii Bool Lia Permutation QArith.
Import ListNotations.
Open Scope string_scope.
Open Scope list_scope.
Open Scope Z_scope.

Set Implicit Arguments.

(* ================================================================== *)
(** * Machine integers *)

(** Go's [int] is a 64-bit two's complement integer on the platforms the
    server runs on: additions and negations wrap around. *)
Definition min_int : Z := - 2 ^ 63.
Definition max_int : Z := 2 ^ 63 - 1.

Definition wrap (z : Z) : Z := (z + 2 ^ 63) mod 2 ^ 64 - 2 ^ 63.

Definition int_add (a b : Z) : Z := wrap (a + b).
Definition int_neg (a : Z) : Z := wrap (- a).

Definition in_int (z : Z) : Prop := min_int <= z <= max_int.

(* ================================================================== *)
(** * game/card.go *)

Inductive Suit := Spades | Hearts | Diamonds | Clubs.

Definition Suit_eqb (a b : Suit) : bool :=
  match a, b with
  | Spades, Spades | Hearts, Hearts | Diamonds, Diamonds | Clubs, Clubs => true
  | _, _ => false
  end.

Definition Suit_String (s : Suit) : string :=
  match s with
  | Spades => "spades" | Hearts => "hearts"
  | Diamonds => "diamonds" | Clubs => "clubs"
  end.

Definition AllSuits : list Suit := [Spades; Hearts; Diamonds; Clubs].

(** [OffSuit]: the other suit of the same colour. *)
Definition OffSuit (s : Suit) : Suit :=
  match s with
  | Spades => Clubs
  | Clubs => Spades
  | Hearts => Diamonds
  | Diamonds => Hearts
  end.

Inductive Rank :=
  Two | Three | Four | Five | Six | Seven | Eight | Nine | Ten
  | Jack | Queen | King | Ace.

(** The integer a rank constant stands for (2..14). *)
Definition Rank_int (r : Rank) : Z :=
  match r with
  | Two => 2 | Three => 3 | Four => 4 | Five => 5 | Six => 6 | Seven => 7
  | Eight => 8 | Nine => 9 | Ten => 10 | Jack => 11 | Queen => 12
  | King => 13 | Ace => 14
  end.

Definition Rank_eqb (a b : Rank) : bool := Rank_int a =? Rank_int b.

Definition Rank_String (r : Rank) : string :=
  match r with
  | Jack => "jack" | Queen => "queen" | King => "king" | Ace => "ace"
  | Two => "2" | Three => "3" | Four => "4" | Five => "5" | Six => "6"
  | Seven => "7" | Eight => "8" | Nine => "9" | Ten => "10"
  end.

Definition AllRanks : list Rank :=
  [Two; Three; Four; Five; Six; Seven; Eight; Nine; Ten; Jack; Queen; King; Ace].

Definition GamePoints (r : Rank) : Z :=
  match r with
  | Ace => 4 | King => 3 | Queen => 2 | Jack => 1 | Ten => 10
  | _ => 0
  end.

Record Card := mkCard { ID : string; CSuit : Suit; CRank : Rank }.

Definition NewCard (suit : Suit) (rank : Rank) : Card :=
  {| ID := (Rank_String rank ++ "_" ++ Suit_String suit)%string;
     CSuit := suit; CRank := rank |}.

Definition IsTrump (c : Card) (trump : Suit) : bool :=
  if Suit_eqb (CSuit c) trump then true
  else if Rank_eqb (CRank c) Jack && Suit_eqb (CSuit c) (OffSuit trump) then true
  else false.

Definition IsOffJack (c : Card) (trump : Suit) : bool :=
  Rank_eqb (CRank c) Jack && Suit_eqb (CSuit c) (OffSuit trump).

(** [TrumpRank] returns a [float64] in the source: 10.5 for the off jack and
    the rank converted otherwise.  Halves and the integers 2..14 are exact
    binary floats and their comparison is exact, so the key is a rational. *)
Definition TrumpRank (c : Card) (trump : Suit) : Q :=
  if IsOffJack c trump then 21 # 2
  else inject_Z (Rank_int (CRank c)).

Definition Q_gtb (a b : Q) : bool := negb (Qle_bool a b).

Definition Beats (c other : Card) (trump leadSuit : Suit) : bool :=
  let cIsTrump := IsTrump c trump in
  let otherIsTrump := IsTrump other trump in
  if cIsTrump && negb otherIsTrump then true
  else if negb cIsTrump && otherIsTrump then false
  else if cIsTrump && otherIsTrump then
    Q_gtb (TrumpRank c trump) (TrumpRank other trump)
  else if Suit_eqb (CSuit c) (CSuit other) then
    Rank_int (CRank c) >? Rank_int (CRank other)
  else if Suit_eqb (CSuit c) leadSuit then true
  else false.

(** A deck is the slice of the cards left in it. *)
Definition CardDeck := list Card.

Definition NewDeck : CardDeck :=
  flat_map (fun suit => map (fun rank => NewCard suit rank) AllRanks) AllSuits.

(** [Deal n]: the first [n] cards (all of them when fewer are left) and the
    deck without them.  Every call passes a positive [n]. *)
Definition Deal (n : Z) (d : CardDeck) : list Card * CardDeck :=
  let n := if n >? Z.of_nat (List.length d) then Z.of_nat (List.length d) else n in
  (firstn (Z.to_nat n) d, skipn (Z.to_nat n) d).

(** ** Shuffle

    [Deck.Shuffle] seeds a generator and calls [rng.Shuffle], the
    Fisher-Yates loop [for i := n-1; i > 0; i-- { swap(i, Intn(i+1)) }].
    The generator is outside the repository: its draws are an input,
    [draw i] being the number drawn for position [i], reduced into
    [0..i]. *)
Fixpoint set_nth (i : nat) (x : Card) (l : list Card) : list Card :=
  match l, i with
  | [], _ => []
  | _ :: t, O => x :: t
  | h :: t, S i' => h :: set_nth i' x t
  end.

(** [d.Cards[i], d.Cards[j] = d.Cards[j], d.Cards[i]] *)
Definition swap_at (i j : nat) (l : list Card) : list Card :=
  match nth_error l i, nth_error l j with
  | Some x, Some y => set_nth j x (set_nth i y l)
  | _, _ => l
  end.

Fixpoint shuffle_from (draw : nat -> nat) (i : nat) (l : list Card) : list Card :=
  match i with
  | O => l
  | S i' => shuffle_from draw i' (swap_at i (Nat.modulo (draw i) (S i)) l)
  end.

Definition Shuffle (draw : nat -> nat) (d : CardDeck) : CardDeck :=
  shuffle_from draw (pred (List.length d)) d.

(* ================================================================== *)
(** * Fixed-size arrays

    [[4]T] and [[2]T] of the source.  Reading or writing outside the
    bounds is a run-time panic there: [get4] and [set4] return [None]. *)

Record Arr4 (A : Type) := mkArr4 { a0 : A; a1 : A; a2 : A; a3 : A }.
Record Arr2 (A : Type) := mkArr2 { b0 : A; b1 : A }.

Definition get4 {A} (i : Z) (a : Arr4 A) : option A :=
  if i =? 0 then Some (a0 a)
  else if i =? 1 then Some (a1 a)
  else if i =? 2 then Some (a2 a)
  else if i =? 3 then Some (a3 a)
  else None.

Definition set4 {A} (i : Z) (v : A) (a : Arr4 A) : option (Arr4 A) :=
  if i =? 0 then Some (mkArr4 v (a1 a) (a2 a) (a3 a))
  else if i =? 1 then Some (mkArr4 (a0 a) v (a2 a) (a3 a))
  else if i =? 2 then Some (mkArr4 (a0 a) (a1 a) v (a3 a))
  else if i =? 3 then Some (mkArr4 (a0 a) (a1 a) (a2 a) v)
  else None.

Definition list4 {A} (a : Arr4 A) : list A := [a0 a; a1 a; a2 a; a3 a].
Definition fill4 {A} (v : A) : Arr4 A := mkArr4 v v v v.

Definition get2 {A} (i : Z) (a : Arr2 A) : option A :=
  if i =? 0 then Some (b0 a)
  else if i =? 1 then Some (b1 a)
  else None.

Definition set2 {A} (i : Z) (v : A) (a : Arr2 A) : option (Arr2 A) :=
  if i =? 0 then Some (mkArr2 v (b1 a))
  else if i =? 1 then Some (mkArr2 (b0 a) v)
  else None.

Definition list2 {A} (a : Arr2 A) : list A := [b0 a; b1 a].

(* ================================================================== *)
(** * game/state.go *)

Inductive GamePhase :=
  PhaseLobby | PhaseBidding | PhaseKitty | PhaseDiscard | PhasePlaying
  | PhaseScoring | PhaseFinished.

Definition Phase_eqb (a b : GamePhase) : bool :=
  match a, b with
  | PhaseLobby, PhaseLobby | PhaseBidding, PhaseBidding
  | PhaseKitty, PhaseKitty | PhaseDiscard, PhaseDiscard
  | PhasePlaying, PhasePlaying | PhaseScoring, PhaseScoring
  | PhaseFinished, PhaseFinished => true
  | _, _ => false
  end.

Record Player := mkPlayer {
  Name : string;
  SeatIndex : Z;
  Hand : list Card;
  SessionToken : string;
  Connected : bool }.

Record Team := mkTeam {
  PlayerIndices : list Z;
  Score : Z;
  GamesWon : Z }.

Record Bid := mkBid { Bid_PlayerIndex : Z; Amount : Z }.

Record TrickCard := mkTrickCard { TC_Card : Card; TC_PlayerIndex : Z }.

Record Trick := mkTrick {
  Cards : list TrickCard;
  Leader : Z;
  LeadSuit : Suit;
  Winner : Z }.

Record CompletedTrick := mkCompletedTrick {
  CT_Cards : list TrickCard;
  CT_Winner : Z }.

(** Pointers that may be nil ([*Player], [*Team], [*Deck], [*Trick],
    [*Suit]) are options; a pending discard selection is a slice that is
    told apart from nil, so it is an option too. *)
Record GameState := mkGameState {
  Phase : GamePhase;
  Players : Arr4 (option Player);
  Teams : Arr2 (option Team);
  Deck : option CardDeck;
  CurrentTrick : option Trick;
  LastTrick : option Trick;
  Trump : option Suit;
  Bids : list Bid;
  Dealer : Z;
  CurrentPlayer : Z;
  TricksPlayed : Z;
  BidWinner : Z;
  WinningBid : Z;
  TargetScore : Z;
  House : Z;
  Kitty : list Card;
  DiscardComplete : Arr4 bool;
  PendingDiscards : Arr4 (option (list string));
  CompletedTricks : list CompletedTrick;
  CardsWon : Arr2 (list Card);
  TrumpBroken : bool }.

(** Field updates of the record the engine mutates in place. *)
Definition set_Phase v s := mkGameState v (Players s) (Teams s) (Deck s) (CurrentTrick s) (LastTrick s) (Trump s) (Bids s) (Dealer s) (CurrentPlayer s) (TricksPlayed s) (BidWinner s) (WinningBid s) (TargetScore s) (House s) (Kitty s) (DiscardComplete s) (PendingDiscards s) (CompletedTricks s) (CardsWon s) (TrumpBroken s).
Definition set_Players v s := mkGameState (Phase s) v (Teams s) (Deck s) (CurrentTrick s) (LastTrick s) (Trump s) (Bids s) (Dealer s) (CurrentPlayer s) (TricksPlayed s) (BidWinner s) (WinningBid s) (TargetScore s) (House s) (Kitty s) (DiscardComplete s) (PendingDiscards s) (CompletedTricks s) (CardsWon s) (TrumpBroken s).
Definition set_Teams v s := mkGameState (Phase s) (Players s) v (Deck s) (CurrentTrick s) (LastTrick s) (Trump s) (Bids s) (Dealer s) (CurrentPlayer s) (TricksPlayed s) (BidWinner s) (WinningBid s) (TargetScore s) (House s) (Kitty s) (DiscardComplete s) (PendingDiscards s) (CompletedTricks s) (CardsWon s) (TrumpBroken s).
Definition set_Deck v s := mkGameState (Phase s) (Players s) (Teams s) v (CurrentTrick s) (LastTrick s) (Trump s) (Bids s) (Dealer s) (CurrentPlayer s) (TricksPlayed s) (BidWinner s) (WinningBid s) (TargetScore s) (House s) (Kitty s) (DiscardComplete s) (PendingDiscards s) (CompletedTricks s) (CardsWon s) (TrumpBroken s).
Definition set_CurrentTrick v s := mkGameState (Phase s) (Players s) (Teams s) (Deck s) v (LastTrick s) (Trump s) (Bids s) (Dealer s) (CurrentPlayer s) (TricksPlayed s) (BidWinner s) (WinningBid s) (TargetScore s) (House s) (Kitty s) (DiscardComplete s) (PendingDiscards s) (CompletedTricks s) (CardsWon s) (TrumpBroken s).
Definition set_LastTrick v s := mkGameState (Phase s) (Players s) (Teams s) (Deck s) (CurrentTrick s) v (Trump s) (Bids s) (Dealer s) (CurrentPlayer s) (TricksPlayed s) (BidWinner s) (WinningBid s) (TargetScore s) (House s) (Kitty s) (DiscardComplete s) (PendingDiscards s) (CompletedTricks s) (CardsWon s) (TrumpBroken s).
Definition set_Trump v s := mkGameState (Phase s) (Players s) (Teams s) (Deck s) (CurrentTrick s) (LastTrick s) v (Bids s) (Dealer s) (CurrentPlayer s) (TricksPlayed s) (BidWinner s) (WinningBid s) (TargetScore s) (House s) (Kitty s) (DiscardComplete s) (PendingDiscards s) (CompletedTricks s) (CardsWon s) (TrumpBroken s).
Definition set_Bids v s := mkGameState (Phase s) (Players s) (Teams s) (Deck s) (CurrentTrick s) (LastTrick s) (Trump s) v (Dealer s) (CurrentPlayer s) (TricksPlayed s) (BidWinner s) (WinningBid s) (TargetScore s) (House s) (Kitty s) (DiscardComplete s) (PendingDiscards s) (CompletedTricks s) (CardsWon s) (TrumpBroken s).
Definition set_Dealer v s := mkGameState (Phase s) (Players s) (Teams s) (Deck s) (CurrentTrick s) (LastTrick s) (Trump s) (Bids s) v (CurrentPlayer s) (TricksPlayed s) (BidWinner s) (WinningBid s) (TargetScore s) (House s) (Kitty s) (DiscardComplete s) (PendingDiscards s) (CompletedTricks s) (CardsWon s) (TrumpBroken s).
Definition set_CurrentPlayer v s := mkGameState (Phase s) (Players s) (Teams s) (Deck s) (CurrentTrick s) (LastTrick s) (Trump s) (Bids s) (Dealer s) v (TricksPlayed s) (BidWinner s) (WinningBid s) (TargetScore s) (House s) (Kitty s) (DiscardComplete s) (PendingDiscards s) (CompletedTricks s) (CardsWon s) (TrumpBroken s).
Definition set_TricksPlayed v s := mkGameState (Phase s) (Players s) (Teams s) (Deck s) (CurrentTrick s) (LastTrick s) (Trump s) (Bids s) (Dealer s) (CurrentPlayer s) v (BidWinner s) (WinningBid s) (TargetScore s) (House s) (Kitty s) (DiscardComplete s) (PendingDiscards s) (CompletedTricks s) (CardsWon s) (TrumpBroken s).
Definition set_BidWinner v s := mkGameState (Phase s) (Players s) (Teams s) (Deck s) (CurrentTrick s) (LastTrick s) (Trump s) (Bids s) (Dealer s) (CurrentPlayer s) (TricksPlayed s) v (WinningBid s) (TargetScore s) (House s) (Kitty s) (DiscardComplete s) (PendingDiscards s) (CompletedTricks s) (CardsWon s) (TrumpBroken s).
Definition set_WinningBid v s := mkGameState (Phase s) (Players s) (Teams s) (Deck s) (CurrentTrick s) (LastTrick s) (Trump s) (Bids s) (Dealer s) (CurrentPlayer s) (TricksPlayed s) (BidWinner s) v (TargetScore s) (House s) (Kitty s) (DiscardComplete s) (PendingDiscards s) (CompletedTricks s) (CardsWon s) (TrumpBroken s).
Definition set_House v s := mkGameState (Phase s) (Players s) (Teams s) (Deck s) (CurrentTrick s) (LastTrick s) (Trump s) (Bids s) (Dealer s) (CurrentPlayer s) (TricksPlayed s) (BidWinner s) (WinningBid s) (TargetScore s) v (Kitty s) (DiscardComplete s) (PendingDiscards s) (CompletedTricks s) (CardsWon s) (TrumpBroken s).
Definition set_Kitty v s := mkGameState (Phase s) (Players s) (Teams s) (Deck s) (CurrentTrick s) (LastTrick s) (Trump s) (Bids s) (Dealer s) (CurrentPlayer s) (TricksPlayed s) (BidWinner s) (WinningBid s) (TargetScore s) (House s) v (DiscardComplete s) (PendingDiscards s) (CompletedTricks s) (CardsWon s) (TrumpBroken s).
Definition set_DiscardComplete v s := mkGameState (Phase s) (Players s) (Teams s) (Deck s) (CurrentTrick s) (LastTrick s) (Trump s) (Bids s) (Dealer s) (CurrentPlayer s) (TricksPlayed s) (BidWinner s) (WinningBid s) (TargetScore s) (House s) (Kitty s) v (PendingDiscards s) (CompletedTricks s) (CardsWon s) (TrumpBroken s).
Definition set_PendingDiscards v s := mkGameState (Phase s) (Players s) (Teams s) (Deck s) (CurrentTrick s) (LastTrick s) (Trump s) (Bids s) (Dealer s) (CurrentPlayer s) (TricksPlayed s) (BidWinner s) (WinningBid s) (TargetScore s) (House s) (Kitty s) (DiscardComplete s) v (CompletedTricks s) (CardsWon s) (TrumpBroken s).
Definition set_CompletedTricks v s := mkGameState (Phase s) (Players s) (Teams s) (Deck s) (CurrentTrick s) (LastTrick s) (Trump s) (Bids s) (Dealer s) (CurrentPlayer s) (TricksPlayed s) (BidWinner s) (WinningBid s) (TargetScore s) (House s) (Kitty s) (DiscardComplete s) (PendingDiscards s) v (CardsWon s) (TrumpBroken s).
Definition set_CardsWon v s := mkGameState (Phase s) (Players s) (Teams s) (Deck s) (CurrentTrick s) (LastTrick s) (Trump s) (Bids s) (Dealer s) (CurrentPlayer s) (TricksPlayed s) (BidWinner s) (WinningBid s) (TargetScore s) (House s) (Kitty s) (DiscardComplete s) (PendingDiscards s) (CompletedTricks s) v (TrumpBroken s).
Definition set_TrumpBroken v s := mkGameState (Phase s) (Players s) (Teams s) (Deck s) (CurrentTrick s) (LastTrick s) (Trump s) (Bids s) (Dealer s) (CurrentPlayer s) (TricksPlayed s) (BidWinner s) (WinningBid s) (TargetScore s) (House s) (Kitty s) (DiscardComplete s) (PendingDiscards s) (CompletedTricks s) (CardsWon s) v.

Definition set_Hand (h : list Card) (p : Player) : Player :=
  mkPlayer (Name p) (SeatIndex p) h (SessionToken p) (Connected p).
Definition set_Name (n : string) (p : Player) : Player :=
  mkPlayer n (SeatIndex p) (Hand p) (SessionToken p) (Connected p).
Definition set_Connected (c : bool) (p : Player) : Player :=
  mkPlayer (Name p) (SeatIndex p) (Hand p) (SessionToken p) c.
Definition set_SessionToken (t : string) (p : Player) : Player :=
  mkPlayer (Name p) (SeatIndex p) (Hand p) t (Connected p).
Definition set_Score (v : Z) (t : Team) : Team :=
  mkTeam (PlayerIndices t) v (GamesWon t).
Definition set_GamesWon (v : Z) (t : Team) : Team :=
  mkTeam (PlayerIndices t) (Score t) v.

Definition NewGameState (targetScore : Z) : GameState :=
  {| Phase := PhaseLobby;
     Players := fill4 None;
     Teams := mkArr2 (Some (mkTeam [0; 2] 0 0)) (Some (mkTeam [1; 3] 0 0));
     Deck := None;
     CurrentTrick := None;
     LastTrick := None;
     Trump := None;
     Bids := [];
     Dealer := 0;
     CurrentPlayer := 0;
     TricksPlayed := 0;
     BidWinner := 0;
     WinningBid := 0;
     TargetScore := targetScore;
     House := -1;
     Kitty := [];
     DiscardComplete := fill4 false;
     PendingDiscards := fill4 None;
     CompletedTricks := [];
     CardsWon := mkArr2 [] [];
     TrumpBroken := false |}.

Definition GetTeamForPlayer (playerIndex : Z) : Z :=
  if (playerIndex =? 0) || (playerIndex =? 2) then 0 else 1.

Definition AllPlayersSeated (g : GameState) : bool :=
  forallb (fun p => match p with Some _ => true | None => false end)
          (list4 (Players g)).

(** [(current + 1) % 4]: the sum wraps and [%] truncates towards zero. *)
Definition NextPlayer (current : Z) : Z := Z.rem (int_add current 1) 4.

Definition PlayerAfterDealer (g : GameState) : Z := NextPlayer (Dealer g).

(* ================================================================== *)
(** * game/engine.go *)

Inductive ActionType :=
  ActionJoinSeat | ActionLeaveSeat | ActionChangeName | ActionKickPlayer
  | ActionTransferHouse | ActionStartGame | ActionPlaceBid | ActionSelectTrump
  | ActionTakeKitty | ActionDiscard | ActionDiscardDraw | ActionPlayCard
  | ActionResetGame
  | ActionUnknown (name : string).

(** [CardIDs] is a slice that may be nil (a message without the field). *)
Record Action := mkAction {
  AType : ActionType;
  PlayerIndex : Z;
  PlayerName : string;
  BidAmount : Z;
  CardID : string;
  TrumpSuit : string;
  CardIDs : option (list string);
  TargetSeat : Z }.

(** The zero value of [Action], with the given type. *)
Definition Action0 (t : ActionType) : Action :=
  mkAction t 0 "" 0 "" "" None 0.

Inductive Error :=
  | ErrNotYourTurn | ErrInvalidAction | ErrSeatTaken | ErrSeatEmpty
  | ErrNotEnoughPlayers | ErrInvalidBid | ErrCardNotInHand | ErrCardNotInKitty
  | ErrMustFollowSuit | ErrInvalidTrump | ErrMustDiscardToSix
  | ErrBidHigher (highBid : Z)          (* "must bid higher than %d" *)
  | ErrNew (msg : string)               (* errors.New(msg) *)
  | ErrRejoinFailed.

(** What a call on the shared record leaves behind: the engine works on
    [*GameState] in place, so the record after the call is part of the
    result also when an error is returned. *)
Inductive Outcome :=
  | Done (s : GameState)                 (* returned (state, nil) *)
  | Failed (e : Error) (s : GameState)   (* returned (nil, err); [s] is the record now *)
  | Panicked.                            (* run-time panic: the process dies *)

Notation "'index!' x <- e ; k" :=
  (match e with Some x => k | None => Panicked end)
  (at level 10, x pattern, e at level 100, k at level 200, only parsing).

(** The seed drawn for a shuffle and the token drawn for a new session. *)
Record Entropy := mkEntropy { draw : nat -> nat; token : string }.

Definition GenerateSessionToken (rnd : Entropy) : string := token rnd.

(** Slice helpers. *)
Definition ids (c : option (list string)) : list string :=
  match c with Some l => l | None => [] end.

(** [append(s[:i], s[i+1:]...)] *)
Definition removeAt {A} (i : nat) (l : list A) : list A :=
  firstn i l ++ skipn (S i) l.

(** The scan [for i, c := range cards { if c.ID == cardID {...; break} }]. *)
Fixpoint findCard (cardID : string) (cards : list Card) : option (nat * Card) :=
  match cards with
  | [] => None
  | c :: rest =>
      if String.eqb (ID c) cardID then Some (O, c)
      else match findCard cardID rest with
           | Some (i, c') => Some (S i, c')
           | None => None
           end
  end.

(** [state.Players[i].Hand = hand], on a seat known to hold a player. *)
Definition setPlayer (i : Z) (p : Player) (state : GameState) : option GameState :=
  match set4 i (Some p) (Players state) with
  | Some ps => Some (set_Players ps state)
  | None => None
  end.

Definition applyJoinSeat (rnd : Entropy) (state : GameState) (action : Action) : Outcome :=
  if negb (Phase_eqb (Phase state) PhaseLobby) then Failed ErrInvalidAction state
  else if (PlayerIndex action <? 0) || (PlayerIndex action >? 3)
  then Failed (ErrNew "invalid seat index") state
  else
    index! seat <- get4 (PlayerIndex action) (Players state);
    match seat with
    | Some _ => Failed ErrSeatTaken state
    | None =>
        let isFirstPlayer := House state =? -1 in
        index! state <-
          setPlayer (PlayerIndex action)
            {| Name := PlayerName action;
               SeatIndex := PlayerIndex action;
               Hand := [];
               SessionToken := GenerateSessionToken rnd;
               Connected := true |} state;
        let state :=
          if isFirstPlayer
          then set_Dealer (PlayerIndex action) (set_House (PlayerIndex action) state)
          else state in
        Done state
    end.

Definition applyLeaveSeat (state : GameState) (action : Action) : Outcome :=
  if (PlayerIndex action <? 0) || (PlayerIndex action >? 3)
  then Failed (ErrNew "invalid seat index") state
  else
    index! seat <- get4 (PlayerIndex action) (Players state);
    match seat with
    | None => Failed ErrSeatEmpty state
    | Some p =>
        if Phase_eqb (Phase state) PhaseLobby then
          index! ps <- set4 (PlayerIndex action) None (Players state);
          Done (set_Players ps state)
        else
          index! state <-
            setPlayer (PlayerIndex action) (set_Name "" (set_Connected false p)) state;
          Done state
    end.

(** [state.Deck.Deal(n)]: the cards dealt and the record with the deck
    shortened; [None] when the deck pointer is nil. *)
Definition DeckDeal (n : Z) (state : GameState) : option (list Card * GameState) :=
  match Deck state with
  | Some d => let '(cards, d') := Deal n d in Some (cards, set_Deck (Some d') state)
  | None => None
  end.

(** The loop [for i := 0; i < 4; i++ { state.Players[i].Hand = state.Deck.Deal(6) }]. *)
Fixpoint dealHands (seats : list Z) (state : GameState) : option GameState :=
  match seats with
  | [] => Some state
  | i :: rest =>
      match DeckDeal 6 state with
      | Some (hand, state) =>
          match get4 i (Players state) with
          | Some (Some p) =>
              match setPlayer i (set_Hand hand p) state with
              | Some state => dealHands rest state
              | None => None
              end
          | _ => None
          end
      | None => None
      end
  end.

Definition applyStartGame (rnd : Entropy) (state : GameState) (action : Action) : Outcome :=
  if negb (Phase_eqb (Phase state) PhaseLobby) then Failed ErrInvalidAction state
  else if negb (PlayerIndex action =? House state)
  then Failed (ErrNew "only the house can start the game") state
  else if negb (AllPlayersSeated state) then Failed ErrNotEnoughPlayers state
  else
    let state := set_Deck (Some (Shuffle (draw rnd) NewDeck)) state in
    index! state <- dealHands [0; 1; 2; 3] state;
    index! dealt <- DeckDeal 6 state;
    let '(kitty, state) := dealt in
    let state := set_Kitty kitty state in
    let state := set_Phase PhaseBidding state in
    let state := set_CurrentPlayer (PlayerAfterDealer state) state in
    let state := set_Bids [] state in
    let state := set_Trump None state in
    let state := set_TricksPlayed 0 state in
    let state := set_CompletedTricks [] state in
    let state := set_CardsWon (mkArr2 [] []) state in
    let state := set_LastTrick None state in
    let state := set_DiscardComplete (fill4 false) state in
    let state := set_PendingDiscards (fill4 None) state in
    let state := set_TrumpBroken false state in
    Done state.

(** [for _, b := range bids { if b.Amount > highBid { highBid = ...; bidWinner = ... } }] *)
Fixpoint highBidScan (bids : list Bid) (highBid bidWinner : Z) : Z * Z :=
  match bids with
  | [] => (highBid, bidWinner)
  | b :: rest =>
      if Amount b >? highBid then highBidScan rest (Amount b) (Bid_PlayerIndex b)
      else highBidScan rest highBid bidWinner
  end.

Definition applyPlaceBid (state : GameState) (action : Action) : Outcome :=
  if negb (Phase_eqb (Phase state) PhaseBidding) then Failed ErrInvalidAction state
  else if negb (PlayerIndex action =? CurrentPlayer state) then Failed ErrNotYourTurn state
  else
    let highBid := fst (highBidScan (Bids state) 0 0) in
    if negb (BidAmount action =? 0) && ((BidAmount action <? 2) || (BidAmount action >? 6))
    then Failed ErrInvalidBid state
    else if negb (BidAmount action =? 0) && (BidAmount action <=? highBid)
    then Failed (ErrBidHigher highBid) state
    else
      let isDealer := PlayerIndex action =? Dealer state in
      let allOthersPassed := (Z.of_nat (List.length (Bids state)) =? 3) && (highBid =? 0) in
      let amount :=
        if isDealer && allOthersPassed && (BidAmount action =? 0) then 2
        else BidAmount action in
      let state :=
        set_Bids (Bids state ++ [mkBid (PlayerIndex action) amount]) state in
      if Z.of_nat (List.length (Bids state)) =? 4 then
        let '(highBid, bidWinner) := highBidScan (Bids state) 0 (Dealer state) in
        let state := set_BidWinner bidWinner state in
        let state := set_WinningBid highBid state in
        let state := set_CurrentPlayer bidWinner state in
        Done (set_Phase PhaseKitty state)
      else
        Done (set_CurrentPlayer (NextPlayer (CurrentPlayer state)) state).

Definition applySelectTrump (state : GameState) (action : Action) : Outcome :=
  if negb (Phase_eqb (Phase state) PhaseKitty) then Failed ErrInvalidAction state
  else if negb (PlayerIndex action =? BidWinner state) then Failed ErrNotYourTurn state
  else
    let parsed :=
      if String.eqb (TrumpSuit action) "spades" then Some Spades
      else if String.eqb (TrumpSuit action) "hearts" then Some Hearts
      else if String.eqb (TrumpSuit action) "diamonds" then Some Diamonds
      else if String.eqb (TrumpSuit action) "clubs" then Some Clubs
      else None in
    match parsed with
    | None => Failed ErrInvalidTrump state
    | Some trump => Done (set_Trump (Some trump) state)
    end.

(** The body of [applyTakeKitty]'s loop over the requested ids: the kitty
    and the hand are updated card by card, before the next id is looked
    up. *)
Fixpoint takeKittyLoop (cardIDs : list string) (seat : Z) (state : GameState) : Outcome :=
  match cardIDs with
  | [] => Done state
  | cardID :: rest =>
      match findCard cardID (Kitty state) with
      | None => Failed ErrCardNotInKitty state
      | Some (cardIdx, card) =>
          let state := set_Kitty (removeAt cardIdx (Kitty state)) state in
          match get4 seat (Players state) with
          | Some (Some player) =>
              index! state <- setPlayer seat (set_Hand (Hand player ++ [card]) player) state;
              takeKittyLoop rest seat state
          | _ => Panicked   (* player is nil *)
          end
      end
  end.

Definition applyTakeKitty (state : GameState) (action : Action) : Outcome :=
  if negb (Phase_eqb (Phase state) PhaseKitty) then Failed ErrInvalidAction state
  else if negb (PlayerIndex action =? BidWinner state) then Failed ErrNotYourTurn state
  else
    index! _ <- get4 (PlayerIndex action) (Players state);
    match takeKittyLoop (ids (CardIDs action)) (PlayerIndex action) state with
    | Done state => Done (set_Kitty [] state)
    | other => other
    end.

(** The discard loop shared in shape by [applyDiscard] and
    [processDiscard]: each named card is removed from the hand as soon as
    it is found. *)
Fixpoint discardLoop (cardIDs : list string) (seat : Z) (state : GameState) : Outcome :=
  match cardIDs with
  | [] => Done state
  | cardID :: rest =>
      match get4 seat (Players state) with
      | Some (Some player) =>
          match findCard cardID (Hand player) with
          | None => Failed ErrCardNotInHand state
          | Some (cardIdx, _) =>
              index! state <-
                setPlayer seat (set_Hand (removeAt cardIdx (Hand player)) player) state;
              discardLoop rest seat state
          end
      | _ => Panicked   (* player is nil *)
      end
  end.

Definition len {A} (l : list A) : Z := Z.of_nat (List.length l).

(** [processDiscard]: discard the named cards of a seat and draw as many
    from the deck. *)
Definition processDiscard (state : GameState) (playerIndex : Z)
           (cardIDs : list string) : Outcome :=
  index! _ <- get4 playerIndex (Players state);
  let discardCount := len cardIDs in
  match discardLoop cardIDs playerIndex state with
  | Done state =>
      index! state <-
        (if (discardCount >? 0) && (match Deck state with Some _ => true | None => false end)
         then
           match DeckDeal discardCount state with
           | Some (newCards, state) =>
               match get4 playerIndex (Players state) with
               | Some (Some player) =>
                   setPlayer playerIndex (set_Hand (Hand player ++ newCards) player) state
               | _ => None
               end
           | None => None
           end
         else Some state);
      index! dc <- set4 playerIndex true (DiscardComplete state);
      let state := set_DiscardComplete dc state in
      index! pd <- set4 playerIndex None (PendingDiscards state);
      Done (set_PendingDiscards pd state)
  | other => other
  end.

(** One pass of the outer [for] of [processPendingDiscards]: the inner
    loop over at most four seats. *)
Inductive PassResult :=
  | PassReturn (s : GameState)    (* [return] inside the inner loop *)
  | PassBreak (s : GameState)     (* [break]: a pending selection was applied *)
  | PassAllDone (s : GameState)   (* the inner loop ran out: [allDone] is still true *)
  | PassPanic.

Fixpoint scanSeats (n : nat) (nextPlayer : Z) (state : GameState) : PassResult :=
  match n with
  | O => PassAllDone state
  | S n' =>
      match get4 nextPlayer (DiscardComplete state) with
      | None => PassPanic
      | Some true => scanSeats n' (NextPlayer nextPlayer) state
      | Some false =>
          let state := set_CurrentPlayer nextPlayer state in
          match get4 nextPlayer (PendingDiscards state) with
          | None => PassPanic
          | Some pending =>
              if (len (ids pending) >? 0)
                 || (match pending with Some _ => true | None => false end)
              then
                let cardIDs := ids pending in
                match processDiscard state nextPlayer cardIDs with
                | Failed _ state =>
                    match set4 nextPlayer None (PendingDiscards state) with
                    | Some pd => PassReturn (set_PendingDiscards pd state)
                    | None => PassPanic
                    end
                | Done state => PassBreak state
                | Panicked => PassPanic
                end
              else PassReturn state
          end
      end
  end.

Definition pendingPass (state : GameState) : PassResult :=
  scanSeats 4 (NextPlayer (CurrentPlayer state)) state.

Definition startPlaying (state : GameState) : GameState :=
  let state := set_Phase PhasePlaying state in
  let state := set_CurrentPlayer (BidWinner state) state in
  set_CurrentTrick
    (Some {| Cards := []; Leader := BidWinner state; LeadSuit := Spades; Winner := 0 |})
    state.

(** The outer [for { ... }] of [processPendingDiscards], unrolled [fuel]
    times; [None] when the fuel runs out before the loop is left. *)
Fixpoint pendingLoop (fuel : nat) (state : GameState) : option Outcome :=
  match fuel with
  | O => None
  | S fuel' =>
      match pendingPass state with
      | PassReturn state => Some (Done state)
      | PassPanic => Some Panicked
      | PassAllDone state => Some (Done (startPlaying state))
      | PassBreak state => pendingLoop fuel' state
      end
  end.

(** [processPendingDiscards] returns nothing: [Done] carries the record it
    leaves.  Five passes are enough on every record
    ([pendingLoop_total]), so the last branch is never taken. *)
Definition processPendingDiscards (state : GameState) : Outcome :=
  match pendingLoop 5 state with
  | Some r => r
  | None => Panicked
  end.

Definition applyDiscard (state : GameState) (action : Action) : Outcome :=
  if negb (Phase_eqb (Phase state) PhaseKitty) then Failed ErrInvalidAction state
  else if negb (PlayerIndex action =? BidWinner state) then Failed ErrNotYourTurn state
  else
    match Trump state with
    | None => Failed (ErrNew "must select trump before discarding") state
    | Some _ =>
        if len (Kitty state) >? 0
        then Failed (ErrNew "must take cards from kitty first") state
        else
          index! _ <- get4 (PlayerIndex action) (Players state);
          match discardLoop (ids (CardIDs action)) (PlayerIndex action) state with
          | Done state =>
              match get4 (PlayerIndex action) (Players state) with
              | Some (Some player) =>
                  if len (Hand player) >? 6 then Failed ErrMustDiscardToSix state
                  else
                    index! state <-
                      (if (len (Hand player) <? 6)
                          && (match Deck state with Some _ => true | None => false end)
                       then
                         let needed := 6 - len (Hand player) in
                         match DeckDeal needed state with
                         | Some (newCards, state) =>
                             setPlayer (PlayerIndex action)
                                       (set_Hand (Hand player ++ newCards) player) state
                         | None => None
                         end
                       else Some state);
                    let state := set_Kitty [] state in
                    let state := set_Phase PhaseDiscard state in
                    let state := set_CurrentPlayer (PlayerAfterDealer state) state in
                    let state := set_DiscardComplete (fill4 false) state in
                    let state := set_PendingDiscards (fill4 None) state in
                    index! dc <- set4 (BidWinner state) true (DiscardComplete state);
                    let state := set_DiscardComplete dc state in
                    if CurrentPlayer state =? BidWinner state
                    then processPendingDiscards state
                    else Done state
              | _ => Panicked   (* player is nil *)
              end
          | other => other
          end
    end.

Definition applyDiscardDraw (state : GameState) (action : Action) : Outcome :=
  if negb (Phase_eqb (Phase state) PhaseDiscard) then Failed ErrInvalidAction state
  else
    index! complete <- get4 (PlayerIndex action) (DiscardComplete state);
    if complete then Failed (ErrNew "already completed discard") state
    else if negb (PlayerIndex action =? CurrentPlayer state) then
      index! pd <- set4 (PlayerIndex action) (CardIDs action) (PendingDiscards state);
      Done (set_PendingDiscards pd state)
    else
      match processDiscard state (PlayerIndex action) (ids (CardIDs action)) with
      | Done state => processPendingDiscards state
      | other => other
      end.

(** [determineTrickWinner]: the loop from the second card on keeps the
    index and the card that wins so far. *)
Fixpoint winnerScan (cards : list TrickCard) (i : nat) (trump leadSuit : Suit)
         (winningIdx : nat) (winningCard : Card) : nat :=
  match cards with
  | [] => winningIdx
  | tc :: rest =>
      if Beats (TC_Card tc) winningCard trump leadSuit
      then winnerScan rest (S i) trump leadSuit i (TC_Card tc)
      else winnerScan rest (S i) trump leadSuit winningIdx winningCard
  end.

Definition determineTrickWinner (trick : Trick) (trump : Suit) : Z :=
  match Cards trick with
  | [] => Leader trick
  | first :: rest =>
      let winningIdx := winnerScan rest 1 trump (LeadSuit trick) 0 (TC_Card first) in
      TC_PlayerIndex (nth winningIdx (Cards trick) first)
  end.

Definition set_Cards (v : list TrickCard) (t : Trick) : Trick :=
  mkTrick v (Leader t) (LeadSuit t) (Winner t).
Definition set_LeadSuit (v : Suit) (t : Trick) : Trick :=
  mkTrick (Cards t) (Leader t) v (Winner t).
Definition set_Winner (v : Z) (t : Trick) : Trick :=
  mkTrick (Cards t) (Leader t) (LeadSuit t) v.

(** The hand scan of [applyPlayCard] that decides whether the seat can
    follow the lead. *)
Definition hasLeadSuitIn (hand : list Card) (trump leadSuit : Suit) : bool :=
  let trumpLed := Suit_eqb leadSuit trump in
  existsb (fun c =>
             if trumpLed then IsTrump c trump
             else Suit_eqb (CSuit c) leadSuit && negb (IsTrump c trump)) hand.

(** [for _, tc := range trick.Cards { CardsWon[team] = append(CardsWon[team], tc.Card) }] *)
Definition creditCards (team : Z) (cards : list TrickCard) (state : GameState)
  : option GameState :=
  match get2 team (CardsWon state) with
  | Some pile =>
      match set2 team (pile ++ map TC_Card cards) (CardsWon state) with
      | Some cw => Some (set_CardsWon cw state)
      | None => None
      end
  | None => None
  end.

Definition applyPlayCard (state : GameState) (action : Action) : Outcome :=
  if negb (Phase_eqb (Phase state) PhasePlaying) then Failed ErrInvalidAction state
  else if negb (PlayerIndex action =? CurrentPlayer state) then Failed ErrNotYourTurn state
  else
    match get4 (PlayerIndex action) (Players state) with
    | Some (Some player) =>
        match findCard (CardID action) (Hand player) with
        | None => Failed ErrCardNotInHand state
        | Some (cardIdx, playedCard) =>
            index! trump <- Trump state;
            let playedIsTrump := IsTrump playedCard trump in
            index! trick <- CurrentTrick state;
            (* the first card of the trick establishes the lead suit *)
            let trick :=
              if len (Cards trick) =? 0
              then set_LeadSuit (if playedIsTrump then trump else CSuit playedCard) trick
              else trick in
            let state := set_CurrentTrick (Some trick) state in
            let leadSuit := LeadSuit trick in
            let trumpLed := Suit_eqb leadSuit trump in
            let hasLeadSuit := hasLeadSuitIn (Hand player) trump leadSuit in
            if (len (Cards trick) >? 0)
               && (if trumpLed then negb playedIsTrump && hasLeadSuit
                   else if hasLeadSuit
                        then (negb (Suit_eqb (CSuit playedCard) leadSuit)
                              && negb playedIsTrump)
                             || playedIsTrump
                        else false)
            then Failed ErrMustFollowSuit state
            else
              let trick :=
                set_Cards (Cards trick ++ [mkTrickCard playedCard (PlayerIndex action)])
                          trick in
              let state := set_CurrentTrick (Some trick) state in
              index! state <-
                setPlayer (PlayerIndex action)
                          (set_Hand (removeAt cardIdx (Hand player)) player) state;
              if len (Cards trick) =? 4 then
                let winner := determineTrickWinner trick trump in
                let trick := set_Winner winner trick in
                let state := set_CurrentTrick (Some trick) state in
                let state := set_TricksPlayed (int_add (TricksPlayed state) 1) state in
                let completedTrick := mkCompletedTrick (Cards trick) winner in
                let state :=
                  set_CompletedTricks (CompletedTricks state ++ [completedTrick]) state in
                let winningTeam := GetTeamForPlayer winner in
                index! state <- creditCards winningTeam (Cards trick) state;
                let state := set_LastTrick (Some trick) state in
                if TricksPlayed state =? 6 then
                  Done (set_Phase PhaseScoring state)
                else
                  let state :=
                    set_CurrentTrick
                      (Some {| Cards := []; Leader := winner;
                               LeadSuit := Spades; Winner := 0 |}) state in
                  Done (set_CurrentPlayer winner state)
              else
                Done (set_CurrentPlayer (NextPlayer (CurrentPlayer state)) state)
        end
    | _ => Panicked   (* index out of range, or the player is nil *)
    end.

(** [StartNewHand]: rotate the dealer and deal again. *)
Definition StartNewHand (rnd : Entropy) (state : GameState) : Outcome :=
  let state := set_Dealer (NextPlayer (Dealer state)) state in
  let state := set_Deck (Some (Shuffle (draw rnd) NewDeck)) state in
  index! state <- dealHands [0; 1; 2; 3] state;
  index! dealt <- DeckDeal 6 state;
  let '(kitty, state) := dealt in
  let state := set_Kitty kitty state in
  let state := set_Phase PhaseBidding state in
  let state := set_CurrentPlayer (PlayerAfterDealer state) state in
  let state := set_Bids [] state in
  let state := set_Trump None state in
  let state := set_CurrentTrick None state in
  let state := set_LastTrick None state in
  let state := set_TricksPlayed 0 state in
  let state := set_CompletedTricks [] state in
  let state := set_CardsWon (mkArr2 [] []) state in
  let state := set_BidWinner (-1) state in
  let state := set_WinningBid 0 state in
  let state := set_DiscardComplete (fill4 false) state in
  let state := set_PendingDiscards (fill4 None) state in
  let state := set_TrumpBroken false state in
  Done state.

(** [CheckGameOver]: [None] is the panic on a nil team. *)
Definition CheckGameOver (state : GameState) : option (bool * Z) :=
  match b0 (Teams state), b1 (Teams state) with
  | Some t0, Some t1 =>
      if Score t0 >=? TargetScore state then Some (true, 0)
      else if Score t1 >=? TargetScore state then Some (true, 1)
      else Some (false, -1)
  | Some t0, None =>
      if Score t0 >=? TargetScore state then Some (true, 0) else None
  | None, _ => None
  end.

Definition applyChangeName (state : GameState) (action : Action) : Outcome :=
  if (PlayerIndex action <? 0) || (PlayerIndex action >? 3)
  then Failed (ErrNew "invalid seat index") state
  else
    index! seat <- get4 (PlayerIndex action) (Players state);
    match seat with
    | None => Failed ErrSeatEmpty state
    | Some p =>
        index! state <- setPlayer (PlayerIndex action) (set_Name (PlayerName action) p) state;
        Done state
    end.

Definition applyTransferHouse (state : GameState) (action : Action) : Outcome :=
  if negb (PlayerIndex action =? House state)
  then Failed (ErrNew "only the house can transfer ownership") state
  else
    let targetSeat := TargetSeat action in
    if (targetSeat <? 0) || (targetSeat >? 3)
    then Failed (ErrNew "invalid seat index") state
    else if targetSeat =? House state then Failed (ErrNew "already the house") state
    else
      index! seat <- get4 targetSeat (Players state);
      match seat with
      | Some p =>
          if negb (Connected p) || String.eqb (Name p) ""
          then Failed (ErrNew "target seat is empty or disconnected") state
          else Done (set_House targetSeat state)
      | None => Failed (ErrNew "target seat is empty or disconnected") state
      end.

Definition applyKickPlayer (state : GameState) (action : Action) : Outcome :=
  if negb (PlayerIndex action =? House state)
  then Failed (ErrNew "only the house can kick players") state
  else
    let targetSeat := TargetSeat action in
    if (targetSeat <? 0) || (targetSeat >? 3)
    then Failed (ErrNew "invalid seat index") state
    else if targetSeat =? House state then Failed (ErrNew "cannot kick yourself") state
    else
      index! seat <- get4 targetSeat (Players state);
      match seat with
      | None => Failed ErrSeatEmpty state
      | Some p =>
          if Phase_eqb (Phase state) PhaseLobby then
            index! ps <- set4 targetSeat None (Players state);
            Done (set_Players ps state)
          else
            index! state <-
              setPlayer targetSeat
                (set_SessionToken "" (set_Name "" (set_Connected false p))) state;
            Done state
      end.

Definition map4 {A B} (f : A -> B) (a : Arr4 A) : Arr4 B :=
  mkArr4 (f (a0 a)) (f (a1 a)) (f (a2 a)) (f (a3 a)).

Definition applyResetGame (state : GameState) (action : Action) : Outcome :=
  if negb (PlayerIndex action =? House state)
  then Failed (ErrNew "only the house can reset the game") state
  else
    let gamesWon0 := match b0 (Teams state) with Some t => GamesWon t | None => 0 end in
    let gamesWon1 := match b1 (Teams state) with Some t => GamesWon t | None => 0 end in
    let players := Players state in
    let targetScore := TargetScore state in
    let house := House state in
    let state := NewGameState targetScore in
    let state := set_Players players state in
    let state :=
      set_Teams
        (mkArr2 (option_map (set_GamesWon gamesWon0) (b0 (Teams state)))
                (option_map (set_GamesWon gamesWon1) (b1 (Teams state)))) state in
    let state := set_House house state in
    let state :=
      set_Players (map4 (option_map (set_Hand [])) (Players state)) state in
    Done (set_Dealer house state).

Definition ApplyAction (rnd : Entropy) (state : GameState) (action : Action) : Outcome :=
  match AType action with
  | ActionJoinSeat => applyJoinSeat rnd state action
  | ActionLeaveSeat => applyLeaveSeat state action
  | ActionChangeName => applyChangeName state action
  | ActionKickPlayer => applyKickPlayer state action
  | ActionTransferHouse => applyTransferHouse state action
  | ActionStartGame => applyStartGame rnd state action
  | ActionPlaceBid => applyPlaceBid state action
  | ActionSelectTrump => applySelectTrump state action
  | ActionTakeKitty => applyTakeKitty state action
  | ActionDiscard => applyDiscard state action
  | ActionDiscardDraw => applyDiscardDraw state action
  | ActionPlayCard => applyPlayCard state action
  | ActionResetGame => applyResetGame state action
  | ActionUnknown _ => Failed ErrInvalidAction state
  end.

(* ================================================================== *)
(** * game/scoring.go *)

Record ScoreResult := mkScoreResult {
  HighTeam : Z;
  HighCard : string;
  LowTeam : Z;
  LowCard : string;
  JackTeam : Z;
  OffJackTeam : Z;
  GameTeam : Z;
  Team0Points : Z;
  Team1Points : Z;
  BidderTeam : Z;
  SR_BidAmount : Z;
  BidMade : bool;
  Team0Change : Z;
  Team1Change : Z;
  SR_GamePoints : Arr2 Z }.

(** The variables [highCard], [highPlayer], [lowCard], [lowPlayer] of the
    High/Low scan. *)
Record HighLow := mkHighLow {
  highCard : option Card;
  highPlayer : Z;
  lowCard : option Card;
  lowPlayer : Z }.

Definition highLowStep (trump : Suit) (hl : HighLow) (tc : TrickCard) : HighLow :=
  if Suit_eqb (CSuit (TC_Card tc)) trump then
    let hl :=
      if match highCard hl with
         | None => true
         | Some h => Rank_int (CRank (TC_Card tc)) >? Rank_int (CRank h)
         end
      then mkHighLow (Some (TC_Card tc)) (TC_PlayerIndex tc) (lowCard hl) (lowPlayer hl)
      else hl in
    if match lowCard hl with
       | None => true
       | Some l => Rank_int (CRank (TC_Card tc)) <? Rank_int (CRank l)
       end
    then mkHighLow (highCard hl) (highPlayer hl) (Some (TC_Card tc)) (TC_PlayerIndex tc)
    else hl
  else hl.

Definition highLowScan (trump : Suit) (tricks : list CompletedTrick) : HighLow :=
  fold_left (fun hl trick => fold_left (highLowStep trump) (CT_Cards trick) hl)
            tricks (mkHighLow None 0 None 0).

(** The two jack scans: the inner loop stops at the first jack of [suit]
    in a trick, the outer one as soon as the team is set. *)
Definition isJackOf (suit : Suit) (tc : TrickCard) : bool :=
  Suit_eqb (CSuit (TC_Card tc)) suit && Rank_eqb (CRank (TC_Card tc)) Jack.

Fixpoint jackScan (suit : Suit) (tricks : list CompletedTrick) (team : Z) : Z :=
  match tricks with
  | [] => team
  | trick :: rest =>
      let team :=
        if existsb (isJackOf suit) (CT_Cards trick)
        then GetTeamForPlayer (CT_Winner trick) else team in
      if team >=? 0 then team else jackScan suit rest team
  end.

Definition sumGamePoints (cards : list Card) : Z :=
  fold_left (fun acc card => int_add acc (GamePoints (CRank card))) cards 0.

(** [if team == 0 { Team0Points++ } else if team == 1 { Team1Points++ }] *)
Definition award (team : Z) (pts : Z * Z) : Z * Z :=
  if team =? 0 then (int_add (fst pts) 1, snd pts)
  else if team =? 1 then (fst pts, int_add (snd pts) 1)
  else pts.

(** The part of [CalculateScore] after [trump := *state.Trump]. *)
Definition scoreHand (state : GameState) (trump : Suit) : ScoreResult :=
  let bidderTeam := GetTeamForPlayer (BidWinner state) in
  let bidAmount := WinningBid state in
  let hl := highLowScan trump (CompletedTricks state) in
  let highTeam :=
    match highCard hl with Some _ => GetTeamForPlayer (highPlayer hl) | None => -1 end in
  let highId := match highCard hl with Some c => ID c | None => "" end in
  let lowTeam :=
    match lowCard hl with Some _ => GetTeamForPlayer (lowPlayer hl) | None => -1 end in
  let lowId := match lowCard hl with Some c => ID c | None => "" end in
  let jackTeam := jackScan trump (CompletedTricks state) (-1) in
  let offSuit := OffSuit trump in
  let offJackTeam := jackScan offSuit (CompletedTricks state) (-1) in
  let gamePoints :=
    mkArr2 (sumGamePoints (b0 (CardsWon state)))
           (sumGamePoints (b1 (CardsWon state))) in
  let gameTeam :=
    if b0 gamePoints >? b1 gamePoints then 0
    else if b1 gamePoints >? b0 gamePoints then 1
    else -1 in
  let pts :=
    award gameTeam (award offJackTeam (award jackTeam (award lowTeam
      (award highTeam (0, 0))))) in
  let team0Points := fst pts in
  let team1Points := snd pts in
  let bidderTeamPoints := if bidderTeam =? 1 then team1Points else team0Points in
  let bidMade := bidderTeamPoints >=? bidAmount in
  let team0Change :=
    if bidMade then team0Points
    else if bidderTeam =? 0 then int_neg bidAmount else team0Points in
  let team1Change :=
    if bidMade then team1Points
    else if bidderTeam =? 0 then team1Points else int_neg bidAmount in
  mkScoreResult highTeam highId lowTeam lowId jackTeam offJackTeam gameTeam
                team0Points team1Points bidderTeam bidAmount bidMade
                team0Change team1Change gamePoints.

Definition CalculateScore (state : GameState) : ScoreResult :=
  match Trump state with
  | None =>
      mkScoreResult (-1) "" (-1) "" (-1) (-1) (-1) 0 0
                    (GetTeamForPlayer (BidWinner state)) (WinningBid state)
                    false 0 0 (mkArr2 0 0)
  | Some trump => scoreHand state trump
  end.

(** [ApplyScore]: [None] is the panic on a nil team. *)
Definition ApplyScore (state : GameState) (result : ScoreResult) : option GameState :=
  match b0 (Teams state), b1 (Teams state) with
  | Some t0, Some t1 =>
      Some (set_Teams
              (mkArr2 (Some (set_Score (int_add (Score t0) (Team0Change result)) t0))
                      (Some (set_Score (int_add (Score t1) (Team1Change result)) t1)))
              state)
  | _, _ => None
  end.

(* ================================================================== *)
(** * server/protocol.go *)

Inductive MessageType :=
  MsgJoinTable | MsgLeaveSeat | MsgChangeName | MsgKickPlayer | MsgTransferHouse
  | MsgStartGame | MsgPlaceBid | MsgSelectTrump | MsgTakeKitty | MsgDiscard
  | MsgDiscardDraw | MsgPlayCard | MsgRejoin | MsgNewHand | MsgResetGame
  | MsgOther (name : string).

Record ClientMessage := mkClientMessage {
  Msg_Type : MessageType;
  Msg_SeatIndex : option Z;
  Msg_PlayerName : string;
  Msg_Amount : option Z;
  Msg_CardID : string;
  Msg_CardIDs : option (list string);
  Msg_TrumpSuit : string;
  Msg_Token : string }.

(** A message of the given type with every other field absent. *)
Definition Message0 (t : MessageType) : ClientMessage :=
  mkClientMessage t None "" None "" None "" "".

Record PublicPlayer := mkPublicPlayer {
  PP_Name : string;
  PP_SeatIndex : Z;
  PP_Connected : bool;
  PP_CardCount : Z;
  PP_HasBid : bool;
  PP_DiscardReady : bool;
  PP_DiscardComplete : bool }.

Record TeamState := mkTeamState {
  TS_PlayerIndices : list Z;
  TS_Score : Z;
  TS_GamesWon : Z }.

Record TrickState := mkTrickState {
  TS_Cards : list TrickCard;
  TS_Leader : Z;
  TS_LeadSuit : string;
  TS_Winner : Z }.

Record PublicState := mkPublicState {
  PS_Phase : GamePhase;
  PS_Players : list PublicPlayer;
  PS_Teams : Arr2 TeamState;
  PS_CurrentTrick : option TrickState;
  PS_LastTrick : option TrickState;
  PS_Trump : option string;
  PS_Bids : list Bid;
  PS_Dealer : Z;
  PS_CurrentPlayer : Z;
  PS_TricksPlayed : Z;
  PS_BidWinner : Z;
  PS_WinningBid : Z;
  PS_TargetScore : Z;
  PS_KittyCount : Z;
  PS_House : Z;
  PS_TrumpBroken : bool }.

Definition publicPlayer (gs : GameState) (i : Z) (p : option Player) : PublicPlayer :=
  match p with
  | None => mkPublicPlayer "" i false 0 false false false
  | Some p =>
      mkPublicPlayer (Name p) (SeatIndex p) (Connected p) (len (Hand p))
        (existsb (fun b => Bid_PlayerIndex b =? i) (Bids gs))
        (match get4 i (PendingDiscards gs) with Some (Some _) => true | _ => false end)
        (match get4 i (DiscardComplete gs) with Some true => true | _ => false end)
  end.

Definition trickState (t : Trick) : TrickState :=
  mkTrickState (Cards t) (Leader t) (Suit_String (LeadSuit t)) (Winner t).

(** [BuildPublicState]: [None] is the panic on a nil team. *)
Definition BuildPublicState (gs : GameState) : option PublicState :=
  match b0 (Teams gs), b1 (Teams gs) with
  | Some t0, Some t1 =>
      Some {| PS_Phase := Phase gs;
              PS_Players :=
                [publicPlayer gs 0 (a0 (Players gs)); publicPlayer gs 1 (a1 (Players gs));
                 publicPlayer gs 2 (a2 (Players gs)); publicPlayer gs 3 (a3 (Players gs))];
              PS_Teams :=
                mkArr2 (mkTeamState (PlayerIndices t0) (Score t0) (GamesWon t0))
                       (mkTeamState (PlayerIndices t1) (Score t1) (GamesWon t1));
              PS_CurrentTrick := option_map trickState (CurrentTrick gs);
              PS_LastTrick := option_map trickState (LastTrick gs);
              PS_Trump := option_map Suit_String (Trump gs);
              PS_Bids := Bids gs;
              PS_Dealer := Dealer gs;
              PS_CurrentPlayer := CurrentPlayer gs;
              PS_TricksPlayed := TricksPlayed gs;
              PS_BidWinner := BidWinner gs;
              PS_WinningBid := WinningBid gs;
              PS_TargetScore := TargetScore gs;
              PS_KittyCount := len (Kitty gs);
              PS_House := House gs;
              PS_TrumpBroken := TrumpBroken gs |}
  | _, _ => None
  end.

(* ================================================================== *)
(** * server/handlers.go

    A handler runs under the server's mutex on the one shared record.
    The connection registry of [server/hub.go] enters only through the
    sending client's seat and token and, for a new game after the end of
    one, through the clients registered by seat. *)

Record Client := mkClient { Client_SeatIndex : Z; Client_Token : string }.

Definition HubSeats := Arr4 (option Client).

Definition handleJoinTable (rnd : Entropy) (state : GameState) (client : Client)
           (msg : ClientMessage) : Outcome :=
  match Msg_SeatIndex msg with
  | None => Failed ErrInvalidAction state
  | Some seatIndex =>
      let left :=
        if (Client_SeatIndex client >=? 0) && negb (Client_SeatIndex client =? seatIndex)
        then
          ApplyAction rnd state
            (mkAction ActionLeaveSeat (Client_SeatIndex client) "" 0 "" "" None 0)
        else Done state in
      match left with
      | Done state =>
          if negb (Phase_eqb (Phase state) PhaseLobby) then
            index! seat <- get4 seatIndex (Players state);
            match seat with
            | None => Failed ErrInvalidAction state
            | Some player =>
                if negb (String.eqb (Name player) "") && Connected player
                then Failed ErrSeatTaken state
                else
                  index! state <-
                    setPlayer seatIndex
                      (set_SessionToken (GenerateSessionToken rnd)
                         (set_Connected true (set_Name (Msg_PlayerName msg) player)))
                      state;
                  Done state
            end
          else
            ApplyAction rnd state
              (mkAction ActionJoinSeat seatIndex (Msg_PlayerName msg) 0 "" "" None 0)
      | other => other
      end
  end.

Definition handleLeaveSeat (rnd : Entropy) (state : GameState) (client : Client) : Outcome :=
  if Client_SeatIndex client <? 0 then Failed ErrSeatEmpty state
  else ApplyAction rnd state
         (mkAction ActionLeaveSeat (Client_SeatIndex client) "" 0 "" "" None 0).

(** The action is built with its type only: [PlayerIndex] keeps the zero
    value. *)
Definition handleStartGame (rnd : Entropy) (state : GameState) (client : Client) : Outcome :=
  ApplyAction rnd state (Action0 ActionStartGame).

Definition handlePlaceBid (rnd : Entropy) (state : GameState) (client : Client)
           (msg : ClientMessage) : Outcome :=
  if Client_SeatIndex client <? 0 then Failed ErrInvalidAction state
  else
    let bidAmount := match Msg_Amount msg with Some a => a | None => 0 end in
    ApplyAction rnd state
      (mkAction ActionPlaceBid (Client_SeatIndex client) "" bidAmount "" "" None 0).

Definition handleSelectTrump (rnd : Entropy) (state : GameState) (client : Client)
           (msg : ClientMessage) : Outcome :=
  if Client_SeatIndex client <? 0 then Failed ErrInvalidAction state
  else
    ApplyAction rnd state
      (mkAction ActionSelectTrump (Client_SeatIndex client) "" 0 ""
                (Msg_TrumpSuit msg) None 0).

Definition handleTakeKitty (rnd : Entropy) (state : GameState) (client : Client)
           (msg : ClientMessage) : Outcome :=
  if Client_SeatIndex client <? 0 then Failed ErrInvalidAction state
  else
    ApplyAction rnd state
      (mkAction ActionTakeKitty (Client_SeatIndex client) "" 0 "" ""
                (Msg_CardIDs msg) 0).

Definition handleDiscard (rnd : Entropy) (state : GameState) (client : Client)
           (msg : ClientMessage) : Outcome :=
  if Client_SeatIndex client <? 0 then Failed ErrInvalidAction state
  else
    ApplyAction rnd state
      (mkAction ActionDiscard (Client_SeatIndex client) "" 0 "" ""
                (Msg_CardIDs msg) 0).

Definition handleDiscardDraw (rnd : Entropy) (state : GameState) (client : Client)
           (msg : ClientMessage) : Outcome :=
  if Client_SeatIndex client <? 0 then Failed ErrInvalidAction state
  else
    ApplyAction rnd state
      (mkAction ActionDiscardDraw (Client_SeatIndex client) "" 0 "" ""
                (Msg_CardIDs msg) 0).

(** [handleScoring]: score the hand, then the game-over check. *)
Definition handleScoring (state : GameState) : Outcome :=
  let result := CalculateScore state in
  index! state <- ApplyScore state result;
  index! over <- CheckGameOver state;
  let '(gameOver, winningTeam) := over in
  if gameOver then
    let state := set_Phase PhaseFinished state in
    index! team <- get2 winningTeam (Teams state);
    index! team <- team;
    index! teams <-
      set2 winningTeam (Some (set_GamesWon (int_add (GamesWon team) 1) team)) (Teams state);
    Done (set_Teams teams state)
  else Done state.

Definition handlePlayCard (rnd : Entropy) (state : GameState) (client : Client)
           (msg : ClientMessage) : Outcome :=
  if Client_SeatIndex client <? 0 then Failed ErrInvalidAction state
  else
    match ApplyAction rnd state
            (mkAction ActionPlayCard (Client_SeatIndex client) "" 0 (Msg_CardID msg)
                      "" None 0) with
    | Done state =>
        if Phase_eqb (Phase state) PhaseScoring then handleScoring state
        else Done state
    | other => other
    end.

Definition seatName (i : Z) : string :=
  ("Player " ++ String (ascii_of_nat (Z.to_nat (49 + i))) "")%string.

Definition reseat (i : Z) (c : option Client) : option Player :=
  match c with
  | Some c => Some (mkPlayer (seatName i) i [] (Client_Token c) true)
  | None => None
  end.

Definition handleNewHand (rnd : Entropy) (hub : HubSeats) (state : GameState)
           (client : Client) : Outcome :=
  if negb (Phase_eqb (Phase state) PhaseScoring)
     && negb (Phase_eqb (Phase state) PhaseFinished)
  then Failed ErrInvalidAction state
  else if Phase_eqb (Phase state) PhaseFinished then
    index! t0 <- b0 (Teams state);
    index! t1 <- b1 (Teams state);
    let fresh := NewGameState (TargetScore state) in
    let fresh :=
      set_Teams
        (mkArr2 (option_map (set_GamesWon (GamesWon t0)) (b0 (Teams fresh)))
                (option_map (set_GamesWon (GamesWon t1)) (b1 (Teams fresh)))) fresh in
    Done (set_Players
            (mkArr4 (reseat 0 (a0 hub)) (reseat 1 (a1 hub))
                    (reseat 2 (a2 hub)) (reseat 3 (a3 hub))) fresh)
  else StartNewHand rnd state.

(** [handleRejoin]: the first seated player with the presented token. *)
Fixpoint rejoinScan (seats : list Z) (tok : string) (state : GameState) : Outcome :=
  match seats with
  | [] => Failed ErrRejoinFailed state
  | i :: rest =>
      match get4 i (Players state) with
      | Some (Some p) =>
          if String.eqb (SessionToken p) tok then
            index! state <- setPlayer i (set_Connected true p) state;
            Done state
          else rejoinScan rest tok state
      | _ => rejoinScan rest tok state
      end
  end.

Definition handleRejoin (state : GameState) (client : Client) (msg : ClientMessage)
  : Outcome :=
  rejoinScan [0; 1; 2; 3] (Msg_Token msg) state.

Definition HandleDisconnect (state : GameState) (client : Client) : GameState :=
  if (Client_SeatIndex client >=? 0) && (Client_SeatIndex client <? 4) then
    match get4 (Client_SeatIndex client) (Players state) with
    | Some (Some p) =>
        match setPlayer (Client_SeatIndex client) (set_Connected false p) state with
        | Some state => state
        | None => state
        end
    | _ => state
    end
  else state.

Definition handleChangeName (rnd : Entropy) (state : GameState) (client : Client)
           (msg : ClientMessage) : Outcome :=
  if Client_SeatIndex client <? 0 then Failed ErrSeatEmpty state
  else
    ApplyAction rnd state
      (mkAction ActionChangeName (Client_SeatIndex client) (Msg_PlayerName msg)
                0 "" "" None 0).

Definition handleResetGame (rnd : Entropy) (state : GameState) (client : Client) : Outcome :=
  if Client_SeatIndex client <? 0 then Failed ErrInvalidAction state
  else
    ApplyAction rnd state
      (mkAction ActionResetGame (Client_SeatIndex client) "" 0 "" "" None 0).

Definition handleKickPlayer (rnd : Entropy) (state : GameState) (client : Client)
           (msg : ClientMessage) : Outcome :=
  if Client_SeatIndex client <? 0 then Failed ErrInvalidAction state
  else
    match Msg_SeatIndex msg with
    | None => Failed ErrInvalidAction state
    | Some targetSeat =>
        ApplyAction rnd state
          (mkAction ActionKickPlayer (Client_SeatIndex client) "" 0 "" "" None targetSeat)
    end.

Definition handleTransferHouse (rnd : Entropy) (state : GameState) (client : Client)
           (msg : ClientMessage) : Outcome :=
  if Client_SeatIndex client <? 0 then Failed ErrInvalidAction state
  else
    match Msg_SeatIndex msg with
    | None => Failed ErrInvalidAction state
    | Some targetSeat =>
        ApplyAction rnd state
          (mkAction ActionTransferHouse (Client_SeatIndex client) "" 0 "" "" None
                    targetSeat)
    end.

(** [HandleMessage], the work of the handlers on the game record: the
    record after the message and the error the handler returns, if any;
    [Panicked] is a panic of the handlers' own code.  The sends that
    follow (the error reply to the sender, [broadcastState]) do not touch
    the record: they are in [deliverMessage] below, with the hub, and so
    are the panics of a send. *)
Definition HandleMessage (rnd : Entropy) (hub : HubSeats) (state : GameState)
           (client : Client) (msg : ClientMessage) : Outcome :=
  match Msg_Type msg with
  | MsgJoinTable => handleJoinTable rnd state client msg
  | MsgLeaveSeat => handleLeaveSeat rnd state client
  | MsgChangeName => handleChangeName rnd state client msg
  | MsgKickPlayer => handleKickPlayer rnd state client msg
  | MsgTransferHouse => handleTransferHouse rnd state client msg
  | MsgStartGame => handleStartGame rnd state client
  | MsgPlaceBid => handlePlaceBid rnd state client msg
  | MsgSelectTrump => handleSelectTrump rnd state client msg
  | MsgTakeKitty => handleTakeKitty rnd state client msg
  | MsgDiscard => handleDiscard rnd state client msg
  | MsgDiscardDraw => handleDiscardDraw rnd state client msg
  | MsgPlayCard => handlePlayCard rnd state client msg
  | MsgRejoin => handleRejoin state client msg
  | MsgNewHand => handleNewHand rnd hub state client
  | MsgResetGame => handleResetGame rnd state client
  | MsgOther _ => Failed (ErrNew "Unknown message type") state
  end.

(** The record a call leaves, when the process survives it. *)
Definition recordAfter (o : Outcome) : option GameState :=
  match o with
  | Done s => Some s
  | Failed _ s => Some s
  | Panicked => None
  end.

(** ** Reachable records

    The server starts from [NewGameState] and changes the record only in
    [HandleMessage] and [HandleDisconnect].  A client's seat is [-1] or a
    seat index ([SeatClient] is only called with an index that was just
    used on the [Players] array, [UnseatClient] sets [-1]). *)
Definition clientOk (c : Client) : Prop := -1 <= Client_SeatIndex c <= 3.

Inductive reachable : GameState -> Prop :=
  | reach_new : forall targetScore, reachable (NewGameState targetScore)
  | reach_message : forall rnd hub client msg s s',
      reachable s -> clientOk client ->
      recordAfter (HandleMessage rnd hub s client msg) = Some s' ->
      reachable s'
  | reach_disconnect : forall client s,
      reachable s -> clientOk client ->
      reachable (HandleDisconnect s client).

(* ================================================================== *)
(** * Notions the properties are stated with *)

(** The points a team earned in a hand: the number of the five categories
    awarded to it. *)
Definition point (team category : Z) : Z := if category =? team then 1 else 0.

Definition earnedTotal (team : Z) (r : ScoreResult) : Z :=
  point team (HighTeam r) + point team (LowTeam r) + point team (JackTeam r)
  + point team (OffJackTeam r) + point team (GameTeam r).

(** The cumulative score of a team (0 for a nil team). *)
Definition teamScore (team : Z) (s : GameState) : Z :=
  match get2 team (Teams s) with
  | Some (Some t) => Score t
  | _ => 0
  end.

(** What the follow-suit check of [applyPlayCard] rejects. *)
Definition followViolation (hand : list Card) (played : Card) (trump leadSuit : Suit)
  : bool :=
  let playedIsTrump := IsTrump played trump in
  let hasLeadSuit := hasLeadSuitIn hand trump leadSuit in
  if Suit_eqb leadSuit trump then negb playedIsTrump && hasLeadSuit
  else if hasLeadSuit
       then (negb (Suit_eqb (CSuit played) leadSuit) && negb playedIsTrump)
            || playedIsTrump
       else false.

(** A card of the lead suit, for following: a trump (the off jack
    included) when trump was led, a card of the led suit that is not the
    off jack otherwise. *)
Definition followsLead (c : Card) (trump leadSuit : Suit) : bool :=
  if Suit_eqb leadSuit trump then IsTrump c trump
  else Suit_eqb (CSuit c) leadSuit && negb (IsTrump c trump).

(** The High and Low cards are always of the trump suit itself. *)
Definition trumpSuited (trump : Suit) (hl : HighLow) : Prop :=
  (forall h, highCard hl = Some h -> CSuit h = trump)
  /\ (forall l, lowCard hl = Some l -> CSuit l = trump).

(** The number of seats that completed the discard phase. *)
Definition completeCount (s : GameState) : nat :=
  List.length (filter (fun b : bool => b) (list4 (DiscardComplete s))).

(** The records that differ from [s] at most in the fields the discard
    processing writes. *)
Definition handTouch (s s' : GameState) : Prop :=
  s' = set_PendingDiscards (PendingDiscards s')
         (set_DiscardComplete (DiscardComplete s')
            (set_Players (Players s') (set_Deck (Deck s') s))).

(** The same, with the seat to act. *)
Definition discardTouch (s s' : GameState) : Prop :=
  s' = set_CurrentPlayer (CurrentPlayer s')
         (set_PendingDiscards (PendingDiscards s')
            (set_DiscardComplete (DiscardComplete s')
               (set_Players (Players s') (set_Deck (Deck s') s)))).

(** ** The cards in play

    Cards are counted as a multiset: [cnt c l] is the number of copies of
    [c] in [l]. *)
Definition Card_eq_dec : forall a b : Card, {a = b} + {a <> b}.
Proof.
  decide equality; [decide equality | decide equality | apply string_dec].
Defined.

Definition cnt (c : Card) (l : list Card) : nat := count_occ Card_eq_dec l c.
Arguments cnt : simpl never.

Definition handOf (p : option Player) : list Card :=
  match p with Some p => Hand p | None => [] end.

Definition hands4 (ps : Arr4 (option Player)) : list Card :=
  handOf (a0 ps) ++ handOf (a1 ps) ++ handOf (a2 ps) ++ handOf (a3 ps).

Definition handsOf (s : GameState) : list Card := hands4 (Players s).

Definition deckOf (s : GameState) : list Card :=
  match Deck s with Some d => d | None => [] end.

Definition trickOf (s : GameState) : list Card :=
  match CurrentTrick s with Some t => map TC_Card (Cards t) | None => [] end.

Definition completedOf (s : GameState) : list Card :=
  flat_map (fun ct => map TC_Card (CT_Cards ct)) (CompletedTricks s).

(** Deck, hands, kitty, current trick and completed tricks of the hand. *)
Definition cardsInPlay (s : GameState) : list Card :=
  deckOf s ++ handsOf s ++ Kitty s ++ trickOf s ++ completedOf s.

(** The phases of a hand under way. *)
Definition activeHand (p : GamePhase) : bool :=
  match p with
  | PhaseBidding | PhaseKitty | PhaseDiscard | PhasePlaying => true
  | _ => false
  end.

(** ** What holds of every reachable record *)
Definition Inv (s : GameState) : Prop :=
  TrumpBroken s = false
  /\ (exists t0 t1, Teams s = mkArr2 (Some t0) (Some t1))
  /\ (Phase s = PhaseLobby -> CurrentTrick s = None)
  /\ (activeHand (Phase s) = true ->
      forall c, (cnt c (cardsInPlay s) <= cnt c NewDeck)%nat)
  /\ 0 <= Dealer s <= 3
  /\ (forall b, In b (Bids s) -> Amount b = 0 \/ 2 <= Amount b <= 6)
  /\ (Phase s = PhaseBidding ->
      len (Bids s) <= 3
      /\ CurrentPlayer s = (Dealer s + 1 + len (Bids s)) mod 4)
  /\ (len (Bids s) = 4 -> exists b, In b (Bids s) /\ 2 <= Amount b)
  /\ (Phase s = PhaseBidding -> forall c, cnt c (cardsInPlay s) = cnt c NewDeck).

(** The amount [applyPlaceBid] records for a request. *)
Definition recordedAmount (s : GameState) (a : Action) : Z :=
  if (PlayerIndex a =? Dealer s)
     && ((len (Bids s) =? 3) && (fst (highBidScan (Bids s) 0 0) =? 0))
     && (BidAmount a =? 0)
  then 2 else BidAmount a.

(** The hands held at the given seats. *)
Definition seatHands (ps : Arr4 (option Player)) (seats : list Z) : list Card :=
  flat_map (fun i => match get4 i ps with Some p => handOf p | None => [] end) seats.

(* ================================================================== *)
(** * Worked examples

    Concrete tables the properties are evaluated on. *)

(** A generator whose draw for position [i] is [i]: the shuffle leaves
    the deck in the order of [NewDeck]. *)
Definition rnd0 : Entropy := mkEntropy (fun i => i) "token".

Definition noHub : HubSeats := fill4 None.

Definition clientAt (i : Z) : Client := mkClient i "token".

Definition joinMsg (i : Z) : ClientMessage :=
  mkClientMessage MsgJoinTable (Some i) "player" None "" None "" "".

Definition bidMsg (amount : Z) : ClientMessage :=
  mkClientMessage MsgPlaceBid None "" (Some amount) "" None "" "".

Definition takeKittyMsg (cardIDs : list string) : ClientMessage :=
  mkClientMessage MsgTakeKitty None "" None "" (Some cardIDs) "" "".

(** The record after a sequence of messages, each with its sender. *)
Fixpoint runMessages (s : GameState) (msgs : list (Client * ClientMessage))
  : option GameState :=
  match msgs with
  | [] => Some s
  | (client, msg) :: rest =>
      match recordAfter (HandleMessage rnd0 noHub s client msg) with
      | Some s' => runMessages s' rest
      | None => None
      end
  end.

Definition orLobby (o : option GameState) : GameState :=
  match o with Some s => s | None => NewGameState 52 end.

(** Four players seated, seat 0 first: seat 0 is the house and the dealer. *)
Definition seatedTable : GameState :=
  Eval vm_compute in
    orLobby (runMessages (NewGameState 52)
               [(clientAt (-1), joinMsg 0); (clientAt (-1), joinMsg 1);
                (clientAt (-1), joinMsg 2); (clientAt (-1), joinMsg 3)]).

(** Four players seated, seat 1 first: seat 1 is the house and the dealer. *)
Definition seatedHouse1 : GameState :=
  Eval vm_compute in
    orLobby (runMessages (NewGameState 52)
               [(clientAt (-1), joinMsg 1); (clientAt (-1), joinMsg 0);
                (clientAt (-1), joinMsg 2); (clientAt (-1), joinMsg 3)]).

(** The game started from [seatedTable] and the four bids placed: three
    passes and the pass of the dealer.  Phase kitty, bid winner seat 0. *)
Definition kittyTable : GameState :=
  Eval vm_compute in
    orLobby (runMessages seatedTable
               [(clientAt 0, Message0 MsgStartGame);
                (clientAt 1, bidMsg 0); (clientAt 2, bidMsg 0);
                (clientAt 3, bidMsg 0); (clientAt 0, bidMsg 0)]).

(** The bid winner passes on the whole kitty. *)
Definition kittyPassedTable : GameState :=
  Eval vm_compute in
    orLobby (runMessages kittyTable [(clientAt 0, takeKittyMsg [])]).

(** A request for a card of the kitty followed by a card that is not in
    it. *)
Definition takeKingThenBogus : Action :=
  mkAction ActionTakeKitty 0 "" 0 "" "" (Some ["king_hearts"; "no_such_card"]) 0.

Definition selectTrumpMsg (suit : string) : ClientMessage :=
  mkClientMessage MsgSelectTrump None "" None "" None suit "".

(** The kitty passed on and spades chosen as trump: the bid winner may
    now discard. *)
Definition trumpChosenTable : GameState :=
  Eval vm_compute in
    orLobby (runMessages kittyPassedTable [(clientAt 0, selectTrumpMsg "spades")]).

(** A discard of a card of the hand followed by a card that is not in
    it. *)
Definition discardTwoThenBogus : Action :=
  mkAction ActionDiscard 0 "" 0 "" "" (Some ["2_spades"; "no_such_card"]) 0.

(** The hand sizes by seat. *)
Definition handSizes (s : GameState) : list Z :=
  map (fun p => len (handOf p)) (list4 (Players s)).

(** A table in the middle of a trick: trump spades, seat 0 led the seven
    of clubs, seat 1 is to act and holds the five of clubs, the jack of
    clubs (the off jack) and the two of hearts. *)
Definition examplePlayer (i : Z) (hand : list Card) : option Player :=
  Some (mkPlayer "player" i hand "token" true).

Definition midTrickTable : GameState :=
  {| Phase := PhasePlaying;
     Players :=
       mkArr4 (examplePlayer 0 [NewCard Spades Ace])
              (examplePlayer 1 [NewCard Clubs Five; NewCard Clubs Jack; NewCard Hearts Two])
              (examplePlayer 2 [NewCard Diamonds Two; NewCard Diamonds Three])
              (examplePlayer 3 [NewCard Hearts Nine; NewCard Hearts Ten]);
     Teams := mkArr2 (Some (mkTeam [0; 2] 0 0)) (Some (mkTeam [1; 3] 0 0));
     Deck := Some [];
     CurrentTrick :=
       Some {| Cards := [mkTrickCard (NewCard Clubs Seven) 0];
               Leader := 0; LeadSuit := Clubs; Winner := 0 |};
     LastTrick := None;
     Trump := Some Spades;
     Bids := [mkBid 1 0; mkBid 2 0; mkBid 3 0; mkBid 0 2];
     Dealer := 0;
     CurrentPlayer := 1;
     TricksPlayed := 0;
     BidWinner := 0;
     WinningBid := 2;
     TargetScore := 52;
     House := 0;
     Kitty := [];
     DiscardComplete := fill4 true;
     PendingDiscards := fill4 None;
     CompletedTricks := [];
     CardsWon := mkArr2 [] [];
     TrumpBroken := false |}.

Definition playMsgAction (seat : Z) (cardID : string) : Action :=
  mkAction ActionPlayCard seat "" 0 cardID "" None 0.

(** The same table with the trick not yet begun and seat 1 to lead. *)
Definition leadTable : GameState :=
  set_CurrentTrick
    (Some {| Cards := []; Leader := 1; LeadSuit := Spades; Winner := 0 |})
    midTrickTable.

(** A hand that is over: trump spades, seat 0 bid 4.  Seat 0 played the
    ace of spades (High) and won the trick with the jack of spades; seat 1
    played the two of spades (Low); the off jack was not played; team 0
    captured 21 game points and team 1 captured 9. *)
Definition trickOf4 (c0 c1 c2 c3 : Card) (winner : Z) : CompletedTrick :=
  mkCompletedTrick
    [mkTrickCard c0 0; mkTrickCard c1 1; mkTrickCard c2 2; mkTrickCard c3 3] winner.

Definition scoredTricks : list CompletedTrick :=
  [trickOf4 (NewCard Spades Ace) (NewCard Spades Two)
            (NewCard Spades Jack) (NewCard Hearts Ten) 0;
   trickOf4 (NewCard Hearts King) (NewCard Clubs Three)
            (NewCard Diamonds King) (NewCard Clubs Four) 2;
   trickOf4 (NewCard Diamonds Five) (NewCard Hearts Ace)
            (NewCard Diamonds Queen) (NewCard Clubs King) 1;
   trickOf4 (NewCard Diamonds Two) (NewCard Diamonds Three)
            (NewCard Diamonds Four) (NewCard Diamonds Seven) 3;
   trickOf4 (NewCard Hearts Two) (NewCard Hearts Three)
            (NewCard Hearts Four) (NewCard Hearts Five) 0;
   trickOf4 (NewCard Hearts Six) (NewCard Hearts Seven)
            (NewCard Hearts Eight) (NewCard Hearts Nine) 3].

Definition wonBy (team : Z) (tricks : list CompletedTrick) : list Card :=
  flat_map (fun t => if GetTeamForPlayer (CT_Winner t) =? team
                     then map TC_Card (CT_Cards t) else []) tricks.

Definition scoredTable : GameState :=
  {| Phase := PhaseScoring;
     Players := mkArr4 (examplePlayer 0 []) (examplePlayer 1 [])
                       (examplePlayer 2 []) (examplePlayer 3 []);
     Teams := mkArr2 (Some (mkTeam [0; 2] 0 0)) (Some (mkTeam [1; 3] 0 0));
     Deck := Some [];
     CurrentTrick := None;
     LastTrick := None;
     Trump := Some Spades;
     Bids := [mkBid 1 0; mkBid 2 0; mkBid 3 0; mkBid 0 4];
     Dealer := 0;
     CurrentPlayer := 0;
     TricksPlayed := 6;
     BidWinner := 0;
     WinningBid := 4;
     TargetScore := 52;
     House := 0;
     Kitty := [];
     DiscardComplete := fill4 true;
     PendingDiscards := fill4 None;
     CompletedTricks := scoredTricks;
     CardsWon := mkArr2 (wonBy 0 scoredTricks) (wonBy 1 scoredTricks);
     TrumpBroken := false |}.

(** A hand in which seat 1 played the jack of clubs, the off jack under
    trump spades, into a trick won by seat 2; the jack of spades was not
    played. *)
Definition offJackTricks : list CompletedTrick :=
  [trickOf4 (NewCard Hearts King) (NewCard Clubs Three)
            (NewCard Diamonds King) (NewCard Clubs Four) 0;
   trickOf4 (NewCard Spades Five) (NewCard Clubs Jack)
            (NewCard Spades Ace) (NewCard Hearts Ace) 2].

Definition offJackTable : GameState :=
  set_CardsWon (mkArr2 (wonBy 0 offJackTricks) (wonBy 1 offJackTricks))
    (set_CompletedTricks offJackTricks scoredTable).

(* ================================================================== *)
(** * game/card.go and game/state.go: the remaining accessors *)

(** [Deck.Remaining]: how many cards are left. *)
Definition Remaining (d : CardDeck) : Z := len d.

(** [ConnectedPlayerCount]: the seats that hold a connected player. *)
Definition ConnectedPlayerCount (g : GameState) : Z :=
  fold_left
    (fun count p =>
       match p with
       | Some p => if Connected p then int_add count 1 else count
       | None => count
       end)
    (list4 (Players g)) 0.

(* ================================================================== *)
(** * server/protocol.go: the messages of the server *)

(** The message types the server sends are constants of the same string
    type as the ones it receives. *)
Definition MsgStateUpdate : MessageType := MsgOther "stateUpdate".
Definition MsgError : MessageType := MsgOther "error".
Definition MsgScoreUpdate : MessageType := MsgOther "scoreUpdate".
Definition MsgGameOver : MessageType := MsgOther "gameOver".

Record ErrorPayload := mkErrorPayload { EP_Code : string; EP_Message : string }.

(** [YourHand] and [Kitty] are slices that are left out of the encoding
    when empty: an absent slice is the empty list. *)
Record ServerMessage := mkServerMessage {
  SM_Type : MessageType;
  SM_State : option PublicState;
  SM_YourHand : list Card;
  SM_Kitty : list Card;
  SM_YourSeat : option Z;
  SM_YourToken : string;
  SM_Error : option ErrorPayload;
  SM_ScoreResult : option ScoreResult;
  SM_WinningTeam : option Z }.

Definition NewErrorMessage (code message : string) : ServerMessage :=
  mkServerMessage MsgError None [] [] None "" (Some (mkErrorPayload code message))
                  None None.

(** [NewStateUpdateMessage]: the update sent to the client of a seat
    ([-1] for a spectator); [None] is the panic of [BuildPublicState]. *)
Definition NewStateUpdateMessage (gs : GameState) (seatIndex : Z) : option ServerMessage :=
  match BuildPublicState gs with
  | None => None
  | Some ps =>
      let msg := mkServerMessage MsgStateUpdate (Some ps) [] [] None "" None None None in
      if (seatIndex >=? 0) && (seatIndex <? 4) then
        match get4 seatIndex (Players gs) with
        | Some (Some p) =>
            let kitty :=
              if Phase_eqb (Phase gs) PhaseKitty && (seatIndex =? BidWinner gs)
              then Kitty gs else [] in
            Some (mkServerMessage MsgStateUpdate (Some ps) (Hand p) kitty
                                  (Some seatIndex) (SessionToken p) None None None)
        | _ => Some msg
        end
      else Some msg
  end.

(* ================================================================== *)
(** * Further notions and examples *)

(** The player of a seat known to be taken. *)
Definition seatPlayer (s : GameState) (i : Z) : Player :=
  match get4 i (Players s) with
  | Some (Some p) => p
  | _ => mkPlayer "" i [] "" false
  end.

(** The house kicks seat 2. *)
Definition kickSeat2 : Action := mkAction ActionKickPlayer 0 "" 0 "" "" None 2.

Definition rejoinMsg (tok : string) : ClientMessage :=
  mkClientMessage MsgRejoin None "" None "" None "" tok.

Definition chooseHearts : Action := mkAction ActionSelectTrump 0 "" 0 "" "hearts" None 0.

Definition joinSeat2 : Action := mkAction ActionJoinSeat 2 "player" 0 "" "" None 0.

(** The cards played in the completed tricks of the hand, in the order of
    play. *)
Definition playedCards (s : GameState) : list TrickCard :=
  flat_map CT_Cards (CompletedTricks s).

(** What the High/Low scan holds after the cards [seen]: nothing when no
    card of the trump suit was seen, and otherwise the highest and the
    lowest card of the trump suit seen, each with the seat that played
    it. *)
Definition highLowState (trump : Suit) (seen : list TrickCard) (hl : HighLow) : Prop :=
  ((forall tc, In tc seen -> CSuit (TC_Card tc) <> trump)
   /\ highCard hl = None /\ lowCard hl = None)
  \/ (exists hi lo,
        In hi seen /\ In lo seen
        /\ CSuit (TC_Card hi) = trump /\ CSuit (TC_Card lo) = trump
        /\ highCard hl = Some (TC_Card hi) /\ highPlayer hl = TC_PlayerIndex hi
        /\ lowCard hl = Some (TC_Card lo) /\ lowPlayer hl = TC_PlayerIndex lo
        /\ forall tc, In tc seen -> CSuit (TC_Card tc) = trump ->
                      Rank_int (CRank (TC_Card lo)) <= Rank_int (CRank (TC_Card tc))
                      <= Rank_int (CRank (TC_Card hi))).

(** ** What a seat may not see

    [eraseFor seat gs] is the record with everything removed that the
    client of [seat] is not to learn: the cards in the hands of the other
    seats (their number is kept) and their session tokens, the deck, the
    kitty unless the seat is the bid winner in the kitty phase (its size is
    kept), the ids of the pending discard selections, the completed tricks
    and the piles of cards won. *)
Definition blankCards (n : nat) : list Card := repeat (mkCard "" Spades Two) n.

Definition hidePlayer (p : Player) : Player :=
  mkPlayer (Name p) (SeatIndex p) (blankCards (List.length (Hand p))) "" (Connected p).

Definition hideSeat (seat i : Z) (p : option Player) : option Player :=
  if seat =? i then p else option_map hidePlayer p.

Definition hidePending (pd : option (list string)) : option (list string) :=
  match pd with Some _ => Some [] | None => None end.

Definition eraseFor (seat : Z) (gs : GameState) : GameState :=
  let players :=
    mkArr4 (hideSeat seat 0 (a0 (Players gs))) (hideSeat seat 1 (a1 (Players gs)))
           (hideSeat seat 2 (a2 (Players gs))) (hideSeat seat 3 (a3 (Players gs))) in
  let kitty :=
    if Phase_eqb (Phase gs) PhaseKitty && (seat =? BidWinner gs)
    then Kitty gs else blankCards (List.length (Kitty gs)) in
  set_Players players
    (set_Deck None
       (set_Kitty kitty
          (set_PendingDiscards (map4 hidePending (PendingDiscards gs))
             (set_CompletedTricks []
                (set_CardsWon (mkArr2 [] []) gs))))).

(** ** The course of a hand

    What holds of every reachable record besides [Inv]: who sits where,
    how the bids, the discards and the tricks follow the seats, and what
    was dealt. *)

(** The seat each player record names, by seat. *)
Definition seatsOf (ps : Arr4 (option Player)) : Arr4 (option Z) :=
  map4 (option_map SeatIndex) ps.

(** The seats [first], [first + 1], ... in turn, around the table. *)
Definition seatOrder (first : Z) (seats : list Z) : Prop :=
  forall k i, nth_error seats k = Some i -> i = (first + Z.of_nat k) mod 4.

(** The phases after the bidding of a hand. *)
Definition postBid (p : GamePhase) : bool :=
  match p with
  | PhaseKitty | PhaseDiscard | PhasePlaying | PhaseScoring | PhaseFinished => true
  | _ => false
  end.

(** The phases in which trump has been chosen. *)
Definition trumpChosen (p : GamePhase) : bool :=
  match p with
  | PhaseDiscard | PhasePlaying | PhaseScoring | PhaseFinished => true
  | _ => false
  end.

Definition SeatsOK (s : GameState) : Prop :=
  (Phase s <> PhaseLobby ->
   seatsOf (Players s) = mkArr4 (Some 0) (Some 1) (Some 2) (Some 3))
  /\ (forall i j, get4 i (seatsOf (Players s)) = Some (Some j) -> j = i)
  /\ -1 <= House s <= 3
  /\ (exists t0 t1, Teams s = mkArr2 (Some t0) (Some t1)
                    /\ PlayerIndices t0 = [0; 2] /\ PlayerIndices t1 = [1; 3]).

Definition BidsOK (s : GameState) : Prop :=
  (Phase s = PhaseLobby -> Bids s = [])
  /\ seatOrder (Dealer s + 1) (map Bid_PlayerIndex (Bids s))
  /\ (forall l1 b l2, Bids s = l1 ++ b :: l2 -> Amount b <> 0 ->
                      forall b', In b' l1 -> Amount b' < Amount b)
  /\ (postBid (Phase s) = true ->
      len (Bids s) = 4
      /\ 2 <= WinningBid s <= 6
      /\ 0 <= BidWinner s <= 3
      /\ In (mkBid (BidWinner s) (WinningBid s)) (Bids s)
      /\ forall b, In b (Bids s) -> Amount b <= WinningBid s)
  /\ (Phase s = PhaseKitty -> CurrentPlayer s = BidWinner s).

Definition DiscardOK (s : GameState) : Prop :=
  (trumpChosen (Phase s) = true -> Trump s <> None)
  /\ (Phase s = PhaseDiscard ->
      get4 (CurrentPlayer s) (DiscardComplete s) = Some false
      /\ get4 (BidWinner s) (DiscardComplete s) = Some true)
  /\ (Phase s <> PhaseBidding -> Phase s <> PhaseKitty -> Kitty s = []).

Definition TricksOK (s : GameState) : Prop :=
  (Phase s = PhasePlaying ->
   exists trick,
     CurrentTrick s = Some trick
     /\ len (Cards trick) <= 3
     /\ 0 <= Leader trick <= 3
     /\ seatOrder (Leader trick) (map TC_PlayerIndex (Cards trick))
     /\ CurrentPlayer s = (Leader trick + len (Cards trick)) mod 4)
  /\ TricksPlayed s = len (CompletedTricks s)
  /\ (Phase s = PhaseBidding \/ Phase s = PhaseKitty \/ Phase s = PhaseDiscard ->
      TricksPlayed s = 0)
  /\ (Phase s = PhasePlaying -> TricksPlayed s <= 5)
  /\ (Phase s = PhaseScoring \/ Phase s = PhaseFinished -> TricksPlayed s = 6)
  /\ (forall ct, In ct (CompletedTricks s) ->
                 len (CT_Cards ct) = 4
                 /\ (exists leader, 0 <= leader <= 3
                                    /\ seatOrder leader (map TC_PlayerIndex (CT_Cards ct)))
                 /\ exists tc, In tc (CT_Cards ct) /\ CT_Winner ct = TC_PlayerIndex tc)
  /\ CardsWon s = mkArr2 (wonBy 0 (CompletedTricks s)) (wonBy 1 (CompletedTricks s)).

Definition DealOK (s : GameState) : Prop :=
  Phase s = PhaseBidding ->
  handSizes s = [6; 6; 6; 6] /\ len (Kitty s) = 6 /\ len (deckOf s) = 22.

Definition Sound (s : GameState) : Prop :=
  SeatsOK s /\ BidsOK s /\ DiscardOK s /\ TricksOK s /\ DealOK s.

(** ** Tables later in a hand *)

Definition discardMsg (cardIDs : list string) : ClientMessage :=
  mkClientMessage MsgDiscard None "" None "" (Some cardIDs) "" "".

Definition discardDrawMsg (cardIDs : list string) : ClientMessage :=
  mkClientMessage MsgDiscardDraw None "" None "" (Some cardIDs) "" "".

Definition playCardMsg (cardID : string) : ClientMessage :=
  mkClientMessage MsgPlayCard None "" None cardID None "" "".

(** The game started from [seatedTable], seat 1 has bid 2 and seat 2 has
    bid 3: seat 3 is to bid. *)
Definition biddingTable : GameState :=
  Eval vm_compute in
    orLobby (runMessages seatedTable
               [(clientAt 0, Message0 MsgStartGame);
                (clientAt 1, bidMsg 2); (clientAt 2, bidMsg 3)]).

(** The bid winner of [trumpChosenTable] keeps the hand: the other seats
    may now discard, seat 1 first. *)
Definition discardTable : GameState :=
  Eval vm_compute in
    orLobby (runMessages trumpChosenTable [(clientAt 0, discardMsg [])]).

(** The three other seats keep their hands: seat 0 leads the first
    trick. *)
Definition playingTable : GameState :=
  Eval vm_compute in
    orLobby (runMessages discardTable
               [(clientAt 1, discardDrawMsg []); (clientAt 2, discardDrawMsg []);
                (clientAt 3, discardDrawMsg [])]).

(** The first trick played, won by seat 2 with the ace of trump, and the
    lead of the second. *)
Definition secondTrickTable : GameState :=
  Eval vm_compute in
    orLobby (runMessages playingTable
               [(clientAt 0, playCardMsg "2_spades"); (clientAt 1, playCardMsg "8_spades");
                (clientAt 2, playCardMsg "ace_spades"); (clientAt 3, playCardMsg "7_hearts");
                (clientAt 2, playCardMsg "2_hearts")]).

(** The hand played to the end and scored. *)
Definition handOverTable : GameState :=
  Eval vm_compute in
    orLobby (runMessages secondTrickTable
               [(clientAt 3, playCardMsg "8_hearts"); (clientAt 0, playCardMsg "3_spades");
                (clientAt 1, playCardMsg "9_spades");
                (clientAt 1, playCardMsg "10_spades"); (clientAt 2, playCardMsg "3_hearts");
                (clientAt 3, playCardMsg "9_hearts"); (clientAt 0, playCardMsg "4_spades");
                (clientAt 1, playCardMsg "jack_spades"); (clientAt 2, playCardMsg "4_hearts");
                (clientAt 3, playCardMsg "10_hearts"); (clientAt 0, playCardMsg "5_spades");
                (clientAt 1, playCardMsg "queen_spades"); (clientAt 2, playCardMsg "5_hearts");
                (clientAt 3, playCardMsg "jack_hearts"); (clientAt 0, playCardMsg "6_spades");
                (clientAt 1, playCardMsg "king_spades"); (clientAt 2, playCardMsg "6_hearts");
                (clientAt 3, playCardMsg "queen_hearts"); (clientAt 0, playCardMsg "7_spades")]).

(** The discard phase of [discardTable] with the selection of seat 2
    stored while seat 1 is to act. *)
Definition pendingTable : GameState :=
  Eval vm_compute in
    orLobby (runMessages discardTable [(clientAt 2, discardDrawMsg ["ace_spades"])]).

(** The same once seat 1 has discarded and drawn: the record on which
    [applyDiscardDraw] calls [processPendingDiscards].  Seats 0 and 1 are
    complete, seat 2 has a selection pending and seat 3 has none. *)
Definition pendingTableDrawn : GameState :=
  Eval vm_compute in
    match processDiscard pendingTable 1 ["8_spades"] with
    | Done s => s
    | _ => pendingTable
    end.

(** The record on which the procedure is called after the last seat has
    discarded and drawn: all four seats are complete. *)
Definition allDrawnTable : GameState :=
  Eval vm_compute in
    match processPendingDiscards pendingTableDrawn with
    | Done s =>
        match processDiscard s 3 [] with
        | Done s' => s'
        | _ => pendingTable
        end
    | _ => pendingTable
    end.

(* ================================================================== *)
(** * server/hub.go and the handlers on the whole server

    A client is a Go pointer: here a number, and the [Client] struct it
    points to is kept in a heap.  [Hub_Next] is the pointer the next
    connection is given. *)

Record Hub := mkHub {
  Hub_Clients : list nat;              (* the keys of the [Clients] map *)
  Hub_Seats : Arr4 (option nat);
  Hub_Heap : nat -> Client;
  Hub_Next : nat }.

Definition NewHub : Hub := mkHub [] (fill4 None) (fun _ => mkClient (-1) "") 0.

(** [if i >= 0 && i < 4 { h.Seats[i] = v }] *)
Definition setSeat (i : Z) (v : option nat) (seats : Arr4 (option nat))
  : Arr4 (option nat) :=
  if (i >=? 0) && (i <? 4) then
    match set4 i v seats with Some seats' => seats' | None => seats end
  else seats.

Definition setSeatIndex (c : nat) (i : Z) (heap : nat -> Client) : nat -> Client :=
  fun c' => if Nat.eqb c' c then mkClient i (Client_Token (heap c')) else heap c'.

Definition setToken (c : nat) (tok : string) (h : Hub) : Hub :=
  mkHub (Hub_Clients h) (Hub_Seats h)
        (fun c' => if Nat.eqb c' c then mkClient (Client_SeatIndex (Hub_Heap h c')) tok
                   else Hub_Heap h c')
        (Hub_Next h).

Definition SeatClient (h : Hub) (client : nat) (seatIndex : Z) : Hub :=
  let seats := setSeat (Client_SeatIndex (Hub_Heap h client)) None (Hub_Seats h) in
  let heap := setSeatIndex client seatIndex (Hub_Heap h) in
  mkHub (Hub_Clients h) (setSeat seatIndex (Some client) seats) heap (Hub_Next h).

Definition UnseatClient (h : Hub) (client : nat) : Hub :=
  mkHub (Hub_Clients h)
        (setSeat (Client_SeatIndex (Hub_Heap h client)) None (Hub_Seats h))
        (setSeatIndex client (-1) (Hub_Heap h))
        (Hub_Next h).

Definition GetClientBySeat (h : Hub) (seatIndex : Z) : option nat :=
  if (seatIndex >=? 0) && (seatIndex <? 4) then
    match get4 seatIndex (Hub_Seats h) with Some c => c | None => None end
  else None.

(** A new connection in main.go: a client with [SeatIndex: -1], sent to
    [Register]. *)
Definition connectClient (h : Hub) : Hub :=
  let c := Hub_Next h in
  mkHub (c :: Hub_Clients h) (Hub_Seats h)
        (fun c' => if Nat.eqb c' c then mkClient (-1) "" else Hub_Heap h c')
        (S c).

(** The [Unregister] case of [Run]. *)
Definition unregisterClient (h : Hub) (client : nat) : Hub :=
  if existsb (Nat.eqb client) (Hub_Clients h) then
    mkHub (List.remove Nat.eq_dec client (Hub_Clients h))
          (setSeat (Client_SeatIndex (Hub_Heap h client)) None (Hub_Seats h))
          (Hub_Heap h) (Hub_Next h)
  else h.

(** The [Broadcast] case of [Run] for a client whose buffer is full. *)
Definition dropClient (h : Hub) (client : nat) : Hub :=
  mkHub (List.remove Nat.eq_dec client (Hub_Clients h)) (Hub_Seats h)
        (Hub_Heap h) (Hub_Next h).

(** The clients by seat, as [handleNewHand] reads them. *)
Definition hubSeats (h : Hub) : HubSeats :=
  map4 (option_map (Hub_Heap h)) (Hub_Seats h).

Record GameServer := mkGameServer { Srv_Hub : Hub; Srv_State : GameState }.

Definition NewGameServer (hub : Hub) (targetScore : Z) : GameServer :=
  mkGameServer hub (NewGameState targetScore).

(** What a handler leaves: the server after it and the error it returned,
    or the panic. *)
Inductive Served :=
  | Replied (err : option Error) (gs : GameServer)
  | Crashed.

Definition gameOutcome (r : Served) : Outcome :=
  match r with
  | Replied None gs => Done (Srv_State gs)
  | Replied (Some e) gs => Failed e (Srv_State gs)
  | Crashed => Panicked
  end.

(** A handler that leaves the hub alone. *)
Definition onState (hub : Hub) (o : Outcome) : Served :=
  match o with
  | Done state => Replied None (mkGameServer hub state)
  | Failed e state => Replied (Some e) (mkGameServer hub state)
  | Panicked => Crashed
  end.

(** [handleJoinTable] once the client has left its old seat: the take-over
    of a seat in the middle of a game, or the join in the lobby. *)
Definition takeSeat (rnd : Entropy) (gs : GameServer) (c : nat) (msg : ClientMessage)
           (seatIndex : Z) : Served :=
  let state := Srv_State gs in
  if negb (Phase_eqb (Phase state) PhaseLobby) then
    match get4 seatIndex (Players state) with
    | None => Crashed
    | Some None => Replied (Some ErrInvalidAction) gs
    | Some (Some player) =>
        if negb (String.eqb (Name player) "") && Connected player
        then Replied (Some ErrSeatTaken) gs
        else
          let player :=
            set_SessionToken (GenerateSessionToken rnd)
              (set_Connected true (set_Name (Msg_PlayerName msg) player)) in
          match setPlayer seatIndex player state with
          | None => Crashed
          | Some state =>
              Replied None
                (mkGameServer
                   (setToken c (SessionToken player) (SeatClient (Srv_Hub gs) c seatIndex))
                   state)
          end
    end
  else
    match ApplyAction rnd state
            (mkAction ActionJoinSeat seatIndex (Msg_PlayerName msg) 0 "" "" None 0) with
    | Done state =>
        match get4 seatIndex (Players state) with
        | Some (Some p) =>
            Replied None
              (mkGameServer
                 (setToken c (SessionToken p) (SeatClient (Srv_Hub gs) c seatIndex))
                 state)
        | _ => Crashed
        end
    | Failed e state => Replied (Some e) (mkGameServer (Srv_Hub gs) state)
    | Panicked => Crashed
    end.

Definition serveJoinTable (rnd : Entropy) (gs : GameServer) (c : nat)
           (msg : ClientMessage) : Served :=
  match Msg_SeatIndex msg with
  | None => Replied (Some ErrInvalidAction) gs
  | Some seatIndex =>
      let client := Hub_Heap (Srv_Hub gs) c in
      if (Client_SeatIndex client >=? 0) && negb (Client_SeatIndex client =? seatIndex)
      then
        match ApplyAction rnd (Srv_State gs)
                (mkAction ActionLeaveSeat (Client_SeatIndex client) "" 0 "" "" None 0) with
        | Done state =>
            takeSeat rnd (mkGameServer (UnseatClient (Srv_Hub gs) c) state) c msg seatIndex
        | Failed e state => Replied (Some e) (mkGameServer (Srv_Hub gs) state)
        | Panicked => Crashed
        end
      else takeSeat rnd gs c msg seatIndex
  end.

Definition serveLeaveSeat (rnd : Entropy) (gs : GameServer) (c : nat) : Served :=
  let client := Hub_Heap (Srv_Hub gs) c in
  if Client_SeatIndex client <? 0 then Replied (Some ErrSeatEmpty) gs
  else
    match ApplyAction rnd (Srv_State gs)
            (mkAction ActionLeaveSeat (Client_SeatIndex client) "" 0 "" "" None 0) with
    | Done state => Replied None (mkGameServer (UnseatClient (Srv_Hub gs) c) state)
    | Failed e state => Replied (Some e) (mkGameServer (Srv_Hub gs) state)
    | Panicked => Crashed
    end.

Definition serveKickPlayer (rnd : Entropy) (gs : GameServer) (c : nat)
           (msg : ClientMessage) : Served :=
  let client := Hub_Heap (Srv_Hub gs) c in
  if Client_SeatIndex client <? 0 then Replied (Some ErrInvalidAction) gs
  else
    match Msg_SeatIndex msg with
    | None => Replied (Some ErrInvalidAction) gs
    | Some targetSeat =>
        match ApplyAction rnd (Srv_State gs)
                (mkAction ActionKickPlayer (Client_SeatIndex client) "" 0 "" "" None
                          targetSeat) with
        | Done state =>
            let hub :=
              match GetClientBySeat (Srv_Hub gs) targetSeat with
              | Some kickedClient => UnseatClient (Srv_Hub gs) kickedClient
              | None => Srv_Hub gs
              end in
            Replied None (mkGameServer hub state)
        | Failed e state => Replied (Some e) (mkGameServer (Srv_Hub gs) state)
        | Panicked => Crashed
        end
    end.

Fixpoint serveRejoinScan (seats : list Z) (gs : GameServer) (c : nat) (tok : string)
  : Served :=
  match seats with
  | [] => Replied (Some ErrRejoinFailed) gs
  | i :: rest =>
      match get4 i (Players (Srv_State gs)) with
      | Some (Some p) =>
          if String.eqb (SessionToken p) tok then
            let hub := setToken c tok (SeatClient (Srv_Hub gs) c i) in
            match setPlayer i (set_Connected true p) (Srv_State gs) with
            | Some state => Replied None (mkGameServer hub state)
            | None => Crashed
            end
          else serveRejoinScan rest gs c tok
      | _ => serveRejoinScan rest gs c tok
      end
  end.

Definition serveRejoin (gs : GameServer) (c : nat) (msg : ClientMessage) : Served :=
  serveRejoinScan [0; 1; 2; 3] gs c (Msg_Token msg).

(** [HandleMessage] on the server: the four handlers that write to the
    hub, and the others on the game record alone. *)
Definition serveMessage (rnd : Entropy) (gs : GameServer) (c : nat)
           (msg : ClientMessage) : Served :=
  match Msg_Type msg with
  | MsgJoinTable => serveJoinTable rnd gs c msg
  | MsgLeaveSeat => serveLeaveSeat rnd gs c
  | MsgKickPlayer => serveKickPlayer rnd gs c msg
  | MsgRejoin => serveRejoin gs c msg
  | _ =>
      onState (Srv_Hub gs)
        (HandleMessage rnd (hubSeats (Srv_Hub gs)) (Srv_State gs)
                       (Hub_Heap (Srv_Hub gs) c) msg)
  end.

(** The servers the process reaches: connections come and go, and every
    message is from a client that connected.  A connection that ends is
    unregistered by [ReadPump]; [HandleDisconnect] has no caller in the
    sources. *)
Inductive serverReachable : GameServer -> Prop :=
  | server_new : forall targetScore,
      serverReachable (NewGameServer NewHub targetScore)
  | server_connect : forall gs,
      serverReachable gs ->
      serverReachable (mkGameServer (connectClient (Srv_Hub gs)) (Srv_State gs))
  | server_message : forall rnd gs c msg err gs',
      serverReachable gs -> (c < Hub_Next (Srv_Hub gs))%nat ->
      serveMessage rnd gs c msg = Replied err gs' ->
      serverReachable gs'
  | server_unregister : forall gs c,
      serverReachable gs -> (c < Hub_Next (Srv_Hub gs))%nat ->
      serverReachable (mkGameServer (unregisterClient (Srv_Hub gs) c) (Srv_State gs))
  | server_drop : forall gs c,
      serverReachable gs -> (c < Hub_Next (Srv_Hub gs))%nat ->
      serverReachable (mkGameServer (dropClient (Srv_Hub gs) c) (Srv_State gs)).

(** The registry agrees with the clients: every client that connected has
    seat index -1 or a seat, and the client registered at a seat has that
    seat. *)
Definition HubOK (h : Hub) : Prop :=
  (forall c, (c < Hub_Next h)%nat -> clientOk (Hub_Heap h c))
  /\ (forall i c, get4 i (Hub_Seats h) = Some (Some c) ->
        (c < Hub_Next h)%nat /\ Client_SeatIndex (Hub_Heap h c) = i).

(** A new server with one connection, and the same after the client has
    taken seat 0. *)
Definition connectedServer : GameServer :=
  mkGameServer (connectClient NewHub) (NewGameState 52).

Definition oneSeatedServer : GameServer :=
  match serveMessage rnd0 connectedServer 0%nat (joinMsg 0) with
  | Replied _ gs => gs
  | Crashed => connectedServer
  end.

(* ------------------------------------------------------------------ *)
(** ** The sends of the server

    Every client has a [Send] channel.  It is open when the client
    connects; [Hub.Run] closes it when the client is unregistered and
    when a broadcast finds its buffer full.  A send on a closed channel
    panics, also inside a [select] with a [default], and nothing in the
    sources recovers from a panic: the process ends.  A send on an open
    channel queues the message or, when the buffer is full, drops it.

    [Live_Closed] tells the clients whose channel is closed.  A call of a
    handler and a case of [Hub.Run] are one step each, as under the two
    mutexes. *)





















(* ================================================================== *)
(** * Basic facts *)

Lemma Suit_eqb_eq : forall a b, Suit_eqb a b = true <-> a = b.
Proof. intros [] []; simpl; split; intro H; congruence. Qed.

Lemma Suit_eqb_neq : forall a b, Suit_eqb a b = false <-> a <> b.
Proof. intros [] []; simpl; split; intro H; congruence. Qed.

Lemma Suit_eqb_refl : forall a, Suit_eqb a a = true.
Proof. intros []; reflexivity. Qed.

Lemma Rank_eqb_eq : forall a b, Rank_eqb a b = true <-> a = b.
Proof. intros [] []; unfold Rank_eqb; simpl; split; intro H; congruence. Qed.

Lemma Phase_eqb_eq : forall a b, Phase_eqb a b = true <-> a = b.
Proof. intros [] []; simpl; split; intro H; congruence. Qed.

Lemma Phase_eqb_refl : forall a, Phase_eqb a a = true.
Proof. intros []; reflexivity. Qed.

Lemma OffSuit_neq : forall s, OffSuit s <> s.
Proof. intros []; discriminate. Qed.

Lemma OffSuit_involutive : forall s, OffSuit (OffSuit s) = s.
Proof. intros []; reflexivity. Qed.

Lemma Q_gtb_lt : forall a b : Q, Q_gtb a b = true <-> (b < a)%Q.
Proof.
  intros a b. unfold Q_gtb. rewrite negb_true_iff.
  split; intro H.
  - apply Qnot_le_lt. intro Hle. apply Qle_bool_iff in Hle. congruence.
  - destruct (Qle_bool a b) eqn:E; [|reflexivity].
    apply Qle_bool_iff in E. exfalso. exact (Qlt_not_le _ _ H E).
Qed.

(* ================================================================== *)
(** * Card ranking *)

(** The off jack is a trump. *)
Lemma IsOffJack_IsTrump : forall c trump, IsOffJack c trump = true -> IsTrump c trump = true.
Proof.
  intros c trump H. unfold IsOffJack in H. unfold IsTrump.
  rewrite H. destruct (Suit_eqb (CSuit c) trump); reflexivity.
Qed.

Lemma trump_suit_not_off_jack :
  forall c trump, CSuit c = trump -> IsOffJack c trump = false.
Proof.
  intros c trump H. unfold IsOffJack. rewrite H.
  destruct (Suit_eqb trump (OffSuit trump)) eqn:E.
  - apply Suit_eqb_eq in E. symmetry in E. now apply OffSuit_neq in E.
  - apply andb_false_r.
Qed.

(** C8: [Beats] is true when only the first card is trump, false when only
    the second is; between two trumps it compares the trump-order keys;
    between two non-trumps of one suit it compares the ranks; between two
    non-trumps of different suits it is true exactly when the first is of
    the lead suit.  The key of the off jack (21/2) lies strictly between
    the keys of the ten and the jack of the trump suit. *)
Theorem Beats_spec :
  forall (a b : Card) (trump lead : Suit),
    (IsTrump a trump = true -> IsTrump b trump = false ->
     Beats a b trump lead = true)
    /\ (IsTrump a trump = false -> IsTrump b trump = true ->
        Beats a b trump lead = false)
    /\ (IsTrump a trump = true -> IsTrump b trump = true ->
        (Beats a b trump lead = true <-> (TrumpRank b trump < TrumpRank a trump)%Q))
    /\ (IsTrump a trump = false -> IsTrump b trump = false -> CSuit a = CSuit b ->
        (Beats a b trump lead = true <-> Rank_int (CRank b) < Rank_int (CRank a)))
    /\ (IsTrump a trump = false -> IsTrump b trump = false -> CSuit a <> CSuit b ->
        (Beats a b trump lead = true <-> CSuit a = lead))
    /\ (forall offJack jack ten : Card,
           IsOffJack offJack trump = true ->
           CSuit jack = trump -> CRank jack = Jack ->
           CSuit ten = trump -> CRank ten = Ten ->
           (TrumpRank ten trump < TrumpRank offJack trump)%Q
           /\ (TrumpRank offJack trump < TrumpRank jack trump)%Q).
Proof.
  intros a b trump lead. unfold Beats.
  split; [|split; [|split; [|split; [|split]]]].
  - intros Ha Hb. rewrite Ha, Hb. reflexivity.
  - intros Ha Hb. rewrite Ha, Hb. reflexivity.
  - intros Ha Hb. rewrite Ha, Hb. simpl. apply Q_gtb_lt.
  - intros Ha Hb Hs. rewrite Ha, Hb. simpl.
    rewrite Hs, Suit_eqb_refl. lia.
  - intros Ha Hb Hs. rewrite Ha, Hb. simpl.
    apply Suit_eqb_neq in Hs. rewrite Hs.
    destruct (Suit_eqb (CSuit a) lead) eqn:E.
    + apply Suit_eqb_eq in E. tauto.
    + apply Suit_eqb_neq in E. split; [discriminate | tauto].
  - intros offJack jack ten Hoj Hjs Hjr Hts Htr.
    unfold TrumpRank. rewrite Hoj.
    rewrite (trump_suit_not_off_jack ten Hts), Htr.
    rewrite (trump_suit_not_off_jack jack Hjs), Hjr.
    split; reflexivity.
Qed.

Lemma Beats_spec_witness :
  let a := NewCard Clubs Jack in
  let b := NewCard Spades Ten in
  Beats a b Spades Hearts = true
  /\ Beats (NewCard Spades Jack) a Spades Hearts = true
  /\ Beats (NewCard Hearts Two) (NewCard Diamonds Ace) Spades Hearts = true.
Proof.
  intros a b.
  destruct (Beats_spec a b Spades Hearts) as (_ & _ & Hab & _).
  destruct (Beats_spec (NewCard Spades Jack) a Spades Hearts) as (_ & _ & Hja & _).
  destruct (Beats_spec (NewCard Hearts Two) (NewCard Diamonds Ace) Spades Hearts)
    as (_ & _ & _ & _ & Hd & _).
  split; [|split].
  - apply Hab; reflexivity.
  - apply Hja; reflexivity.
  - apply Hd; [reflexivity | reflexivity | discriminate | reflexivity].
Defined.

(* ================================================================== *)
(** * Scoring *)

Lemma wrap_small : forall z, min_int <= z <= max_int -> wrap z = z.
Proof.
  intros z H. unfold wrap, min_int, max_int in *.
  rewrite Z.mod_small; lia.
Qed.

Lemma int_add_small : forall a b, min_int <= a + b <= max_int -> int_add a b = a + b.
Proof. intros. unfold int_add. now apply wrap_small. Qed.

Lemma int_neg_small : forall a, min_int <= - a <= max_int -> int_neg a = - a.
Proof. intros. unfold int_neg. now apply wrap_small. Qed.

Lemma GetTeamForPlayer_cases : forall i, GetTeamForPlayer i = 0 \/ GetTeamForPlayer i = 1.
Proof. intro i. unfold GetTeamForPlayer. destruct ((i =? 0) || (i =? 2)); auto. Qed.

Lemma award_points :
  forall team p0 p1, 0 <= p0 <= 10 -> 0 <= p1 <= 10 ->
    award team (p0, p1) = (p0 + point 0 team, p1 + point 1 team).
Proof.
  intros team p0 p1 H0 H1. unfold award, point. simpl fst. simpl snd.
  destruct (team =? 0) eqn:E0.
  - apply Z.eqb_eq in E0. subst team. simpl.
    rewrite int_add_small by (unfold min_int, max_int; lia).
    f_equal. lia.
  - destruct (team =? 1) eqn:E1.
    + rewrite int_add_small by (unfold min_int, max_int; lia).
      f_equal. lia.
    + f_equal; lia.
Qed.

Lemma point_range : forall team c, 0 <= point team c <= 1.
Proof. intros. unfold point. destruct (c =? team); lia. Qed.

(** The two point totals of the result are the numbers of categories
    awarded to each team. *)
Lemma scoreHand_points :
  forall s trump,
    Team0Points (scoreHand s trump) = earnedTotal 0 (scoreHand s trump)
    /\ Team1Points (scoreHand s trump) = earnedTotal 1 (scoreHand s trump).
Proof.
  intros s trump. unfold earnedTotal. unfold scoreHand. cbv zeta. simpl.
  set (h := match highCard _ with Some _ => _ | None => _ end).
  set (l := match lowCard _ with Some _ => _ | None => _ end).
  set (j := jackScan trump _ _).
  set (o := jackScan (OffSuit trump) _ _).
  set (g := if _ >? _ then 0 else _).
  pose proof (point_range 0 h). pose proof (point_range 0 l).
  pose proof (point_range 0 j). pose proof (point_range 0 o).
  pose proof (point_range 1 h). pose proof (point_range 1 l).
  pose proof (point_range 1 j). pose proof (point_range 1 o).
  rewrite (award_points h) by lia.
  rewrite (award_points l) by lia.
  rewrite (award_points j) by lia.
  rewrite (award_points o) by lia.
  rewrite (award_points g) by lia.
  simpl. split; lia.
Qed.

Lemma scoreHand_changes :
  forall s trump,
    let r := scoreHand s trump in
    let bidder := GetTeamForPlayer (BidWinner s) in
    let bidderPoints := if bidder =? 1 then Team1Points r else Team0Points r in
    Team0Change r =
      (if bidderPoints >=? WinningBid s then Team0Points r
       else if bidder =? 0 then int_neg (WinningBid s) else Team0Points r)
    /\ Team1Change r =
      (if bidderPoints >=? WinningBid s then Team1Points r
       else if bidder =? 0 then Team1Points r else int_neg (WinningBid s)).
Proof. intros. split; reflexivity. Qed.

Lemma earnedTotal_range : forall team r, 0 <= earnedTotal team r <= 5.
Proof.
  intros team r. unfold earnedTotal.
  pose proof (point_range team (HighTeam r)).
  pose proof (point_range team (LowTeam r)).
  pose proof (point_range team (JackTeam r)).
  pose proof (point_range team (OffJackTeam r)).
  pose proof (point_range team (GameTeam r)).
  lia.
Qed.

(** C3: when the bidding team earned at least its bid, both cumulative
    scores grow by the team's own earned total; when it earned less, the
    bidding team's score changes by minus the bid and the other team's by
    its own earned total.  Nothing keeps a score from going below zero.
    The bounds keep the 64-bit sums from wrapping. *)
Theorem setback_rule :
  forall (s : GameState) (trump : Suit) (t0 t1 : Team),
    Trump s = Some trump ->
    b0 (Teams s) = Some t0 -> b1 (Teams s) = Some t1 ->
    - 2 ^ 62 <= Score t0 <= 2 ^ 62 ->
    - 2 ^ 62 <= Score t1 <= 2 ^ 62 ->
    0 <= WinningBid s <= 2 ^ 62 ->
    let r := CalculateScore s in
    let bidder := GetTeamForPlayer (BidWinner s) in
    exists s',
      ApplyScore s r = Some s'
      /\ (WinningBid s <= earnedTotal bidder r ->
          teamScore 0 s' = teamScore 0 s + earnedTotal 0 r
          /\ teamScore 1 s' = teamScore 1 s + earnedTotal 1 r)
      /\ (earnedTotal bidder r < WinningBid s ->
          teamScore bidder s' = teamScore bidder s - WinningBid s
          /\ teamScore (1 - bidder) s'
             = teamScore (1 - bidder) s + earnedTotal (1 - bidder) r).
Proof.
  intros s trump t0 t1 Htrump Ht0 Ht1 B0 B1 Bw r bidder.
  assert (Hr : r = scoreHand s trump)
    by (unfold r, CalculateScore; now rewrite Htrump).
  destruct (scoreHand_points s trump) as [P0 P1].
  destruct (scoreHand_changes s trump) as [C0 C1].
  cbv zeta in C0, C1. fold bidder in C0, C1.
  rewrite <- Hr in P0, P1, C0, C1.
  assert (Hb : bidder = 0 \/ bidder = 1) by apply GetTeamForPlayer_cases.
  clearbody r bidder.
  pose proof (earnedTotal_range 0 r) as R0.
  pose proof (earnedTotal_range 1 r) as R1.
  unfold ApplyScore. rewrite Ht0, Ht1.
  eexists. split; [reflexivity|].
  unfold teamScore. simpl. rewrite Ht0, Ht1. simpl.
  rewrite C0, C1, P0, P1.
  assert (Hsmall : forall z, - 2 ^ 62 - 2 ^ 62 <= z <= 2 ^ 62 + 5 -> min_int <= z <= max_int).
  { intros z. unfold min_int, max_int.
    change (2 ^ 62) with 4611686018427387904.
    change (2 ^ 63) with 9223372036854775808. lia. }
  destruct Hb as [Hb | Hb]; rewrite Hb; simpl; rewrite ?Ht0, ?Ht1.
  - destruct (earnedTotal 0 r >=? WinningBid s) eqn:E; split; intro Hc; try lia.
    + rewrite !int_add_small by (apply Hsmall; lia). lia.
    + rewrite int_neg_small by (apply Hsmall; lia).
      rewrite !int_add_small by (apply Hsmall; lia). lia.
  - destruct (earnedTotal 1 r >=? WinningBid s) eqn:E; split; intro Hc; try lia.
    + rewrite !int_add_small by (apply Hsmall; lia). lia.
    + rewrite int_neg_small by (apply Hsmall; lia).
      rewrite !int_add_small by (apply Hsmall; lia). lia.
Qed.

(* ================================================================== *)
(** * Arrays and the record *)

Lemma get4_valid : forall A i (a : Arr4 A) x, get4 i a = Some x -> 0 <= i <= 3.
Proof.
  intros A i a x. unfold get4.
  destruct (i =? 0) eqn:E0; [lia|].
  destruct (i =? 1) eqn:E1; [lia|].
  destruct (i =? 2) eqn:E2; [lia|].
  destruct (i =? 3) eqn:E3; [lia|]. discriminate.
Qed.

Lemma valid_cases : forall i, 0 <= i <= 3 -> i = 0 \/ i = 1 \/ i = 2 \/ i = 3.
Proof. intros; lia. Qed.

Lemma set4_valid : forall A i (v : A) a, 0 <= i <= 3 -> exists a', set4 i v a = Some a'.
Proof.
  intros A i v a H.
  destruct (valid_cases H) as [-> | [-> | [-> | ->]]]; eexists; reflexivity.
Qed.

Lemma set4_Some_valid : forall A i (v : A) a a', set4 i v a = Some a' -> 0 <= i <= 3.
Proof.
  intros A i v a a'. unfold set4.
  destruct (i =? 0) eqn:E0; [lia|].
  destruct (i =? 1) eqn:E1; [lia|].
  destruct (i =? 2) eqn:E2; [lia|].
  destruct (i =? 3) eqn:E3; [lia|]. discriminate.
Qed.

Lemma get4_set4_same : forall A i (v : A) a a', set4 i v a = Some a' -> get4 i a' = Some v.
Proof.
  intros A i v a a' H. pose proof (set4_Some_valid _ _ _ H) as Hv.
  destruct (valid_cases Hv) as [-> | [-> | [-> | ->]]];
    inversion H; subst; reflexivity.
Qed.

Lemma get4_set4_other :
  forall A i j (v : A) a a', set4 i v a = Some a' -> i <> j -> get4 j a' = get4 j a.
Proof.
  intros A i j v a a' H Hne. pose proof (set4_Some_valid _ _ _ H) as Hv.
  unfold get4.
  destruct (valid_cases Hv) as [-> | [-> | [-> | ->]]];
    inversion H; subst; simpl;
    destruct (j =? 0) eqn:E0; try lia; try reflexivity;
    destruct (j =? 1) eqn:E1; try lia; try reflexivity;
    destruct (j =? 2) eqn:E2; try lia; try reflexivity;
    destruct (j =? 3) eqn:E3; try lia; try reflexivity.
Qed.

Lemma setPlayer_valid :
  forall i p s, 0 <= i <= 3 -> exists ps, set4 i (Some p) (Players s) = Some ps
                                          /\ setPlayer i p s = Some (set_Players ps s).
Proof.
  intros i p s H. unfold setPlayer.
  destruct (set4_valid (Some p) (Players s) H) as [ps Hps].
  exists ps. now rewrite Hps.
Qed.

Lemma len_nil_iff : forall A (l : list A), (len l =? 0) = true <-> l = [].
Proof.
  intros A l. unfold len. destruct l; simpl; split; intro H;
    try reflexivity; try discriminate; lia.
Qed.

Lemma len_pos_iff : forall A (l : list A), (len l >? 0) = true <-> l <> [].
Proof.
  intros A l. unfold len. destruct l; simpl; split; intro H.
  - discriminate H.
  - congruence.
  - discriminate.
  - reflexivity.
Qed.

Lemma len_app : forall A (l1 l2 : list A), len (l1 ++ l2) = len l1 + len l2.
Proof. intros. unfold len. rewrite length_app. lia. Qed.

Lemma set_CurrentTrick_same :
  forall s t, CurrentTrick s = Some t -> set_CurrentTrick (Some t) s = s.
Proof. intros [] t H. simpl in H. subst. reflexivity. Qed.

Lemma findCard_In : forall cid cards i c, findCard cid cards = Some (i, c) -> In c cards.
Proof.
  intros cid cards. induction cards as [|x rest IH]; intros i c H; simpl in H.
  - discriminate.
  - destruct (String.eqb (ID x) cid).
    + inversion H; subst. now left.
    + destruct (findCard cid rest) as [[j c']|] eqn:E; [|discriminate].
      inversion H; subst. right. eapply IH. reflexivity.
Qed.

Lemma findCard_split :
  forall cid cards i c,
    findCard cid cards = Some (i, c) ->
    cards = firstn i cards ++ c :: skipn (S i) cards /\ ID c = cid.
Proof.
  intros cid cards. induction cards as [|x rest IH]; intros i c H; simpl in H.
  - discriminate.
  - destruct (String.eqb (ID x) cid) eqn:Ex.
    + inversion H; subst. simpl. split; [reflexivity|]. now apply String.eqb_eq.
    + destruct (findCard cid rest) as [[j c']|] eqn:E; [|discriminate].
      inversion H; subst. destruct (IH j c eq_refl) as [Hs Hid].
      split; [|exact Hid]. simpl. f_equal. exact Hs.
Qed.

Lemma findCard_None :
  forall cid cards, findCard cid cards = None -> forall c, In c cards -> ID c <> cid.
Proof.
  intros cid cards. induction cards as [|x rest IH]; intros H c Hin; simpl in *.
  - contradiction.
  - destruct (String.eqb (ID x) cid) eqn:Ex; [discriminate|].
    destruct (findCard cid rest) as [[j c']|] eqn:E; [discriminate|].
    destruct Hin as [-> | Hin].
    + now apply String.eqb_neq.
    + now apply IH.
Qed.

(* ================================================================== *)
(** * Trick play *)


Section PlayCard.

Variables (s : GameState) (a : Action) (player : Player) (cardIdx : nat)
          (card : Card) (trump : Suit) (trick : Trick).

Hypothesis Hphase : Phase s = PhasePlaying.
Hypothesis Hturn : PlayerIndex a = CurrentPlayer s.
Hypothesis Hplayer : get4 (PlayerIndex a) (Players s) = Some (Some player).
Hypothesis Hcard : findCard (CardID a) (Hand player) = Some (cardIdx, card).
Hypothesis Htrump : Trump s = Some trump.
Hypothesis Htrick : CurrentTrick s = Some trick.

Lemma creditCards_team :
  forall i cards st, exists st', creditCards (GetTeamForPlayer i) cards st = Some st'.
Proof.
  intros i cards st. unfold creditCards.
  destruct (GetTeamForPlayer_cases i) as [-> | ->]; simpl; eexists; reflexivity.
Qed.

(** After the checks, the play itself always goes through. *)
Ltac play_through Hp :=
  match goal with
  | |- context [setPlayer ?i ?p ?st] =>
      let ps := fresh "ps" in
      let Hset := fresh "Hset" in
      destruct (setPlayer_valid p st (get4_valid _ _ Hp)) as (ps & _ & Hset);
      rewrite Hset; cbv zeta
  end;
  match goal with
  | |- context [len ?l =? 4] => destruct (len l =? 4); [|eexists; reflexivity]
  end;
  match goal with
  | |- context [creditCards (GetTeamForPlayer ?w) ?c ?st0] =>
      let st1 := fresh "st" in
      let Hc := fresh "Hc" in
      destruct (creditCards_team w c st0) as [st1 Hc]; rewrite Hc
  end;
  match goal with
  | |- context [TricksPlayed ?st =? 6] =>
      destruct (TricksPlayed st =? 6); eexists; reflexivity
  end.

(** When the trick is under way, the play is rejected exactly when
    [followViolation] holds, and the record is then left as it was. *)
Lemma applyPlayCard_following :
  Cards trick <> [] ->
  (followViolation (Hand player) card trump (LeadSuit trick) = true ->
   applyPlayCard s a = Failed ErrMustFollowSuit s)
  /\ (followViolation (Hand player) card trump (LeadSuit trick) = false ->
      exists s', applyPlayCard s a = Done s').
Proof.
  intro Hne.
  assert (H0 : (len (Cards trick) =? 0) = false).
  { destruct (len (Cards trick) =? 0) eqn:E; [|reflexivity].
    apply len_nil_iff in E. contradiction. }
  assert (Hpos : (len (Cards trick) >? 0) = true) by now apply len_pos_iff.
  unfold applyPlayCard.
  rewrite Hphase, Hturn, Z.eqb_refl. simpl.
  rewrite <- Hturn, Hplayer, Hcard, Htrump, Htrick.
  rewrite H0, Hpos. simpl.
  fold (followViolation (Hand player) card trump (LeadSuit trick)).
  split; intro Hv; rewrite Hv.
  - now rewrite set_CurrentTrick_same.
  - play_through Hplayer.
Qed.

(** The first card of a trick is never rejected and sets the lead suit:
    the trump suit when the card is a trump, its own suit otherwise. *)
Lemma applyPlayCard_leading :
  Cards trick = [] ->
  exists s' trick',
    applyPlayCard s a = Done s'
    /\ CurrentTrick s' = Some trick'
    /\ LeadSuit trick' = (if IsTrump card trump then trump else CSuit card)
    /\ Cards trick' = [mkTrickCard card (PlayerIndex a)].
Proof.
  intro Hnil.
  unfold applyPlayCard.
  rewrite Hphase, Hturn, Z.eqb_refl. simpl.
  rewrite <- Hturn, Hplayer, Hcard, Htrump, Htrick.
  rewrite Hnil. simpl. rewrite Hnil. simpl.
  match goal with
  | |- context [setPlayer ?i ?p ?st] =>
      destruct (setPlayer_valid p st (get4_valid _ _ Hplayer)) as (ps & _ & Hset);
      rewrite Hset
  end.
  simpl.
  eexists. eexists. split; [reflexivity|]. simpl. repeat split; reflexivity.
Qed.

End PlayCard.

Lemma hasLeadSuitIn_followsLead :
  forall hand trump lead,
    hasLeadSuitIn hand trump lead = existsb (fun c => followsLead c trump lead) hand.
Proof. reflexivity. Qed.

Lemma hasLeadSuitIn_true :
  forall hand trump lead c,
    In c hand -> followsLead c trump lead = true -> hasLeadSuitIn hand trump lead = true.
Proof.
  intros hand trump lead c Hin Hf. rewrite hasLeadSuitIn_followsLead.
  apply existsb_exists. now exists c.
Qed.

Lemma hasLeadSuitIn_false :
  forall hand trump lead,
    (forall c, In c hand -> followsLead c trump lead = false) ->
    hasLeadSuitIn hand trump lead = false.
Proof.
  intros hand trump lead H. rewrite hasLeadSuitIn_followsLead.
  destruct (existsb _ hand) eqn:E; [|reflexivity].
  apply existsb_exists in E. destruct E as (c & Hin & Hc).
  rewrite (H c Hin) in Hc. discriminate.
Qed.

(** C4: with a trick under way, on the turn of a seat that plays a card
    of its hand: when trump was led and the seat holds a trump (the off
    jack counts), the play is rejected with must-follow-suit exactly when
    the card is not a trump; when another suit was led and the seat holds
    a non-trump card of it, a card of another suit and any trump are
    rejected; a seat with no card of the lead suit may play any card.  A
    rejected play leaves the record as it was. *)
Theorem follow_suit_rule :
  forall (rnd : Entropy) (s : GameState) (a : Action) (player : Player)
         (cardIdx : nat) (card : Card) (trump : Suit) (trick : Trick),
    AType a = ActionPlayCard ->
    Phase s = PhasePlaying ->
    PlayerIndex a = CurrentPlayer s ->
    get4 (PlayerIndex a) (Players s) = Some (Some player) ->
    findCard (CardID a) (Hand player) = Some (cardIdx, card) ->
    Trump s = Some trump ->
    CurrentTrick s = Some trick ->
    Cards trick <> [] ->
    let lead := LeadSuit trick in
    (lead = trump ->
     (exists c, In c (Hand player) /\ IsTrump c trump = true) ->
     (IsTrump card trump = false -> ApplyAction rnd s a = Failed ErrMustFollowSuit s)
     /\ (IsTrump card trump = true -> exists s', ApplyAction rnd s a = Done s'))
    /\ (lead <> trump ->
        (exists c, In c (Hand player) /\ CSuit c = lead /\ IsTrump c trump = false) ->
        CSuit card <> lead \/ IsTrump card trump = true ->
        ApplyAction rnd s a = Failed ErrMustFollowSuit s)
    /\ ((forall c, In c (Hand player) -> followsLead c trump lead = false) ->
        exists s', ApplyAction rnd s a = Done s').
Proof.
  intros rnd s a player cardIdx card trump trick
         Hty Hphase Hturn Hplayer Hcard Htrump Htrick Hne lead.
  destruct (@applyPlayCard_following s a player cardIdx card trump trick
              Hphase Hturn Hplayer Hcard Htrump Htrick Hne) as [Hrej Hacc].
  unfold ApplyAction. rewrite Hty.
  unfold followViolation in Hrej, Hacc. fold lead in Hrej, Hacc.
  split; [|split].
  - intros Hlead (c & Hin & Hc).
    assert (Hhas : hasLeadSuitIn (Hand player) trump lead = true).
    { apply hasLeadSuitIn_true with c; [exact Hin|].
      unfold followsLead. rewrite Hlead, Suit_eqb_refl. exact Hc. }
    rewrite Hhas, Hlead, Suit_eqb_refl in Hrej, Hacc.
    split; intro Hp; rewrite Hp in Hrej, Hacc; simpl in *; auto.
  - intros Hlead (c & Hin & Hs & Hc) Hp.
    assert (Hhas : hasLeadSuitIn (Hand player) trump lead = true).
    { apply hasLeadSuitIn_true with c; [exact Hin|].
      unfold followsLead. apply Suit_eqb_neq in Hlead. rewrite Hlead.
      rewrite Hs, Suit_eqb_refl, Hc. reflexivity. }
    apply Suit_eqb_neq in Hlead. rewrite Hhas, Hlead in Hrej.
    apply Hrej.
    destruct Hp as [Hp | Hp].
    + apply Suit_eqb_neq in Hp. rewrite Hp.
      destruct (IsTrump card trump); reflexivity.
    + rewrite Hp. apply orb_true_r.
  - intros Hnone. apply Hacc.
    rewrite (hasLeadSuitIn_false _ _ _ Hnone).
    destruct (Suit_eqb lead trump); [apply andb_false_r | reflexivity].
Qed.

(* ================================================================== *)
(** * The off jack *)

Lemma isJackOf_off : forall trump tc,
    isJackOf (OffSuit trump) tc = IsOffJack (TC_Card tc) trump.
Proof. intros. unfold isJackOf, IsOffJack. apply andb_comm. Qed.

Lemma trumpSuited_set_high :
  forall trump hl c p,
    CSuit c = trump -> trumpSuited trump hl ->
    trumpSuited trump (mkHighLow (Some c) p (lowCard hl) (lowPlayer hl)).
Proof.
  intros trump hl c p Hc [Hh Hl]. split; simpl; intros x Hx.
  - inversion Hx; subst. reflexivity.
  - now apply Hl.
Qed.

Lemma trumpSuited_set_low :
  forall trump hl c p,
    CSuit c = trump -> trumpSuited trump hl ->
    trumpSuited trump (mkHighLow (highCard hl) (highPlayer hl) (Some c) p).
Proof.
  intros trump hl c p Hc [Hh Hl]. split; simpl; intros x Hx.
  - now apply Hh.
  - inversion Hx; subst. reflexivity.
Qed.

Lemma highLowStep_suited :
  forall trump hl tc, trumpSuited trump hl -> trumpSuited trump (highLowStep trump hl tc).
Proof.
  intros trump hl tc H. unfold highLowStep.
  destruct (Suit_eqb (CSuit (TC_Card tc)) trump) eqn:E; [|exact H].
  apply Suit_eqb_eq in E.
  set (hl1 := if match highCard hl with
                 | Some h => Rank_int (CRank (TC_Card tc)) >? Rank_int (CRank h)
                 | None => true
                 end
              then mkHighLow (Some (TC_Card tc)) (TC_PlayerIndex tc)
                             (lowCard hl) (lowPlayer hl)
              else hl).
  assert (H1 : trumpSuited trump hl1).
  { unfold hl1.
    destruct (match highCard hl with Some _ => _ | None => _ end);
      [now apply trumpSuited_set_high | exact H]. }
  destruct (match lowCard hl1 with Some _ => _ | None => _ end);
    [now apply trumpSuited_set_low | exact H1].
Qed.

Lemma highLowCards_suited :
  forall trump cards hl,
    trumpSuited trump hl -> trumpSuited trump (fold_left (highLowStep trump) cards hl).
Proof.
  intros trump cards. induction cards as [|tc rest IH]; intros hl H; simpl.
  - exact H.
  - apply IH. now apply highLowStep_suited.
Qed.

Lemma highLowScan_suited : forall trump tricks, trumpSuited trump (highLowScan trump tricks).
Proof.
  intros trump tricks. unfold highLowScan.
  assert (H0 : trumpSuited trump (mkHighLow None 0 None 0))
    by (split; intros x Hx; discriminate).
  revert H0. generalize (mkHighLow None 0 None 0).
  induction tricks as [|t rest IH]; intros hl H; simpl.
  - exact H.
  - apply IH. now apply highLowCards_suited.
Qed.

Lemma jackScan_found :
  forall suit before trick after,
    (forall t, In t before -> existsb (isJackOf suit) (CT_Cards t) = false) ->
    existsb (isJackOf suit) (CT_Cards trick) = true ->
    jackScan suit (before ++ trick :: after) (-1) = GetTeamForPlayer (CT_Winner trick).
Proof.
  intros suit before trick after. induction before as [|t rest IH]; intros Hb Ht; simpl.
  - rewrite Ht.
    destruct (GetTeamForPlayer_cases (CT_Winner trick)) as [-> | ->]; reflexivity.
  - rewrite (Hb t (or_introl eq_refl)). simpl.
    apply IH; [|exact Ht]. intros t' Hin. apply Hb. now right.
Qed.

Lemma jackScan_absent :
  forall suit tricks,
    (forall t, In t tricks -> existsb (isJackOf suit) (CT_Cards t) = false) ->
    jackScan suit tricks (-1) = -1.
Proof.
  intros suit tricks. induction tricks as [|t rest IH]; intros H; simpl.
  - reflexivity.
  - rewrite (H t (or_introl eq_refl)). simpl.
    apply IH. intros t' Hin. apply H. now right.
Qed.

(** C5: the off jack is a trump and leading it makes trump the lead suit;
    the High and Low cards of the scoring are cards of the trump suit
    itself, so never the off jack; and the Off-Jack point goes to the team
    of the winner of the trick that holds the off jack, while the Jack
    point is decided by the jack of the trump suit alone. *)
Theorem off_jack_handling :
  forall (trump : Suit) (offJack : Card),
    IsOffJack offJack trump = true ->
    IsTrump offJack trump = true
    /\ (forall rnd s a player cardIdx trick,
           AType a = ActionPlayCard ->
           Phase s = PhasePlaying ->
           PlayerIndex a = CurrentPlayer s ->
           get4 (PlayerIndex a) (Players s) = Some (Some player) ->
           findCard (CardID a) (Hand player) = Some (cardIdx, offJack) ->
           Trump s = Some trump ->
           CurrentTrick s = Some trick ->
           Cards trick = [] ->
           exists s' trick',
             ApplyAction rnd s a = Done s'
             /\ CurrentTrick s' = Some trick'
             /\ LeadSuit trick' = trump)
    /\ (forall tricks,
           (forall h, highCard (highLowScan trump tricks) = Some h ->
                      CSuit h = trump /\ h <> offJack)
           /\ (forall l, lowCard (highLowScan trump tricks) = Some l ->
                         CSuit l = trump /\ l <> offJack))
    /\ (forall s before trick after,
           Trump s = Some trump ->
           CompletedTricks s = before ++ trick :: after ->
           (forall t tc, In t before -> In tc (CT_Cards t) ->
                         IsOffJack (TC_Card tc) trump = false) ->
           In offJack (map TC_Card (CT_Cards trick)) ->
           let r := CalculateScore s in
           OffJackTeam r = GetTeamForPlayer (CT_Winner trick)
           /\ point (GetTeamForPlayer (CT_Winner trick)) (OffJackTeam r) = 1
           /\ ((forall t tc, In t (CompletedTricks s) -> In tc (CT_Cards t) ->
                             isJackOf trump tc = false) ->
               JackTeam r = -1)).
Proof.
  intros trump offJack Hoj.
  assert (Hsuit : CSuit offJack <> trump).
  { unfold IsOffJack in Hoj. apply andb_true_iff in Hoj. destruct Hoj as [_ Hs].
    apply Suit_eqb_eq in Hs. rewrite Hs. apply OffSuit_neq. }
  split; [now apply IsOffJack_IsTrump|].
  split; [|split].
  - intros rnd s a player cardIdx trick Hty Hphase Hturn Hplayer Hcard Htrump Htrick Hnil.
    destruct (@applyPlayCard_leading s a player cardIdx offJack trump trick
                Hphase Hturn Hplayer Hcard Htrump Htrick Hnil)
      as (s' & trick' & Hdone & Hcur & Hlead & _).
    exists s', trick'. unfold ApplyAction. rewrite Hty.
    rewrite (IsOffJack_IsTrump _ _ Hoj) in Hlead. auto.
  - intros tricks. destruct (highLowScan_suited trump tricks) as [Hh Hl].
    split; intros x Hx; (split; [auto | intros ->]).
    + apply Hsuit. now apply Hh.
    + apply Hsuit. now apply Hl.
  - intros s before trick after Htrump Htricks Hbefore Hin r.
    assert (Hoff : OffJackTeam r = GetTeamForPlayer (CT_Winner trick)).
    { unfold r, CalculateScore. rewrite Htrump. unfold scoreHand. simpl.
      rewrite Htricks. apply jackScan_found.
      - intros t Ht. destruct (existsb _ (CT_Cards t)) eqn:E; [|reflexivity].
        apply existsb_exists in E. destruct E as (tc & Htc & Hj).
        rewrite isJackOf_off in Hj. rewrite (Hbefore t tc Ht Htc) in Hj. discriminate.
      - apply existsb_exists. apply in_map_iff in Hin.
        destruct Hin as (tc & Heq & Htc). exists tc. split; [exact Htc|].
        rewrite isJackOf_off, Heq. exact Hoj. }
    split; [exact Hoff|]. split.
    + rewrite Hoff. unfold point. now rewrite Z.eqb_refl.
    + intros Hnone. unfold r, CalculateScore. rewrite Htrump. unfold scoreHand. simpl.
      apply jackScan_absent. intros t Ht.
      destruct (existsb _ (CT_Cards t)) eqn:E; [|reflexivity].
      apply existsb_exists in E. destruct E as (tc & Htc & Hj).
      rewrite (Hnone t tc Ht Htc) in Hj. discriminate.
Qed.

(* ================================================================== *)
(** * The discard phase *)

Lemma handTouch_refl : forall s, handTouch s s.
Proof. intros []. reflexivity. Qed.

Lemma handTouch_trans :
  forall s1 s2 s3, handTouch s1 s2 -> handTouch s2 s3 -> handTouch s1 s3.
Proof.
  intros s1 s2 s3 H12 H23. unfold handTouch in *.
  rewrite H23 at 1. rewrite H12 at 1. destruct s1; reflexivity.
Qed.

Lemma handTouch_Players : forall s ps, handTouch s (set_Players ps s).
Proof. intros [] ps. reflexivity. Qed.

Lemma handTouch_Deck : forall s d, handTouch s (set_Deck d s).
Proof. intros [] d. reflexivity. Qed.

Lemma handTouch_DiscardComplete : forall s dc, handTouch s (set_DiscardComplete dc s).
Proof. intros [] dc. reflexivity. Qed.

Lemma handTouch_PendingDiscards : forall s pd, handTouch s (set_PendingDiscards pd s).
Proof. intros [] pd. reflexivity. Qed.

Lemma setPlayer_eq :
  forall i p s s', setPlayer i p s = Some s' ->
                   exists ps, set4 i (Some p) (Players s) = Some ps /\ s' = set_Players ps s.
Proof.
  intros i p s s' H. unfold setPlayer in H.
  destruct (set4 i (Some p) (Players s)) as [ps|]; [|discriminate].
  inversion H. now exists ps.
Qed.

Lemma setPlayer_touch : forall i p s s', setPlayer i p s = Some s' -> handTouch s s'.
Proof.
  intros i p s s' H. apply setPlayer_eq in H. destruct H as (ps & _ & ->).
  apply handTouch_Players.
Qed.

Lemma DeckDeal_eq :
  forall n s cards s',
    DeckDeal n s = Some (cards, s') ->
    exists d, Deck s = Some d /\ cards = fst (Deal n d)
              /\ s' = set_Deck (Some (snd (Deal n d))) s.
Proof.
  intros n s cards s' H. unfold DeckDeal in H.
  destruct (Deck s) as [d|]; [|discriminate].
  exists d. destruct (Deal n d) as [c d'] eqn:E. inversion H; subst. auto.
Qed.

Lemma DeckDeal_touch :
  forall n s cards s', DeckDeal n s = Some (cards, s') -> handTouch s s'.
Proof.
  intros n s cards s' H. apply DeckDeal_eq in H. destruct H as (d & _ & _ & ->).
  apply handTouch_Deck.
Qed.

(** The discard loop writes the hand of the seat only. *)
Lemma discardLoop_Players :
  forall cardIDs seat s s',
    recordAfter (discardLoop cardIDs seat s) = Some s' ->
    s' = set_Players (Players s') s.
Proof.
  intros cardIDs seat. induction cardIDs as [|cid rest IH]; intros s s' H; simpl in H.
  - inversion H. destruct s'; reflexivity.
  - destruct (get4 seat (Players s)) as [[player|]|]; try discriminate.
    destruct (findCard cid (Hand player)) as [[idx c]|].
    + destruct (setPlayer seat _ s) as [s1|] eqn:E1; [|discriminate].
      apply setPlayer_eq in E1. destruct E1 as (ps & _ & ->).
      apply IH in H. rewrite H at 1. destruct s; reflexivity.
    + inversion H. destruct s'; reflexivity.
Qed.

Lemma discardLoop_touch :
  forall cardIDs seat s s',
    recordAfter (discardLoop cardIDs seat s) = Some s' -> handTouch s s'.
Proof.
  intros cardIDs seat s s' H. apply discardLoop_Players in H.
  rewrite H. apply handTouch_Players.
Qed.

(** What [processDiscard] does to the completion flags: on success the
    seat's flag is set and the others are kept; on an error none is
    written. *)
Lemma processDiscard_flags :
  forall s seat cardIDs,
    match processDiscard s seat cardIDs with
    | Done s' =>
        handTouch s s'
        /\ set4 seat true (DiscardComplete s) = Some (DiscardComplete s')
    | Failed _ s' => handTouch s s' /\ DiscardComplete s' = DiscardComplete s
    | Panicked => True
    end.
Proof.
  intros s seat cardIDs. unfold processDiscard.
  destruct (get4 seat (Players s)) as [seat0|]; [|exact I].
  destruct (discardLoop cardIDs seat s) as [s1|e s1|] eqn:EL; [| |exact I].
  - assert (T1 : handTouch s s1) by (apply discardLoop_touch with cardIDs seat; now rewrite EL).
    assert (F1 : DiscardComplete s1 = DiscardComplete s).
    { pose proof (discardLoop_Players cardIDs seat s) as HP. rewrite EL in HP.
      rewrite (HP s1 eq_refl). reflexivity. }
    match goal with
    | |- match (match ?e with Some _ => _ | None => _ end) with _ => _ end =>
        destruct e as [s2|] eqn:E2; [|exact I];
        assert (T2 : handTouch s1 s2 /\ DiscardComplete s2 = DiscardComplete s1)
    end.
    { destruct ((len cardIDs >? 0) && _).
      - destruct (DeckDeal (len cardIDs) s1) as [[newCards s1']|] eqn:ED; [|discriminate].
        pose proof (DeckDeal_eq _ _ ED) as (d & _ & _ & Hs1').
        destruct (get4 seat (Players s1')) as [[player|]|]; try discriminate.
        apply setPlayer_eq in E2. destruct E2 as (ps & _ & ->). subst s1'.
        split; [|reflexivity]. destruct s1; reflexivity.
      - inversion E2; subst. split; [apply handTouch_refl | reflexivity]. }
    destruct T2 as [T2 F2].
    destruct (set4 seat true (DiscardComplete s2)) as [dc|] eqn:Edc; [|exact I].
    simpl.
    destruct (set4 seat None (PendingDiscards s2)) as [pd|] eqn:Epd; [|exact I].
    split.
    + eapply handTouch_trans; [exact T1|]. eapply handTouch_trans; [exact T2|].
      destruct s2; reflexivity.
    + simpl. rewrite <- F1, <- F2. exact Edc.
  - split.
    + apply discardLoop_touch with cardIDs seat. now rewrite EL.
    + pose proof (discardLoop_Players cardIDs seat s) as HP. rewrite EL in HP.
      rewrite (HP s1 eq_refl). reflexivity.
Qed.


Lemma handTouch_CurrentPlayer : forall s s', handTouch s s' -> CurrentPlayer s' = CurrentPlayer s.
Proof. intros s s' H. unfold handTouch in H. rewrite H. reflexivity. Qed.

Lemma handTouch_discardTouch : forall s s', handTouch s s' -> discardTouch s s'.
Proof.
  intros s s' H. pose proof (handTouch_CurrentPlayer H) as Hc.
  unfold handTouch in H. unfold discardTouch.
  rewrite Hc. rewrite H at 1. destruct s; reflexivity.
Qed.

Lemma discardTouch_refl : forall s, discardTouch s s.
Proof. intros []. reflexivity. Qed.

Lemma discardTouch_trans :
  forall s1 s2 s3, discardTouch s1 s2 -> discardTouch s2 s3 -> discardTouch s1 s3.
Proof.
  intros s1 s2 s3 H12 H23. unfold discardTouch in *.
  rewrite H23 at 1. rewrite H12 at 1. destruct s1; reflexivity.
Qed.

Lemma discardTouch_CurrentPlayer : forall s cp, discardTouch s (set_CurrentPlayer cp s).
Proof. intros [] cp. reflexivity. Qed.

Lemma completeCount_le : forall s, (completeCount s <= 4)%nat.
Proof.
  intro s. unfold completeCount, list4.
  destruct (DiscardComplete s) as [[] [] [] []]; simpl; lia.
Qed.

Lemma completeCount_mark :
  forall s s' seat,
    get4 seat (DiscardComplete s) = Some false ->
    set4 seat true (DiscardComplete s) = Some (DiscardComplete s') ->
    completeCount s' = S (completeCount s).
Proof.
  intros s s' seat Hg Hs. unfold completeCount, list4.
  pose proof (get4_valid _ _ Hg) as Hv.
  destruct (DiscardComplete s) as [x0 x1 x2 x3].
  destruct (DiscardComplete s') as [y0 y1 y2 y3].
  destruct (valid_cases Hv) as [-> | [-> | [-> | ->]]];
    unfold get4 in Hg; simpl in Hg; inversion Hg; subst;
    unfold set4 in Hs; simpl in Hs; inversion Hs; subst; simpl;
    repeat match goal with b : bool |- _ => destruct b end; reflexivity.
Qed.

(** A pass that ends with [break] has applied the pending selection of a
    seat that was not complete, and marked that seat complete. *)
Lemma scanSeats_break :
  forall n next s s',
    scanSeats n next s = PassBreak s' ->
    completeCount s' = S (completeCount s) /\ discardTouch s s'.
Proof.
  induction n as [|n IH]; intros next s s' H; simpl in H.
  - discriminate.
  - destruct (get4 next (DiscardComplete s)) as [[|]|] eqn:Eg; try discriminate.
    + now apply IH in H.
    + destruct (get4 next (PendingDiscards s)) as [pending|]; [|discriminate].
      destruct ((len (ids pending) >? 0) || _); [|discriminate].
      pose proof (processDiscard_flags (set_CurrentPlayer next s) next (ids pending)) as HF.
      destruct (processDiscard (set_CurrentPlayer next s) next (ids pending))
        as [s1|e s1|]; try discriminate.
      * inversion H; subst. destruct HF as [T F]. split.
        -- eapply completeCount_mark; [exact Eg | exact F].
        -- apply discardTouch_trans with (set_CurrentPlayer next s);
             [apply discardTouch_CurrentPlayer | apply handTouch_discardTouch; exact T].
      * destruct (set4 next None (PendingDiscards s1)); discriminate.
Qed.

(** When every seat is complete the inner loop runs out. *)
Lemma scanSeats_all_complete :
  forall n next s,
    DiscardComplete s = fill4 true -> 0 <= next <= 3 ->
    scanSeats n next s = PassAllDone s.
Proof.
  induction n as [|n IH]; intros next s Hall Hv; simpl.
  - reflexivity.
  - rewrite Hall.
    destruct (valid_cases Hv) as [-> | [-> | [-> | ->]]]; simpl;
      apply IH; try exact Hall; vm_compute; split; discriminate.
Qed.

Lemma pendingLoop_enough :
  forall fuel s, (4 - completeCount s < fuel)%nat -> exists r, pendingLoop fuel s = Some r.
Proof.
  induction fuel as [|fuel IH]; intros s Hf.
  - lia.
  - simpl. destruct (pendingPass s) as [s'|s'|s'|] eqn:EP; try (eexists; reflexivity).
    apply scanSeats_break in EP. destruct EP as [Hc _].
    apply IH. pose proof (completeCount_le s'). lia.
Qed.

Lemma pendingLoop_more_fuel :
  forall fuel s r, pendingLoop fuel s = Some r ->
                   forall fuel', (fuel <= fuel')%nat -> pendingLoop fuel' s = Some r.
Proof.
  induction fuel as [|fuel IH]; intros s r H fuel' Hle.
  - discriminate.
  - destruct fuel' as [|fuel']; [lia|]. simpl in *.
    destruct (pendingPass s); try exact H.
    apply IH with (fuel' := fuel') in H; [exact H | lia].
Qed.

Lemma pendingLoop_total : forall s, exists r, pendingLoop 5 s = Some r.
Proof. intro s. apply pendingLoop_enough. pose proof (completeCount_le s). lia. Qed.

Lemma NextPlayer_seat : forall i, 0 <= i <= 3 -> NextPlayer i = (i + 1) mod 4.
Proof.
  intros i H. destruct (valid_cases H) as [-> | [-> | [-> | ->]]]; reflexivity.
Qed.

Lemma NextPlayer_valid : forall i, -1 <= i <= 3 -> 0 <= NextPlayer i <= 3.
Proof.
  intros i H.
  assert (i = -1 \/ i = 0 \/ i = 1 \/ i = 2 \/ i = 3) as [-> | [-> | [-> | [-> | ->]]]]
      by lia; vm_compute; split; discriminate.
Qed.

(** The seats a pass looks at, in turn: [next], the seat after it, ... *)
Lemma iter_NextPlayer_succ :
  forall j next, Nat.iter (S j) NextPlayer next = Nat.iter j NextPlayer (NextPlayer next).
Proof.
  induction j as [|j IH]; intro next; [reflexivity|].
  change (NextPlayer (Nat.iter (S j) NextPlayer next)
          = NextPlayer (Nat.iter j NextPlayer (NextPlayer next))).
  rewrite IH. reflexivity.
Qed.

(** What one scan of the seats returns, case by case. *)
Lemma scanSeats_spec :
  forall n next s,
    match scanSeats n next s with
    | PassAllDone s' =>
        s' = s
        /\ forall j, (j < n)%nat ->
                     get4 (Nat.iter j NextPlayer next) (DiscardComplete s) = Some true
    | PassBreak s' =>
        exists k seat cardIDs,
          (k < n)%nat /\ seat = Nat.iter k NextPlayer next
          /\ (forall j, (j < k)%nat ->
                        get4 (Nat.iter j NextPlayer next) (DiscardComplete s) = Some true)
          /\ get4 seat (DiscardComplete s) = Some false
          /\ get4 seat (PendingDiscards s) = Some (Some cardIDs)
          /\ processDiscard (set_CurrentPlayer seat s) seat cardIDs = Done s'
    | PassReturn s' =>
        exists k seat,
          (k < n)%nat /\ seat = Nat.iter k NextPlayer next
          /\ (forall j, (j < k)%nat ->
                        get4 (Nat.iter j NextPlayer next) (DiscardComplete s) = Some true)
          /\ get4 seat (DiscardComplete s) = Some false
          /\ ((get4 seat (PendingDiscards s) = Some None /\ s' = set_CurrentPlayer seat s)
              \/ exists cardIDs e s1 pd,
                   get4 seat (PendingDiscards s) = Some (Some cardIDs)
                   /\ processDiscard (set_CurrentPlayer seat s) seat cardIDs = Failed e s1
                   /\ set4 seat None (PendingDiscards s1) = Some pd
                   /\ s' = set_PendingDiscards pd s1)
    | PassPanic => True
    end.
Proof.
  induction n as [|n IH]; intros next s; simpl.
  - split; [reflexivity|]. intros j Hj. lia.
  - destruct (get4 next (DiscardComplete s)) as [[|]|] eqn:Eg; [| |exact I].
    + specialize (IH (NextPlayer next) s).
      assert (Hshift : forall k,
                 (forall j, (j < k)%nat ->
                    get4 (Nat.iter j NextPlayer (NextPlayer next)) (DiscardComplete s)
                    = Some true) ->
                 forall j, (j < S k)%nat ->
                    get4 (Nat.iter j NextPlayer next) (DiscardComplete s) = Some true).
      { intros k H [|j] Hj; [exact Eg|]. rewrite iter_NextPlayer_succ. apply H. lia. }
      destruct (scanSeats n (NextPlayer next) s) as [s'|s'|s'|].
      * destruct IH as (k & seat & Hk & Hseat & Hbefore & Hrest).
        exists (S k), seat. split; [lia|].
        split; [rewrite iter_NextPlayer_succ; exact Hseat|].
        split; [apply Hshift; exact Hbefore | exact Hrest].
      * destruct IH as (k & seat & cardIDs & Hk & Hseat & Hbefore & Hrest).
        exists (S k), seat, cardIDs. split; [lia|].
        split; [rewrite iter_NextPlayer_succ; exact Hseat|].
        split; [apply Hshift; exact Hbefore | exact Hrest].
      * destruct IH as [-> Hall]. split; [reflexivity|]. apply Hshift. exact Hall.
      * exact I.
    + destruct (get4 next (PendingDiscards s)) as [[cardIDs|]|] eqn:Ep; simpl;
        [| |exact I].
      * rewrite orb_true_r.
        destruct (processDiscard (set_CurrentPlayer next s) next cardIDs)
          as [s1|e s1|] eqn:EP; [| |exact I].
        -- exists 0%nat, next, cardIDs. split; [lia|]. split; [reflexivity|].
           split; [intros j Hj; lia|]. auto.
        -- destruct (set4 next None (PendingDiscards s1)) as [pd|] eqn:Epd; [|exact I].
           exists 0%nat, next. split; [lia|]. split; [reflexivity|].
           split; [intros j Hj; lia|]. split; [exact Eg|].
           right. exists cardIDs, e, s1, pd. auto.
      * exists 0%nat, next. split; [lia|]. split; [reflexivity|].
        split; [intros j Hj; lia|]. auto.
Qed.

(** Four seats in turn are all the seats. *)
Lemma four_seats_complete :
  forall next (dc : Arr4 bool),
    (forall j, (j < 4)%nat -> get4 (Nat.iter j NextPlayer next) dc = Some true) ->
    dc = fill4 true.
Proof.
  intros next [x0 x1 x2 x3] H.
  pose proof (H 0%nat ltac:(lia)) as H0. pose proof (H 1%nat ltac:(lia)) as H1.
  pose proof (H 2%nat ltac:(lia)) as H2. pose proof (H 3%nat ltac:(lia)) as H3.
  pose proof (get4_valid _ _ H0) as Hv. simpl in Hv.
  destruct (valid_cases Hv) as [-> | [-> | [-> | ->]]];
    vm_compute in H0, H1, H2, H3; unfold fill4; congruence.
Qed.

(** The inner loop runs out only when every seat is complete. *)
Lemma pendingPass_all_done :
  forall s s', pendingPass s = PassAllDone s' -> s' = s /\ DiscardComplete s = fill4 true.
Proof.
  intros s s' H. unfold pendingPass in H.
  pose proof (scanSeats_spec 4 (NextPlayer (CurrentPlayer s)) s) as HS.
  rewrite H in HS. destruct HS as [-> Hall]. split; [reflexivity|].
  eapply four_seats_complete. exact Hall.
Qed.

(** The procedure is its passes. *)
Lemma processPendingDiscards_unfold :
  forall s,
    processPendingDiscards s
    = match pendingPass s with
      | PassReturn s' => Done s'
      | PassBreak s' => processPendingDiscards s'
      | PassAllDone s' => Done (startPlaying s')
      | PassPanic => Panicked
      end.
Proof.
  intro s. unfold processPendingDiscards at 1.
  change (pendingLoop 5 s) with
    (match pendingPass s with
     | PassReturn st => Some (Done st)
     | PassPanic => Some Panicked
     | PassAllDone st => Some (Done (startPlaying st))
     | PassBreak st => pendingLoop 4 st
     end).
  destruct (pendingPass s) as [s'|s'|s'|] eqn:EP; try reflexivity.
  unfold processPendingDiscards.
  apply scanSeats_break in EP. destruct EP as [Hc _].
  destruct (@pendingLoop_enough 4 s') as [r Hr].
  { pose proof (completeCount_le s'). lia. }
  rewrite Hr. rewrite (@pendingLoop_more_fuel 4 s' r Hr 5%nat) by lia.
  reflexivity.
Qed.

(** A seat that is complete stays complete through the discard of another
    seat. *)
Lemma set4_true_keeps :
  forall seat i (dc dc' : Arr4 bool),
    set4 seat true dc = Some dc' -> get4 i dc = Some true -> get4 i dc' = Some true.
Proof.
  intros seat i dc dc' Hs Hg.
  destruct (Z.eq_dec i seat) as [-> | Hne].
  - exact (get4_set4_same _ _ _ Hs).
  - rewrite (get4_set4_other _ _ Hs) by congruence. exact Hg.
Qed.

(** What the procedure leaves: it never returns an error; when it
    returns, either it waits at a seat that is not complete and has no
    selection pending, in the phase it was called in, or every seat is
    complete and play has started.  The seats that were complete are
    still complete. *)
Lemma pendingLoop_result :
  forall fuel s r,
    pendingLoop fuel s = Some r ->
    match r with
    | Done s' =>
        (forall i, get4 i (DiscardComplete s) = Some true ->
                   get4 i (DiscardComplete s') = Some true)
        /\ BidWinner s' = BidWinner s
        /\ ((get4 (CurrentPlayer s') (DiscardComplete s') = Some false
             /\ get4 (CurrentPlayer s') (PendingDiscards s') = Some None
             /\ Phase s' = Phase s /\ CurrentTrick s' = CurrentTrick s)
            \/ (DiscardComplete s' = fill4 true
                /\ Phase s' = PhasePlaying
                /\ CurrentPlayer s' = BidWinner s
                /\ CurrentTrick s'
                   = Some {| Cards := []; Leader := BidWinner s;
                             LeadSuit := Spades; Winner := 0 |}))
    | Failed _ _ => False
    | Panicked => True
    end.
Proof.
  induction fuel as [|fuel IH]; intros s r H; [discriminate|]. simpl in H.
  pose proof (scanSeats_spec 4 (NextPlayer (CurrentPlayer s)) s) as HS.
  fold (pendingPass s) in HS.
  destruct (pendingPass s) as [s1|s1|s1|] eqn:EP.
  - (* return *)
    injection H as <-.
    destruct HS as (k & seat & _ & _ & _ & Hopen & [[Hnone ->] | Hfail]).
    + simpl. split; [auto|]. split; [reflexivity|]. left. auto.
    + destruct Hfail as (cardIDs & e & s2 & pd & Hp & Hproc & Hpd & ->).
      pose proof (processDiscard_flags (set_CurrentPlayer seat s) seat cardIDs) as HF.
      rewrite Hproc in HF. destruct HF as [T F]. simpl in F.
      pose proof (handTouch_CurrentPlayer T) as Hcp. simpl in Hcp.
      assert (Hrest : Phase s2 = Phase s /\ CurrentTrick s2 = CurrentTrick s
                      /\ BidWinner s2 = BidWinner s).
      { unfold handTouch in T. rewrite T. simpl. auto. }
      destruct Hrest as (Hph & Htr & Hbw).
      simpl. rewrite F, Hcp. split; [auto|]. split; [exact Hbw|].
      left. split; [exact Hopen|]. split; [exact (get4_set4_same _ _ _ Hpd)|]. auto.
  - (* break *)
    destruct HS as (k & seat & cardIDs & _ & _ & _ & Hopen & Hp & Hproc).
    pose proof (processDiscard_flags (set_CurrentPlayer seat s) seat cardIDs) as HF.
    rewrite Hproc in HF. destruct HF as [T F]. simpl in F.
    assert (Hrest : Phase s1 = Phase s /\ CurrentTrick s1 = CurrentTrick s
                    /\ BidWinner s1 = BidWinner s).
    { unfold handTouch in T. rewrite T. simpl. auto. }
    destruct Hrest as (Hph & Htr & Hbw).
    specialize (IH s1 r H). destruct r as [s'|e s'|]; [|exact IH|exact I].
    destruct IH as (Hkeep & Hbw' & Hres).
    rewrite Hph, Htr, Hbw in Hres.
    split; [|split; [congruence | exact Hres]].
    intros i Hi. apply Hkeep. eapply set4_true_keeps; eauto.
  - (* all done *)
    injection H as <-. destruct (pendingPass_all_done _ EP) as [-> Hall].
    simpl. split; [auto|]. split; [reflexivity|]. right. auto.
  - injection H as <-. exact I.
Qed.

(* ================================================================== *)
(** * Counting cards *)

Lemma cnt_app : forall c l1 l2, cnt c (l1 ++ l2) = (cnt c l1 + cnt c l2)%nat.
Proof. intros. unfold cnt. apply count_occ_app. Qed.

Lemma cnt_nil : forall c, cnt c [] = O.
Proof. reflexivity. Qed.

Lemma cnt_cons : forall c x l, cnt c (x :: l) = (cnt c [x] + cnt c l)%nat.
Proof. intros. change (x :: l) with ([x] ++ l). apply cnt_app. Qed.

Lemma cnt_firstn_skipn :
  forall c n l, cnt c l = (cnt c (firstn n l) + cnt c (skipn n l))%nat.
Proof. intros. rewrite <- cnt_app. now rewrite firstn_skipn. Qed.

Lemma cnt_Deal :
  forall c n d, cnt c d = (cnt c (fst (Deal n d)) + cnt c (snd (Deal n d)))%nat.
Proof. intros. unfold Deal. simpl. apply cnt_firstn_skipn. Qed.

Lemma cnt_removeAt :
  forall c cid l i x,
    findCard cid l = Some (i, x) ->
    cnt c l = (cnt c [x] + cnt c (removeAt i l))%nat.
Proof.
  intros c cid l i x H. apply findCard_split in H. destruct H as [Hs _].
  unfold removeAt. rewrite Hs at 1.
  rewrite !cnt_app. rewrite (cnt_cons c x (skipn (S i) l)). lia.
Qed.

Lemma cnt_set_nth :
  forall c l i x y,
    nth_error l i = Some x ->
    (cnt c (set_nth i y l) + cnt c [x] = cnt c l + cnt c [y])%nat.
Proof.
  intros c l. induction l as [|h t IH]; intros i x y H.
  - destruct i; discriminate.
  - destruct i as [|i]; simpl in *.
    + inversion H; subst. rewrite (cnt_cons c y t), (cnt_cons c x t). lia.
    + rewrite (cnt_cons c h (set_nth i y t)), (cnt_cons c h t).
      specialize (IH i x y H). lia.
Qed.

Lemma nth_error_set_nth_same :
  forall l i y, (i < List.length l)%nat -> nth_error (set_nth i y l) i = Some y.
Proof.
  induction l as [|h t IH]; intros i y H; simpl in *.
  - lia.
  - destruct i; simpl; [reflexivity|]. apply IH. lia.
Qed.

Lemma nth_error_set_nth_other :
  forall l i j y, i <> j -> nth_error (set_nth i y l) j = nth_error l j.
Proof.
  induction l as [|h t IH]; intros i j y H; simpl.
  - destruct i; reflexivity.
  - destruct i, j; simpl; try reflexivity; try congruence.
    apply IH. congruence.
Qed.

Lemma cnt_swap_at : forall c i j l, cnt c (swap_at i j l) = cnt c l.
Proof.
  intros c i j l. unfold swap_at.
  destruct (nth_error l i) as [x|] eqn:Ei; [|reflexivity].
  destruct (nth_error l j) as [y|] eqn:Ej; [|reflexivity].
  pose proof (cnt_set_nth c l i y Ei) as H1.
  assert (Hj : nth_error (set_nth i y l) j = Some y).
  { destruct (Nat.eq_dec i j) as [->|Hne].
    - apply nth_error_set_nth_same. apply nth_error_Some. congruence.
    - rewrite nth_error_set_nth_other by exact Hne. exact Ej. }
  pose proof (cnt_set_nth c (set_nth i y l) j x Hj) as H2.
  lia.
Qed.

Lemma cnt_shuffle_from : forall c draw i l, cnt c (shuffle_from draw i l) = cnt c l.
Proof.
  intros c draw i. induction i as [|i IH]; intro l; simpl.
  - reflexivity.
  - rewrite IH. apply cnt_swap_at.
Qed.

(** A shuffle permutes the deck. *)
Lemma cnt_Shuffle : forall c draw d, cnt c (Shuffle draw d) = cnt c d.
Proof. intros. unfold Shuffle. apply cnt_shuffle_from. Qed.

Lemma Shuffle_Permutation : forall draw d, Permutation (Shuffle draw d) d.
Proof.
  intros draw d. apply (Permutation_count_occ Card_eq_dec).
  intro c. apply cnt_Shuffle.
Qed.

Lemma NewDeck_NoDup : NoDup NewDeck.
Proof.
  apply (NoDup_count_occ' Card_eq_dec). intros c Hin.
  vm_compute in Hin.
  repeat (destruct Hin as [<- | Hin]; [vm_compute; reflexivity|]).
  contradiction.
Qed.

Lemma NewDeck_ID_NoDup : NoDup (map ID NewDeck).
Proof.
  apply (NoDup_count_occ' string_dec). intros c Hin.
  vm_compute in Hin.
  repeat (destruct Hin as [<- | Hin]; [vm_compute; reflexivity|]).
  contradiction.
Qed.

Lemma NewDeck_length : List.length NewDeck = 52%nat.
Proof. reflexivity. Qed.

Lemma cnt_NewDeck_le : forall c, (cnt c NewDeck <= 1)%nat.
Proof. intro c. apply (NoDup_count_occ Card_eq_dec). apply NewDeck_NoDup. Qed.

(** A multiset of cards below the deck has no duplicates and only cards
    of the deck. *)
Lemma below_deck :
  forall l,
    (forall c, (cnt c l <= cnt c NewDeck)%nat) ->
    NoDup l /\ incl l NewDeck /\ NoDup (map ID l) /\ (List.length l <= 52)%nat.
Proof.
  intros l H.
  assert (Hnd : NoDup l).
  { apply (NoDup_count_occ Card_eq_dec). intro c.
    pose proof (H c). pose proof (cnt_NewDeck_le c). unfold cnt in *. lia. }
  assert (Hincl : incl l NewDeck).
  { intros c Hin. apply (count_occ_In Card_eq_dec) in Hin.
    apply (count_occ_In Card_eq_dec). pose proof (H c). unfold cnt in *. lia. }
  split; [exact Hnd|]. split; [exact Hincl|]. split.
  - clear H. induction l as [|x t IH]; simpl; [constructor|].
    inversion Hnd; subst. constructor.
    + intro Hin. apply in_map_iff in Hin. destruct Hin as (y & Hid & Hy).
      assert (y = x).
      { assert (Hx : In x NewDeck) by (apply Hincl; now left).
        assert (Hy' : In y NewDeck) by (apply Hincl; now right).
        clear - Hid Hx Hy'.
        pose proof NewDeck_ID_NoDup as Hn.
        revert Hx Hy' Hn. generalize NewDeck. intro d.
        induction d as [|z d IHd]; simpl; intros Hx Hy Hn; [contradiction|].
        inversion Hn; subst.
        destruct Hx as [-> | Hx], Hy as [-> | Hy]; auto.
        - exfalso. apply H1. rewrite <- Hid. now apply in_map.
        - exfalso. apply H1. rewrite Hid. now apply in_map. }
      subst. contradiction.
    + apply IH; [assumption|]. intros c Hc. apply Hincl. now right.
  - rewrite <- NewDeck_length. apply NoDup_incl_length; assumption.
Qed.

(* ================================================================== *)
(** * The invariant is kept by every action *)

Lemma hands4_set :
  forall c i (ps ps' : Arr4 (option Player)) old new,
    get4 i ps = Some old -> set4 i new ps = Some ps' ->
    (cnt c (hands4 ps') + cnt c (handOf old) = cnt c (hands4 ps) + cnt c (handOf new))%nat.
Proof.
  intros c i ps ps' old new Hg Hs.
  pose proof (get4_valid _ _ Hg) as Hv.
  destruct ps as [p0 p1 p2 p3].
  destruct (valid_cases Hv) as [-> | [-> | [-> | ->]]];
    unfold get4 in Hg; simpl in Hg; inversion Hg; subst;
    unfold set4 in Hs; simpl in Hs; inversion Hs; subst;
    unfold hands4; simpl; rewrite !cnt_app; lia.
Qed.

Lemma hands4_same_hand :
  forall i (ps ps' : Arr4 (option Player)) old new,
    get4 i ps = Some old -> set4 i new ps = Some ps' ->
    handOf new = handOf old -> hands4 ps' = hands4 ps.
Proof.
  intros i ps ps' old new Hg Hs Hh.
  pose proof (get4_valid _ _ Hg) as Hv.
  destruct ps as [p0 p1 p2 p3].
  destruct (valid_cases Hv) as [-> | [-> | [-> | ->]]];
    unfold get4 in Hg; simpl in Hg; inversion Hg; subst;
    unfold set4 in Hs; simpl in Hs; inversion Hs; subst;
    unfold hands4; simpl; now rewrite Hh.
Qed.

(** The cards in play depend on five fields of the record. *)
Lemma cardsInPlay_ext :
  forall s s',
    Deck s' = Deck s -> hands4 (Players s') = hands4 (Players s) ->
    Kitty s' = Kitty s -> CurrentTrick s' = CurrentTrick s ->
    CompletedTricks s' = CompletedTricks s ->
    cardsInPlay s' = cardsInPlay s.
Proof.
  intros s s' Hd Hp Hk Ht Hc.
  unfold cardsInPlay, deckOf, handsOf, trickOf, completedOf.
  now rewrite Hd, Hp, Hk, Ht, Hc.
Qed.

(** The parts of the invariant, named. *)
Ltac inv_parts H :=
  destruct H as (Itb & Iteams & Ilobby & Icards & Idealer & Iamounts & Ibidding & Ifour
                 & Ifull).

(** A step that keeps the cards in play and the bidding as they are. *)
Lemma Inv_kept :
  forall s s',
    Inv s ->
    TrumpBroken s' = TrumpBroken s -> Teams s' = Teams s ->
    Phase s' = Phase s -> CurrentTrick s' = CurrentTrick s ->
    (activeHand (Phase s) = true -> cardsInPlay s' = cardsInPlay s) ->
    Dealer s' = Dealer s -> Bids s' = Bids s -> CurrentPlayer s' = CurrentPlayer s ->
    Inv s'.
Proof.
  intros s s' H Htb Hteams Hphase Htrick Hcards Hdealer Hbids Hcp. inv_parts H.
  unfold Inv. rewrite Htb, Hteams, Hphase, Htrick, Hdealer, Hbids, Hcp.
  repeat split; auto; try apply Ibidding; auto; try lia.
  - intros Ha c. rewrite (Hcards Ha). now apply Icards.
  - intros Hb c. rewrite Hcards by (rewrite Hb; reflexivity). now apply Ifull.
Qed.

(** Writing a seat without changing its hand keeps the invariant. *)
Lemma Inv_set_seat :
  forall s i old new ps,
    Inv s ->
    get4 i (Players s) = Some old -> set4 i new (Players s) = Some ps ->
    (activeHand (Phase s) = true -> handOf new = handOf old) ->
    Inv (set_Players ps s).
Proof.
  intros s i old new ps H Hg Hs Hh.
  apply Inv_kept with s; try reflexivity; [exact H|].
  intro Ha. apply cardsInPlay_ext; try reflexivity.
  simpl. eapply hands4_same_hand; eauto.
Qed.

Lemma Inv_NewGameState : forall targetScore, Inv (NewGameState targetScore).
Proof.
  intro t. unfold Inv. simpl.
  repeat split; try lia; try discriminate; auto;
    try (eexists; eexists; reflexivity); try (intros b []).
Qed.

Lemma applyJoinSeat_Inv :
  forall rnd s a s', Inv s -> recordAfter (applyJoinSeat rnd s a) = Some s' -> Inv s'.
Proof.
  intros rnd s a s' HI H. unfold applyJoinSeat in H.
  destruct (negb (Phase_eqb (Phase s) PhaseLobby)) eqn:Ep;
    [inversion H; subst; exact HI|].
  apply negb_false_iff, Phase_eqb_eq in Ep.
  destruct ((PlayerIndex a <? 0) || (PlayerIndex a >? 3)) eqn:Er;
    [inversion H; subst; exact HI|].
  destruct (get4 (PlayerIndex a) (Players s)) as [[p|]|] eqn:Eg; try discriminate;
    [inversion H; subst; exact HI|].
  destruct (setPlayer _ _ s) as [s1|] eqn:E1; [|discriminate].
  apply setPlayer_eq in E1. destruct E1 as (ps & Hps & ->).
  assert (H1 : Inv (set_Players ps s)).
  { eapply Inv_set_seat; eauto; try (rewrite Ep; discriminate). }
  destruct (House s =? -1); simpl in H; inversion H; subst; [|exact H1].
  inv_parts H1. simpl in *. unfold Inv. simpl. rewrite Ep in *.
  repeat split; auto; try lia; try discriminate.
Qed.

Lemma applyLeaveSeat_Inv :
  forall s a s', Inv s -> recordAfter (applyLeaveSeat s a) = Some s' -> Inv s'.
Proof.
  intros s a s' HI H. unfold applyLeaveSeat in H.
  destruct ((PlayerIndex a <? 0) || (PlayerIndex a >? 3));
    [inversion H; subst; exact HI|].
  destruct (get4 (PlayerIndex a) (Players s)) as [[p|]|] eqn:Eg; try discriminate;
    [|inversion H; subst; exact HI].
  destruct (Phase_eqb (Phase s) PhaseLobby) eqn:Ep.
  - apply Phase_eqb_eq in Ep.
    destruct (set4 _ None (Players s)) as [ps|] eqn:E1; [|discriminate].
    inversion H; subst. eapply Inv_set_seat; eauto; try (rewrite Ep; discriminate).
  - destruct (setPlayer _ _ s) as [s1|] eqn:E1; [|discriminate].
    apply setPlayer_eq in E1. destruct E1 as (ps & Hps & ->).
    inversion H; subst. eapply Inv_set_seat; eauto.
Qed.

Lemma applyChangeName_Inv :
  forall s a s', Inv s -> recordAfter (applyChangeName s a) = Some s' -> Inv s'.
Proof.
  intros s a s' HI H. unfold applyChangeName in H.
  destruct ((PlayerIndex a <? 0) || (PlayerIndex a >? 3));
    [inversion H; subst; exact HI|].
  destruct (get4 (PlayerIndex a) (Players s)) as [[p|]|] eqn:Eg; try discriminate;
    [|inversion H; subst; exact HI].
  destruct (setPlayer _ _ s) as [s1|] eqn:E1; [|discriminate].
  apply setPlayer_eq in E1. destruct E1 as (ps & Hps & ->).
  inversion H; subst. eapply Inv_set_seat; eauto.
Qed.

Lemma applyKickPlayer_Inv :
  forall s a s', Inv s -> recordAfter (applyKickPlayer s a) = Some s' -> Inv s'.
Proof.
  intros s a s' HI H. unfold applyKickPlayer in H.
  destruct (negb (PlayerIndex a =? House s)); [inversion H; subst; exact HI|].
  destruct ((TargetSeat a <? 0) || (TargetSeat a >? 3));
    [inversion H; subst; exact HI|].
  destruct (TargetSeat a =? House s); [inversion H; subst; exact HI|].
  destruct (get4 (TargetSeat a) (Players s)) as [[p|]|] eqn:Eg; try discriminate;
    [|inversion H; subst; exact HI].
  destruct (Phase_eqb (Phase s) PhaseLobby) eqn:Ep.
  - apply Phase_eqb_eq in Ep.
    destruct (set4 _ None (Players s)) as [ps|] eqn:E1; [|discriminate].
    inversion H; subst. eapply Inv_set_seat; eauto; try (rewrite Ep; discriminate).
  - destruct (setPlayer _ _ s) as [s1|] eqn:E1; [|discriminate].
    apply setPlayer_eq in E1. destruct E1 as (ps & Hps & ->).
    inversion H; subst. eapply Inv_set_seat; eauto.
Qed.

Lemma applyTransferHouse_Inv :
  forall s a s', Inv s -> recordAfter (applyTransferHouse s a) = Some s' -> Inv s'.
Proof.
  intros s a s' HI H. unfold applyTransferHouse in H.
  destruct (negb (PlayerIndex a =? House s)); [inversion H; subst; exact HI|].
  destruct ((TargetSeat a <? 0) || (TargetSeat a >? 3));
    [inversion H; subst; exact HI|].
  destruct (TargetSeat a =? House s); [inversion H; subst; exact HI|].
  destruct (get4 (TargetSeat a) (Players s)) as [[p|]|] eqn:Eg; try discriminate;
    [|inversion H; subst; exact HI].
  destruct (negb (Connected p) || String.eqb (Name p) "");
    inversion H; subst; [exact HI|].
  apply Inv_kept with s; auto.
Qed.

Lemma applySelectTrump_Inv :
  forall s a s', Inv s -> recordAfter (applySelectTrump s a) = Some s' -> Inv s'.
Proof.
  intros s a s' HI H. unfold applySelectTrump in H.
  destruct (negb (Phase_eqb (Phase s) PhaseKitty)); [inversion H; subst; exact HI|].
  destruct (negb (PlayerIndex a =? BidWinner s)); [inversion H; subst; exact HI|].
  repeat match type of H with
         | context [if ?c then _ else _] => destruct c
         end;
    inversion H; subst; try exact HI; apply Inv_kept with s; auto.
Qed.

Lemma applyResetGame_Inv :
  forall s a s',
    Inv s -> 0 <= PlayerIndex a <= 3 ->
    recordAfter (applyResetGame s a) = Some s' -> Inv s'.
Proof.
  intros s a s' HI Hv H. unfold applyResetGame in H.
  destruct (negb (PlayerIndex a =? House s)) eqn:Eh; [inversion H; subst; exact HI|].
  apply negb_false_iff, Z.eqb_eq in Eh.
  inversion H; subst. unfold Inv. simpl.
  repeat split; auto; try lia; try discriminate;
    try (eexists; eexists; reflexivity); try (intros b []).
Qed.

(* ================================================================== *)
(** * Bidding *)

(** The scan for the high bid: the result bounds every amount, and it is
    either the starting value or the amount of a recorded bid, whose seat
    is returned with it. *)
Lemma highBidScan_spec :
  forall bids h w,
    let r := highBidScan bids h w in
    h <= fst r
    /\ (forall b, In b bids -> Amount b <= fst r)
    /\ ((fst r = h /\ snd r = w)
        \/ (exists b, In b bids /\ Amount b = fst r /\ Bid_PlayerIndex b = snd r
                      /\ h < fst r)).
Proof.
  induction bids as [|b rest IH]; intros h w; simpl.
  - split; [lia|]. split; [intros b []|]. left. auto.
  - destruct (Amount b >? h) eqn:E.
    + specialize (IH (Amount b) (Bid_PlayerIndex b)). cbv zeta in IH.
      destruct IH as (H1 & H2 & H3).
      split; [lia|]. split.
      * intros b' [<- | Hin]; [exact H1 | now apply H2].
      * right. destruct H3 as [[Hf Hs] | (b' & Hin & Ha & Hp & Hlt)].
        -- exists b. rewrite Hf, Hs. repeat split; auto. lia.
        -- exists b'. repeat split; auto. lia.
    + specialize (IH h w). cbv zeta in IH. destruct IH as (H1 & H2 & H3).
      split; [exact H1|]. split.
      * intros b' [<- | Hin]; [lia | now apply H2].
      * destruct H3 as [H3 | (b' & Hin & Ha & Hp & Hlt)]; [now left|].
        right. exists b'. auto.
Qed.

Lemma highBidScan_fst : forall bids h w w', fst (highBidScan bids h w) = fst (highBidScan bids h w').
Proof.
  induction bids as [|b rest IH]; intros h w w'; simpl; [reflexivity|].
  destruct (Amount b >? h); auto.
Qed.

Lemma highBidScan_passes :
  forall bids w, (forall b, In b bids -> Amount b = 0) -> highBidScan bids 0 w = (0, w).
Proof.
  induction bids as [|b rest IH]; intros w H; simpl; [reflexivity|].
  rewrite (H b (or_introl eq_refl)). simpl. apply IH. intros b' Hin. apply H. now right.
Qed.

Lemma highBidScan_app :
  forall l1 l2 h w,
    highBidScan (l1 ++ l2) h w
    = highBidScan l2 (fst (highBidScan l1 h w)) (snd (highBidScan l1 h w)).
Proof.
  induction l1 as [|b rest IH]; intros l2 h w; simpl; [reflexivity|].
  destruct (Amount b >? h); apply IH.
Qed.

(** What a bid that is accepted does to the record. *)
Lemma applyPlaceBid_Done :
  forall s a s',
    applyPlaceBid s a = Done s' ->
    Phase s = PhaseBidding
    /\ PlayerIndex a = CurrentPlayer s
    /\ (BidAmount a = 0
        \/ (2 <= BidAmount a <= 6 /\ fst (highBidScan (Bids s) 0 0) < BidAmount a))
    /\ let bids := Bids s ++ [mkBid (PlayerIndex a) (recordedAmount s a)] in
       if len bids =? 4 then
         s' = set_Phase PhaseKitty
                (set_CurrentPlayer (snd (highBidScan bids 0 (Dealer s)))
                   (set_WinningBid (fst (highBidScan bids 0 (Dealer s)))
                      (set_BidWinner (snd (highBidScan bids 0 (Dealer s)))
                         (set_Bids bids s))))
       else
         s' = set_CurrentPlayer (NextPlayer (CurrentPlayer s)) (set_Bids bids s).
Proof.
  intros s a s' H. unfold applyPlaceBid in H.
  destruct (negb (Phase_eqb (Phase s) PhaseBidding)) eqn:Ep; [discriminate|].
  apply negb_false_iff, Phase_eqb_eq in Ep.
  destruct (negb (PlayerIndex a =? CurrentPlayer s)) eqn:Et; [discriminate|].
  apply negb_false_iff, Z.eqb_eq in Et.
  destruct (negb (BidAmount a =? 0) && ((BidAmount a <? 2) || (BidAmount a >? 6))) eqn:E1;
    [discriminate|].
  destruct (negb (BidAmount a =? 0) && (BidAmount a <=? fst (highBidScan (Bids s) 0 0)))
    eqn:E2; [discriminate|].
  split; [exact Ep|]. split; [exact Et|]. split.
  { destruct (BidAmount a =? 0) eqn:E0; [left; lia|]. right. simpl in E1, E2. lia. }
  cbv zeta. fold (len (Bids s)) in H. fold (recordedAmount s a) in H.
  simpl in H.
  match type of H with
  | context [Z.of_nat (List.length ?l) =? 4] => fold (len l) in H
  end.
  destruct (len (Bids s ++ _) =? 4).
  - destruct (highBidScan _ 0 (Dealer s)) as [hb bw] eqn:Es. simpl in H.
    inversion H. reflexivity.
  - inversion H. reflexivity.
Qed.

Lemma applyPlaceBid_Failed :
  forall s a e s', applyPlaceBid s a = Failed e s' -> s' = s.
Proof.
  intros s a e s' H. unfold applyPlaceBid in H.
  repeat match type of H with
         | context [if ?c then _ else _] => destruct c
         | context [let '(_, _) := ?p in _] => destruct p
         end; inversion H; reflexivity.
Qed.

Lemma applyPlaceBid_no_panic : forall s a, applyPlaceBid s a <> Panicked.
Proof.
  intros s a. unfold applyPlaceBid.
  repeat match goal with
         | |- context [if ?c then _ else _] => destruct c
         | |- context [let '(_, _) := ?p in _] => destruct p
         end; discriminate.
Qed.

Lemma recordedAmount_valid :
  forall s a,
    BidAmount a = 0 \/ 2 <= BidAmount a <= 6 ->
    recordedAmount s a = 0 \/ 2 <= recordedAmount s a <= 6.
Proof.
  intros s a H. unfold recordedAmount.
  destruct (_ && _ && _); [right; lia | exact H].
Qed.

Lemma applyPlaceBid_Inv :
  forall s a s', Inv s -> recordAfter (applyPlaceBid s a) = Some s' -> Inv s'.
Proof.
  intros s a s' HI H.
  destruct (applyPlaceBid s a) as [s1|e s1|] eqn:E; simpl in H; inversion H; subst.
  2:{ apply applyPlaceBid_Failed in E. now subst. }
  clear H. apply applyPlaceBid_Done in E.
  destruct E as (Ep & Et & Hamt & Hs'). cbv zeta in Hs'.
  inv_parts HI. destruct (Ibidding Ep) as [Hlen Hcp].
  assert (Hval : recordedAmount s a = 0 \/ 2 <= recordedAmount s a <= 6).
  { apply recordedAmount_valid. lia. }
  set (bids := Bids s ++ [mkBid (PlayerIndex a) (recordedAmount s a)]) in *.
  assert (Hlen' : len bids = len (Bids s) + 1) by (unfold bids; now rewrite len_app).
  assert (Hamounts : forall b, In b bids -> Amount b = 0 \/ 2 <= Amount b <= 6).
  { intros b Hin. unfold bids in Hin. apply in_app_iff in Hin.
    destruct Hin as [Hin | [<- | []]]; [now apply Iamounts | exact Hval]. }
  assert (Hcards : forall st, Deck st = Deck s -> Players st = Players s ->
                              Kitty st = Kitty s -> CurrentTrick st = CurrentTrick s ->
                              CompletedTricks st = CompletedTricks s ->
                              forall c, (cnt c (cardsInPlay st) <= cnt c NewDeck)%nat).
  { intros st H1 H2 H3 H4 H5 c. rewrite (cardsInPlay_ext s st); auto.
    - apply Icards. now rewrite Ep.
    - now rewrite H2. }
  destruct (len bids =? 4) eqn:E4; subst s'; unfold Inv; simpl.
  - apply Z.eqb_eq in E4.
    repeat split; auto; try discriminate; try lia.
    intros _.
    (* the fourth bid is the dealer's: four passes cannot be recorded *)
    destruct Hval as [H0 | H2].
    + unfold recordedAmount in H0.
      assert (Hd : CurrentPlayer s = Dealer s).
      { rewrite Hcp. replace (Dealer s + 1 + len (Bids s)) with (Dealer s + 1 * 4) by lia.
        rewrite Z.mod_add by lia. apply Z.mod_small. lia. }
      rewrite Et, Hd, Z.eqb_refl in H0.
      replace (len (Bids s) =? 3) with true in H0 by (symmetry; apply Z.eqb_eq; lia).
      simpl in H0.
      destruct (fst (highBidScan (Bids s) 0 0) =? 0) eqn:Eh.
      * simpl in H0. destruct (BidAmount a =? 0) eqn:Eb; [discriminate|].
        apply Z.eqb_neq in Eb. lia.
      * apply Z.eqb_neq in Eh.
        destruct (highBidScan_spec (Bids s) 0 0) as (_ & _ & [[Hf _] | (b & Hin & Ha & _ & Hlt)]);
          [contradiction|].
        exists b. split; [unfold bids; apply in_app_iff; now left|].
        destruct (Iamounts b Hin); lia.
    + exists (mkBid (PlayerIndex a) (recordedAmount s a)). split; [|simpl; lia].
      unfold bids. apply in_app_iff. right. now left.
  - apply Z.eqb_neq in E4.
    repeat split; auto; try discriminate; try lia.
    rewrite Hcp, Hlen'.
    rewrite NextPlayer_seat
      by (pose proof (Z.mod_pos_bound (Dealer s + 1 + len (Bids s)) 4); lia).
    rewrite Zplus_mod_idemp_l. f_equal. lia.
Qed.

(* ================================================================== *)
(** * Moving cards *)

(** A step inside a hand that may only drop cards. *)
Lemma Inv_play :
  forall s s',
    Inv s ->
    TrumpBroken s' = TrumpBroken s -> Teams s' = Teams s ->
    Dealer s' = Dealer s -> Bids s' = Bids s ->
    Phase s' <> PhaseLobby -> Phase s' <> PhaseBidding ->
    (activeHand (Phase s') = true ->
     activeHand (Phase s) = true
     /\ forall c, (cnt c (cardsInPlay s') <= cnt c (cardsInPlay s))%nat) ->
    Inv s'.
Proof.
  intros s s' H Htb Hteams Hdealer Hbids Hl Hb Hcards. inv_parts H.
  unfold Inv. rewrite Htb, Hteams, Hdealer, Hbids.
  repeat split; auto; try contradiction; try lia.
  intros Ha c. destruct (Hcards Ha) as [Ha' Hle].
  specialize (Hle c). specialize (Icards Ha' c). lia.
Qed.

Lemma cnt_cardsInPlay :
  forall c s,
    cnt c (cardsInPlay s)
    = (cnt c (deckOf s) + cnt c (handsOf s) + cnt c (Kitty s)
       + cnt c (trickOf s) + cnt c (completedOf s))%nat.
Proof. intros. unfold cardsInPlay. rewrite !cnt_app. lia. Qed.

Lemma takeKittyLoop_cards :
  forall cardIDs seat s s',
    recordAfter (takeKittyLoop cardIDs seat s) = Some s' ->
    s' = set_Players (Players s') (set_Kitty (Kitty s') s)
    /\ forall c, (cnt c (handsOf s') + cnt c (Kitty s')
                  = cnt c (handsOf s) + cnt c (Kitty s))%nat.
Proof.
  intros cardIDs seat. induction cardIDs as [|cid rest IH]; intros s s' H; simpl in H.
  - inversion H; subst. split; [destruct s'; reflexivity | reflexivity].
  - destruct (findCard cid (Kitty s)) as [[idx card]|] eqn:Ef.
    + simpl in H.
      destruct (get4 seat (Players s)) as [[player|]|] eqn:Eg; try discriminate.
      destruct (setPlayer seat _ _) as [s1|] eqn:E1; [|discriminate].
      apply setPlayer_eq in E1. destruct E1 as (ps & Hps & ->). simpl in Hps.
      apply IH in H. destruct H as [Hs' Hc]. split.
      * rewrite Hs' at 1. destruct s; reflexivity.
      * intro c. rewrite Hc. unfold handsOf. simpl.
        pose proof (@hands4_set c _ _ _ _ _ Eg Hps) as Hh. simpl in Hh.
        rewrite cnt_app in Hh.
        pose proof (@cnt_removeAt c _ _ _ _ Ef). lia.
    + inversion H; subst. split; [destruct s'; reflexivity | reflexivity].
Qed.

Lemma discardLoop_cards :
  forall cardIDs seat s s',
    recordAfter (discardLoop cardIDs seat s) = Some s' ->
    forall c, (cnt c (handsOf s') <= cnt c (handsOf s))%nat.
Proof.
  intros cardIDs seat. induction cardIDs as [|cid rest IH]; intros s s' H c; simpl in H.
  - inversion H; subst. lia.
  - destruct (get4 seat (Players s)) as [[player|]|] eqn:Eg; try discriminate.
    destruct (findCard cid (Hand player)) as [[idx card]|] eqn:Ef.
    + destruct (setPlayer seat _ s) as [s1|] eqn:E1; [|discriminate].
      apply setPlayer_eq in E1. destruct E1 as (ps & Hps & ->).
      specialize (IH _ _ H c). unfold handsOf in *. simpl in IH.
      pose proof (@hands4_set c _ _ _ _ _ Eg Hps) as Hh. simpl in Hh.
      pose proof (@cnt_removeAt c _ _ _ _ Ef). lia.
    + inversion H; subst. lia.
Qed.

Lemma DeckDeal_cards :
  forall n s cards s',
    DeckDeal n s = Some (cards, s') ->
    s' = set_Deck (Deck s') s
    /\ forall c, cnt c (deckOf s) = (cnt c cards + cnt c (deckOf s'))%nat.
Proof.
  intros n s cards s' H. apply DeckDeal_eq in H.
  destruct H as (d & Hd & -> & ->). split; [destruct s; reflexivity|].
  intro c. unfold deckOf. rewrite Hd. simpl. apply cnt_Deal.
Qed.

(** [processDiscard] moves cards from the deck to a hand and drops the
    discarded ones. *)
Lemma processDiscard_cards :
  forall s seat cardIDs s',
    recordAfter (processDiscard s seat cardIDs) = Some s' ->
    handTouch s s'
    /\ forall c, (cnt c (deckOf s') + cnt c (handsOf s')
                  <= cnt c (deckOf s) + cnt c (handsOf s))%nat.
Proof.
  intros s seat cardIDs s' H.
  assert (HT : handTouch s s').
  { pose proof (processDiscard_flags s seat cardIDs) as HF.
    destruct (processDiscard s seat cardIDs); simpl in H; inversion H; subst; tauto. }
  split; [exact HT|]. intro c.
  unfold processDiscard in H.
  destruct (get4 seat (Players s)) as [seat0|]; [|discriminate].
  destruct (discardLoop cardIDs seat s) as [s1|e s1|] eqn:EL; try discriminate.
  - assert (L1 : recordAfter (discardLoop cardIDs seat s) = Some s1) by now rewrite EL.
    pose proof (@discardLoop_cards _ _ _ _ L1 c) as C1.
    pose proof (@discardLoop_Players _ _ _ _ L1) as P1.
    assert (D1 : deckOf s1 = deckOf s) by (rewrite P1; reflexivity).
    match type of H with
    | recordAfter (match ?e with Some _ => _ | None => _ end) = _ =>
        destruct e as [s2|] eqn:E2; [|discriminate];
        assert (C2 : (cnt c (deckOf s2) + cnt c (handsOf s2)
                      = cnt c (deckOf s1) + cnt c (handsOf s1))%nat)
    end.
    { destruct ((len cardIDs >? 0) && _).
      - destruct (DeckDeal (len cardIDs) s1) as [[newCards s1']|] eqn:ED; [|discriminate].
        apply DeckDeal_cards in ED. destruct ED as [Hs1' Hd]. specialize (Hd c).
        destruct (get4 seat (Players s1')) as [[player|]|] eqn:Eg; try discriminate.
        apply setPlayer_eq in E2. destruct E2 as (ps & Hps & ->).
        pose proof (@hands4_set c _ _ _ _ _ Eg Hps) as Hh. simpl in Hh. rewrite cnt_app in Hh.
        assert (Hsame : handsOf s1' = handsOf s1) by (rewrite Hs1'; reflexivity).
        unfold handsOf in *. unfold deckOf in *. simpl. rewrite Hsame in Hh. lia.
      - inversion E2; subst. reflexivity. }
    destruct (set4 seat true (DiscardComplete s2)) as [dc|]; [|discriminate].
    simpl in H.
    destruct (set4 seat None (PendingDiscards _)) as [pd|]; [|discriminate].
    simpl in H. inversion H; subst. rewrite D1 in C2.
    change (deckOf (set_PendingDiscards pd (set_DiscardComplete dc s2))) with (deckOf s2).
    change (handsOf (set_PendingDiscards pd (set_DiscardComplete dc s2))) with (handsOf s2).
    lia.
  - simpl in H. inversion H; subst.
    assert (L1 : recordAfter (discardLoop cardIDs seat s) = Some s') by now rewrite EL.
    pose proof (@discardLoop_cards _ _ _ _ L1 c) as C1.
    pose proof (@discardLoop_Players _ _ _ _ L1) as P1.
    assert (D1 : deckOf s' = deckOf s) by (rewrite P1; reflexivity).
    rewrite D1. lia.
Qed.

Lemma discardTouch_fields :
  forall s s',
    discardTouch s s' ->
    Phase s' = Phase s /\ Teams s' = Teams s /\ CurrentTrick s' = CurrentTrick s
    /\ Bids s' = Bids s /\ Dealer s' = Dealer s /\ Kitty s' = Kitty s
    /\ CompletedTricks s' = CompletedTricks s /\ TrumpBroken s' = TrumpBroken s
    /\ BidWinner s' = BidWinner s.
Proof.
  intros s s' H. unfold discardTouch in H. rewrite H. simpl. repeat split.
Qed.

(** A step of the discard processing keeps the invariant when it does
    not add cards to the deck and the hands. *)
Lemma Inv_touch :
  forall s s',
    Inv s -> discardTouch s s' ->
    Phase s <> PhaseLobby -> Phase s <> PhaseBidding ->
    (forall c, (cnt c (deckOf s') + cnt c (handsOf s')
                <= cnt c (deckOf s) + cnt c (handsOf s))%nat) ->
    Inv s'.
Proof.
  intros s s' HI HT Hl Hb Hc.
  destruct (discardTouch_fields HT) as (F1 & F2 & F3 & F4 & F5 & F6 & F7 & F8 & _).
  apply Inv_play with s; auto; try congruence.
  rewrite F1. intro Ha. split; [exact Ha|]. intro c.
  rewrite !cnt_cardsInPlay. unfold trickOf, completedOf. rewrite F3, F6, F7.
  specialize (Hc c). lia.
Qed.

Lemma Inv_startPlaying :
  forall s, Inv s -> activeHand (Phase s) = true -> Inv (startPlaying s).
Proof.
  intros s HI Ha. apply Inv_play with s; auto; try discriminate.
  intros _. split; [exact Ha|]. intro c.
  rewrite !cnt_cardsInPlay. unfold startPlaying, deckOf, handsOf, trickOf, completedOf.
  simpl. rewrite cnt_nil. lia.
Qed.

Lemma scanSeats_cards :
  forall n next s r s',
    scanSeats n next s = r ->
    (r = PassReturn s' \/ r = PassBreak s' \/ r = PassAllDone s') ->
    discardTouch s s'
    /\ forall c, (cnt c (deckOf s') + cnt c (handsOf s')
                  <= cnt c (deckOf s) + cnt c (handsOf s))%nat.
Proof.
  induction n as [|n IH]; intros next s r s' H Hr; simpl in H.
  - subst r. destruct Hr as [Hr | [Hr | Hr]]; inversion Hr; subst.
    split; [apply discardTouch_refl | intro; lia].
  - destruct (get4 next (DiscardComplete s)) as [[|]|] eqn:Eg.
    + eapply IH; eauto.
    + destruct (get4 next (PendingDiscards s)) as [pending|] eqn:Ep.
      2:{ subst r. destruct Hr as [Hr | [Hr | Hr]]; discriminate. }
      destruct ((len (ids pending) >? 0) || _).
      * pose proof (@processDiscard_cards (set_CurrentPlayer next s) next (ids pending)) as HC.
        destruct (processDiscard (set_CurrentPlayer next s) next (ids pending))
          as [s1|e s1|] eqn:EP.
        -- subst r. destruct Hr as [Hr | [Hr | Hr]]; inversion Hr; subst.
           destruct (HC s' eq_refl) as [T C]. split; [|exact C].
           apply discardTouch_trans with (set_CurrentPlayer next s);
             [apply discardTouch_CurrentPlayer | now apply handTouch_discardTouch].
        -- destruct (HC s1 eq_refl) as [T C].
           destruct (set4 next None (PendingDiscards s1)) as [pd|].
           2:{ subst r. destruct Hr as [Hr | [Hr | Hr]]; discriminate. }
           subst r. destruct Hr as [Hr | [Hr | Hr]]; inversion Hr; subst.
           split; [|exact C].
           apply discardTouch_trans with (set_CurrentPlayer next s);
             [apply discardTouch_CurrentPlayer|].
           apply discardTouch_trans with s1; [now apply handTouch_discardTouch|].
           destruct s1; reflexivity.
        -- subst r. destruct Hr as [Hr | [Hr | Hr]]; discriminate.
      * subst r. destruct Hr as [Hr | [Hr | Hr]]; inversion Hr; subst.
        split; [apply discardTouch_CurrentPlayer | intro; reflexivity].
    + subst r. destruct Hr as [Hr | [Hr | Hr]]; discriminate.
Qed.

(** The whole advancement: the record it leaves is the one before the
    phase change, touched by the discard processing, or that record with
    the play started. *)
Lemma pendingLoop_cards :
  forall fuel s s',
    pendingLoop fuel s = Some (Done s') ->
    exists s1,
      discardTouch s s1
      /\ (forall c, (cnt c (deckOf s1) + cnt c (handsOf s1)
                     <= cnt c (deckOf s) + cnt c (handsOf s))%nat)
      /\ (s' = s1 \/ s' = startPlaying s1).
Proof.
  induction fuel as [|fuel IH]; intros s s' H; simpl in H; [discriminate|].
  destruct (pendingPass s) as [s1|s1|s1|] eqn:EP; unfold pendingPass in EP.
  - inversion H; subst. exists s'.
    destruct (@scanSeats_cards _ _ _ _ s' EP) as [T C]; auto.
  - destruct (@scanSeats_cards _ _ _ _ s1 EP) as [T C]; auto.
    apply IH in H. destruct H as (s2 & T2 & C2 & Hs').
    exists s2. split; [eapply discardTouch_trans; eauto|]. split; [|exact Hs'].
    intro c. specialize (C c). specialize (C2 c). lia.
  - inversion H; subst. exists s1.
    destruct (@scanSeats_cards _ _ _ _ s1 EP) as [T C]; auto.
  - discriminate.
Qed.

Lemma pendingLoop_not_Failed :
  forall fuel s e s1, pendingLoop fuel s <> Some (Failed e s1).
Proof.
  induction fuel as [|fuel IH]; intros s e s1; simpl; [discriminate|].
  destruct (pendingPass s); try discriminate. apply IH.
Qed.

Lemma processPendingDiscards_Inv :
  forall s s',
    Inv s -> Phase s = PhaseDiscard ->
    recordAfter (processPendingDiscards s) = Some s' -> Inv s'.
Proof.
  intros s s' HI Hp H. unfold processPendingDiscards in H.
  destruct (pendingLoop 5 s) as [[s1|e s1|]|] eqn:EL; try discriminate.
  - simpl in H. inversion H; subst.
    apply pendingLoop_cards in EL. destruct EL as (s1 & T & C & Hs').
    assert (H1 : Inv s1) by (apply Inv_touch with s; auto; rewrite Hp; discriminate).
    destruct Hs' as [-> | ->]; [exact H1|].
    apply Inv_startPlaying; [exact H1|].
    destruct (discardTouch_fields T) as (F1 & _). now rewrite F1, Hp.
  - exfalso. now apply pendingLoop_not_Failed in EL.
Qed.

Lemma applyTakeKitty_Inv :
  forall s a s', Inv s -> recordAfter (applyTakeKitty s a) = Some s' -> Inv s'.
Proof.
  intros s a s' HI H. unfold applyTakeKitty in H.
  destruct (negb (Phase_eqb (Phase s) PhaseKitty)) eqn:Ep;
    [inversion H; subst; exact HI|].
  apply negb_false_iff, Phase_eqb_eq in Ep.
  destruct (negb (PlayerIndex a =? BidWinner s)); [inversion H; subst; exact HI|].
  destruct (get4 (PlayerIndex a) (Players s)) as [seat0|]; [|discriminate].
  pose proof (@takeKittyLoop_cards (ids (CardIDs a)) (PlayerIndex a) s) as HL.
  destruct (takeKittyLoop (ids (CardIDs a)) (PlayerIndex a) s) as [s1|e s1|];
    try discriminate; simpl in H; injection H as <-;
    destruct (HL s1 eq_refl) as [Hs1 Hc].
  - apply Inv_play with s; auto; try (rewrite Hs1; simpl; auto; congruence).
    rewrite Hs1. simpl. rewrite Ep. intros _. split; [reflexivity|]. intro c.
    rewrite !cnt_cardsInPlay. specialize (Hc c).
    unfold deckOf, handsOf, trickOf, completedOf in *. simpl. rewrite cnt_nil.
    rewrite Hs1 in Hc. simpl in Hc. lia.
  - apply Inv_play with s; auto; try (rewrite Hs1; simpl; auto; congruence).
    rewrite Hs1. simpl. rewrite Ep. intros _. split; [reflexivity|]. intro c.
    rewrite !cnt_cardsInPlay. specialize (Hc c).
    unfold deckOf, handsOf, trickOf, completedOf in *. simpl.
    rewrite Hs1 in Hc. simpl in Hc. lia.
Qed.

Lemma applyDiscardDraw_Inv :
  forall s a s', Inv s -> recordAfter (applyDiscardDraw s a) = Some s' -> Inv s'.
Proof.
  intros s a s' HI H. unfold applyDiscardDraw in H.
  destruct (negb (Phase_eqb (Phase s) PhaseDiscard)) eqn:Ep;
    [inversion H; subst; exact HI|].
  apply negb_false_iff, Phase_eqb_eq in Ep.
  destruct (get4 (PlayerIndex a) (DiscardComplete s)) as [[|]|]; try discriminate;
    [inversion H; subst; exact HI|].
  destruct (negb (PlayerIndex a =? CurrentPlayer s)).
  - destruct (set4 _ _ (PendingDiscards s)) as [pd|]; [|discriminate].
    inversion H; subst. apply Inv_kept with s; auto.
  - pose proof (@processDiscard_cards s (PlayerIndex a) (ids (CardIDs a))) as HC.
    destruct (processDiscard s (PlayerIndex a) (ids (CardIDs a))) as [s1|e s1|];
      try discriminate; destruct (HC s1 eq_refl) as [T C];
      assert (H1 : Inv s1)
        by (apply Inv_touch with s; auto;
            [now apply handTouch_discardTouch | rewrite Ep; discriminate
             | rewrite Ep; discriminate]).
    + apply processPendingDiscards_Inv with s1; auto.
      apply handTouch_discardTouch in T.
      destruct (discardTouch_fields T) as (F1 & _). now rewrite F1.
    + simpl in H. injection H as <-. exact H1.
Qed.


(** Dealing replacement cards to a seat moves them from the deck to its
    hand. *)
Lemma deal_to_seat_cards :
  forall n seat player s s2,
    get4 seat (Players s) = Some (Some player) ->
    match DeckDeal n s with
    | Some (newCards, s1) => setPlayer seat (set_Hand (Hand player ++ newCards) player) s1
    | None => None
    end = Some s2 ->
    s2 = set_Players (Players s2) (set_Deck (Deck s2) s)
    /\ forall c, (cnt c (deckOf s2) + cnt c (handsOf s2)
                  = cnt c (deckOf s) + cnt c (handsOf s))%nat.
Proof.
  intros n seat player s s2 Hg H.
  destruct (DeckDeal n s) as [[newCards s1]|] eqn:ED; [|discriminate].
  apply DeckDeal_cards in ED. destruct ED as [Hs1 Hd].
  apply setPlayer_eq in H. destruct H as (ps & Hps & ->).
  split; [rewrite Hs1; destruct s; reflexivity|].
  intro c. specialize (Hd c).
  assert (Hg' : get4 seat (Players s1) = Some (Some player)) by (rewrite Hs1; exact Hg).
  pose proof (@hands4_set c _ _ _ _ _ Hg' Hps) as Hh. simpl in Hh. rewrite cnt_app in Hh.
  assert (Hsame : hands4 (Players s1) = hands4 (Players s)) by (rewrite Hs1; reflexivity).
  rewrite Hsame in Hh.
  unfold handsOf. change (deckOf (set_Players ps s1)) with (deckOf s1).
  change (Players (set_Players ps s1)) with ps. lia.
Qed.

Lemma applyDiscard_Inv :
  forall s a s', Inv s -> recordAfter (applyDiscard s a) = Some s' -> Inv s'.
Proof.
  intros s a s' HI H. unfold applyDiscard in H.
  destruct (negb (Phase_eqb (Phase s) PhaseKitty)) eqn:Ep;
    [inversion H; subst; exact HI|].
  apply negb_false_iff, Phase_eqb_eq in Ep.
  destruct (negb (PlayerIndex a =? BidWinner s)); [inversion H; subst; exact HI|].
  destruct (Trump s) as [trump|]; [|inversion H; subst; exact HI].
  destruct (len (Kitty s) >? 0); [inversion H; subst; exact HI|].
  destruct (get4 (PlayerIndex a) (Players s)) as [seat0|]; [|discriminate].
  pose proof (@discardLoop_cards (ids (CardIDs a)) (PlayerIndex a) s) as HC.
  pose proof (@discardLoop_Players (ids (CardIDs a)) (PlayerIndex a) s) as HP.
  destruct (discardLoop (ids (CardIDs a)) (PlayerIndex a) s) as [s1|e s1|];
    try discriminate; specialize (HC s1 eq_refl); specialize (HP s1 eq_refl).
  2:{ simpl in H. injection H as <-.
      apply Inv_touch with s; auto; try (rewrite Ep; discriminate).
      - rewrite HP. apply handTouch_discardTouch, handTouch_Players.
      - intro c. specialize (HC c). replace (deckOf s1) with (deckOf s); [lia|].
        rewrite HP. reflexivity. }
  assert (H1 : Inv s1).
  { apply Inv_touch with s; auto; try (rewrite Ep; discriminate).
    - rewrite HP. apply handTouch_discardTouch, handTouch_Players.
    - intro c. specialize (HC c). replace (deckOf s1) with (deckOf s); [lia|].
      rewrite HP. reflexivity. }
  assert (Ep1 : Phase s1 = PhaseKitty) by (rewrite HP; exact Ep).
  clear HC HP HI. revert H. generalize H1 Ep1. clear H1 Ep1 Ep. generalize s1. clear s1 s.
  intros s HI Ep H.
  destruct (get4 (PlayerIndex a) (Players s)) as [[player|]|] eqn:Eg; try discriminate.
  destruct (len (Hand player) >? 6); [simpl in H; injection H as <-; exact HI|].
  match type of H with
  | recordAfter (match ?e with Some _ => _ | None => _ end) = _ =>
      destruct e as [s2|] eqn:E2; [|discriminate];
      assert (C2 : s2 = set_Players (Players s2) (set_Deck (Deck s2) s)
                   /\ forall c, (cnt c (deckOf s2) + cnt c (handsOf s2)
                                 = cnt c (deckOf s) + cnt c (handsOf s))%nat)
  end.
  { destruct ((len (Hand player) <? 6) && _).
    - eapply deal_to_seat_cards; eauto.
    - inversion E2; subst. split; [destruct s2; reflexivity | reflexivity]. }
  destruct C2 as [Hs2 C2]. cbv zeta in H.
  match type of H with
  | recordAfter (match set4 ?i true ?d with Some _ => _ | None => _ end) = _ =>
      destruct (set4 i true d) as [dc|]; [|discriminate]
  end.
  match type of H with
  | recordAfter (if _ then processPendingDiscards ?st else _) = _ =>
      assert (H4 : Inv st); [|assert (Hp4 : Phase st = PhaseDiscard) by reflexivity]
  end.
  { apply Inv_play with s; auto; try (rewrite Hs2; reflexivity); try discriminate.
    simpl. intros _. split; [now rewrite Ep|]. intro c.
    rewrite !cnt_cardsInPlay. specialize (C2 c).
    unfold deckOf, handsOf, trickOf, completedOf in *. simpl. rewrite cnt_nil.
    rewrite Hs2. simpl. rewrite Hs2 in C2. simpl in C2. lia. }
  match type of H with
  | recordAfter (if ?c then _ else _) = _ => destruct c
  end.
  - eapply processPendingDiscards_Inv; eauto.
  - simpl in H. injection H as <-. exact H4.
Qed.

Lemma creditCards_eq :
  forall team cards s s',
    creditCards team cards s = Some s' -> s' = set_CardsWon (CardsWon s') s.
Proof.
  intros team cards s s' H. unfold creditCards in H.
  destruct (get2 team (CardsWon s)); [|discriminate].
  destruct (set2 team _ (CardsWon s)); [|discriminate].
  inversion H. destruct s; reflexivity.
Qed.

Lemma cnt_flat_map_app :
  forall c (f : CompletedTrick -> list Card) l1 l2,
    cnt c (flat_map f (l1 ++ l2)) = (cnt c (flat_map f l1) + cnt c (flat_map f l2))%nat.
Proof. intros. rewrite flat_map_app. apply cnt_app. Qed.

Lemma applyPlayCard_Inv :
  forall s a s', Inv s -> recordAfter (applyPlayCard s a) = Some s' -> Inv s'.
Proof.
  intros s a s' HI H. unfold applyPlayCard in H.
  destruct (negb (Phase_eqb (Phase s) PhasePlaying)) eqn:Ep;
    [inversion H; subst; exact HI|].
  apply negb_false_iff, Phase_eqb_eq in Ep.
  destruct (negb (PlayerIndex a =? CurrentPlayer s)); [inversion H; subst; exact HI|].
  destruct (get4 (PlayerIndex a) (Players s)) as [[player|]|] eqn:Eg; try discriminate.
  destruct (findCard (CardID a) (Hand player)) as [[cardIdx card]|] eqn:Ef;
    [|inversion H; subst; exact HI].
  destruct (Trump s) as [trump|]; [|discriminate].
  destruct (CurrentTrick s) as [trick|] eqn:Etr; [|discriminate].
  cbv zeta in H.
  set (trick1 := if len (Cards trick) =? 0
                 then set_LeadSuit (if IsTrump card trump then trump else CSuit card) trick
                 else trick) in *.
  assert (Hc1 : Cards trick1 = Cards trick)
    by (unfold trick1; destruct (len (Cards trick) =? 0); reflexivity).
  assert (Htrick : forall c, cnt c (trickOf s) = cnt c (map TC_Card (Cards trick)))
    by (intro c; unfold trickOf; now rewrite Etr).
  pose proof (@cnt_removeAt) as Hrem.
  match type of H with
  | recordAfter (if ?c then _ else _) = _ => destruct c
  end.
  { simpl in H. injection H as <-.
    apply Inv_play with s; auto; simpl; try (rewrite Ep; discriminate).
    intros _. split; [now rewrite Ep|]. intro c.
    rewrite !cnt_cardsInPlay. unfold deckOf, handsOf, trickOf, completedOf. simpl.
    rewrite Etr, Hc1. lia. }
  destruct (setPlayer (PlayerIndex a) _ _) as [s1|] eqn:E1; [|discriminate].
  apply setPlayer_eq in E1. destruct E1 as (ps & Hps & ->). simpl in Hps.
  assert (Hhand : forall c, (cnt c (hands4 ps) + cnt c [card] = cnt c (handsOf s))%nat).
  { intro c. pose proof (@hands4_set c _ _ _ _ _ Eg Hps) as Hh. simpl in Hh.
    pose proof (@cnt_removeAt c _ _ _ _ Ef). unfold handsOf. lia. }
  assert (Hnew : forall c,
             cnt c (map TC_Card (Cards trick1 ++ [mkTrickCard card (PlayerIndex a)]))
             = (cnt c (map TC_Card (Cards trick)) + cnt c [card])%nat).
  { intro c. rewrite map_app, cnt_app, Hc1. reflexivity. }
  match type of H with
  | recordAfter (if ?c then _ else _) = _ => destruct c
  end.
  - match type of H with
    | context [creditCards ?t ?cs ?st] =>
        destruct (creditCards t cs st) as [s2|] eqn:E2; [|discriminate]
    end.
    apply creditCards_eq in E2.
    match type of E2 with
    | _ = set_CardsWon _ ?st =>
        assert (F : Phase s2 = PhasePlaying /\ TrumpBroken s2 = TrumpBroken s
                    /\ Teams s2 = Teams s /\ Dealer s2 = Dealer s /\ Bids s2 = Bids s
                    /\ Deck s2 = Deck s /\ Players s2 = ps /\ Kitty s2 = Kitty s
                    /\ CompletedTricks s2 = CompletedTricks st)
          by (rewrite E2; simpl; repeat split; auto)
    end.
    destruct F as (F1 & F2 & F3 & F4 & F5 & F6 & F7 & F8 & F9). simpl in F9.
    match type of H with
    | recordAfter (if ?c then _ else _) = _ => destruct c
    end; simpl in H; injection H as <-.
    + apply Inv_play with s; auto; simpl; try discriminate.
    + apply Inv_play with s; auto; simpl; try (rewrite F1; discriminate).
      intros _. split; [now rewrite Ep|]. intro c.
      rewrite !cnt_cardsInPlay. unfold deckOf, handsOf, trickOf, completedOf. simpl.
      rewrite F6, F7, F8, F9. rewrite cnt_flat_map_app. simpl. rewrite app_nil_r.
      rewrite cnt_nil. specialize (Hhand c). specialize (Hnew c).
      rewrite Hnew. rewrite Etr. unfold handsOf in Hhand. lia.
  - simpl in H. injection H as <-.
    apply Inv_play with s; auto; simpl; try (rewrite Ep; discriminate).
    intros _. split; [now rewrite Ep|]. intro c.
    rewrite !cnt_cardsInPlay. unfold deckOf, handsOf, trickOf, completedOf. simpl.
    specialize (Hhand c). specialize (Hnew c). rewrite Hnew. rewrite Etr.
    unfold handsOf in Hhand. lia.
Qed.

(* ================================================================== *)
(** * Dealing *)

Lemma seatHands_other :
  forall seats i new ps ps',
    set4 i new ps = Some ps' -> ~ In i seats -> seatHands ps' seats = seatHands ps seats.
Proof.
  induction seats as [|j rest IH]; intros i new ps ps' Hs Hn; simpl; [reflexivity|].
  rewrite (@get4_set4_other _ i j new ps ps' Hs) by (intro; subst; apply Hn; now left).
  f_equal. eapply IH; eauto. intro Hin. apply Hn. now right.
Qed.

(** Dealing hands replaces the hands of the seats by cards of the deck. *)
Lemma dealHands_cards :
  forall seats s s',
    NoDup seats ->
    dealHands seats s = Some s' ->
    s' = set_Players (Players s') (set_Deck (Deck s') s)
    /\ forall c, (cnt c (deckOf s') + cnt c (handsOf s') + cnt c (seatHands (Players s) seats)
                  = cnt c (deckOf s) + cnt c (handsOf s))%nat.
Proof.
  induction seats as [|i rest IH]; intros s s' Hnd H; simpl in H.
  - inversion H; subst. split; [destruct s'; reflexivity|]. intro c. simpl.
    rewrite cnt_nil. lia.
  - inversion Hnd as [|? ? Hni Hnd']; subst.
    destruct (DeckDeal 6 s) as [[hand s1]|] eqn:ED; [|discriminate].
    apply DeckDeal_cards in ED. destruct ED as [Hs1 Hd].
    destruct (get4 i (Players s1)) as [[p|]|] eqn:Eg; try discriminate.
    destruct (setPlayer i _ s1) as [s2|] eqn:E2; [|discriminate].
    apply setPlayer_eq in E2. destruct E2 as (ps & Hps & ->).
    destruct (IH _ _ Hnd' H) as [Hs' Hc]. split.
    + rewrite Hs' at 1. rewrite Hs1. destruct s; reflexivity.
    + intro c. specialize (Hc c). specialize (Hd c).
      pose proof (@hands4_set c _ _ _ _ _ Eg Hps) as Hh. simpl in Hh.
      change (Players (set_Players ps s1)) with ps in Hc.
      rewrite (@seatHands_other rest i _ _ _ Hps Hni) in Hc.
      assert (Hp1 : Players s1 = Players s) by (rewrite Hs1; reflexivity).
      rewrite Hp1 in *. simpl. rewrite Eg. rewrite cnt_app. simpl.
      unfold handsOf in *. unfold deckOf in *. simpl in *. rewrite ?Hp1 in Hc. lia.
Qed.

Lemma seatHands_all : forall ps, seatHands ps [0; 1; 2; 3] = hands4 ps.
Proof. intros [p0 p1 p2 p3]. unfold seatHands, hands4. simpl. now rewrite app_nil_r. Qed.

(** After a deal the deck, the hands and the kitty hold the shuffled
    deck. *)
Lemma deal_cards :
  forall s d s1 kitty s2,
    Deck s = Some d ->
    dealHands [0; 1; 2; 3] s = Some s1 ->
    DeckDeal 6 s1 = Some (kitty, s2) ->
    s2 = set_Players (Players s2) (set_Deck (Deck s2) s)
    /\ forall c, (cnt c (deckOf s2) + cnt c (handsOf s2) + cnt c kitty = cnt c d)%nat.
Proof.
  intros s d s1 kitty s2 Hd H1 H2.
  assert (Hnd : NoDup [0; 1; 2; 3]).
  { repeat constructor; simpl; intuition lia. }
  destruct (dealHands_cards _ Hnd H1) as [Hs1 C1].
  apply DeckDeal_cards in H2. destruct H2 as [Hs2 C2]. split.
  - rewrite Hs2. rewrite Hs1. destruct s; reflexivity.
  - intro c. specialize (C1 c). specialize (C2 c).
    rewrite seatHands_all in C1. unfold handsOf in *.
    assert (Hp : Players s2 = Players s1) by (rewrite Hs2; reflexivity). rewrite Hp.
    assert (Hdk : deckOf s = d) by (unfold deckOf; now rewrite Hd). rewrite Hdk in C1. lia.
Qed.

Lemma Deal_length :
  forall n d,
    0 <= n <= len d ->
    len (fst (Deal n d)) = n /\ len (snd (Deal n d)) = len d - n.
Proof.
  intros n d H. unfold Deal, len in *. simpl.
  destruct (n >? Z.of_nat (List.length d)) eqn:E; [lia|].
  rewrite length_firstn, length_skipn. lia.
Qed.

Lemma Shuffle_length : forall draw d, List.length (Shuffle draw d) = List.length d.
Proof. intros. apply Permutation_length, Shuffle_Permutation. Qed.

Lemma dealHands_other :
  forall seats s s' i,
    dealHands seats s = Some s' -> ~ In i seats ->
    get4 i (Players s') = get4 i (Players s).
Proof.
  induction seats as [|j rest IH]; intros s s' i H Hn; simpl in H.
  - inversion H. reflexivity.
  - destruct (DeckDeal 6 s) as [[hand s1]|] eqn:ED; [|discriminate].
    apply DeckDeal_cards in ED. destruct ED as [Hs1 _].
    destruct (get4 j (Players s1)) as [[p|]|]; try discriminate.
    destruct (setPlayer j _ s1) as [s2|] eqn:E2; [|discriminate].
    apply setPlayer_eq in E2. destruct E2 as (ps & Hps & ->).
    rewrite (IH _ _ i H) by (intro; apply Hn; now right). simpl.
    rewrite (@get4_set4_other _ j i _ _ _ Hps) by (intro; subst; apply Hn; now left).
    rewrite Hs1. reflexivity.
Qed.

(** Each seat dealt to holds six cards, while the deck is long enough. *)
Lemma dealHands_sizes :
  forall seats s s' d,
    NoDup seats ->
    Deck s = Some d -> 6 * len seats <= len d ->
    dealHands seats s = Some s' ->
    (exists d', Deck s' = Some d' /\ len d' = len d - 6 * len seats)
    /\ forall i, In i seats ->
                 exists p, get4 i (Players s') = Some (Some p) /\ len (Hand p) = 6.
Proof.
  induction seats as [|j rest IH]; intros s s' d Hnd Hd Hlen H; simpl in H.
  - inversion H; subst. split; [exists d; split; [exact Hd | unfold len; simpl; lia]|].
    intros i [].
  - inversion Hnd as [|? ? Hni Hnd']; subst.
    assert (Hl : len (j :: rest) = 1 + len rest) by (unfold len; cbn [List.length]; lia).
    destruct (DeckDeal 6 s) as [[hand s1]|] eqn:ED; [|discriminate].
    apply DeckDeal_eq in ED. destruct ED as (d0 & Hd0 & Hhand & Hs1).
    rewrite Hd in Hd0. inversion Hd0; subst d0. clear Hd0.
    assert (Hpos : 0 <= len rest) by (unfold len; lia).
    destruct (@Deal_length 6 d) as [L1 L2]; [lia|].
    destruct (get4 j (Players s1)) as [[p|]|] eqn:Eg; try discriminate.
    destruct (setPlayer j _ s1) as [s2|] eqn:E2; [|discriminate].
    apply setPlayer_eq in E2. destruct E2 as (ps & Hps & ->).
    assert (Hd2 : Deck (set_Players ps s1) = Some (snd (Deal 6 d))) by (rewrite Hs1; reflexivity).
    destruct (IH _ _ _ Hnd' Hd2 ltac:(lia) H) as [(d' & Hd' & Hl') Hseats].
    split.
    + exists d'. split; [exact Hd'|]. lia.
    + intros i [<- | Hin]; [|now apply Hseats].
      rewrite (@dealHands_other _ _ _ j H Hni). simpl.
      rewrite (get4_set4_same _ _ _ Hps). eexists. split; [reflexivity|].
      simpl. rewrite Hhand. exact L1.
Qed.

(** What a start of the game that is accepted does. *)
Lemma applyStartGame_Done :
  forall rnd s a s',
    applyStartGame rnd s a = Done s' ->
    Phase s = PhaseLobby /\ PlayerIndex a = House s /\ AllPlayersSeated s = true
    /\ (exists d1 kitty d2,
           dealHands [0; 1; 2; 3] (set_Deck (Some (Shuffle (draw rnd) NewDeck)) s) = Some d1
           /\ DeckDeal 6 d1 = Some (kitty, d2)
           /\ s' = set_TrumpBroken false
                     (set_PendingDiscards (fill4 None)
                        (set_DiscardComplete (fill4 false)
                           (set_LastTrick None
                              (set_CardsWon (mkArr2 [] [])
                                 (set_CompletedTricks []
                                    (set_TricksPlayed 0
                                       (set_Trump None
                                          (set_Bids []
                                             (set_CurrentPlayer (NextPlayer (Dealer s))
                                                (set_Phase PhaseBidding
                                                   (set_Kitty kitty d2)))))))))))
           /\ d2 = set_Players (Players d2) (set_Deck (Deck d2) s)).
Proof.
  intros rnd s a s' H. unfold applyStartGame in H.
  destruct (negb (Phase_eqb (Phase s) PhaseLobby)) eqn:Ep; [discriminate|].
  apply negb_false_iff, Phase_eqb_eq in Ep.
  destruct (negb (PlayerIndex a =? House s)) eqn:Eh; [discriminate|].
  apply negb_false_iff, Z.eqb_eq in Eh.
  destruct (negb (AllPlayersSeated s)) eqn:Ea; [discriminate|].
  apply negb_false_iff in Ea.
  split; [exact Ep|]. split; [exact Eh|]. split; [exact Ea|].
  destruct (dealHands _ _) as [d1|] eqn:E1; [|discriminate].
  destruct (DeckDeal 6 d1) as [[kitty d2]|] eqn:E2; [|discriminate].
  exists d1, kitty, d2. split; [reflexivity|]. split; [exact E2|].
  inversion H.
  destruct (@deal_cards (set_Deck (Some (Shuffle (draw rnd) NewDeck)) s) _ d1 kitty d2
              eq_refl E1 E2) as [Hd2 _].
  split.
  - unfold PlayerAfterDealer. simpl. rewrite Hd2. reflexivity.
  - rewrite Hd2 at 1. destruct s; reflexivity.
Qed.

Lemma applyStartGame_Failed :
  forall rnd s a e s', applyStartGame rnd s a = Failed e s' -> s' = s.
Proof.
  intros rnd s a e s' H. unfold applyStartGame in H.
  destruct (negb (Phase_eqb (Phase s) PhaseLobby)); [inversion H; reflexivity|].
  destruct (negb (PlayerIndex a =? House s)); [inversion H; reflexivity|].
  destruct (negb (AllPlayersSeated s)); [inversion H; reflexivity|].
  destruct (dealHands _ _) as [d1|]; [|discriminate].
  destruct (DeckDeal 6 d1) as [[kitty d2]|]; discriminate.
Qed.

Lemma applyStartGame_Inv :
  forall rnd s a s', Inv s -> recordAfter (applyStartGame rnd s a) = Some s' -> Inv s'.
Proof.
  intros rnd s a s' HI H.
  destruct (applyStartGame rnd s a) as [s1|e s1|] eqn:E; simpl in H; inversion H; subst.
  2:{ apply applyStartGame_Failed in E. now subst. }
  clear H. apply applyStartGame_Done in E.
  destruct E as (Ep & _ & _ & d1 & kitty & d2 & E1 & E2 & -> & Hd2).
  destruct (@deal_cards (set_Deck (Some (Shuffle (draw rnd) NewDeck)) s) _ d1 kitty d2
              eq_refl E1 E2) as [_ C].
  inv_parts HI. unfold Inv. simpl.
  assert (F : TrumpBroken d2 = TrumpBroken s /\ Teams d2 = Teams s /\ Dealer d2 = Dealer s
              /\ CurrentTrick d2 = CurrentTrick s)
    by (rewrite Hd2; simpl; repeat split).
  destruct F as (F1 & F2 & F3 & F4). rewrite F2, F3.
  repeat split; auto; try discriminate; try lia.
  - intros _ c. rewrite cnt_cardsInPlay. specialize (C c).
    unfold deckOf, handsOf, trickOf, completedOf in *. simpl.
    rewrite F4, (Ilobby Ep). rewrite cnt_Shuffle in C. rewrite !cnt_nil. lia.
  - unfold len. simpl. rewrite Z.add_0_r.
    rewrite NextPlayer_seat by lia. reflexivity.
  - intros _ c. rewrite cnt_cardsInPlay. specialize (C c).
    unfold deckOf, handsOf, trickOf, completedOf in *. simpl.
    rewrite F4, (Ilobby Ep). rewrite cnt_Shuffle in C. rewrite !cnt_nil. lia.
Qed.

Lemma StartNewHand_Inv :
  forall rnd s s', Inv s -> recordAfter (StartNewHand rnd s) = Some s' -> Inv s'.
Proof.
  intros rnd s s' HI H. unfold StartNewHand in H.
  destruct (dealHands _ _) as [d1|] eqn:E1; [|discriminate].
  destruct (DeckDeal 6 d1) as [[kitty d2]|] eqn:E2; [|discriminate].
  simpl in H. injection H as <-.
  destruct (@deal_cards
              (set_Deck (Some (Shuffle (draw rnd) NewDeck))
                        (set_Dealer (NextPlayer (Dealer s)) s)) _ d1 kitty d2
              eq_refl E1 E2) as [Hd2 C].
  inv_parts HI. unfold Inv. simpl.
  assert (F : TrumpBroken d2 = TrumpBroken s /\ Teams d2 = Teams s
              /\ Dealer d2 = NextPlayer (Dealer s))
    by (rewrite Hd2; simpl; repeat split).
  destruct F as (F1 & F2 & F3). unfold PlayerAfterDealer. simpl. rewrite F2, F3.
  pose proof (@NextPlayer_valid (Dealer s) ltac:(lia)) as Hv.
  repeat split; auto; try discriminate; try lia.
  - intros _ c. rewrite cnt_cardsInPlay. specialize (C c).
    unfold deckOf, handsOf, trickOf, completedOf in *. simpl.
    rewrite cnt_Shuffle in C. rewrite !cnt_nil. lia.
  - unfold len. simpl. rewrite Z.add_0_r.
    rewrite (@NextPlayer_seat (NextPlayer (Dealer s))) by lia. reflexivity.
  - intros _ c. rewrite cnt_cardsInPlay. specialize (C c).
    unfold deckOf, handsOf, trickOf, completedOf in *. simpl.
    rewrite cnt_Shuffle in C. rewrite !cnt_nil. lia.
Qed.

Lemma handleScoring_Inv :
  forall s s',
    Inv s -> Phase s = PhaseScoring ->
    recordAfter (handleScoring s) = Some s' -> Inv s'.
Proof.
  intros s s' HI Hp H. unfold handleScoring in H.
  destruct (ApplyScore s (CalculateScore s)) as [s1|] eqn:E1; [|discriminate].
  unfold ApplyScore in E1.
  destruct (b0 (Teams s)) as [t0|]; [|discriminate].
  destruct (b1 (Teams s)) as [t1|]; [|discriminate].
  injection E1 as <-.
  destruct (CheckGameOver _) as [[gameOver winningTeam]|]; [|discriminate].
  inv_parts HI.
  destruct gameOver.
  - cbv zeta in H.
    match type of H with
    | context [get2 winningTeam ?t] => destruct (get2 winningTeam t) as [[team|]|] eqn:Eg
    end; try discriminate.
    match type of H with
    | context [set2 winningTeam ?v ?t] => destruct (set2 winningTeam v t) as [teams|] eqn:Es
    end; [|discriminate].
    simpl in H. injection H as <-.
    unfold Inv. simpl. rewrite Hp in *.
    repeat split; auto; try discriminate; try lia.
    unfold set2 in Es. simpl in Es.
    destruct (winningTeam =? 0); [inversion Es; eauto|].
    destruct (winningTeam =? 1); [inversion Es; eauto | discriminate].
  - simpl in H. injection H as <-.
    unfold Inv. simpl. rewrite Hp in *.
    repeat split; auto; try discriminate; try lia. eauto.
Qed.

Lemma rejoinScan_Inv :
  forall seats tok s s', Inv s -> recordAfter (rejoinScan seats tok s) = Some s' -> Inv s'.
Proof.
  induction seats as [|i rest IH]; intros tok s s' HI H; simpl in H.
  - injection H as <-. exact HI.
  - destruct (get4 i (Players s)) as [[p|]|] eqn:Eg; eauto.
    destruct (String.eqb (SessionToken p) tok); eauto.
    destruct (setPlayer i _ s) as [s1|] eqn:E1; [|discriminate].
    apply setPlayer_eq in E1. destruct E1 as (ps & Hps & ->).
    simpl in H. injection H as <-. eapply Inv_set_seat; eauto.
Qed.

Lemma HandleDisconnect_Inv :
  forall s client, Inv s -> Inv (HandleDisconnect s client).
Proof.
  intros s client HI. unfold HandleDisconnect.
  destruct ((Client_SeatIndex client >=? 0) && (Client_SeatIndex client <? 4)); [|exact HI].
  destruct (get4 _ (Players s)) as [[p|]|] eqn:Eg; try exact HI.
  destruct (setPlayer _ _ s) as [s1|] eqn:E1; [|exact HI].
  apply setPlayer_eq in E1. destruct E1 as (ps & Hps & ->).
  eapply Inv_set_seat; eauto.
Qed.

(** Every action of the engine keeps the invariant; a reset needs the
    acting seat to be a seat. *)
Lemma ApplyAction_Inv :
  forall rnd s a s',
    Inv s ->
    (AType a = ActionResetGame -> 0 <= PlayerIndex a <= 3) ->
    recordAfter (ApplyAction rnd s a) = Some s' -> Inv s'.
Proof.
  intros rnd s a s' HI Hr H. unfold ApplyAction in H.
  destruct (AType a) eqn:Et.
  - eapply applyJoinSeat_Inv; eauto.
  - eapply applyLeaveSeat_Inv; eauto.
  - eapply applyChangeName_Inv; eauto.
  - eapply applyKickPlayer_Inv; eauto.
  - eapply applyTransferHouse_Inv; eauto.
  - eapply applyStartGame_Inv; eauto.
  - eapply applyPlaceBid_Inv; eauto.
  - eapply applySelectTrump_Inv; eauto.
  - eapply applyTakeKitty_Inv; eauto.
  - eapply applyDiscard_Inv; eauto.
  - eapply applyDiscardDraw_Inv; eauto.
  - eapply applyPlayCard_Inv; eauto.
  - eapply applyResetGame_Inv; eauto.
  - simpl in H. injection H as <-. exact HI.
Qed.

Lemma HandleMessage_Inv :
  forall rnd hub s client msg s',
    Inv s -> clientOk client ->
    recordAfter (HandleMessage rnd hub s client msg) = Some s' -> Inv s'.
Proof.
  intros rnd hub s client msg s' HI Hc H. unfold clientOk in Hc.
  assert (Hseat : forall st (P : Outcome) st',
             Inv st ->
             recordAfter (if Client_SeatIndex client <? 0 then Failed ErrInvalidAction st
                          else P) = Some st' ->
             (0 <= Client_SeatIndex client <= 3 -> recordAfter P = Some st' -> Inv st') ->
             Inv st').
  { intros st P st' HIst HP Hk. destruct (Client_SeatIndex client <? 0) eqn:E.
    - simpl in HP. injection HP as <-. exact HIst.
    - apply Hk; [lia | exact HP]. }
  unfold HandleMessage in H. destruct (Msg_Type msg).
  - (* join *)
    unfold handleJoinTable in H.
    destruct (Msg_SeatIndex msg) as [seatIndex|]; [|simpl in H; injection H as <-; exact HI].
    match type of H with
    | context [match ?l with Done _ => _ | Failed _ _ => _ | Panicked => _ end] =>
        destruct l as [s1|e s1|] eqn:EL;
          [assert (H1 : Inv s1) | assert (H1 : Inv s1) | discriminate]
    end.
    + destruct ((Client_SeatIndex client >=? 0)
                && negb (Client_SeatIndex client =? seatIndex));
        [|injection EL as <-; exact HI].
      eapply ApplyAction_Inv; [exact HI | | rewrite EL; reflexivity]; simpl; discriminate.
    + destruct (negb (Phase_eqb (Phase s1) PhaseLobby)).
      * destruct (get4 seatIndex (Players s1)) as [[player|]|] eqn:Eg; try discriminate.
        -- destruct (negb (String.eqb (Name player) "") && Connected player);
             [simpl in H; injection H as <-; exact H1|].
           destruct (setPlayer seatIndex _ s1) as [s2|] eqn:E2; [|discriminate].
           apply setPlayer_eq in E2. destruct E2 as (ps & Hps & ->).
           simpl in H. injection H as <-. eapply Inv_set_seat; eauto.
        -- simpl in H. injection H as <-. exact H1.
      * eapply ApplyAction_Inv; [exact H1 | | exact H]; simpl; discriminate.
    + destruct ((Client_SeatIndex client >=? 0)
                && negb (Client_SeatIndex client =? seatIndex)); [|discriminate].
      eapply ApplyAction_Inv; [exact HI | | rewrite EL; reflexivity]; simpl; discriminate.
    + simpl in H. injection H as <-. exact H1.
  - unfold handleLeaveSeat in H. destruct (Client_SeatIndex client <? 0).
    + simpl in H. injection H as <-. exact HI.
    + eapply ApplyAction_Inv; [exact HI | | exact H]; simpl; discriminate.
  - unfold handleChangeName in H. destruct (Client_SeatIndex client <? 0).
    + simpl in H. injection H as <-. exact HI.
    + eapply ApplyAction_Inv; [exact HI | | exact H]; simpl; discriminate.
  - unfold handleKickPlayer in H. eapply Hseat; [exact HI | exact H |].
    intros _ HP. destruct (Msg_SeatIndex msg); [|simpl in HP; injection HP as <-; exact HI].
    eapply ApplyAction_Inv; [exact HI | | exact HP]; simpl; discriminate.
  - unfold handleTransferHouse in H. eapply Hseat; [exact HI | exact H |].
    intros _ HP. destruct (Msg_SeatIndex msg); [|simpl in HP; injection HP as <-; exact HI].
    eapply ApplyAction_Inv; [exact HI | | exact HP]; simpl; discriminate.
  - unfold handleStartGame in H.
    eapply ApplyAction_Inv; [exact HI | | exact H]; simpl; discriminate.
  - unfold handlePlaceBid in H. eapply Hseat; [exact HI | exact H |].
    intros _ HP. eapply ApplyAction_Inv; [exact HI | | exact HP]; simpl; discriminate.
  - unfold handleSelectTrump in H. eapply Hseat; [exact HI | exact H |].
    intros _ HP. eapply ApplyAction_Inv; [exact HI | | exact HP]; simpl; discriminate.
  - unfold handleTakeKitty in H. eapply Hseat; [exact HI | exact H |].
    intros _ HP. eapply ApplyAction_Inv; [exact HI | | exact HP]; simpl; discriminate.
  - unfold handleDiscard in H. eapply Hseat; [exact HI | exact H |].
    intros _ HP. eapply ApplyAction_Inv; [exact HI | | exact HP]; simpl; discriminate.
  - unfold handleDiscardDraw in H. eapply Hseat; [exact HI | exact H |].
    intros _ HP. eapply ApplyAction_Inv; [exact HI | | exact HP]; simpl; discriminate.
  - unfold handlePlayCard in H. eapply Hseat; [exact HI | exact H |].
    intros _ HP.
    match type of HP with
    | context [ApplyAction rnd s ?act] =>
        pose proof (@ApplyAction_Inv rnd s act) as HA;
          destruct (ApplyAction rnd s act) as [s1|e s1|]; try discriminate
    end.
    + assert (H1 : Inv s1) by (apply HA; [exact HI | discriminate | reflexivity]).
      destruct (Phase_eqb (Phase s1) PhaseScoring) eqn:Ep.
      * apply Phase_eqb_eq in Ep. eapply handleScoring_Inv; eauto.
      * simpl in HP. injection HP as <-. exact H1.
    + apply HA; [exact HI | discriminate | exact HP].
  - unfold handleRejoin in H. eapply rejoinScan_Inv; eauto.
  - unfold handleNewHand in H.
    destruct (negb (Phase_eqb (Phase s) PhaseScoring) && _);
      [simpl in H; injection H as <-; exact HI|].
    destruct (Phase_eqb (Phase s) PhaseFinished).
    + destruct (b0 (Teams s)) as [t0|]; [|discriminate].
      destruct (b1 (Teams s)) as [t1|]; [|discriminate].
      simpl in H. injection H as <-. unfold Inv. simpl.
      repeat split; auto; try lia; try discriminate;
        try (eexists; eexists; reflexivity); try (intros b []).
    + eapply StartNewHand_Inv; eauto.
  - unfold handleResetGame in H. eapply Hseat; [exact HI | exact H |].
    intros Hv HP. eapply ApplyAction_Inv; [exact HI | | exact HP]. intros _. exact Hv.
  - simpl in H. injection H as <-. exact HI.
Qed.

(** The invariant holds of every reachable record. *)
Theorem reachable_Inv : forall s, reachable s -> Inv s.
Proof.
  intros s H. induction H.
  - apply Inv_NewGameState.
  - eapply HandleMessage_Inv; eauto.
  - now apply HandleDisconnect_Inv.
Qed.

(* ================================================================== *)
(** * The examples are reachable *)

Lemma runMessages_reachable :
  forall msgs s s',
    reachable s ->
    Forall (fun cm => clientOk (fst cm)) msgs ->
    runMessages s msgs = Some s' ->
    reachable s'.
Proof.
  induction msgs as [|[client msg] rest IH]; intros s s' Hr Hok H; simpl in H.
  - inversion H; subst. exact Hr.
  - inversion Hok as [|? ? Hc Hrest]; subst.
    destruct (recordAfter (HandleMessage rnd0 noHub s client msg)) as [s1|] eqn:E;
      [|discriminate].
    apply IH with s1; auto.
    apply reach_message with rnd0 noHub client msg s; auto.
Qed.

Ltac clients_ok :=
  repeat constructor; unfold clientOk; simpl; lia.

Lemma seatedTable_reachable : reachable seatedTable.
Proof.
  apply runMessages_reachable
    with (msgs := [(clientAt (-1), joinMsg 0); (clientAt (-1), joinMsg 1);
                   (clientAt (-1), joinMsg 2); (clientAt (-1), joinMsg 3)])
         (s := NewGameState 52).
  - apply reach_new.
  - clients_ok.
  - vm_compute. reflexivity.
Qed.

Lemma seatedHouse1_reachable : reachable seatedHouse1.
Proof.
  apply runMessages_reachable
    with (msgs := [(clientAt (-1), joinMsg 1); (clientAt (-1), joinMsg 0);
                   (clientAt (-1), joinMsg 2); (clientAt (-1), joinMsg 3)])
         (s := NewGameState 52).
  - apply reach_new.
  - clients_ok.
  - vm_compute. reflexivity.
Qed.

Lemma kittyTable_reachable : reachable kittyTable.
Proof.
  apply runMessages_reachable
    with (msgs := [(clientAt 0, Message0 MsgStartGame);
                   (clientAt 1, bidMsg 0); (clientAt 2, bidMsg 0);
                   (clientAt 3, bidMsg 0); (clientAt 0, bidMsg 0)])
         (s := seatedTable).
  - apply seatedTable_reachable.
  - clients_ok.
  - vm_compute. reflexivity.
Qed.

Lemma kittyPassedTable_reachable : reachable kittyPassedTable.
Proof.
  apply runMessages_reachable
    with (msgs := [(clientAt 0, takeKittyMsg [])]) (s := kittyTable).
  - apply kittyTable_reachable.
  - clients_ok.
  - vm_compute. reflexivity.
Qed.

Lemma trumpChosenTable_reachable : reachable trumpChosenTable.
Proof.
  apply runMessages_reachable
    with (msgs := [(clientAt 0, selectTrumpMsg "spades")]) (s := kittyPassedTable).
  - apply kittyPassedTable_reachable.
  - clients_ok.
  - vm_compute. reflexivity.
Qed.

(* ================================================================== *)
(** * Errors and the record *)

(** C1, on a table the server reaches: the bid winner asks for the king
    of hearts, which is in the kitty, and for a card that is not.
    [ApplyAction] returns the card-not-in-kitty error, and the record is
    not the one before the call: the king has left the kitty for the
    hand. *)
Theorem take_kitty_error_mutates :
  reachable kittyTable
  /\ exists s1,
       ApplyAction rnd0 kittyTable takeKingThenBogus = Failed ErrCardNotInKitty s1
       /\ s1 <> kittyTable
       /\ len (Kitty kittyTable) = 6 /\ len (Kitty s1) = 5
       /\ handSizes kittyTable = [6; 6; 6; 6] /\ handSizes s1 = [7; 6; 6; 6].
Proof.
  split; [apply kittyTable_reachable|].
  eexists. split; [vm_compute; reflexivity|].
  split; [|repeat split].
  intro H. apply (f_equal (fun s => len (Kitty s))) in H. vm_compute in H. discriminate.
Qed.

(** The same in [applyDiscard]: the two of spades is removed from the
    hand before the unknown card is met. *)
Lemma discard_error_mutates :
  reachable trumpChosenTable
  /\ exists s1,
       ApplyAction rnd0 trumpChosenTable discardTwoThenBogus = Failed ErrCardNotInHand s1
       /\ s1 <> trumpChosenTable
       /\ handSizes trumpChosenTable = [6; 6; 6; 6] /\ handSizes s1 = [5; 6; 6; 6].
Proof.
  split; [apply trumpChosenTable_reachable|].
  eexists. split; [vm_compute; reflexivity|].
  split; [|repeat split].
  intro H. apply (f_equal handSizes) in H. vm_compute in H. discriminate.
Qed.

(** Every other action validates before it writes: an error of
    [ApplyAction] leaves the record as it was, except in the three
    actions that remove cards in a loop. *)
Lemma applyPlayCard_Failed :
  forall s a e s', applyPlayCard s a = Failed e s' -> s' = s.
Proof.
  intros s a e s' H. unfold applyPlayCard in H.
  destruct (negb (Phase_eqb (Phase s) PhasePlaying)); [inversion H; reflexivity|].
  destruct (negb (PlayerIndex a =? CurrentPlayer s)); [inversion H; reflexivity|].
  destruct (get4 (PlayerIndex a) (Players s)) as [[player|]|] eqn:Eg; try discriminate.
  destruct (findCard (CardID a) (Hand player)) as [[cardIdx card]|];
    [|inversion H; reflexivity].
  destruct (Trump s) as [trump|]; [|discriminate].
  destruct (CurrentTrick s) as [trick|] eqn:Etr; [|discriminate].
  cbv zeta in H.
  destruct (len (Cards trick) =? 0) eqn:E0.
  - apply len_nil_iff in E0. simpl in H. rewrite E0 in H. simpl in H.
    match type of H with
    | context [setPlayer ?i ?p ?st] => destruct (setPlayer i p st); discriminate
    end.
  - match type of H with
    | (if ?c then _ else _) = _ => destruct c
    end; [inversion H; now apply set_CurrentTrick_same|].
    match type of H with
    | context [setPlayer ?i ?p ?st] => destruct (setPlayer i p st); [|discriminate]
    end.
    match type of H with
    | (if ?c then _ else _) = _ => destruct c; [|discriminate]
    end.
    cbv zeta in H.
    match type of H with
    | context [creditCards ?t ?cs ?st] => destruct (creditCards t cs st); [|discriminate]
    end.
    match type of H with
    | (if ?c then _ else _) = _ => destruct c; discriminate
    end.
Qed.

Lemma other_actions_atomic :
  forall rnd s a e s',
    AType a <> ActionTakeKitty -> AType a <> ActionDiscard ->
    AType a <> ActionDiscardDraw ->
    ApplyAction rnd s a = Failed e s' -> s' = s.
Proof.
  intros rnd s a e s' H1 H2 H3 H. unfold ApplyAction in H.
  destruct (AType a); try contradiction.
  - unfold applyJoinSeat in H.
    destruct (negb (Phase_eqb (Phase s) PhaseLobby)); [inversion H; reflexivity|].
    destruct ((PlayerIndex a <? 0) || (PlayerIndex a >? 3)); [inversion H; reflexivity|].
    destruct (get4 (PlayerIndex a) (Players s)) as [[p|]|]; try discriminate;
      [inversion H; reflexivity|].
    destruct (setPlayer _ _ s); discriminate.
  - unfold applyLeaveSeat in H.
    destruct ((PlayerIndex a <? 0) || (PlayerIndex a >? 3)); [inversion H; reflexivity|].
    destruct (get4 (PlayerIndex a) (Players s)) as [[p|]|]; try discriminate;
      [|inversion H; reflexivity].
    destruct (Phase_eqb (Phase s) PhaseLobby).
    + destruct (set4 _ None (Players s)); discriminate.
    + destruct (setPlayer _ _ s); discriminate.
  - unfold applyChangeName in H.
    destruct ((PlayerIndex a <? 0) || (PlayerIndex a >? 3)); [inversion H; reflexivity|].
    destruct (get4 (PlayerIndex a) (Players s)) as [[p|]|]; try discriminate;
      [|inversion H; reflexivity].
    destruct (setPlayer _ _ s); discriminate.
  - unfold applyKickPlayer in H.
    destruct (negb (PlayerIndex a =? House s)); [inversion H; reflexivity|].
    destruct ((TargetSeat a <? 0) || (TargetSeat a >? 3)); [inversion H; reflexivity|].
    destruct (TargetSeat a =? House s); [inversion H; reflexivity|].
    destruct (get4 (TargetSeat a) (Players s)) as [[p|]|]; try discriminate;
      [|inversion H; reflexivity].
    destruct (Phase_eqb (Phase s) PhaseLobby).
    + destruct (set4 _ None (Players s)); discriminate.
    + destruct (setPlayer _ _ s); discriminate.
  - unfold applyTransferHouse in H.
    destruct (negb (PlayerIndex a =? House s)); [inversion H; reflexivity|].
    destruct ((TargetSeat a <? 0) || (TargetSeat a >? 3)); [inversion H; reflexivity|].
    destruct (TargetSeat a =? House s); [inversion H; reflexivity|].
    destruct (get4 (TargetSeat a) (Players s)) as [[p|]|]; try discriminate;
      [|inversion H; reflexivity].
    destruct (negb (Connected p) || String.eqb (Name p) "");
      [inversion H; reflexivity | discriminate].
  - now apply applyStartGame_Failed in H.
  - now apply applyPlaceBid_Failed in H.
  - unfold applySelectTrump in H.
    destruct (negb (Phase_eqb (Phase s) PhaseKitty)); [inversion H; reflexivity|].
    destruct (negb (PlayerIndex a =? BidWinner s)); [inversion H; reflexivity|].
    repeat match type of H with
           | context [if ?c then _ else _] => destruct c
           end; try discriminate; inversion H; reflexivity.
  - now apply applyPlayCard_Failed in H.
  - unfold applyResetGame in H.
    destruct (negb (PlayerIndex a =? House s)); [inversion H; reflexivity | discriminate].
  - inversion H. reflexivity.
Qed.

(* ================================================================== *)
(** * Conservation of cards *)

(** The cards in play are not always the whole deck: once the bid winner
    has passed on the kitty, 46 cards are left. *)
Lemma conservation_counterexample :
  ~ (forall s, reachable s -> activeHand (Phase s) = true ->
               Permutation (cardsInPlay s) NewDeck).
Proof.
  intro H.
  specialize (H kittyPassedTable kittyPassedTable_reachable eq_refl).
  apply Permutation_length in H. vm_compute in H. discriminate.
Qed.

(** C2, amended: in every reachable record of a hand under way (bidding,
    kitty, discard, playing) each card of the deck is in at most one
    place among the deck, the hands, the kitty, the current trick and the
    completed tricks, and nothing else is there; during the bidding these
    are exactly the 52 cards. *)
Theorem cards_never_duplicated :
  forall s : GameState,
    reachable s ->
    activeHand (Phase s) = true ->
    (forall c, (cnt c (cardsInPlay s) <= cnt c NewDeck)%nat)
    /\ NoDup (cardsInPlay s)
    /\ NoDup (map ID (cardsInPlay s))
    /\ incl (cardsInPlay s) NewDeck
    /\ (List.length (cardsInPlay s) <= 52)%nat
    /\ (Phase s = PhaseBidding -> Permutation (cardsInPlay s) NewDeck).
Proof.
  intros s Hr Ha. pose proof (reachable_Inv Hr) as HI. inv_parts HI.
  specialize (Icards Ha).
  destruct (below_deck _ Icards) as (H1 & H2 & H3 & H4).
  repeat split; auto.
  intro Hb. apply (Permutation_count_occ Card_eq_dec). intro c. now apply Ifull.
Qed.

Lemma cards_never_duplicated_witness :
  NoDup (cardsInPlay kittyPassedTable)
  /\ (List.length (cardsInPlay kittyPassedTable) <= 52)%nat.
Proof.
  destruct (@cards_never_duplicated kittyPassedTable kittyPassedTable_reachable eq_refl)
    as (_ & H1 & _ & _ & H2 & _).
  split; [exact H1 | exact H2].
Defined.

(* ================================================================== *)
(** * The trump-broken flag *)

Lemma BuildPublicState_TrumpBroken :
  forall s ps, BuildPublicState s = Some ps -> PS_TrumpBroken ps = TrumpBroken s.
Proof.
  intros s ps H. unfold BuildPublicState in H.
  destruct (b0 (Teams s)); [|discriminate].
  destruct (b1 (Teams s)); [|discriminate].
  inversion H. reflexivity.
Qed.

(** C9: the flag is false in every reachable record, the start of a game
    and of a hand write false to it, and every public view of a reachable
    record carries it (as false). *)
Theorem trump_broken_never_set :
  forall s : GameState,
    reachable s ->
    TrumpBroken s = false
    /\ (exists ps, BuildPublicState s = Some ps /\ PS_TrumpBroken ps = false)
    /\ (forall rnd a s', applyStartGame rnd s a = Done s' -> TrumpBroken s' = false)
    /\ (forall rnd s', StartNewHand rnd s = Done s' -> TrumpBroken s' = false).
Proof.
  intros s Hr. pose proof (reachable_Inv Hr) as HI. inv_parts HI.
  split; [exact Itb|]. split; [|split].
  - destruct Iteams as (t0 & t1 & Ht).
    assert (Hb : exists ps, BuildPublicState s = Some ps).
    { unfold BuildPublicState. rewrite Ht. simpl. eexists. reflexivity. }
    destruct Hb as [ps Hps]. exists ps. split; [exact Hps|].
    rewrite (BuildPublicState_TrumpBroken _ Hps). exact Itb.
  - intros rnd a s' H. apply applyStartGame_Done in H.
    destruct H as (_ & _ & _ & d1 & kitty & d2 & _ & _ & -> & _). reflexivity.
  - intros rnd s' H. unfold StartNewHand in H.
    destruct (dealHands _ _) as [d1|]; [|discriminate].
    destruct (DeckDeal 6 d1) as [[kitty d2]|]; [|discriminate].
    inversion H. reflexivity.
Qed.

Lemma trump_broken_never_set_witness :
  TrumpBroken kittyPassedTable = false
  /\ exists ps, BuildPublicState kittyPassedTable = Some ps /\ PS_TrumpBroken ps = false.
Proof.
  destruct (@trump_broken_never_set kittyPassedTable kittyPassedTable_reachable)
    as (H1 & H2 & _).
  split; [exact H1 | exact H2].
Defined.

(* ================================================================== *)
(** * The forced bid of the dealer *)

Lemma fourth_bid_completes :
  forall s a s',
    len (Bids s) = 3 ->
    applyPlaceBid s a = Done s' ->
    Bids s' = Bids s ++ [mkBid (PlayerIndex a) (recordedAmount s a)]
    /\ Phase s' = PhaseKitty
    /\ len (Bids s') = 4
    /\ CurrentPlayer s' = BidWinner s'
    /\ WinningBid s' = fst (highBidScan (Bids s') 0 (Dealer s))
    /\ BidWinner s' = snd (highBidScan (Bids s') 0 (Dealer s)).
Proof.
  intros s a s' Hlen H. apply applyPlaceBid_Done in H.
  destruct H as (_ & _ & _ & Hs'). cbv zeta in Hs'.
  assert (H4 : len (Bids s ++ [mkBid (PlayerIndex a) (recordedAmount s a)]) = 4).
  { rewrite len_app, Hlen. reflexivity. }
  rewrite H4 in Hs'. simpl in Hs'. subst s'. simpl. repeat split. exact H4.
Qed.

(** C6: with three passes recorded, the pass of the dealer is recorded as
    a bid of 2, the dealer becomes bid winner and seat to act with a
    winning bid of 2, and the phase becomes kitty; in a reachable record
    the fourth bid is the dealer's and four recorded bids are never four
    passes; and whenever the fourth bid is accepted, the phase becomes
    kitty, the winning bid is the highest amount, and the seat that bid it
    is bid winner and seat to act. *)
Theorem dealer_forced_bid :
  forall rnd : Entropy,
    (forall s a,
        AType a = ActionPlaceBid ->
        Phase s = PhaseBidding ->
        PlayerIndex a = CurrentPlayer s ->
        PlayerIndex a = Dealer s ->
        len (Bids s) = 3 ->
        (forall b, In b (Bids s) -> Amount b = 0) ->
        BidAmount a = 0 ->
        exists s',
          ApplyAction rnd s a = Done s'
          /\ Bids s' = Bids s ++ [mkBid (Dealer s) 2]
          /\ BidWinner s' = Dealer s
          /\ WinningBid s' = 2
          /\ CurrentPlayer s' = Dealer s
          /\ Phase s' = PhaseKitty)
    /\ (forall s, reachable s -> Phase s = PhaseBidding -> len (Bids s) = 3 ->
                  CurrentPlayer s = Dealer s)
    /\ (forall s, reachable s -> len (Bids s) = 4 ->
                  exists b, In b (Bids s) /\ 2 <= Amount b)
    /\ (forall s a s',
           AType a = ActionPlaceBid ->
           len (Bids s) = 3 ->
           ApplyAction rnd s a = Done s' ->
           Phase s' = PhaseKitty
           /\ len (Bids s') = 4
           /\ CurrentPlayer s' = BidWinner s'
           /\ (forall b, In b (Bids s') -> Amount b <= WinningBid s')
           /\ ((exists b, In b (Bids s') /\ 0 < Amount b) ->
               exists b, In b (Bids s') /\ Bid_PlayerIndex b = BidWinner s'
                         /\ Amount b = WinningBid s')).
Proof.
  intro rnd. split; [|split; [|split]].
  - intros s a Hty Hphase Hturn Hdealer Hlen Hpass Hamt.
    assert (Hdone : exists s', applyPlaceBid s a = Done s').
    { unfold applyPlaceBid.
      rewrite Hphase, Hturn, Z.eqb_refl, Hamt. simpl.
      match goal with
      | |- context [if ?c then _ else _] => destruct c
      end; [|eexists; reflexivity].
      destruct (highBidScan _ 0 (Dealer s)). eexists. reflexivity. }
    destruct Hdone as [s' Hs']. exists s'.
    unfold ApplyAction. rewrite Hty. split; [exact Hs'|].
    destruct (@fourth_bid_completes s a s' Hlen Hs') as (Hb & Hp & _ & Hcp & Hw & Hbw).
    assert (Hrec : recordedAmount s a = 2).
    { unfold recordedAmount.
      rewrite Hdealer, Z.eqb_refl, Hlen, Hamt.
      rewrite (highBidScan_passes _ 0 Hpass). reflexivity. }
    rewrite Hrec, Hdealer in Hb.
    assert (Hscan : highBidScan (Bids s') 0 (Dealer s) = (2, Dealer s)).
    { rewrite Hb, highBidScan_app, (highBidScan_passes _ (Dealer s) Hpass). reflexivity. }
    rewrite Hscan in Hw, Hbw. simpl in Hw, Hbw.
    repeat split; auto. now rewrite Hcp.
  - intros s Hr Hphase Hlen. pose proof (reachable_Inv Hr) as HI. inv_parts HI.
    destruct (Ibidding Hphase) as [_ Hcp]. rewrite Hcp, Hlen.
    replace (Dealer s + 1 + 3) with (Dealer s + 1 * 4) by lia.
    rewrite Z.mod_add by lia. apply Z.mod_small. lia.
  - intros s Hr Hlen. pose proof (reachable_Inv Hr) as HI. inv_parts HI. auto.
  - intros s a s' Hty Hlen H. unfold ApplyAction in H. rewrite Hty in H.
    destruct (@fourth_bid_completes s a s' Hlen H) as (Hb & Hp & H4 & Hcp & Hw & Hbw).
    destruct (highBidScan_spec (Bids s') 0 (Dealer s)) as (H0 & Hmax & Hwho).
    rewrite <- Hw in H0, Hmax, Hwho. rewrite <- Hbw in Hwho.
    repeat split; auto.
    intros (b & Hin & Hpos). specialize (Hmax b Hin).
    destruct Hwho as [[Hz _] | (b' & Hin' & Ha & Hp' & _)]; [lia|].
    exists b'. auto.
Qed.

Lemma dealer_forced_bid_witness :
  exists s',
    ApplyAction rnd0
      (orLobby (runMessages seatedTable
                  [(clientAt 0, Message0 MsgStartGame);
                   (clientAt 1, bidMsg 0); (clientAt 2, bidMsg 0); (clientAt 3, bidMsg 0)]))
      (mkAction ActionPlaceBid 0 "" 0 "" "" None 0) = Done s'
    /\ WinningBid s' = 2 /\ BidWinner s' = 0 /\ Phase s' = PhaseKitty.
Proof.
  destruct (dealer_forced_bid rnd0) as (H & _).
  destruct (H (orLobby (runMessages seatedTable
                  [(clientAt 0, Message0 MsgStartGame);
                   (clientAt 1, bidMsg 0); (clientAt 2, bidMsg 0); (clientAt 3, bidMsg 0)]))
              (mkAction ActionPlaceBid 0 "" 0 "" "" None 0))
    as (s' & H1 & _ & H2 & H3 & _ & H4).
  - reflexivity.
  - vm_compute. reflexivity.
  - vm_compute. reflexivity.
  - vm_compute. reflexivity.
  - vm_compute. reflexivity.
  - vm_compute. intros b Hin.
    repeat (destruct Hin as [<- | Hin]; [reflexivity|]). contradiction.
  - reflexivity.
  - exists s'. split; [exact H1|]. split; [exact H3|]. split; [exact H2 | exact H4].
Defined.

(* ================================================================== *)
(** * Starting the game *)

Lemma AllPlayersSeated_get :
  forall s i, AllPlayersSeated s = true -> 0 <= i <= 3 ->
              exists p, get4 i (Players s) = Some (Some p).
Proof.
  intros s i H Hv. unfold AllPlayersSeated, list4 in H.
  destruct (Players s) as [[p0|] [p1|] [p2|] [p3|]]; simpl in H; try discriminate.
  destruct (valid_cases Hv) as [-> | [-> | [-> | ->]]]; eexists; reflexivity.
Qed.

Lemma dealHands_succeeds :
  forall seats s d,
    Deck s = Some d ->
    (forall i, In i seats -> exists p, get4 i (Players s) = Some (Some p)) ->
    exists s', dealHands seats s = Some s'.
Proof.
  induction seats as [|i rest IH]; intros s d Hd Hs; simpl.
  - eexists. reflexivity.
  - unfold DeckDeal. rewrite Hd. destruct (Deal 6 d) as [hand d'] eqn:ED. simpl.
    destruct (Hs i (or_introl eq_refl)) as [p Hp]. rewrite Hp.
    destruct (setPlayer_valid (set_Hand hand p) (set_Deck (Some d') s)
                (get4_valid _ _ Hp)) as (ps & Hps & Hset).
    rewrite Hset. apply IH with d'; [reflexivity|].
    intros j Hj. destruct (Hs j (or_intror Hj)) as [q Hq]. simpl.
    destruct (Z.eq_dec i j) as [<- | Hne].
    + rewrite (get4_set4_same _ _ _ Hps). eauto.
    + rewrite (@get4_set4_other _ i j _ _ _ Hps Hne). simpl in Hps. eauto.
Qed.

(** What the engine does on a start of the game: it is accepted exactly
    in the lobby, from the house seat, with the four seats filled; and it
    then deals six cards to each seat and six to the kitty out of a
    shuffled deck of 52, clears the tracking of the hand and opens the
    bidding with the seat left of the dealer. *)
Lemma applyStartGame_spec :
  forall rnd s a,
    ((exists s', applyStartGame rnd s a = Done s')
     <-> (Phase s = PhaseLobby /\ PlayerIndex a = House s /\ AllPlayersSeated s = true))
    /\ forall s',
        applyStartGame rnd s a = Done s' ->
        Phase s' = PhaseBidding
        /\ CurrentPlayer s' = NextPlayer (Dealer s)
        /\ Bids s' = [] /\ Trump s' = None /\ TricksPlayed s' = 0
        /\ CompletedTricks s' = [] /\ CardsWon s' = mkArr2 [] []
        /\ LastTrick s' = None
        /\ DiscardComplete s' = fill4 false /\ PendingDiscards s' = fill4 None
        /\ TrumpBroken s' = false
        /\ handSizes s' = [6; 6; 6; 6]
        /\ len (Kitty s') = 6
        /\ len (deckOf s') = 22
        /\ (forall c, (cnt c (deckOf s') + cnt c (handsOf s') + cnt c (Kitty s')
                       = cnt c NewDeck)%nat).
Proof.
  intros rnd s a. split.
  - split.
    + intros [s' H]. apply applyStartGame_Done in H. tauto.
    + intros (Hp & Hh & Ha). unfold applyStartGame.
      rewrite Hp, Hh, Z.eqb_refl, Ha, Phase_eqb_refl. cbn [negb].
      destruct (@dealHands_succeeds [0; 1; 2; 3]
                  (set_Deck (Some (Shuffle (draw rnd) NewDeck)) s)
                  (Shuffle (draw rnd) NewDeck) eq_refl) as [d1 Hd1].
      { intros i Hi. apply AllPlayersSeated_get; [exact Ha|].
        simpl in Hi. lia. }
      rewrite Hd1.
      assert (Hnd : NoDup [0; 1; 2; 3]) by (repeat constructor; simpl; intuition lia).
      destruct (@dealHands_sizes [0; 1; 2; 3]
                  (set_Deck (Some (Shuffle (draw rnd) NewDeck)) s) d1
                  (Shuffle (draw rnd) NewDeck)
                  Hnd eq_refl) as [(d' & Hd' & _) _].
      { unfold len. rewrite Shuffle_length. simpl. lia. }
      { exact Hd1. }
      unfold DeckDeal. rewrite Hd'. destruct (Deal 6 d'). eexists. reflexivity.
  - intros s' H. apply applyStartGame_Done in H.
    destruct H as (Hp & _ & _ & d1 & kitty & d2 & E1 & E2 & -> & Hd2).
    assert (Hnd : NoDup [0; 1; 2; 3]) by (repeat constructor; simpl; intuition lia).
    destruct (@dealHands_sizes [0; 1; 2; 3]
                  (set_Deck (Some (Shuffle (draw rnd) NewDeck)) s) d1
                  (Shuffle (draw rnd) NewDeck)
                Hnd eq_refl) as [(d' & Hd' & Hl') Hseats].
    { unfold len. rewrite Shuffle_length. simpl. lia. }
    { exact E1. }
    destruct (@deal_cards (set_Deck (Some (Shuffle (draw rnd) NewDeck)) s) _ d1 kitty d2
                eq_refl E1 E2) as [_ C].
    pose proof (DeckDeal_eq _ _ E2) as (d0 & Hd0 & Hk & Hs2).
    rewrite Hd' in Hd0. inversion Hd0; subst d0.
    assert (Hlen52 : len (Shuffle (draw rnd) NewDeck) = 52)
      by (unfold len; rewrite Shuffle_length; reflexivity).
    assert (Hlen' : len d' = 28) by (rewrite Hl', Hlen52; reflexivity).
    destruct (@Deal_length 6 d') as [L1 L2]; [lia|].
    simpl. repeat split.
    + unfold handSizes, list4. simpl. rewrite Hs2. simpl.
      destruct (Hseats 0 ltac:(simpl; auto)) as (p0 & G0 & S0).
      destruct (Hseats 1 ltac:(simpl; auto)) as (p1 & G1 & S1).
      destruct (Hseats 2 ltac:(simpl; auto)) as (p2 & G2 & S2).
      destruct (Hseats 3 ltac:(simpl; auto)) as (p3 & G3 & S3).
      unfold get4 in G0, G1, G2, G3. simpl in G0, G1, G2, G3.
      inversion G0 as [G0']. inversion G1 as [G1'].
      inversion G2 as [G2']. inversion G3 as [G3'].
      rewrite G0', G1', G2', G3'. simpl. now rewrite S0, S1, S2, S3.
    + rewrite Hk. exact L1.
    + assert (Hdk : Deck d2 = Some (snd (Deal 6 d'))) by (rewrite Hs2; reflexivity).
      assert (H22 : len (deckOf d2) = 22).
      { unfold deckOf. rewrite Hdk, L2, Hlen'. reflexivity. }
      exact H22.
    + intro c. specialize (C c). rewrite cnt_Shuffle in C.
      unfold deckOf, handsOf in *. simpl. exact C.
Qed.

(** C7, at the handler: [handleStartGame] builds the action without the
    seat of the client, so the engine always sees seat 0 as the requester.
    With seat 1 as the house and the four seats filled, the request of the
    house is rejected; with seat 0 as the house, the request of seat 3
    starts the game. *)
Theorem start_game_ignores_requester :
  (forall rnd hub s client msg,
      Msg_Type msg = MsgStartGame ->
      HandleMessage rnd hub s client msg
      = applyStartGame rnd s (Action0 ActionStartGame))
  /\ (reachable seatedHouse1
      /\ House seatedHouse1 = 1
      /\ AllPlayersSeated seatedHouse1 = true
      /\ HandleMessage rnd0 noHub seatedHouse1 (clientAt 1) (Message0 MsgStartGame)
         = Failed (ErrNew "only the house can start the game") seatedHouse1)
  /\ (reachable seatedTable
      /\ House seatedTable = 0
      /\ exists s',
           HandleMessage rnd0 noHub seatedTable (clientAt 3) (Message0 MsgStartGame)
           = Done s'
           /\ Phase s' = PhaseBidding).
Proof.
  split; [|split].
  - intros rnd hub s client msg H. unfold HandleMessage. rewrite H. reflexivity.
  - split; [apply seatedHouse1_reachable|]. repeat split.
  - split; [apply seatedTable_reachable|]. split; [reflexivity|].
    eexists. split; [vm_compute; reflexivity | reflexivity].
Qed.

(* ================================================================== *)
(** * The properties on the worked examples *)

Lemma setback_rule_witness :
  exists s',
    ApplyScore scoredTable (CalculateScore scoredTable) = Some s'
    /\ earnedTotal 0 (CalculateScore scoredTable) = 3
    /\ earnedTotal 1 (CalculateScore scoredTable) = 1
    /\ SR_GamePoints (CalculateScore scoredTable) = mkArr2 21 9
    /\ teamScore 0 s' = -4
    /\ teamScore 1 s' = 1.
Proof.
  destruct (@setback_rule scoredTable Spades (mkTeam [0; 2] 0 0) (mkTeam [1; 3] 0 0))
    as (s' & H1 & _ & H2).
  - reflexivity.
  - reflexivity.
  - reflexivity.
  - simpl. lia.
  - simpl. lia.
  - simpl. lia.
  - exists s'. split; [exact H1|].
    destruct H2 as [H3 H4]; [vm_compute; reflexivity|].
    repeat split; [exact H3 | exact H4].
Defined.

Lemma follow_suit_rule_witness :
  ApplyAction rnd0 midTrickTable (playMsgAction 1 "2_hearts")
  = Failed ErrMustFollowSuit midTrickTable
  /\ ApplyAction rnd0 midTrickTable (playMsgAction 1 "jack_clubs")
     = Failed ErrMustFollowSuit midTrickTable.
Proof.
  split.
  - destruct (@follow_suit_rule rnd0 midTrickTable (playMsgAction 1 "2_hearts")
                (mkPlayer "player" 1
                   [NewCard Clubs Five; NewCard Clubs Jack; NewCard Hearts Two] "token" true)
                2%nat (NewCard Hearts Two) Spades
                {| Cards := [mkTrickCard (NewCard Clubs Seven) 0];
                   Leader := 0; LeadSuit := Clubs; Winner := 0 |})
      as (_ & H & _);
      [reflexivity | reflexivity | reflexivity | reflexivity | reflexivity
       | reflexivity | reflexivity | discriminate | ].
    apply H.
    + discriminate.
    + exists (NewCard Clubs Five). split; [simpl; auto | split; reflexivity].
    + left. discriminate.
  - destruct (@follow_suit_rule rnd0 midTrickTable (playMsgAction 1 "jack_clubs")
                (mkPlayer "player" 1
                   [NewCard Clubs Five; NewCard Clubs Jack; NewCard Hearts Two] "token" true)
                1%nat (NewCard Clubs Jack) Spades
                {| Cards := [mkTrickCard (NewCard Clubs Seven) 0];
                   Leader := 0; LeadSuit := Clubs; Winner := 0 |})
      as (_ & H & _);
      [reflexivity | reflexivity | reflexivity | reflexivity | reflexivity
       | reflexivity | reflexivity | discriminate | ].
    apply H.
    + discriminate.
    + exists (NewCard Clubs Five). split; [simpl; auto | split; reflexivity].
    + right. reflexivity.
Defined.

Lemma off_jack_handling_witness :
  IsTrump (NewCard Clubs Jack) Spades = true
  /\ (exists s' trick',
         ApplyAction rnd0 leadTable (playMsgAction 1 "jack_clubs") = Done s'
         /\ CurrentTrick s' = Some trick' /\ LeadSuit trick' = Spades)
  /\ OffJackTeam (CalculateScore offJackTable) = 0
  /\ JackTeam (CalculateScore offJackTable) = -1.
Proof.
  destruct (@off_jack_handling Spades (NewCard Clubs Jack) eq_refl)
    as (H1 & H2 & _ & H4).
  split; [exact H1|]. split.
  - apply (H2 rnd0 leadTable (playMsgAction 1 "jack_clubs")
              (mkPlayer "player" 1
                 [NewCard Clubs Five; NewCard Clubs Jack; NewCard Hearts Two] "token" true)
              1%nat
              {| Cards := []; Leader := 1; LeadSuit := Spades; Winner := 0 |});
      reflexivity.
  - destruct (H4 offJackTable
                [trickOf4 (NewCard Hearts King) (NewCard Clubs Three)
                          (NewCard Diamonds King) (NewCard Clubs Four) 0]
                (trickOf4 (NewCard Spades Five) (NewCard Clubs Jack)
                          (NewCard Spades Ace) (NewCard Hearts Ace) 2)
                []) as (H5 & _ & H6).
    + reflexivity.
    + reflexivity.
    + intros t tc [<- | []] Htc. simpl in Htc.
      repeat (destruct Htc as [<- | Htc]; [reflexivity|]). contradiction.
    + simpl. auto.
    + split; [exact H5|]. apply H6.
      intros t tc Ht Htc. simpl in Ht.
      repeat (destruct Ht as [<- | Ht];
              [simpl in Htc;
               repeat (destruct Htc as [<- | Htc]; [reflexivity|]); contradiction|]).
      contradiction.
Defined.

(* ================================================================== *)
(** * Further properties of the engine and the server *)

Ltac split_ands := repeat match goal with |- _ /\ _ => split end.

(* ================================================================== *)
(** * The deck *)

(** X1: [Shuffle] only reorders: for every deck and every sequence of
    draws the shuffled deck is a permutation of the deck, of the same
    length, with the same cards, and without repeats when the deck had
    none. *)
Theorem Shuffle_reorders_only :
  forall (draw : nat -> nat) (d : CardDeck),
    Permutation (Shuffle draw d) d
    /\ List.length (Shuffle draw d) = List.length d
    /\ (forall c, In c (Shuffle draw d) <-> In c d)
    /\ (NoDup d -> NoDup (Shuffle draw d)).
Proof.
  intros draw d.
  pose proof (Shuffle_Permutation draw d) as HP.
  split; [exact HP|].
  split; [apply Shuffle_length|].
  split.
  - intro c. split; intro H.
    + eapply Permutation_in; [exact HP | exact H].
    + eapply Permutation_in; [apply Permutation_sym; exact HP | exact H].
  - intro Hnd. eapply Permutation_NoDup; [apply Permutation_sym; exact HP | exact Hnd].
Qed.

(** X2: [Deal n] with [n] not negative splits the deck: the cards dealt
    followed by the cards left are the deck as it was; [n] cards are dealt,
    or all that remain when fewer than [n] are left, and the deck is then
    empty. *)
Theorem Deal_splits_deck :
  forall (n : Z) (d : CardDeck),
    0 <= n ->
    fst (Deal n d) ++ snd (Deal n d) = d
    /\ len (fst (Deal n d)) = Z.min n (Remaining d)
    /\ Remaining (snd (Deal n d)) = Remaining d - Z.min n (Remaining d)
    /\ (Remaining d <= n -> fst (Deal n d) = d /\ snd (Deal n d) = []).
Proof.
  intros n d Hn. unfold Deal, Remaining, len.
  destruct (n >? Z.of_nat (List.length d)) eqn:E; simpl.
  - assert (Hlt : Z.of_nat (List.length d) < n) by lia.
    rewrite Nat2Z.id, firstn_all, skipn_all.
    split; [apply app_nil_r|]. split; [lia|]. split; [simpl; lia|]. auto.
  - assert (Hle : n <= Z.of_nat (List.length d)) by lia.
    split; [apply firstn_skipn|].
    split; [rewrite length_firstn; lia|].
    split; [rewrite length_skipn; lia|].
    intro H. assert (n = Z.of_nat (List.length d)) by lia. subst n.
    rewrite Nat2Z.id, firstn_all, skipn_all. auto.
Qed.

Lemma Deal_splits_deck_witness :
  fst (Deal 6 NewDeck) ++ snd (Deal 6 NewDeck) = NewDeck
  /\ len (fst (Deal 6 NewDeck)) = Z.min 6 (Remaining NewDeck)
  /\ Remaining (snd (Deal 6 NewDeck)) = Remaining NewDeck - Z.min 6 (Remaining NewDeck)
  /\ (Remaining NewDeck <= 6 -> fst (Deal 6 NewDeck) = NewDeck /\ snd (Deal 6 NewDeck) = []).
Proof. apply (@Deal_splits_deck 6 NewDeck). lia. Defined.

(** The scan by id returns the first card that has the id, with its
    position. *)
Lemma findCard_first :
  forall cid cards i c,
    findCard cid cards = Some (i, c) ->
    nth_error cards i = Some c /\ ID c = cid
    /\ forall j c', (j < i)%nat -> nth_error cards j = Some c' -> ID c' <> cid.
Proof.
  intros cid cards. induction cards as [|x rest IH]; intros i c H; simpl in H.
  - discriminate.
  - destruct (String.eqb (ID x) cid) eqn:E.
    + injection H as <- <-. apply String.eqb_eq in E.
      split; [reflexivity|]. split; [exact E|]. intros j c' Hj. lia.
    + destruct (findCard cid rest) as [[i' c']|] eqn:F; [|discriminate].
      injection H as <- <-.
      destruct (IH _ _ eq_refl) as (Hn & Hid & Hfirst).
      split; [exact Hn|]. split; [exact Hid|].
      intros j c'' Hj Hnth. destruct j as [|j]; simpl in Hnth.
      * injection Hnth as <-. apply String.eqb_neq in E. exact E.
      * apply (Hfirst j c''); [lia | exact Hnth].
Qed.

Lemma findCard_unique :
  forall cards i c,
    NoDup (map ID cards) -> nth_error cards i = Some c ->
    findCard (ID c) cards = Some (i, c).
Proof.
  induction cards as [|x rest IH]; intros i c Hnd Hn.
  - destruct i; discriminate.
  - simpl in Hnd. inversion Hnd as [|? ? Hx Hrest]; subst.
    destruct i as [|i]; simpl in Hn.
    + injection Hn as <-. simpl. rewrite String.eqb_refl. reflexivity.
    + simpl. destruct (String.eqb (ID x) (ID c)) eqn:E.
      * apply String.eqb_eq in E. exfalso. apply Hx. rewrite E.
        apply in_map. eapply nth_error_In; exact Hn.
      * rewrite (IH i c Hrest Hn). reflexivity.
Qed.

(** X3: the scan of a hand or of the kitty by card id ([findCard], the
    loop [for i, c := range cards { if c.ID == cardID ... break }]) finds
    the first card with that id and its index, and finds nothing exactly
    when no card has the id; when the ids of the cards are distinct, as in
    a deck, every card is found by its own id at its own index. *)
Theorem findCard_first_match :
  forall (cid : string) (cards : list Card),
    match findCard cid cards with
    | Some (i, c) =>
        nth_error cards i = Some c /\ ID c = cid
        /\ (forall j c', (j < i)%nat -> nth_error cards j = Some c' -> ID c' <> cid)
    | None => forall c, In c cards -> ID c <> cid
    end
    /\ (NoDup (map ID cards) ->
        forall i c, nth_error cards i = Some c -> findCard (ID c) cards = Some (i, c)).
Proof.
  intros cid cards. split.
  - destruct (findCard cid cards) as [[i c]|] eqn:F.
    + apply findCard_first. exact F.
    + apply findCard_None. exact F.
  - intros Hnd i c Hn. apply findCard_unique; assumption.
Qed.

(** X4: [NewDeck] holds each of the 52 combinations of a suit and a rank
    exactly once, every card of it is the card [NewCard] builds for its
    suit and rank, and the ids [NewCard] generates tell the cards apart:
    two cards with the same id have the same suit and rank. *)
Theorem NewDeck_52_distinct_cards :
  List.length NewDeck = 52%nat
  /\ (forall suit rank, cnt (NewCard suit rank) NewDeck = 1%nat)
  /\ (forall c, In c NewDeck -> c = NewCard (CSuit c) (CRank c))
  /\ (forall s r s' r', ID (NewCard s r) = ID (NewCard s' r') -> s = s' /\ r = r')
  /\ NoDup (map ID NewDeck).
Proof.
  split; [reflexivity|].
  split; [intros [] []; vm_compute; reflexivity|].
  split.
  - intros c Hc. unfold NewDeck in Hc. apply in_flat_map in Hc.
    destruct Hc as (suit & _ & Hc). apply in_map_iff in Hc.
    destruct Hc as (rank & <- & _). reflexivity.
  - split; [|exact NewDeck_ID_NoDup].
    intros [] [] [] []; vm_compute; intro H; first [split; reflexivity | discriminate H].
Qed.

(* ================================================================== *)
(** * The order of the cards in a trick *)

Lemma Beats_irrefl : forall a trump lead, Beats a a trump lead = false.
Proof.
  intros a trump lead. unfold Beats.
  destruct (IsTrump a trump); simpl.
  - unfold Q_gtb. rewrite negb_false_iff. apply Qle_bool_iff. apply Qle_refl.
  - rewrite Suit_eqb_refl. lia.
Qed.

Lemma Beats_asym :
  forall a b trump lead, Beats a b trump lead = true -> Beats b a trump lead = false.
Proof.
  intros a b trump lead. unfold Beats.
  destruct (IsTrump a trump), (IsTrump b trump); simpl; try congruence.
  - intro H. apply Q_gtb_lt in H.
    destruct (Q_gtb (TrumpRank b trump) (TrumpRank a trump)) eqn:E; [|reflexivity].
    apply Q_gtb_lt in E. exfalso. exact (Qlt_irrefl _ (Qlt_trans _ _ _ H E)).
  - destruct (Suit_eqb (CSuit a) (CSuit b)) eqn:Eab.
    + apply Suit_eqb_eq in Eab. rewrite Eab, Suit_eqb_refl. lia.
    + assert (Eba : Suit_eqb (CSuit b) (CSuit a) = false).
      { apply Suit_eqb_neq. apply Suit_eqb_neq in Eab. congruence. }
      rewrite Eba.
      destruct (Suit_eqb (CSuit a) lead) eqn:Ea; [|discriminate].
      intros _. apply Suit_eqb_eq in Ea. apply Suit_eqb_neq in Eab.
      destruct (Suit_eqb (CSuit b) lead) eqn:Eb; [|reflexivity].
      apply Suit_eqb_eq in Eb. congruence.
Qed.

Lemma Beats_trans :
  forall a b c trump lead,
    Beats a b trump lead = true -> Beats b c trump lead = true ->
    Beats a c trump lead = true.
Proof.
  intros a b c trump lead. unfold Beats.
  destruct (IsTrump a trump), (IsTrump b trump), (IsTrump c trump);
    simpl; try congruence.
  - intros H1 H2. apply Q_gtb_lt in H1. apply Q_gtb_lt in H2.
    apply Q_gtb_lt. exact (Qlt_trans _ _ _ H2 H1).
  - destruct (Suit_eqb (CSuit a) (CSuit b)) eqn:Eab;
      destruct (Suit_eqb (CSuit b) (CSuit c)) eqn:Ebc;
      destruct (Suit_eqb (CSuit a) (CSuit c)) eqn:Eac;
      destruct (Suit_eqb (CSuit a) lead) eqn:Ea;
      destruct (Suit_eqb (CSuit b) lead) eqn:Eb;
      repeat match goal with
             | H : Suit_eqb _ _ = true |- _ => apply Suit_eqb_eq in H
             | H : Suit_eqb _ _ = false |- _ => apply Suit_eqb_neq in H
             end;
      try congruence; try lia.
Qed.

(** X5: for every trump and lead suit [Beats] is a strict order on the
    cards: no card beats itself, two cards never beat each other, and a
    card that beats a second card beats every card the second one beats. *)
Theorem Beats_strict_order :
  forall (trump lead : Suit),
    (forall a, Beats a a trump lead = false)
    /\ (forall a b, Beats a b trump lead = true -> Beats b a trump lead = false)
    /\ (forall a b c, Beats a b trump lead = true -> Beats b c trump lead = true ->
                      Beats a c trump lead = true).
Proof.
  intros trump lead. split; [|split].
  - intro a. apply Beats_irrefl.
  - intros a b. apply Beats_asym.
  - intros a b c. apply Beats_trans.
Qed.

(** The scan of [determineTrickWinner] over the cards after [pre]: the
    card that wins so far is not beaten by any card seen. *)
Lemma winnerScan_unbeaten :
  forall trump lead rest pre widx w,
    nth_error (pre ++ rest) widx = Some w ->
    (forall tc, In tc pre -> Beats (TC_Card tc) (TC_Card w) trump lead = false) ->
    exists w',
      nth_error (pre ++ rest)
                (winnerScan rest (List.length pre) trump lead widx (TC_Card w)) = Some w'
      /\ forall tc, In tc (pre ++ rest) ->
                    Beats (TC_Card tc) (TC_Card w') trump lead = false.
Proof.
  intros trump lead rest. induction rest as [|x rest IH]; intros pre widx w Hn Hun.
  - simpl. exists w. split; [exact Hn|]. rewrite app_nil_r. exact Hun.
  - simpl. destruct (Beats (TC_Card x) (TC_Card w) trump lead) eqn:E.
    + specialize (IH (pre ++ [x]) (List.length pre) x).
      rewrite <- app_assoc in IH. simpl in IH.
      rewrite length_app in IH. simpl in IH. rewrite Nat.add_1_r in IH.
      apply IH.
      * rewrite nth_error_app2 by lia. rewrite Nat.sub_diag. reflexivity.
      * intros tc Hin. apply in_app_or in Hin. destruct Hin as [Hin|[<-|[]]].
        -- destruct (Beats (TC_Card tc) (TC_Card x) trump lead) eqn:E2; [|reflexivity].
           rewrite <- (Hun tc Hin). symmetry.
           exact (Beats_trans _ _ _ _ _ E2 E).
        -- apply Beats_irrefl.
    + specialize (IH (pre ++ [x]) widx w).
      rewrite <- app_assoc in IH. simpl in IH.
      rewrite length_app in IH. simpl in IH. rewrite Nat.add_1_r in IH.
      apply IH.
      * exact Hn.
      * intros tc Hin. apply in_app_or in Hin. destruct Hin as [Hin|[<-|[]]].
        -- apply Hun. exact Hin.
        -- exact E.
Qed.

Lemma trick_winner_card :
  forall trick trump,
    Cards trick <> [] ->
    exists w,
      In w (Cards trick)
      /\ determineTrickWinner trick trump = TC_PlayerIndex w
      /\ forall tc, In tc (Cards trick) ->
                    Beats (TC_Card tc) (TC_Card w) trump (LeadSuit trick) = false.
Proof.
  intros trick trump Hne. unfold determineTrickWinner.
  destruct (Cards trick) as [|first rest] eqn:EC; [congruence|].
  destruct (@winnerScan_unbeaten trump (LeadSuit trick) rest [first] 0%nat first)
    as (w & Hn & Hun).
  - reflexivity.
  - intros tc [<-|[]]. apply Beats_irrefl.
  - simpl app in Hn, Hun. simpl List.length in Hn.
    exists w. split; [eapply nth_error_In; exact Hn|].
    split; [|exact Hun].
    erewrite nth_error_nth; [reflexivity | exact Hn].
Qed.

(** X6: [determineTrickWinner] on an empty trick returns the leader; on a
    trick with cards it returns the seat of a card of the trick that no
    card of the trick beats.  When the lead suit is the one the first card
    sets (trump for a trump, the off jack included, its own suit
    otherwise), the winning card is the highest trump if a trump was
    played, and the highest card of the suit led otherwise. *)
Theorem trick_winner_spec :
  forall (trick : Trick) (trump : Suit),
    (Cards trick = [] -> determineTrickWinner trick trump = Leader trick)
    /\ (Cards trick <> [] ->
        exists w,
          In w (Cards trick)
          /\ determineTrickWinner trick trump = TC_PlayerIndex w
          /\ (forall tc, In tc (Cards trick) ->
                         Beats (TC_Card tc) (TC_Card w) trump (LeadSuit trick) = false)
          /\ ((exists t, In t (Cards trick) /\ IsTrump (TC_Card t) trump = true) ->
              IsTrump (TC_Card w) trump = true
              /\ forall tc, In tc (Cards trick) -> IsTrump (TC_Card tc) trump = true ->
                            (TrumpRank (TC_Card tc) trump <= TrumpRank (TC_Card w) trump)%Q)
          /\ ((forall t, In t (Cards trick) -> IsTrump (TC_Card t) trump = false) ->
              (forall first rest, Cards trick = first :: rest ->
                                  LeadSuit trick = CSuit (TC_Card first)) ->
              CSuit (TC_Card w) = LeadSuit trick
              /\ forall tc, In tc (Cards trick) -> CSuit (TC_Card tc) = LeadSuit trick ->
                            Rank_int (CRank (TC_Card tc)) <= Rank_int (CRank (TC_Card w)))).
Proof.
  intros trick trump. split.
  - intro H. unfold determineTrickWinner. rewrite H. reflexivity.
  - intro Hne. destruct (trick_winner_card trick trump Hne) as (w & Hin & Hw & Hun).
    exists w. split; [exact Hin|]. split; [exact Hw|]. split; [exact Hun|]. split.
    + intros (t & Ht & Htt).
      assert (Hwt : IsTrump (TC_Card w) trump = true).
      { destruct (IsTrump (TC_Card w) trump) eqn:E; [reflexivity|].
        specialize (Hun t Ht). unfold Beats in Hun. rewrite Htt, E in Hun.
        simpl in Hun. discriminate. }
      split; [exact Hwt|].
      intros tc Htc Htr. specialize (Hun tc Htc). unfold Beats in Hun.
      rewrite Htr, Hwt in Hun. simpl in Hun.
      unfold Q_gtb in Hun. rewrite negb_false_iff in Hun.
      apply Qle_bool_iff in Hun. exact Hun.
    + intros Hnt Hlead.
      destruct (Cards trick) as [|first rest] eqn:EC; [congruence|].
      specialize (Hlead first rest eq_refl).
      assert (Hws : CSuit (TC_Card w) = LeadSuit trick).
      { pose proof (Hun first (or_introl eq_refl)) as Hf. unfold Beats in Hf.
        rewrite (Hnt first (or_introl eq_refl)), (Hnt w Hin) in Hf. simpl in Hf.
        destruct (Suit_eqb (CSuit (TC_Card first)) (CSuit (TC_Card w))) eqn:E.
        - apply Suit_eqb_eq in E. congruence.
        - rewrite Hlead, Suit_eqb_refl in Hf. discriminate. }
      split; [exact Hws|].
      intros tc Htc Hs. specialize (Hun tc Htc). unfold Beats in Hun.
      rewrite (Hnt tc Htc), (Hnt w Hin) in Hun. simpl in Hun.
      rewrite Hs, Hws, Suit_eqb_refl in Hun. lia.
Qed.

(* ================================================================== *)
(** * Seats and teams *)

(** X7: on the four seats [NextPlayer] is the cycle 0, 1, 2, 3, 0: it
    stays within the seats, four steps come back to the seat, consecutive
    seats are on opposite teams and the seat two steps on is the partner.
    The seat [-1] (no bid winner yet) is followed by seat 0. *)
Theorem NextPlayer_cycles_seats :
  forall i : Z,
    0 <= i <= 3 ->
    NextPlayer i = (i + 1) mod 4
    /\ 0 <= NextPlayer i <= 3
    /\ NextPlayer i <> i
    /\ NextPlayer (NextPlayer (NextPlayer (NextPlayer i))) = i
    /\ GetTeamForPlayer (NextPlayer i) = 1 - GetTeamForPlayer i
    /\ GetTeamForPlayer (NextPlayer (NextPlayer i)) = GetTeamForPlayer i
    /\ NextPlayer (-1) = 0.
Proof.
  intros i Hi.
  destruct (valid_cases Hi) as [-> | [-> | [-> | ->]]]; vm_compute;
    repeat split; congruence.
Qed.

Lemma NextPlayer_cycles_seats_witness :
  NextPlayer 3 = (3 + 1) mod 4
  /\ 0 <= NextPlayer 3 <= 3
  /\ NextPlayer 3 <> 3
  /\ NextPlayer (NextPlayer (NextPlayer (NextPlayer 3))) = 3
  /\ GetTeamForPlayer (NextPlayer 3) = 1 - GetTeamForPlayer 3
  /\ GetTeamForPlayer (NextPlayer (NextPlayer 3)) = GetTeamForPlayer 3
  /\ NextPlayer (-1) = 0.
Proof. apply (@NextPlayer_cycles_seats 3). lia. Defined.

(* ================================================================== *)
(** * Choosing trump *)

(** X8: in the kitty phase the bid winner's [selectTrump] accepts exactly
    the four names [Suit.String] produces: sent the name of a suit it
    records that suit (so that the public state reports the same name
    back), and sent any other string it fails with [ErrInvalidTrump] and
    leaves the record as it was.  The choice can be repeated: a later
    selection replaces the earlier one. *)
Theorem select_trump_round_trip :
  forall (s : GameState) (a : Action),
    Phase s = PhaseKitty ->
    PlayerIndex a = BidWinner s ->
    (forall suit, TrumpSuit a = Suit_String suit ->
       applySelectTrump s a = Done (set_Trump (Some suit) s)
       /\ (forall ps, BuildPublicState (set_Trump (Some suit) s) = Some ps ->
                      PS_Trump ps = Some (TrumpSuit a))
       /\ forall a', PlayerIndex a' = BidWinner s ->
            forall suit', TrumpSuit a' = Suit_String suit' ->
              applySelectTrump (set_Trump (Some suit) s) a'
              = Done (set_Trump (Some suit') s))
    /\ ((forall suit, TrumpSuit a <> Suit_String suit) ->
        applySelectTrump s a = Failed ErrInvalidTrump s).
Proof.
  intros s a Hph Hpl. split.
  - intros suit Hs.
    assert (Hsel : forall s0 a0 suit0,
               Phase s0 = PhaseKitty -> PlayerIndex a0 = BidWinner s0 ->
               TrumpSuit a0 = Suit_String suit0 ->
               applySelectTrump s0 a0 = Done (set_Trump (Some suit0) s0)).
    { intros s0 a0 suit0 H1 H2 H3. unfold applySelectTrump.
      rewrite H1, H2, Z.eqb_refl, H3. destruct suit0; reflexivity. }
    split; [apply Hsel; assumption|]. split.
    + intros ps Hps. unfold BuildPublicState in Hps. simpl in Hps.
      destruct (b0 (Teams s)); [|discriminate].
      destruct (b1 (Teams s)); [|discriminate].
      injection Hps as <-. simpl. rewrite Hs. reflexivity.
    + intros a' Hpl' suit' Hs'.
      rewrite (Hsel (set_Trump (Some suit) s) a' suit' Hph Hpl' Hs').
      reflexivity.
  - intro Hno. unfold applySelectTrump.
    rewrite Hph, Hpl, Z.eqb_refl. simpl.
    destruct (String.eqb (TrumpSuit a) "spades") eqn:E1.
    { apply String.eqb_eq in E1. exfalso. exact (Hno Spades E1). }
    destruct (String.eqb (TrumpSuit a) "hearts") eqn:E2.
    { apply String.eqb_eq in E2. exfalso. exact (Hno Hearts E2). }
    destruct (String.eqb (TrumpSuit a) "diamonds") eqn:E3.
    { apply String.eqb_eq in E3. exfalso. exact (Hno Diamonds E3). }
    destruct (String.eqb (TrumpSuit a) "clubs") eqn:E4.
    { apply String.eqb_eq in E4. exfalso. exact (Hno Clubs E4). }
    reflexivity.
Qed.

Lemma select_trump_round_trip_witness :
  (forall suit, TrumpSuit chooseHearts = Suit_String suit ->
     applySelectTrump kittyTable chooseHearts
     = Done (set_Trump (Some suit) kittyTable)
     /\ (forall ps, BuildPublicState (set_Trump (Some suit) kittyTable) = Some ps ->
                    PS_Trump ps = Some (TrumpSuit chooseHearts))
     /\ forall a', PlayerIndex a' = BidWinner kittyTable ->
          forall suit', TrumpSuit a' = Suit_String suit' ->
            applySelectTrump (set_Trump (Some suit) kittyTable) a'
            = Done (set_Trump (Some suit') kittyTable))
  /\ ((forall suit, TrumpSuit chooseHearts <> Suit_String suit) ->
      applySelectTrump kittyTable chooseHearts
      = Failed ErrInvalidTrump kittyTable).
Proof.
  apply (@select_trump_round_trip kittyTable chooseHearts); reflexivity.
Defined.

(* ================================================================== *)
(** * Taking and leaving seats *)

Lemma set4_set4_back :
  forall A i (v w : A) a a1 a2,
    get4 i a = Some v -> set4 i w a = Some a1 -> set4 i v a1 = Some a2 -> a2 = a.
Proof.
  intros A i v w [x0 x1 x2 x3] a1 a2 Hg H1 H2.
  unfold get4, set4 in *. simpl in *.
  destruct (i =? 0); [injection Hg as <-; injection H1 as <-; injection H2 as <-; reflexivity|].
  destruct (i =? 1); [injection Hg as <-; injection H1 as <-; injection H2 as <-; reflexivity|].
  destruct (i =? 2); [injection Hg as <-; injection H1 as <-; injection H2 as <-; reflexivity|].
  destruct (i =? 3); [injection Hg as <-; injection H1 as <-; injection H2 as <-; reflexivity|].
  discriminate.
Qed.

Lemma seat_in_range :
  forall i, 0 <= i <= 3 -> (i <? 0) || (i >? 3) = false.
Proof. intros i H. apply orb_false_iff. split; lia. Qed.

(** X9: in the lobby, joining a free seat and then leaving it gives back
    the list of players as it was, and the whole record when a house was
    already set.  The first player to join becomes house and dealer, and
    leaving does not undo that: the record then keeps the empty seat as
    house and dealer. *)
Theorem join_then_leave_in_lobby :
  forall (rnd : Entropy) (s : GameState) (a : Action),
    Phase s = PhaseLobby ->
    get4 (PlayerIndex a) (Players s) = Some None ->
    exists s1,
      applyJoinSeat rnd s a = Done s1
      /\ get4 (PlayerIndex a) (Players s1)
         = Some (Some (mkPlayer (PlayerName a) (PlayerIndex a) [] (token rnd) true))
      /\ applyLeaveSeat s1 a
         = Done (if House s =? -1
                 then set_Dealer (PlayerIndex a) (set_House (PlayerIndex a) s)
                 else s).
Proof.
  intros rnd s a Hph Hg.
  pose proof (get4_valid _ _ Hg) as Hv.
  destruct (@setPlayer_valid (PlayerIndex a)
              (mkPlayer (PlayerName a) (PlayerIndex a) [] (token rnd) true) s Hv)
    as (ps & Hps & Hsp).
  pose proof (get4_set4_same _ _ _ Hps) as Hsame.
  destruct (@set4_valid _ (PlayerIndex a) (@None Player) ps Hv) as (ps2 & Hps2).
  assert (Hback : ps2 = Players s) by (eapply set4_set4_back; eauto).
  unfold applyJoinSeat. rewrite Hph. simpl negb. cbv iota.
  rewrite (seat_in_range Hv), Hg. unfold GenerateSessionToken. rewrite Hsp.
  destruct (House s =? -1) eqn:Eh.
  - eexists. split; [reflexivity|]. simpl. split; [exact Hsame|].
    unfold applyLeaveSeat. simpl. rewrite (seat_in_range Hv), Hsame, Hph. simpl.
    rewrite Hps2, Hback. destruct s; reflexivity.
  - eexists. split; [reflexivity|]. simpl. split; [exact Hsame|].
    unfold applyLeaveSeat. simpl. rewrite (seat_in_range Hv), Hsame, Hph. simpl.
    rewrite Hps2, Hback. destruct s; reflexivity.
Qed.

Lemma join_then_leave_in_lobby_witness :
  exists s1,
    applyJoinSeat rnd0 (NewGameState 52) joinSeat2 = Done s1
    /\ get4 2 (Players s1) = Some (Some (mkPlayer "player" 2 [] "token" true))
    /\ applyLeaveSeat s1 joinSeat2
       = Done (set_Dealer 2 (set_House 2 (NewGameState 52))).
Proof.
  apply (@join_then_leave_in_lobby rnd0 (NewGameState 52) joinSeat2); reflexivity.
Defined.

(** [handleRejoin] changes nothing when it fails. *)
Lemma rejoinScan_Failed :
  forall seats tok s e s', rejoinScan seats tok s = Failed e s' -> s' = s.
Proof.
  induction seats as [|i rest IH]; intros tok s e s' H; simpl in H.
  - injection H as _ <-. reflexivity.
  - destruct (get4 i (Players s)) as [[p|]|]; eauto.
    destruct (String.eqb (SessionToken p) tok); eauto.
    destruct (setPlayer i _ s); discriminate.
Qed.

Lemma handleScoring_not_Failed : forall s e s', handleScoring s <> Failed e s'.
Proof.
  intros s e s' H. unfold handleScoring in H.
  destruct (ApplyScore s (CalculateScore s)) as [s1|]; [|discriminate].
  destruct (CheckGameOver s1) as [[gameOver winningTeam]|]; [|discriminate].
  destruct gameOver; [|discriminate].
  destruct (get2 winningTeam (Teams (set_Phase PhaseFinished s1))) as [[team|]|];
    try discriminate.
  destruct (set2 winningTeam _ _); discriminate.
Qed.

Lemma StartNewHand_not_Failed : forall rnd s e s', StartNewHand rnd s <> Failed e s'.
Proof.
  intros rnd s e s' H. unfold StartNewHand in H.
  destruct (dealHands _ _) as [s1|]; [|discriminate].
  destruct (DeckDeal 6 s1) as [[kitty s2]|]; discriminate.
Qed.

(** X10: a message the server answers with an error leaves the record as
    it was, for every message type except the three whose engine action
    moves cards in a loop (takeKitty, discard, discardDraw) and except a
    joinTable sent by a client that already sits at another seat. *)
Theorem rejected_message_leaves_record :
  forall (rnd : Entropy) (hub : HubSeats) (s : GameState) (client : Client)
         (msg : ClientMessage) (e : Error) (s' : GameState),
    HandleMessage rnd hub s client msg = Failed e s' ->
    Msg_Type msg <> MsgTakeKitty ->
    Msg_Type msg <> MsgDiscard ->
    Msg_Type msg <> MsgDiscardDraw ->
    (Msg_Type msg = MsgJoinTable ->
     Client_SeatIndex client < 0 \/ Msg_SeatIndex msg = Some (Client_SeatIndex client)) ->
    s' = s.
Proof.
  intros rnd hub s client msg e s' H H1 H2 H3 Hj.
  assert (Hact : forall a, AType a <> ActionTakeKitty -> AType a <> ActionDiscard ->
                           AType a <> ActionDiscardDraw ->
                           forall e0 s0, ApplyAction rnd s a = Failed e0 s0 -> s0 = s).
  { intros a A1 A2 A3 e0 s0 HA. eapply other_actions_atomic; eauto. }
  assert (Hseat : forall (P : Outcome),
             (if Client_SeatIndex client <? 0 then Failed ErrInvalidAction s else P)
             = Failed e s' ->
             (P = Failed e s' -> s' = s) -> s' = s).
  { intros P HP Hk. destruct (Client_SeatIndex client <? 0).
    - injection HP as _ <-. reflexivity.
    - auto. }
  unfold HandleMessage in H. destruct (Msg_Type msg) eqn:Et; try congruence.
  - (* joinTable *)
    specialize (Hj eq_refl). unfold handleJoinTable in H.
    destruct (Msg_SeatIndex msg) as [seatIndex|]; [|injection H as _ <-; reflexivity].
    assert (Hcond : (Client_SeatIndex client >=? 0)
                    && negb (Client_SeatIndex client =? seatIndex) = false).
    { destruct Hj as [Hneg | Heq].
      - apply andb_false_iff. left. lia.
      - injection Heq as ->. rewrite Z.eqb_refl. apply andb_false_r. }
    rewrite Hcond in H.
    destruct (negb (Phase_eqb (Phase s) PhaseLobby)).
    + destruct (get4 seatIndex (Players s)) as [[player|]|]; try discriminate.
      * destruct (negb (String.eqb (Name player) "") && Connected player);
          [injection H as _ <-; reflexivity|].
        destruct (setPlayer seatIndex _ s); discriminate.
      * injection H as _ <-. reflexivity.
    + eapply Hact; [| | | exact H]; simpl; discriminate.
  - unfold handleLeaveSeat in H. destruct (Client_SeatIndex client <? 0).
    + injection H as _ <-. reflexivity.
    + eapply Hact; [| | | exact H]; simpl; discriminate.
  - unfold handleChangeName in H. destruct (Client_SeatIndex client <? 0).
    + injection H as _ <-. reflexivity.
    + eapply Hact; [| | | exact H]; simpl; discriminate.
  - unfold handleKickPlayer in H. eapply Hseat; [exact H|]. intro HP.
    destruct (Msg_SeatIndex msg); [|injection HP as _ <-; reflexivity].
    eapply Hact; [| | | exact HP]; simpl; discriminate.
  - unfold handleTransferHouse in H. eapply Hseat; [exact H|]. intro HP.
    destruct (Msg_SeatIndex msg); [|injection HP as _ <-; reflexivity].
    eapply Hact; [| | | exact HP]; simpl; discriminate.
  - unfold handleStartGame in H. eapply Hact; [| | | exact H]; simpl; discriminate.
  - unfold handlePlaceBid in H. eapply Hseat; [exact H|]. intro HP.
    eapply Hact; [| | | exact HP]; simpl; discriminate.
  - unfold handleSelectTrump in H. eapply Hseat; [exact H|]. intro HP.
    eapply Hact; [| | | exact HP]; simpl; discriminate.
  - unfold handlePlayCard in H. eapply Hseat; [exact H|]. intro HP.
    match type of HP with
    | context [ApplyAction rnd s ?act] =>
        pose proof (Hact act) as HA;
          destruct (ApplyAction rnd s act) as [s1|e1 s1|]; try discriminate
    end.
    + destruct (Phase_eqb (Phase s1) PhaseScoring); [|discriminate].
      exfalso. exact (handleScoring_not_Failed _ HP).
    + injection HP as _ <-. eapply HA; simpl; try discriminate. reflexivity.
  - unfold handleRejoin in H. eapply rejoinScan_Failed; eauto.
  - unfold handleNewHand in H.
    destruct (negb (Phase_eqb (Phase s) PhaseScoring) && _);
      [injection H as _ <-; reflexivity|].
    destruct (Phase_eqb (Phase s) PhaseFinished).
    + destruct (b0 (Teams s)); [|discriminate].
      destruct (b1 (Teams s)); discriminate.
    + exfalso. exact (StartNewHand_not_Failed _ _ H).
  - unfold handleResetGame in H. eapply Hseat; [exact H|]. intro HP.
    eapply Hact; [| | | exact HP]; simpl; discriminate.
Qed.

Lemma rejected_message_leaves_record_witness :
  HandleMessage rnd0 noHub seatedHouse1 (clientAt 1) (Message0 MsgStartGame)
  = Failed (ErrNew "only the house can start the game") seatedHouse1
  /\ seatedHouse1 = seatedHouse1.
Proof.
  split; [reflexivity|].
  apply (@rejected_message_leaves_record rnd0 noHub seatedHouse1 (clientAt 1)
           (Message0 MsgStartGame) (ErrNew "only the house can start the game")
           seatedHouse1);
    [reflexivity | discriminate | discriminate | discriminate | discriminate].
Defined.

(** X11: a seated client that asks for another seat in the lobby is first
    taken off its seat and then seated anew.  When the seat asked for is
    free the player moves there, under the name of the message and with a
    new session token.  When it is taken, or is not a seat at all, the
    request fails ([ErrSeatTaken], "invalid seat index") but the old seat
    has already been vacated: the player ends up without a seat. *)
Theorem seat_switch_in_lobby :
  forall (rnd : Entropy) (hub : HubSeats) (s : GameState) (client : Client)
         (msg : ClientMessage) (j : Z) (p : Player),
    Phase s = PhaseLobby ->
    Msg_Type msg = MsgJoinTable ->
    Msg_SeatIndex msg = Some j ->
    Client_SeatIndex client <> j ->
    get4 (Client_SeatIndex client) (Players s) = Some (Some p) ->
    exists ps1,
      set4 (Client_SeatIndex client) None (Players s) = Some ps1
      /\ (get4 j (Players s) = Some None ->
          exists s',
            HandleMessage rnd hub s client msg = Done s'
            /\ get4 j (Players s')
               = Some (Some (mkPlayer (Msg_PlayerName msg) j [] (token rnd) true))
            /\ get4 (Client_SeatIndex client) (Players s') = Some None)
      /\ (forall q, get4 j (Players s) = Some (Some q) ->
                    HandleMessage rnd hub s client msg
                    = Failed ErrSeatTaken (set_Players ps1 s))
      /\ (j < 0 \/ 3 < j ->
          HandleMessage rnd hub s client msg
          = Failed (ErrNew "invalid seat index") (set_Players ps1 s)).
Proof.
  intros rnd hub s client msg j p Hph Ht Hj Hne Hg.
  pose proof (get4_valid _ _ Hg) as Hv.
  destruct (@set4_valid _ (Client_SeatIndex client) (@None Player) (Players s) Hv)
    as (ps1 & Hps1).
  exists ps1. split; [exact Hps1|].
  assert (Hother : get4 j ps1 = get4 j (Players s)).
  { eapply get4_set4_other; eauto. }
  assert (Hleft :
            (if (Client_SeatIndex client >=? 0) && negb (Client_SeatIndex client =? j)
             then ApplyAction rnd s
                    (mkAction ActionLeaveSeat (Client_SeatIndex client) "" 0 "" "" None 0)
             else Done s) = Done (set_Players ps1 s)).
  { replace ((Client_SeatIndex client >=? 0) && negb (Client_SeatIndex client =? j))
      with true.
    - unfold ApplyAction, applyLeaveSeat. simpl.
      rewrite (seat_in_range Hv), Hg, Hph. simpl. rewrite Hps1. reflexivity.
    - symmetry. apply andb_true_iff. split; [lia|].
      apply negb_true_iff. apply Z.eqb_neq. exact Hne. }
  unfold HandleMessage. rewrite Ht. unfold handleJoinTable. rewrite Hj, Hleft.
  simpl Phase. rewrite Hph. simpl negb. cbv iota.
  unfold ApplyAction, applyJoinSeat. simpl.
  rewrite Hph. simpl.
  split; [|split].
  - intro Hfree. pose proof (get4_valid _ _ Hfree) as Hvj.
    rewrite (seat_in_range Hvj), Hother, Hfree.
    destruct (@set4_valid _ j
                (Some (mkPlayer (Msg_PlayerName msg) j [] (token rnd) true)) ps1 Hvj)
      as (ps2 & Hps2).
    unfold setPlayer, GenerateSessionToken. simpl. rewrite Hps2.
    assert (Hold : get4 (Client_SeatIndex client) ps2 = Some None).
    { rewrite (get4_set4_other _ _ Hps2) by congruence.
      eapply get4_set4_same; eauto. }
    destruct (House s =? -1); eexists; (split; [reflexivity|]); simpl;
      (split; [eapply get4_set4_same; eauto | exact Hold]).
  - intros q Hq. pose proof (get4_valid _ _ Hq) as Hvj.
    rewrite (seat_in_range Hvj), Hother, Hq. reflexivity.
  - intro Hout.
    replace ((j <? 0) || (j >? 3)) with true; [reflexivity|].
    symmetry. apply orb_true_iff. lia.
Qed.

Lemma seat_switch_in_lobby_witness :
  exists ps1,
    set4 (Client_SeatIndex (clientAt 0)) None (Players seatedTable) = Some ps1
    /\ (get4 1 (Players seatedTable) = Some None ->
        exists s',
          HandleMessage rnd0 noHub seatedTable (clientAt 0) (joinMsg 1) = Done s'
          /\ get4 1 (Players s')
             = Some (Some (mkPlayer (Msg_PlayerName (joinMsg 1)) 1 [] (token rnd0) true))
          /\ get4 (Client_SeatIndex (clientAt 0)) (Players s') = Some None)
    /\ (forall q, get4 1 (Players seatedTable) = Some (Some q) ->
                  HandleMessage rnd0 noHub seatedTable (clientAt 0) (joinMsg 1)
                  = Failed ErrSeatTaken (set_Players ps1 seatedTable))
    /\ (1 < 0 \/ 3 < 1 ->
        HandleMessage rnd0 noHub seatedTable (clientAt 0) (joinMsg 1)
        = Failed (ErrNew "invalid seat index") (set_Players ps1 seatedTable)).
Proof.
  apply (@seat_switch_in_lobby rnd0 noHub seatedTable (clientAt 0) (joinMsg 1) 1
           (mkPlayer "player" 0 [] "token" true));
    [reflexivity | reflexivity | reflexivity | discriminate | reflexivity].
Defined.

(* ================================================================== *)
(** * Sessions *)

Lemma rejoinScan_none :
  forall seats tok s,
    (forall i p, In i seats -> get4 i (Players s) = Some (Some p) -> SessionToken p <> tok) ->
    rejoinScan seats tok s = Failed ErrRejoinFailed s.
Proof.
  induction seats as [|i rest IH]; intros tok s Hno; simpl.
  - reflexivity.
  - destruct (get4 i (Players s)) as [[p|]|] eqn:Eg.
    + destruct (String.eqb (SessionToken p) tok) eqn:E.
      * apply String.eqb_eq in E. exfalso. exact (Hno i p (or_introl eq_refl) Eg E).
      * apply IH. intros j q Hj. apply Hno. right. exact Hj.
    + apply IH. intros j q Hj. apply Hno. right. exact Hj.
    + apply IH. intros j q Hj. apply Hno. right. exact Hj.
Qed.

Lemma rejoinScan_first :
  forall before i after tok s p,
    (forall j q, In j before -> get4 j (Players s) = Some (Some q) -> SessionToken q <> tok) ->
    get4 i (Players s) = Some (Some p) ->
    SessionToken p = tok ->
    exists ps,
      set4 i (Some (set_Connected true p)) (Players s) = Some ps
      /\ rejoinScan (before ++ i :: after) tok s = Done (set_Players ps s).
Proof.
  induction before as [|j rest IH]; intros i after tok s p Hno Hg Ht; simpl.
  - rewrite Hg, Ht, String.eqb_refl.
    destruct (@setPlayer_valid i (set_Connected true p) s (get4_valid _ _ Hg))
      as (ps & Hps & Hsp).
    rewrite Hsp. exists ps. split; [exact Hps | reflexivity].
  - assert (Hrest : forall j0 q, In j0 rest -> get4 j0 (Players s) = Some (Some q) ->
                                 SessionToken q <> tok).
    { intros j0 q Hj0. apply Hno. right. exact Hj0. }
    destruct (get4 j (Players s)) as [[q|]|] eqn:Eg.
    + destruct (String.eqb (SessionToken q) tok) eqn:E.
      * apply String.eqb_eq in E. exfalso. exact (Hno j q (or_introl eq_refl) Eg E).
      * eapply IH; eauto.
    + eapply IH; eauto.
    + eapply IH; eauto.
Qed.

(** The seats before, at and after a seat, in the order [handleRejoin]
    scans them. *)
Lemma seats_split :
  forall i, 0 <= i <= 3 ->
    exists before after,
      [0; 1; 2; 3] = before ++ i :: after
      /\ (forall j, In j before -> 0 <= j < i)
      /\ (forall j, In j before \/ In j after -> j <> i).
Proof.
  intros i Hi. destruct (valid_cases Hi) as [-> | [-> | [-> | ->]]].
  - exists [], [1; 2; 3]. simpl. repeat split; intros; intuition lia.
  - exists [0], [2; 3]. simpl. repeat split; intros; intuition lia.
  - exists [0; 1], [3]. simpl. repeat split; intros; intuition lia.
  - exists [0; 1; 2], []. simpl. repeat split; intros; intuition lia.
Qed.

(** X12: a kick during a game keeps the seat and its cards but clears the
    name and the session token of the player and marks the seat
    disconnected; the other seats are untouched.  A later [rejoin] with
    the old token of the kicked player fails, provided the token is not
    empty and no other seat holds it.  A [rejoin] with an empty token,
    however, matches the cleared token: it reconnects the kicked seat when
    no other seat has an empty token. *)
Theorem kick_clears_session :
  forall (rnd : Entropy) (s : GameState) (a : Action) (p : Player),
    AType a = ActionKickPlayer ->
    Phase s <> PhaseLobby ->
    PlayerIndex a = House s ->
    TargetSeat a <> House s ->
    get4 (TargetSeat a) (Players s) = Some (Some p) ->
    let kicked := set_SessionToken "" (set_Name "" (set_Connected false p)) in
    exists s1,
      ApplyAction rnd s a = Done s1
      /\ get4 (TargetSeat a) (Players s1) = Some (Some kicked)
      /\ Hand kicked = Hand p
      /\ (forall j, j <> TargetSeat a -> get4 j (Players s1) = get4 j (Players s))
      /\ (forall client msg,
             Msg_Token msg <> "" ->
             (forall j q, j <> TargetSeat a -> get4 j (Players s) = Some (Some q) ->
                          SessionToken q <> Msg_Token msg) ->
             handleRejoin s1 client msg = Failed ErrRejoinFailed s1)
      /\ (forall client msg,
             Msg_Token msg = "" ->
             (forall j q, j <> TargetSeat a -> get4 j (Players s) = Some (Some q) ->
                          SessionToken q <> "") ->
             exists s2,
               handleRejoin s1 client msg = Done s2
               /\ get4 (TargetSeat a) (Players s2) = Some (Some (set_Connected true kicked))).
Proof.
  intros rnd s a p Ht Hph Hpl Hne Hg kicked.
  pose proof (get4_valid _ _ Hg) as Hv.
  destruct (@setPlayer_valid (TargetSeat a) kicked s Hv) as (ps & Hps & Hsp).
  exists (set_Players ps s).
  assert (Hsame : get4 (TargetSeat a) ps = Some (Some kicked))
    by (eapply get4_set4_same; eauto).
  assert (Hoth : forall j, j <> TargetSeat a -> get4 j ps = get4 j (Players s)).
  { intros j Hj. eapply get4_set4_other; eauto. }
  split.
  { unfold ApplyAction. rewrite Ht. unfold applyKickPlayer.
    rewrite Hpl, Z.eqb_refl. simpl negb. cbv iota.
    rewrite (seat_in_range Hv).
    replace (TargetSeat a =? House s) with false by (symmetry; apply Z.eqb_neq; exact Hne).
    rewrite Hg.
    replace (Phase_eqb (Phase s) PhaseLobby) with false.
    - fold kicked. rewrite Hsp. reflexivity.
    - symmetry. destruct (Phase_eqb (Phase s) PhaseLobby) eqn:E; [|reflexivity].
      apply Phase_eqb_eq in E. contradiction. }
  split; [exact Hsame|]. split; [reflexivity|]. split; [exact Hoth|]. split.
  - intros client msg Htok Hno. unfold handleRejoin. apply rejoinScan_none.
    intros i q _ Hq. simpl in Hq.
    destruct (Z.eq_dec i (TargetSeat a)) as [-> | Hi].
    + rewrite Hsame in Hq. injection Hq as <-. simpl. congruence.
    + rewrite (Hoth i Hi) in Hq. eapply Hno; eauto.
  - intros client msg Htok Hno. unfold handleRejoin.
    destruct (seats_split Hv) as (before & after & Hsplit & Hbefore & Hdiff).
    rewrite Hsplit.
    destruct (@rejoinScan_first before (TargetSeat a) after (Msg_Token msg)
                (set_Players ps s) kicked) as (ps2 & Hps2 & Hscan).
    + intros j q Hj Hq. simpl in Hq.
      assert (Hjne : j <> TargetSeat a) by (apply Hdiff; left; exact Hj).
      rewrite (Hoth j Hjne) in Hq. rewrite Htok. eapply Hno; eauto.
    + exact Hsame.
    + rewrite Htok. reflexivity.
    + eexists. split; [exact Hscan|]. simpl. eapply get4_set4_same; eauto.
Qed.

(** X13: when a seated, connected player disconnects, the seat is marked
    disconnected and the number of connected players drops by one; a
    [rejoin] with the token of the player then gives back the record as it
    was before the disconnection, provided no seat before it holds the
    same token. *)
Theorem disconnect_then_rejoin :
  forall (s : GameState) (client client' : Client) (msg : ClientMessage) (p : Player),
    get4 (Client_SeatIndex client) (Players s) = Some (Some p) ->
    Connected p = true ->
    Msg_Token msg = SessionToken p ->
    (forall j q, 0 <= j < Client_SeatIndex client ->
                 get4 j (Players s) = Some (Some q) -> SessionToken q <> SessionToken p) ->
    get4 (Client_SeatIndex client) (Players (HandleDisconnect s client))
    = Some (Some (set_Connected false p))
    /\ (forall j, j <> Client_SeatIndex client ->
                  get4 j (Players (HandleDisconnect s client)) = get4 j (Players s))
    /\ ConnectedPlayerCount (HandleDisconnect s client) = ConnectedPlayerCount s - 1
    /\ handleRejoin (HandleDisconnect s client) client' msg = Done s.
Proof.
  intros s client client' msg p Hg Hc Htok Hno.
  pose proof (get4_valid _ _ Hg) as Hv.
  destruct (@setPlayer_valid (Client_SeatIndex client) (set_Connected false p) s Hv)
    as (ps & Hps & Hsp).
  assert (HD : HandleDisconnect s client = set_Players ps s).
  { unfold HandleDisconnect.
    replace ((Client_SeatIndex client >=? 0) && (Client_SeatIndex client <? 4)) with true
      by (symmetry; apply andb_true_iff; split; lia).
    rewrite Hg, Hsp. reflexivity. }
  rewrite HD. simpl Players.
  assert (Hsame : get4 (Client_SeatIndex client) ps = Some (Some (set_Connected false p)))
    by (eapply get4_set4_same; eauto).
  assert (Hoth : forall j, j <> Client_SeatIndex client -> get4 j ps = get4 j (Players s)).
  { intros j Hj. eapply get4_set4_other; eauto. }
  split; [exact Hsame|]. split; [exact Hoth|]. split.
  - unfold ConnectedPlayerCount. simpl Players.
    destruct (Players s) as [o0 o1 o2 o3]. unfold get4, set4 in *. simpl in *.
    destruct (valid_cases Hv) as [E | [E | [E | E]]]; rewrite E in *; simpl in *;
      injection Hg as ->; injection Hps as <-; simpl; rewrite Hc;
      repeat match goal with
             | |- context [match ?o with Some _ => _ | None => _ end] =>
                 destruct o as [[? ? ? ? []]|]
             end; reflexivity.
  - unfold handleRejoin.
    destruct (seats_split Hv) as (before & after & Hsplit & Hbefore & Hdiff).
    rewrite Hsplit.
    destruct (@rejoinScan_first before (Client_SeatIndex client) after (Msg_Token msg)
                (set_Players ps s) (set_Connected false p)) as (ps2 & Hps2 & Hscan).
    + intros j q Hj Hq. simpl in Hq.
      assert (Hjne : j <> Client_SeatIndex client) by (apply Hdiff; left; exact Hj).
      rewrite (Hoth j Hjne) in Hq. rewrite Htok. eapply Hno; eauto.
    + exact Hsame.
    + rewrite Htok. reflexivity.
    + rewrite Hscan. f_equal. simpl in Hps2.
      assert (Hp : set_Connected true (set_Connected false p) = p).
      { destruct p. simpl in Hc. subst. reflexivity. }
      rewrite Hp in Hps2.
      assert (ps2 = Players s) by (eapply set4_set4_back; eauto).
      subst ps2. destruct s; reflexivity.
Qed.

Lemma kick_clears_session_witness :
  let kicked :=
    set_SessionToken "" (set_Name "" (set_Connected false (seatPlayer kittyTable 2))) in
  exists s1,
    ApplyAction rnd0 kittyTable kickSeat2 = Done s1
    /\ get4 (TargetSeat kickSeat2) (Players s1) = Some (Some kicked)
    /\ Hand kicked = Hand (seatPlayer kittyTable 2)
    /\ (forall j, j <> TargetSeat kickSeat2 ->
                  get4 j (Players s1) = get4 j (Players kittyTable))
    /\ (forall client msg,
           Msg_Token msg <> "" ->
           (forall j q, j <> TargetSeat kickSeat2 ->
                        get4 j (Players kittyTable) = Some (Some q) ->
                        SessionToken q <> Msg_Token msg) ->
           handleRejoin s1 client msg = Failed ErrRejoinFailed s1)
    /\ (forall client msg,
           Msg_Token msg = "" ->
           (forall j q, j <> TargetSeat kickSeat2 ->
                        get4 j (Players kittyTable) = Some (Some q) ->
                        SessionToken q <> "") ->
           exists s2,
             handleRejoin s1 client msg = Done s2
             /\ get4 (TargetSeat kickSeat2) (Players s2)
                = Some (Some (set_Connected true kicked))).
Proof.
  apply (@kick_clears_session rnd0 kittyTable kickSeat2 (seatPlayer kittyTable 2));
    [reflexivity | discriminate | reflexivity | discriminate | reflexivity].
Defined.

Lemma disconnect_then_rejoin_witness :
  get4 0 (Players (HandleDisconnect kittyTable (clientAt 0)))
  = Some (Some (set_Connected false (seatPlayer kittyTable 0)))
  /\ (forall j, j <> 0 ->
                get4 j (Players (HandleDisconnect kittyTable (clientAt 0)))
                = get4 j (Players kittyTable))
  /\ ConnectedPlayerCount (HandleDisconnect kittyTable (clientAt 0))
     = ConnectedPlayerCount kittyTable - 1
  /\ handleRejoin (HandleDisconnect kittyTable (clientAt 0)) (clientAt (-1))
                  (rejoinMsg "token") = Done kittyTable.
Proof.
  apply (@disconnect_then_rejoin kittyTable (clientAt 0) (clientAt (-1))
           (rejoinMsg "token") (seatPlayer kittyTable 0));
    [reflexivity | reflexivity | reflexivity | simpl; intros; lia].
Defined.

(** X14: while a game is under way a client without a seat that asks for
    a seat takes it over when the seat's player has left (its name is
    empty) or is disconnected: the player record gets the name of the
    message, a new session token and is connected again, and it keeps the
    hand, so that the cards in play are unchanged.  When the seat's player
    is present the request fails with [ErrSeatTaken] and when the seat
    never had a player with [ErrInvalidAction]; the record is unchanged
    in both cases. *)
Theorem mid_game_takeover :
  forall (rnd : Entropy) (hub : HubSeats) (s : GameState) (client : Client)
         (msg : ClientMessage) (j : Z),
    Phase s <> PhaseLobby ->
    Msg_Type msg = MsgJoinTable ->
    Msg_SeatIndex msg = Some j ->
    Client_SeatIndex client < 0 ->
    0 <= j <= 3 ->
    (get4 j (Players s) = Some None ->
     HandleMessage rnd hub s client msg = Failed ErrInvalidAction s)
    /\ (forall p, get4 j (Players s) = Some (Some p) ->
                  Name p <> "" -> Connected p = true ->
                  HandleMessage rnd hub s client msg = Failed ErrSeatTaken s)
    /\ (forall p, get4 j (Players s) = Some (Some p) ->
                  Name p = "" \/ Connected p = false ->
                  exists ps,
                    set4 j (Some (mkPlayer (Msg_PlayerName msg) (SeatIndex p) (Hand p)
                                           (token rnd) true)) (Players s) = Some ps
                    /\ HandleMessage rnd hub s client msg = Done (set_Players ps s)
                    /\ cardsInPlay (set_Players ps s) = cardsInPlay s).
Proof.
  intros rnd hub s client msg j Hph Ht Hj Hc Hv.
  assert (Hnl : negb (Phase_eqb (Phase s) PhaseLobby) = true).
  { apply negb_true_iff. destruct (Phase_eqb (Phase s) PhaseLobby) eqn:E; [|reflexivity].
    apply Phase_eqb_eq in E. contradiction. }
  assert (Hcond : (Client_SeatIndex client >=? 0)
                  && negb (Client_SeatIndex client =? j) = false).
  { apply andb_false_iff. left. lia. }
  unfold HandleMessage. rewrite Ht. unfold handleJoinTable. rewrite Hj, Hcond, Hnl.
  split; [|split].
  - intro Hg. rewrite Hg. reflexivity.
  - intros p Hg Hn Hcon. rewrite Hg, Hcon.
    replace (String.eqb (Name p) "") with false
      by (symmetry; apply String.eqb_neq; exact Hn).
    reflexivity.
  - intros p Hg Hor. rewrite Hg.
    replace (negb (String.eqb (Name p) "") && Connected p) with false.
    + unfold GenerateSessionToken.
      match goal with
      | |- context [setPlayer j ?q s] =>
          destruct (@setPlayer_valid j q s Hv) as (ps & Hps & Hsp); rewrite Hsp
      end.
      exists ps. split; [exact Hps|]. split; [reflexivity|].
      apply cardsInPlay_ext; try reflexivity. simpl.
      eapply hands4_same_hand; eauto.
    + symmetry. destruct Hor as [Hn | Hcon].
      * rewrite Hn. reflexivity.
      * rewrite Hcon. apply andb_false_r.
Qed.

(** X15: while a game is under way, a [joinTable] message whose seat index
    is not one of 0..3 makes the server index its array of players out of
    bounds: the handler panics, whether the client is a spectator or sits
    at a seat.  (In the lobby the same message is answered with "invalid
    seat index".) *)
Theorem mid_game_join_outside_seats_panics :
  forall (rnd : Entropy) (hub : HubSeats) (s : GameState) (client : Client)
         (msg : ClientMessage) (j : Z),
    Msg_Type msg = MsgJoinTable ->
    Msg_SeatIndex msg = Some j ->
    j < 0 \/ 3 < j ->
    Client_SeatIndex client < 0
    \/ (exists p, get4 (Client_SeatIndex client) (Players s) = Some (Some p)) ->
    (Phase s <> PhaseLobby -> HandleMessage rnd hub s client msg = Panicked)
    /\ (Phase s = PhaseLobby -> Client_SeatIndex client < 0 ->
        HandleMessage rnd hub s client msg = Failed (ErrNew "invalid seat index") s).
Proof.
  intros rnd hub s client msg j Ht Hj Hout Hcl.
  assert (Hnone : forall ps : Arr4 (option Player), get4 j ps = None).
  { intro ps. unfold get4.
    replace (j =? 0) with false by lia. replace (j =? 1) with false by lia.
    replace (j =? 2) with false by lia. replace (j =? 3) with false by lia.
    reflexivity. }
  unfold HandleMessage. rewrite Ht. unfold handleJoinTable. rewrite Hj.
  split.
  - intro Hph.
    assert (Hnl : Phase_eqb (Phase s) PhaseLobby = false).
    { destruct (Phase_eqb (Phase s) PhaseLobby) eqn:E; [|reflexivity].
      apply Phase_eqb_eq in E. contradiction. }
    destruct ((Client_SeatIndex client >=? 0) && negb (Client_SeatIndex client =? j))
      eqn:Econd.
    + destruct Hcl as [Hneg | (p & Hp)]; [lia|].
      pose proof (get4_valid _ _ Hp) as Hv.
      unfold ApplyAction, applyLeaveSeat. simpl.
      rewrite (seat_in_range Hv), Hp, Hnl.
      match goal with
      | |- context [setPlayer ?i ?q s] =>
          destruct (@setPlayer_valid i q s Hv) as (ps & Hps & Hsp); rewrite Hsp
      end.
      simpl. rewrite Hnl. simpl. rewrite Hnone. reflexivity.
    + rewrite Hnl. simpl. rewrite Hnone. reflexivity.
  - intros Hph Hneg.
    replace ((Client_SeatIndex client >=? 0) && negb (Client_SeatIndex client =? j))
      with false by (symmetry; apply andb_false_iff; left; lia).
    rewrite Hph. simpl. unfold ApplyAction, applyJoinSeat. simpl. rewrite Hph. simpl.
    replace ((j <? 0) || (j >? 3)) with true; [reflexivity|].
    symmetry. apply orb_true_iff. lia.
Qed.

Lemma mid_game_takeover_witness :
  (get4 2 (Players kittyTable) = Some None ->
   HandleMessage rnd0 noHub kittyTable (clientAt (-1)) (joinMsg 2)
   = Failed ErrInvalidAction kittyTable)
  /\ (forall p, get4 2 (Players kittyTable) = Some (Some p) ->
                Name p <> "" -> Connected p = true ->
                HandleMessage rnd0 noHub kittyTable (clientAt (-1)) (joinMsg 2)
                = Failed ErrSeatTaken kittyTable)
  /\ (forall p, get4 2 (Players kittyTable) = Some (Some p) ->
                Name p = "" \/ Connected p = false ->
                exists ps,
                  set4 2 (Some (mkPlayer (Msg_PlayerName (joinMsg 2)) (SeatIndex p) (Hand p)
                                         (token rnd0) true)) (Players kittyTable) = Some ps
                  /\ HandleMessage rnd0 noHub kittyTable (clientAt (-1)) (joinMsg 2)
                     = Done (set_Players ps kittyTable)
                  /\ cardsInPlay (set_Players ps kittyTable) = cardsInPlay kittyTable).
Proof.
  apply (@mid_game_takeover rnd0 noHub kittyTable (clientAt (-1)) (joinMsg 2) 2);
    [discriminate | reflexivity | reflexivity | reflexivity | lia].
Defined.

Lemma mid_game_join_outside_seats_panics_witness :
  (Phase kittyTable <> PhaseLobby ->
   HandleMessage rnd0 noHub kittyTable (clientAt (-1)) (joinMsg 7) = Panicked)
  /\ (Phase kittyTable = PhaseLobby -> Client_SeatIndex (clientAt (-1)) < 0 ->
      HandleMessage rnd0 noHub kittyTable (clientAt (-1)) (joinMsg 7)
      = Failed (ErrNew "invalid seat index") kittyTable).
Proof.
  apply (@mid_game_join_outside_seats_panics rnd0 noHub kittyTable (clientAt (-1))
           (joinMsg 7) 7);
    [reflexivity | reflexivity | right; lia | left; reflexivity].
Defined.

(* ================================================================== *)
(** * The points of a hand *)

Lemma highLowScan_flat :
  forall trump tricks hl,
    fold_left (fun hl trick => fold_left (highLowStep trump) (CT_Cards trick) hl) tricks hl
    = fold_left (highLowStep trump) (flat_map CT_Cards tricks) hl.
Proof.
  intros trump tricks. induction tricks as [|t rest IH]; intro hl; simpl.
  - reflexivity.
  - rewrite fold_left_app. apply IH.
Qed.

(** The scan for High and Low, card by card: either no card of the trump
    suit was seen and nothing is recorded, or the recorded cards are the
    highest and the lowest of the trump suit seen, with their seats. *)
Lemma highLowStep_extremes :
  forall trump seen hl tc,
    highLowState trump seen hl ->
    highLowState trump (seen ++ [tc]) (highLowStep trump hl tc).
Proof.
  intros trump seen hl tc H. unfold highLowStep.
  assert (Hlast : In tc (seen ++ [tc])) by (apply in_or_app; right; left; reflexivity).
  assert (Hold : forall x, In x seen -> In x (seen ++ [tc]))
    by (intros x Hx; apply in_or_app; left; exact Hx).
  destruct (Suit_eqb (CSuit (TC_Card tc)) trump) eqn:Es.
  - apply Suit_eqb_eq in Es.
    destruct H as [(Hno & Hh & Hl)
                  | (hi & lo & Hhi & Hlo & Hsh & Hsl & Hh & Hhp & Hl & Hlp & Hb)].
    + right. rewrite Hh. simpl. rewrite Hl. exists tc, tc. split_ands; auto.
      intros tc' Hin Hs'. apply in_app_or in Hin. destruct Hin as [Hin | [<- | []]].
      * exfalso. exact (Hno tc' Hin Hs').
      * lia.
    + right. rewrite Hh.
      pose proof (Hb hi Hhi Hsh) as Hhl.
      destruct (Rank_int (CRank (TC_Card tc)) >? Rank_int (CRank (TC_Card hi))) eqn:Eh;
        simpl; rewrite Hl;
        destruct (Rank_int (CRank (TC_Card tc)) <? Rank_int (CRank (TC_Card lo))) eqn:El;
        simpl.
      * lia.
      * exists tc, lo. split_ands; auto.
        intros tc' Hin Hs'. apply in_app_or in Hin. destruct Hin as [Hin | [<- | []]].
        -- pose proof (Hb tc' Hin Hs'). lia.
        -- lia.
      * exists hi, tc. split_ands; auto.
        intros tc' Hin Hs'. apply in_app_or in Hin. destruct Hin as [Hin | [<- | []]].
        -- pose proof (Hb tc' Hin Hs'). lia.
        -- lia.
      * exists hi, lo. split_ands; auto.
        intros tc' Hin Hs'. apply in_app_or in Hin. destruct Hin as [Hin | [<- | []]].
        -- apply (Hb tc' Hin Hs').
        -- lia.
  - apply Suit_eqb_neq in Es.
    destruct H as [(Hno & Hh & Hl)
                  | (hi & lo & Hhi & Hlo & Hsh & Hsl & Hh & Hhp & Hl & Hlp & Hb)].
    + left. split_ands; auto.
      intros tc' Hin. apply in_app_or in Hin. destruct Hin as [Hin | [<- | []]]; auto.
    + right. exists hi, lo. split_ands; auto.
      intros tc' Hin Hs'. apply in_app_or in Hin. destruct Hin as [Hin | [<- | []]].
      * apply (Hb tc' Hin Hs').
      * contradiction.
Qed.

Lemma highLowCards_extremes :
  forall trump cards seen hl,
    highLowState trump seen hl ->
    highLowState trump (seen ++ cards) (fold_left (highLowStep trump) cards hl).
Proof.
  intros trump cards. induction cards as [|tc rest IH]; intros seen hl H; simpl.
  - rewrite app_nil_r. exact H.
  - replace (seen ++ tc :: rest) with ((seen ++ [tc]) ++ rest)
      by (rewrite <- app_assoc; reflexivity).
    apply IH. apply highLowStep_extremes. exact H.
Qed.

Lemma highLowScan_extremes :
  forall trump tricks,
    highLowState trump (flat_map CT_Cards tricks) (highLowScan trump tricks).
Proof.
  intros trump tricks. unfold highLowScan. rewrite highLowScan_flat.
  apply (@highLowCards_extremes trump (flat_map CT_Cards tricks) [] (mkHighLow None 0 None 0)).
  left. split_ands; auto.
Qed.

(** X16: with trump chosen, the High and the Low point of [CalculateScore]
    go to the teams of the seats that played the highest and the lowest
    card of the trump suit among the cards of the completed tricks, and
    [HighCard] and [LowCard] name those cards; when no card of the trump
    suit was played neither point is given. *)
Theorem high_and_low_points :
  forall (s : GameState) (trump : Suit),
    Trump s = Some trump ->
    let r := CalculateScore s in
    ((forall tc, In tc (playedCards s) -> CSuit (TC_Card tc) <> trump) ->
     HighTeam r = -1 /\ LowTeam r = -1 /\ HighCard r = "" /\ LowCard r = "")
    /\ ((exists tc, In tc (playedCards s) /\ CSuit (TC_Card tc) = trump) ->
        exists hi lo,
          In hi (playedCards s) /\ In lo (playedCards s)
          /\ CSuit (TC_Card hi) = trump /\ CSuit (TC_Card lo) = trump
          /\ (forall tc, In tc (playedCards s) -> CSuit (TC_Card tc) = trump ->
                         Rank_int (CRank (TC_Card lo)) <= Rank_int (CRank (TC_Card tc))
                         <= Rank_int (CRank (TC_Card hi)))
          /\ HighTeam r = GetTeamForPlayer (TC_PlayerIndex hi)
          /\ HighCard r = ID (TC_Card hi)
          /\ LowTeam r = GetTeamForPlayer (TC_PlayerIndex lo)
          /\ LowCard r = ID (TC_Card lo)).
Proof.
  intros s trump Ht r. subst r. unfold CalculateScore. rewrite Ht.
  unfold scoreHand. simpl.
  pose proof (highLowScan_extremes trump (CompletedTricks s)) as H.
  fold (playedCards s) in H.
  destruct H as [(Hno & Hh & Hl) | (hi & lo & Hhi & Hlo & Hsh & Hsl & Hh & Hhp & Hl & Hlp & Hb)].
  - split.
    + intros _. rewrite Hh, Hl. auto.
    + intros (tc & Hin & Hs). exfalso. exact (Hno tc Hin Hs).
  - split.
    + intro Hnone. exfalso. exact (Hnone hi Hhi Hsh).
    + intros _. exists hi, lo. rewrite Hh, Hl, Hhp, Hlp. split_ands; auto.
Qed.

Lemma high_and_low_points_witness :
  let r := CalculateScore scoredTable in
  ((forall tc, In tc (playedCards scoredTable) -> CSuit (TC_Card tc) <> Spades) ->
   HighTeam r = -1 /\ LowTeam r = -1 /\ HighCard r = "" /\ LowCard r = "")
  /\ ((exists tc, In tc (playedCards scoredTable) /\ CSuit (TC_Card tc) = Spades) ->
      exists hi lo,
        In hi (playedCards scoredTable) /\ In lo (playedCards scoredTable)
        /\ CSuit (TC_Card hi) = Spades /\ CSuit (TC_Card lo) = Spades
        /\ (forall tc, In tc (playedCards scoredTable) -> CSuit (TC_Card tc) = Spades ->
                       Rank_int (CRank (TC_Card lo)) <= Rank_int (CRank (TC_Card tc))
                       <= Rank_int (CRank (TC_Card hi)))
        /\ HighTeam r = GetTeamForPlayer (TC_PlayerIndex hi)
        /\ HighCard r = ID (TC_Card hi)
        /\ LowTeam r = GetTeamForPlayer (TC_PlayerIndex lo)
        /\ LowCard r = ID (TC_Card lo)).
Proof. apply (@high_and_low_points scoredTable Spades). reflexivity. Defined.

(** A category gives its point to one team at most. *)
Lemma point_one_team : forall c, 0 <= point 0 c + point 1 c <= 1.
Proof.
  intro c. unfold point.
  destruct (Z.eqb_spec c 0); destruct (Z.eqb_spec c 1); lia.
Qed.

(** X17: [applyPlaceBid] takes a bid of 6 from the seat to act when no
    earlier bid reached 6, but a hand has only five points to give: once
    trump is chosen, [CalculateScore] on a winning bid of 6 or more always
    finds the bid not made, and the change of the bidder's team is the
    negated bid. *)
Theorem bid_of_six_is_never_made :
  (forall (s : GameState) (a : Action),
      Phase s = PhaseBidding ->
      PlayerIndex a = CurrentPlayer s ->
      BidAmount a = 6 ->
      (forall b, In b (Bids s) -> Amount b < 6) ->
      exists s',
        applyPlaceBid s a = Done s'
        /\ In (mkBid (PlayerIndex a) 6) (Bids s'))
  /\ (forall (s : GameState) (trump : Suit),
         Trump s = Some trump ->
         6 <= WinningBid s ->
         let r := CalculateScore s in
         BidMade r = false
         /\ Team0Points r + Team1Points r <= 5
         /\ (GetTeamForPlayer (BidWinner s) = 0 ->
             Team0Change r = int_neg (WinningBid s) /\ Team1Change r = Team1Points r)
         /\ (GetTeamForPlayer (BidWinner s) = 1 ->
             Team1Change r = int_neg (WinningBid s) /\ Team0Change r = Team0Points r)).
Proof.
  split.
  - intros s a Hph Hpl Hamt Hlow.
    pose proof (highBidScan_spec (Bids s) 0 0) as Hscan. cbv zeta in Hscan.
    destruct Hscan as (_ & _ & Hmax).
    assert (Hhigh : fst (highBidScan (Bids s) 0 0) < 6).
    { destruct Hmax as [(-> & _) | (b & Hb & <- & _)]; [lia | apply Hlow; exact Hb]. }
    destruct (applyPlaceBid s a) as [s'|e s'|] eqn:E.
    + exists s'. split; [reflexivity|].
      apply applyPlaceBid_Done in E. destruct E as (_ & _ & _ & E). cbv zeta in E.
      assert (HR : recordedAmount s a = 6).
      { unfold recordedAmount. rewrite Hamt. simpl. rewrite andb_false_r. reflexivity. }
      rewrite HR in E.
      destruct (len _ =? 4); subst s'; simpl; apply in_or_app; right; left; reflexivity.
    + exfalso. unfold applyPlaceBid in E. rewrite Hph, Hpl, Z.eqb_refl, Hamt in E.
      simpl in E.
      replace (6 <=? fst (highBidScan (Bids s) 0 0)) with false in E by lia.
      destruct (Z.of_nat (List.length _) =? 4) in E; [|discriminate].
      destruct (highBidScan _ 0 (Dealer s)) in E. discriminate.
    + exfalso. exact (applyPlaceBid_no_panic _ _ E).
  - intros s trump Ht Hbid r. subst r. unfold CalculateScore. rewrite Ht.
    destruct (scoreHand_points s trump) as (H0 & H1).
    pose proof (scoreHand_changes s trump) as Hch. cbv zeta in Hch.
    destruct Hch as (Hc0 & Hc1).
    pose proof (earnedTotal_range 0 (scoreHand s trump)) as R0.
    pose proof (earnedTotal_range 1 (scoreHand s trump)) as R1.
    assert (Hsum : Team0Points (scoreHand s trump) + Team1Points (scoreHand s trump) <= 5).
    { rewrite H0, H1. unfold earnedTotal.
      pose proof (point_one_team (HighTeam (scoreHand s trump))).
      pose proof (point_one_team (LowTeam (scoreHand s trump))).
      pose proof (point_one_team (JackTeam (scoreHand s trump))).
      pose proof (point_one_team (OffJackTeam (scoreHand s trump))).
      pose proof (point_one_team (GameTeam (scoreHand s trump))).
      lia. }
    assert (Hmade : BidMade (scoreHand s trump)
                    = ((if GetTeamForPlayer (BidWinner s) =? 1
                        then Team1Points (scoreHand s trump)
                        else Team0Points (scoreHand s trump)) >=? WinningBid s))
      by reflexivity.
    split.
    { rewrite Hmade. destruct (GetTeamForPlayer (BidWinner s) =? 1); lia. }
    split; [exact Hsum|].
    rewrite Hc0, Hc1.
    split; intro Hteam; rewrite Hteam; simpl Z.eqb; cbv iota.
    + replace (Team0Points (scoreHand s trump) >=? WinningBid s) with false by lia. auto.
    + replace (Team1Points (scoreHand s trump) >=? WinningBid s) with false by lia. auto.
Qed.

(* ================================================================== *)
(** * The end of a hand *)

(** X18: [handleScoring] adds each team's change to its score and then
    looks for a winner in the order of the teams: when team 0 has reached
    the target score the game is finished and team 0 gets the game, also
    when team 1 has reached the target too, whatever the two scores are;
    team 1 gets the game only when team 0 is below the target; when both
    are below it the phase stays as it was and no game is counted. *)
Theorem scoring_ends_the_game :
  forall (s : GameState) (t0 t1 : Team),
    b0 (Teams s) = Some t0 ->
    b1 (Teams s) = Some t1 ->
    let r := CalculateScore s in
    let n0 := int_add (Score t0) (Team0Change r) in
    let n1 := int_add (Score t1) (Team1Change r) in
    exists s',
      handleScoring s = Done s'
      /\ teamScore 0 s' = n0 /\ teamScore 1 s' = n1
      /\ (TargetScore s <= n0 ->
          Phase s' = PhaseFinished
          /\ Teams s' = mkArr2 (Some (mkTeam (PlayerIndices t0) n0 (int_add (GamesWon t0) 1)))
                               (Some (mkTeam (PlayerIndices t1) n1 (GamesWon t1))))
      /\ (n0 < TargetScore s -> TargetScore s <= n1 ->
          Phase s' = PhaseFinished
          /\ Teams s' = mkArr2 (Some (mkTeam (PlayerIndices t0) n0 (GamesWon t0)))
                               (Some (mkTeam (PlayerIndices t1) n1 (int_add (GamesWon t1) 1))))
      /\ (n0 < TargetScore s -> n1 < TargetScore s ->
          Phase s' = Phase s
          /\ Teams s' = mkArr2 (Some (mkTeam (PlayerIndices t0) n0 (GamesWon t0)))
                               (Some (mkTeam (PlayerIndices t1) n1 (GamesWon t1)))).
Proof.
  intros s t0 t1 H0 H1 r n0 n1.
  unfold handleScoring, ApplyScore. rewrite H0, H1. fold r. fold n0. fold n1.
  unfold CheckGameOver. simpl.
  destruct (n0 >=? TargetScore s) eqn:E0.
  - eexists. split; [reflexivity|]. unfold teamScore. simpl.
    repeat match goal with |- _ /\ _ => split end; try reflexivity; intros; try lia.
    split; reflexivity.
  - destruct (n1 >=? TargetScore s) eqn:E1.
    + eexists. split; [reflexivity|]. unfold teamScore. simpl.
      repeat match goal with |- _ /\ _ => split end; try reflexivity; intros; try lia.
      split; reflexivity.
    + eexists. split; [reflexivity|]. unfold teamScore. simpl.
      repeat match goal with |- _ /\ _ => split end; try reflexivity; intros; try lia.
      split; reflexivity.
Qed.

Lemma scoring_ends_the_game_witness :
  let r := CalculateScore scoredTable in
  let n0 := int_add 0 (Team0Change r) in
  let n1 := int_add 0 (Team1Change r) in
  exists s',
    handleScoring scoredTable = Done s'
    /\ teamScore 0 s' = n0 /\ teamScore 1 s' = n1
    /\ (TargetScore scoredTable <= n0 ->
        Phase s' = PhaseFinished
        /\ Teams s' = mkArr2 (Some (mkTeam [0; 2] n0 (int_add 0 1)))
                             (Some (mkTeam [1; 3] n1 0)))
    /\ (n0 < TargetScore scoredTable -> TargetScore scoredTable <= n1 ->
        Phase s' = PhaseFinished
        /\ Teams s' = mkArr2 (Some (mkTeam [0; 2] n0 0))
                             (Some (mkTeam [1; 3] n1 (int_add 0 1))))
    /\ (n0 < TargetScore scoredTable -> n1 < TargetScore scoredTable ->
        Phase s' = Phase scoredTable
        /\ Teams s' = mkArr2 (Some (mkTeam [0; 2] n0 0))
                             (Some (mkTeam [1; 3] n1 0))).
Proof.
  apply (@scoring_ends_the_game scoredTable (mkTeam [0; 2] 0 0) (mkTeam [1; 3] 0 0));
    reflexivity.
Defined.

(* ================================================================== *)
(** * What the server tells a client *)

Lemma blankCards_length : forall n, List.length (blankCards n) = n.
Proof. intro n. unfold blankCards. apply repeat_length. Qed.

Lemma publicPlayer_erased :
  forall seat gs i p,
    0 <= i <= 3 ->
    publicPlayer (eraseFor seat gs) i (hideSeat seat i p) = publicPlayer gs i p.
Proof.
  intros seat gs i p Hi. unfold hideSeat.
  assert (Hpd : match get4 i (PendingDiscards (eraseFor seat gs)) with
                | Some (Some _) => true | _ => false end
                = match get4 i (PendingDiscards gs) with
                  | Some (Some _) => true | _ => false end).
  { simpl. destruct (PendingDiscards gs) as [[?|] [?|] [?|] [?|]];
      destruct (valid_cases Hi) as [-> | [-> | [-> | ->]]]; reflexivity. }
  destruct p as [p|]; [|destruct (seat =? i); reflexivity].
  destruct (seat =? i); unfold publicPlayer; simpl option_map; cbv iota.
  - rewrite Hpd. reflexivity.
  - rewrite Hpd. simpl. unfold len. rewrite blankCards_length. reflexivity.
Qed.

Lemma BuildPublicState_erased :
  forall gs seat, BuildPublicState (eraseFor seat gs) = BuildPublicState gs.
Proof.
  intros gs seat. unfold BuildPublicState.
  change (Teams (eraseFor seat gs)) with (Teams gs).
  destruct (b0 (Teams gs)) as [t0|]; [|reflexivity].
  destruct (b1 (Teams gs)) as [t1|]; [|reflexivity].
  change (a0 (Players (eraseFor seat gs))) with (hideSeat seat 0 (a0 (Players gs))).
  change (a1 (Players (eraseFor seat gs))) with (hideSeat seat 1 (a1 (Players gs))).
  change (a2 (Players (eraseFor seat gs))) with (hideSeat seat 2 (a2 (Players gs))).
  change (a3 (Players (eraseFor seat gs))) with (hideSeat seat 3 (a3 (Players gs))).
  rewrite !publicPlayer_erased by lia.
  assert (HK : len (Kitty (eraseFor seat gs)) = len (Kitty gs)).
  { simpl Kitty.
    destruct (Phase_eqb (Phase gs) PhaseKitty && (seat =? BidWinner gs));
      [reflexivity|]. unfold len. rewrite blankCards_length. reflexivity. }
  rewrite HK. reflexivity.
Qed.

(** X19: the state update the server builds for a seat does not depend on
    anything the seat is not to see: built from the record with the other
    hands, the other session tokens, the deck, the kitty (for anyone but
    the bid winner in the kitty phase), the pending discard selections,
    the completed tricks and the piles erased, the message is the same.
    It carries the seat's own hand and token, and the kitty only for the
    bid winner in the kitty phase. *)
Theorem state_update_hides_other_hands :
  forall (gs : GameState) (seat : Z),
    NewStateUpdateMessage (eraseFor seat gs) seat = NewStateUpdateMessage gs seat
    /\ (forall msg p,
           NewStateUpdateMessage gs seat = Some msg ->
           get4 seat (Players gs) = Some (Some p) ->
           SM_YourHand msg = Hand p /\ SM_YourToken msg = SessionToken p
           /\ SM_YourSeat msg = Some seat
           /\ SM_Kitty msg = (if Phase_eqb (Phase gs) PhaseKitty && (seat =? BidWinner gs)
                              then Kitty gs else []))
    /\ (forall msg,
           NewStateUpdateMessage gs seat = Some msg ->
           seat < 0 \/ 3 < seat ->
           SM_YourHand msg = [] /\ SM_Kitty msg = [] /\ SM_YourToken msg = ""
           /\ SM_YourSeat msg = None).
Proof.
  intros gs seat. split; [|split].
  - unfold NewStateUpdateMessage.
    pose proof (BuildPublicState_erased gs seat) as HB.
    rewrite HB. destruct (BuildPublicState gs) as [ps|]; [|reflexivity].
    destruct ((seat >=? 0) && (seat <? 4)) eqn:Er; [|reflexivity].
    assert (Hv : 0 <= seat <= 3) by (apply andb_true_iff in Er; lia).
    simpl Players. simpl Phase. simpl BidWinner. simpl Kitty.
    destruct (Players gs) as [o0 o1 o2 o3]. unfold get4, hideSeat. simpl.
    destruct (valid_cases Hv) as [-> | [-> | [-> | ->]]]; simpl;
      match goal with
      | |- match ?o with Some _ => _ | None => _ end = _ => destruct o
      end; try reflexivity;
      destruct (Phase_eqb (Phase gs) PhaseKitty && _); reflexivity.
  - intros msg p H Hg. unfold NewStateUpdateMessage in H.
    destruct (BuildPublicState gs) as [ps|]; [|discriminate].
    pose proof (get4_valid _ _ Hg) as Hv.
    replace ((seat >=? 0) && (seat <? 4)) with true in H
      by (symmetry; apply andb_true_iff; lia).
    rewrite Hg in H. injection H as <-. simpl. auto.
  - intros msg H Hout. unfold NewStateUpdateMessage in H.
    destruct (BuildPublicState gs) as [ps|]; [|discriminate].
    replace ((seat >=? 0) && (seat <? 4)) with false in H
      by (symmetry; apply andb_false_iff; lia).
    injection H as <-. simpl. auto.
Qed.

(* ================================================================== *)
(** * The course of a hand *)

Lemma seatsOf_set :
  forall i (ps ps' : Arr4 (option Player)) p q,
    get4 i ps = Some (Some p) -> set4 i (Some q) ps = Some ps' ->
    SeatIndex q = SeatIndex p -> seatsOf ps' = seatsOf ps.
Proof.
  intros i [o0 o1 o2 o3] ps' p q Hg Hs Hq. unfold get4, set4 in *. simpl in *.
  destruct (i =? 0); [injection Hg as ->; injection Hs as <-; unfold seatsOf, map4; simpl; congruence|].
  destruct (i =? 1); [injection Hg as ->; injection Hs as <-; unfold seatsOf, map4; simpl; congruence|].
  destruct (i =? 2); [injection Hg as ->; injection Hs as <-; unfold seatsOf, map4; simpl; congruence|].
  destruct (i =? 3); [injection Hg as ->; injection Hs as <-; unfold seatsOf, map4; simpl; congruence|].
  discriminate.
Qed.

Lemma get4_seatsOf :
  forall i (ps : Arr4 (option Player)),
    get4 i (seatsOf ps) = option_map (option_map SeatIndex) (get4 i ps).
Proof.
  intros i [o0 o1 o2 o3]. unfold get4, seatsOf, map4. simpl.
  destruct (i =? 0); [reflexivity|]. destruct (i =? 1); [reflexivity|].
  destruct (i =? 2); [reflexivity|]. destruct (i =? 3); reflexivity.
Qed.

Lemma seatsOf_full_get :
  forall ps i,
    seatsOf ps = mkArr4 (Some 0) (Some 1) (Some 2) (Some 3) -> 0 <= i <= 3 ->
    exists p, get4 i ps = Some (Some p).
Proof.
  intros [o0 o1 o2 o3] i H Hi. unfold seatsOf, map4 in H. simpl in H.
  injection H as H0 H1 H2 H3.
  destruct o0; [|discriminate]. destruct o1; [|discriminate].
  destruct o2; [|discriminate]. destruct o3; [|discriminate].
  destruct (valid_cases Hi) as [-> | [-> | [-> | ->]]]; eexists; reflexivity.
Qed.

Lemma setPlayer_seats :
  forall i p q s s',
    get4 i (Players s) = Some (Some p) ->
    setPlayer i q s = Some s' ->
    SeatIndex q = SeatIndex p ->
    seatsOf (Players s') = seatsOf (Players s).
Proof.
  intros i p q s s' Hg Hs Hq. apply setPlayer_eq in Hs.
  destruct Hs as (ps & Hps & ->). simpl. eapply seatsOf_set; eauto.
Qed.

Lemma seatOrder_nil : forall first, seatOrder first [].
Proof. intros first k i H. destruct k; discriminate. Qed.

Lemma seatOrder_snoc :
  forall first seats i,
    seatOrder first seats -> i = (first + len seats) mod 4 ->
    seatOrder first (seats ++ [i]).
Proof.
  intros first seats i H Hi k j Hk.
  destruct (Nat.lt_ge_cases k (List.length seats)) as [Hlt | Hge].
  - rewrite nth_error_app1 in Hk by exact Hlt. apply H. exact Hk.
  - rewrite nth_error_app2 in Hk by exact Hge.
    destruct (k - List.length seats)%nat as [|n] eqn:E; simpl in Hk.
    + injection Hk as <-. rewrite Hi. unfold len. f_equal. lia.
    + destruct n; discriminate.
Qed.

Lemma seatOrder_valid :
  forall first seats i, seatOrder first seats -> In i seats -> 0 <= i <= 3.
Proof.
  intros first seats i H Hin. apply In_nth_error in Hin. destruct Hin as [k Hk].
  rewrite (H k i Hk). pose proof (Z.mod_pos_bound (first + Z.of_nat k) 4). lia.
Qed.

Ltac sound_parts H :=
  destruct H as ((Sfull & Sseat & Shouse & Steams)
                 & (Blobby & Border & Brise & Bpost & Bkitty)
                 & (Dtrump & Dturn & Dkitty)
                 & (Ttrick & Tcount & Tearly & Tplaying & Tover & Tdone & Tpiles)
                 & Ddeal).

(** A step that leaves alone what [Sound] speaks of; in the lobby the
    seats and the dealer may change. *)
Lemma Sound_frame :
  forall s s',
    Sound s ->
    Phase s' = Phase s ->
    (Phase s <> PhaseLobby -> seatsOf (Players s') = seatsOf (Players s)) ->
    (forall i j, get4 i (seatsOf (Players s')) = Some (Some j) -> j = i) ->
    -1 <= House s' <= 3 ->
    (forall t0 t1, Teams s = mkArr2 (Some t0) (Some t1) ->
       exists t0' t1', Teams s' = mkArr2 (Some t0') (Some t1')
                       /\ PlayerIndices t0' = PlayerIndices t0
                       /\ PlayerIndices t1' = PlayerIndices t1) ->
    Bids s' = Bids s ->
    (Phase s <> PhaseLobby -> Dealer s' = Dealer s) ->
    WinningBid s' = WinningBid s -> BidWinner s' = BidWinner s ->
    (Phase s = PhaseKitty \/ Phase s = PhaseDiscard \/ Phase s = PhasePlaying ->
     CurrentPlayer s' = CurrentPlayer s) ->
    (Trump s <> None -> Trump s' <> None) ->
    DiscardComplete s' = DiscardComplete s ->
    (Phase s <> PhaseBidding -> Phase s <> PhaseKitty -> Kitty s' = []) ->
    CurrentTrick s' = CurrentTrick s ->
    TricksPlayed s' = TricksPlayed s ->
    CompletedTricks s' = CompletedTricks s ->
    CardsWon s' = CardsWon s ->
    (Phase s = PhaseBidding ->
     handSizes s' = handSizes s /\ len (Kitty s') = len (Kitty s)
     /\ len (deckOf s') = len (deckOf s)) ->
    Sound s'.
Proof.
  intros s s' H Hph Hseats Hseat' Hhouse Hteams Hbids Hdealer Hwb Hbw Hcp Htrump Hdc
         Hkitty Htrick Htp Hct Hcw Hdeal.
  sound_parts H.
  unfold Sound, SeatsOK, BidsOK, DiscardOK, TricksOK, DealOK.
  rewrite Hph, Hbids, Hwb, Hbw, Hdc, Htrick, Htp, Hct, Hcw.
  split; [|split; [|split; [|split]]].
  - split; [intro Hnl; rewrite Hseats by exact Hnl; auto|].
    split; [exact Hseat'|]. split; [exact Hhouse|].
    destruct Steams as (t0 & t1 & Ht & H0 & H1).
    destruct (Hteams t0 t1 Ht) as (t0' & t1' & Ht' & H0' & H1').
    exists t0', t1'. split; [exact Ht'|]. split; congruence.
  - split; [exact Blobby|]. split.
    { destruct (Phase s) eqn:E; try (rewrite Hdealer by discriminate; exact Border).
      rewrite Blobby by reflexivity. apply seatOrder_nil. }
    split; [exact Brise|].
    split; [exact Bpost|]. intro Hk. rewrite Hcp by auto. auto.
  - split; [auto|]. split.
    + intro Hd. rewrite Hcp by auto. auto.
    + exact Hkitty.
  - split.
    + intro Hp. rewrite Hcp by auto. auto.
    + auto 10.
  - intro Hb. destruct (Hdeal Hb) as (-> & -> & ->). auto.
Qed.

(** Writing a seat without changing its seat index or its hand. *)
Lemma Sound_set_seat :
  forall s i p q s',
    Sound s ->
    get4 i (Players s) = Some (Some p) ->
    setPlayer i q s = Some s' ->
    SeatIndex q = SeatIndex p -> Hand q = Hand p ->
    Sound s'.
Proof.
  intros s i p q s' H Hg Hs Hsi Hh.
  pose proof (@setPlayer_seats _ _ _ _ _ Hg Hs Hsi) as Hseats.
  apply setPlayer_eq in Hs. destruct Hs as (ps & Hps & ->).
  pose proof H as H'. sound_parts H'.
  apply Sound_frame with s; auto; try reflexivity.
  - rewrite Hseats. exact Sseat.
  - intros t0 t1 Ht. exists t0, t1. auto.
  - intros _. split; [|split]; try reflexivity.
    unfold handSizes. simpl Players.
    destruct (Players s) as [o0 o1 o2 o3]. unfold get4, set4 in *. simpl in *.
    destruct (i =? 0); [injection Hg as ->; injection Hps as <-; simpl; rewrite Hh; reflexivity|].
    destruct (i =? 1); [injection Hg as ->; injection Hps as <-; simpl; rewrite Hh; reflexivity|].
    destruct (i =? 2); [injection Hg as ->; injection Hps as <-; simpl; rewrite Hh; reflexivity|].
    destruct (i =? 3); [injection Hg as ->; injection Hps as <-; simpl; rewrite Hh; reflexivity|].
    discriminate.
Qed.

(** A record in the lobby, as [NewGameState] leaves the fields of a
    hand. *)
Lemma Sound_lobby :
  forall s,
    Phase s = PhaseLobby ->
    (forall i j, get4 i (seatsOf (Players s)) = Some (Some j) -> j = i) ->
    -1 <= House s <= 3 ->
    (exists t0 t1, Teams s = mkArr2 (Some t0) (Some t1)
                   /\ PlayerIndices t0 = [0; 2] /\ PlayerIndices t1 = [1; 3]) ->
    Bids s = [] -> Kitty s = [] ->
    TricksPlayed s = 0 -> CompletedTricks s = [] -> CardsWon s = mkArr2 [] [] ->
    Sound s.
Proof.
  intros s Hph Hseat Hhouse Hteams Hbids Hkitty Htp Hct Hcw.
  unfold Sound, SeatsOK, BidsOK, DiscardOK, TricksOK, DealOK.
  rewrite Hph, Hbids, Hct, Htp, Hcw.
  split; [|split; [|split; [|split]]].
  - split; [congruence|]. auto.
  - split; [reflexivity|]. split; [apply seatOrder_nil|].
    split; [intros l1 b l2 E; destruct l1; discriminate|].
    split; [discriminate|]. discriminate.
  - split; [discriminate|]. split; [discriminate|]. auto.
  - split; [discriminate|]. split; [reflexivity|]. split; [reflexivity|].
    split; [discriminate|].
    split; [intros [E | E]; discriminate|]. split; [intros ct []|]. reflexivity.
  - discriminate.
Qed.

Lemma Sound_NewGameState : forall targetScore, Sound (NewGameState targetScore).
Proof.
  intro t. apply Sound_lobby; try reflexivity.
  - intros i j H. unfold get4 in H. simpl in H.
    repeat match type of H with
           | (if ?c then _ else _) = _ => destruct c; [discriminate|]
           end. discriminate.
  - simpl. lia.
  - simpl. eexists. eexists. split; [reflexivity|]. split; reflexivity.
Qed.

Lemma get4_in_range :
  forall A i (a : Arr4 A), 0 <= i <= 3 -> exists x, get4 i a = Some x.
Proof.
  intros A i a Hi. unfold get4.
  destruct (valid_cases Hi) as [-> | [-> | [-> | ->]]]; simpl; eexists; reflexivity.
Qed.

Lemma seat_range_false :
  forall i, (i <? 0) || (i >? 3) = false -> 0 <= i <= 3.
Proof. intros i H. apply orb_false_iff in H. lia. Qed.

(** Changing one seat of the lobby. *)
Lemma seats_agree_set :
  forall i (ps ps' : Arr4 (option Player)) q,
    (forall i j, get4 i (seatsOf ps) = Some (Some j) -> j = i) ->
    set4 i q ps = Some ps' ->
    (forall p, q = Some p -> SeatIndex p = i) ->
    forall k j, get4 k (seatsOf ps') = Some (Some j) -> j = k.
Proof.
  intros i ps ps' q H Hs Hq k j Hk. rewrite get4_seatsOf in Hk.
  destruct (Z.eq_dec k i) as [-> | Hne].
  - rewrite (get4_set4_same _ _ _ Hs) in Hk. simpl in Hk.
    destruct q as [p|]; [|discriminate]. simpl in Hk. injection Hk as <-.
    apply Hq. reflexivity.
  - rewrite (get4_set4_other _ _ Hs) in Hk by congruence.
    apply H. rewrite get4_seatsOf. exact Hk.
Qed.

Ltac same_teams := intros t0 t1 Ht; exists t0, t1; auto.

Lemma Sound_lobby_seat :
  forall s i q ps,
    Sound s -> Phase s = PhaseLobby ->
    set4 i q (Players s) = Some ps ->
    (forall p, q = Some p -> SeatIndex p = i) ->
    Sound (set_Players ps s).
Proof.
  intros s i q ps H Hph Hs Hq. pose proof H as H'. sound_parts H'.
  apply Sound_frame with s; auto; try reflexivity; try (rewrite Hph; congruence).
  - simpl. eapply seats_agree_set; eauto.
  - same_teams.
Qed.

Lemma applyJoinSeat_Sound :
  forall rnd s a,
    Sound s ->
    applyJoinSeat rnd s a <> Panicked
    /\ forall s', recordAfter (applyJoinSeat rnd s a) = Some s' -> Sound s'.
Proof.
  intros rnd s a H. unfold applyJoinSeat.
  destruct (negb (Phase_eqb (Phase s) PhaseLobby)) eqn:Ep;
    [split; [discriminate | intros s' E; injection E as <-; exact H]|].
  apply negb_false_iff, Phase_eqb_eq in Ep.
  destruct ((PlayerIndex a <? 0) || (PlayerIndex a >? 3)) eqn:Er;
    [split; [discriminate | intros s' E; injection E as <-; exact H]|].
  apply seat_range_false in Er.
  destruct (get4_in_range (Players s) Er) as [seat Hg]. rewrite Hg.
  destruct seat as [p|];
    [split; [discriminate | intros s' E; injection E as <-; exact H]|].
  match goal with
  | |- context [setPlayer ?i ?q s] =>
      destruct (@setPlayer_valid i q s Er) as (ps & Hps & Hsp); rewrite Hsp
  end.
  assert (H1 : Sound (set_Players ps s)).
  { eapply Sound_lobby_seat; eauto. intros p E. injection E as <-. reflexivity. }
  destruct (House s =? -1).
  - split; [discriminate|]. intros s' E. injection E as <-.
    pose proof H1 as H1'. sound_parts H1'.
    apply Sound_frame with (set_Players ps s); auto; try reflexivity;
      try (simpl; rewrite Ep; congruence).
    + simpl. lia.
    + same_teams.
  - split; [discriminate|]. intros s' E. injection E as <-. exact H1.
Qed.

(** Taking a player off a seat: out of the lobby the seat keeps its
    record. *)
Lemma unseat_Sound :
  forall s i p q,
    Sound s ->
    get4 i (Players s) = Some (Some p) ->
    SeatIndex q = SeatIndex p -> Hand q = Hand p ->
    (if Phase_eqb (Phase s) PhaseLobby
     then match set4 i None (Players s) with
          | Some ps => Done (set_Players ps s)
          | None => Panicked
          end
     else match setPlayer i q s with
          | Some s' => Done s'
          | None => Panicked
          end) <> Panicked
    /\ forall s',
        recordAfter
          (if Phase_eqb (Phase s) PhaseLobby
           then match set4 i None (Players s) with
                | Some ps => Done (set_Players ps s)
                | None => Panicked
                end
           else match setPlayer i q s with
                | Some s' => Done s'
                | None => Panicked
                end) = Some s' -> Sound s'.
Proof.
  intros s i p q H Hg Hsi Hh. pose proof (get4_valid _ _ Hg) as Hv.
  destruct (Phase_eqb (Phase s) PhaseLobby) eqn:Ep.
  - apply Phase_eqb_eq in Ep.
    destruct (@set4_valid _ i (@None Player) (Players s) Hv) as (ps & Hps). rewrite Hps.
    split; [discriminate|]. intros s' E. injection E as <-.
    eapply Sound_lobby_seat; eauto. discriminate.
  - destruct (@setPlayer_valid i q s Hv) as (ps & Hps & Hsp). rewrite Hsp.
    split; [discriminate|]. intros s' E. injection E as <-.
    exact (@Sound_set_seat s _ p _ _ H Hg Hsp Hsi Hh).
Qed.

Lemma applyLeaveSeat_Sound :
  forall s a,
    Sound s ->
    applyLeaveSeat s a <> Panicked
    /\ forall s', recordAfter (applyLeaveSeat s a) = Some s' -> Sound s'.
Proof.
  intros s a H. unfold applyLeaveSeat.
  destruct ((PlayerIndex a <? 0) || (PlayerIndex a >? 3)) eqn:Er;
    [split; [discriminate | intros s' E; injection E as <-; exact H]|].
  apply seat_range_false in Er.
  destruct (get4_in_range (Players s) Er) as [seat Hg]. rewrite Hg.
  destruct seat as [p|];
    [|split; [discriminate | intros s' E; injection E as <-; exact H]].
  apply unseat_Sound with p; auto.
Qed.

Lemma applyChangeName_Sound :
  forall s a,
    Sound s ->
    applyChangeName s a <> Panicked
    /\ forall s', recordAfter (applyChangeName s a) = Some s' -> Sound s'.
Proof.
  intros s a H. unfold applyChangeName.
  destruct ((PlayerIndex a <? 0) || (PlayerIndex a >? 3)) eqn:Er;
    [split; [discriminate | intros s' E; injection E as <-; exact H]|].
  apply seat_range_false in Er.
  destruct (get4_in_range (Players s) Er) as [seat Hg]. rewrite Hg.
  destruct seat as [p|];
    [|split; [discriminate | intros s' E; injection E as <-; exact H]].
  match goal with
  | |- context [setPlayer ?i ?q s] =>
      destruct (@setPlayer_valid i q s Er) as (ps & Hps & Hsp); rewrite Hsp
  end.
  split; [discriminate|]. intros s' E. injection E as <-.
  exact (@Sound_set_seat s _ p _ _ H Hg Hsp eq_refl eq_refl).
Qed.

Lemma applyKickPlayer_Sound :
  forall s a,
    Sound s ->
    applyKickPlayer s a <> Panicked
    /\ forall s', recordAfter (applyKickPlayer s a) = Some s' -> Sound s'.
Proof.
  intros s a H. unfold applyKickPlayer.
  destruct (negb (PlayerIndex a =? House s));
    [split; [discriminate | intros s' E; injection E as <-; exact H]|].
  cbv zeta.
  destruct ((TargetSeat a <? 0) || (TargetSeat a >? 3)) eqn:Er;
    [split; [discriminate | intros s' E; injection E as <-; exact H]|].
  apply seat_range_false in Er.
  destruct (TargetSeat a =? House s);
    [split; [discriminate | intros s' E; injection E as <-; exact H]|].
  destruct (get4_in_range (Players s) Er) as [seat Hg]. rewrite Hg.
  destruct seat as [p|];
    [|split; [discriminate | intros s' E; injection E as <-; exact H]].
  apply unseat_Sound with p; auto.
Qed.

Lemma applyTransferHouse_Sound :
  forall s a,
    Sound s ->
    applyTransferHouse s a <> Panicked
    /\ forall s', recordAfter (applyTransferHouse s a) = Some s' -> Sound s'.
Proof.
  intros s a H. unfold applyTransferHouse.
  destruct (negb (PlayerIndex a =? House s));
    [split; [discriminate | intros s' E; injection E as <-; exact H]|].
  cbv zeta.
  destruct ((TargetSeat a <? 0) || (TargetSeat a >? 3)) eqn:Er;
    [split; [discriminate | intros s' E; injection E as <-; exact H]|].
  apply seat_range_false in Er.
  destruct (TargetSeat a =? House s);
    [split; [discriminate | intros s' E; injection E as <-; exact H]|].
  destruct (get4_in_range (Players s) Er) as [seat Hg]. rewrite Hg.
  destruct seat as [p|];
    [|split; [discriminate | intros s' E; injection E as <-; exact H]].
  destruct (negb (Connected p) || String.eqb (Name p) "");
    [split; [discriminate | intros s' E; injection E as <-; exact H]|].
  split; [discriminate|]. intros s' E. injection E as <-.
  pose proof H as H'. sound_parts H'.
  apply Sound_frame with s; auto; try reflexivity.
  - simpl. lia.
  - same_teams.
Qed.

Lemma applySelectTrump_Sound :
  forall s a,
    Sound s ->
    applySelectTrump s a <> Panicked
    /\ forall s', recordAfter (applySelectTrump s a) = Some s' -> Sound s'.
Proof.
  intros s a H. unfold applySelectTrump.
  destruct (negb (Phase_eqb (Phase s) PhaseKitty));
    [split; [discriminate | intros s' E; injection E as <-; exact H]|].
  destruct (negb (PlayerIndex a =? BidWinner s));
    [split; [discriminate | intros s' E; injection E as <-; exact H]|].
  cbv zeta.
  assert (Hset : forall t, Sound (set_Trump (Some t) s)).
  { intro t. pose proof H as H'. sound_parts H'.
    apply Sound_frame with s; auto; try reflexivity.
    - same_teams.
    - simpl. discriminate. }
  repeat match goal with
         | |- context [if ?c then _ else _] => destruct c
         end;
    (split; [discriminate | intros s' E; injection E as <-; auto]).
Qed.

Lemma applyResetGame_Sound :
  forall s a,
    Sound s -> 0 <= PlayerIndex a <= 3 ->
    applyResetGame s a <> Panicked
    /\ forall s', recordAfter (applyResetGame s a) = Some s' -> Sound s'.
Proof.
  intros s a H Hv. unfold applyResetGame.
  destruct (negb (PlayerIndex a =? House s)) eqn:Eh;
    [split; [discriminate | intros s' E; injection E as <-; exact H]|].
  apply negb_false_iff, Z.eqb_eq in Eh.
  split; [discriminate|]. intros s' E. injection E as <-.
  pose proof H as H'. sound_parts H'.
  apply Sound_lobby; try reflexivity.
  - simpl. intros i j Hg. apply Sseat. rewrite get4_seatsOf in *.
    destruct (Players s) as [o0 o1 o2 o3]. unfold get4, map4 in *. simpl in *.
    destruct (i =? 0); [destruct o0; exact Hg|].
    destruct (i =? 1); [destruct o1; exact Hg|].
    destruct (i =? 2); [destruct o2; exact Hg|].
    destruct (i =? 3); [destruct o3; exact Hg|]. exact Hg.
  - simpl. lia.
  - simpl. eexists. eexists. split; [reflexivity|]. split; reflexivity.
Qed.

(** Dealing changes the hands only. *)
Lemma dealHands_seats :
  forall seats s s',
    dealHands seats s = Some s' -> seatsOf (Players s') = seatsOf (Players s).
Proof.
  induction seats as [|i rest IH]; intros s s' H; simpl in H.
  - injection H as <-. reflexivity.
  - destruct (DeckDeal 6 s) as [[hand s1]|] eqn:E1; [|discriminate].
    apply DeckDeal_eq in E1. destruct E1 as (d & Hd & _ & ->).
    destruct (get4 i (Players (set_Deck _ s))) as [[p|]|] eqn:Eg; try discriminate.
    destruct (setPlayer i _ _) as [s2|] eqn:E2; [|discriminate].
    rewrite (IH _ _ H).
    rewrite (@setPlayer_seats _ _ _ _ _ Eg E2 eq_refl). reflexivity.
Qed.

Lemma seatsOf_full_seated :
  forall s, seatsOf (Players s) = mkArr4 (Some 0) (Some 1) (Some 2) (Some 3) ->
            AllPlayersSeated s = true.
Proof.
  intros s H. unfold AllPlayersSeated, list4.
  destruct (Players s) as [[?|] [?|] [?|] [?|]]; try discriminate H. reflexivity.
Qed.

Lemma seated_seatsOf_full :
  forall s,
    AllPlayersSeated s = true ->
    (forall i j, get4 i (seatsOf (Players s)) = Some (Some j) -> j = i) ->
    seatsOf (Players s) = mkArr4 (Some 0) (Some 1) (Some 2) (Some 3).
Proof.
  intros s H Hs. unfold AllPlayersSeated, list4 in H.
  destruct (Players s) as [[p0|] [p1|] [p2|] [p3|]]; try discriminate H.
  unfold seatsOf, map4 in *. simpl in *.
  rewrite (Hs 0 (SeatIndex p0) eq_refl), (Hs 1 (SeatIndex p1) eq_refl),
          (Hs 2 (SeatIndex p2) eq_refl), (Hs 3 (SeatIndex p3) eq_refl).
  reflexivity.
Qed.

(** The deal of a hand: out of a shuffled deck, six cards to each of the
    four seats and six to the kitty; 22 cards are left. *)
Lemma deal_round :
  forall draw s0,
    AllPlayersSeated s0 = true ->
    exists d1 kitty d2,
      dealHands [0; 1; 2; 3] (set_Deck (Some (Shuffle draw NewDeck)) s0) = Some d1
      /\ DeckDeal 6 d1 = Some (kitty, d2)
      /\ d2 = set_Players (Players d2) (set_Deck (Deck d2) s0)
      /\ seatsOf (Players d2) = seatsOf (Players s0)
      /\ handSizes d2 = [6; 6; 6; 6] /\ len kitty = 6 /\ len (deckOf d2) = 22.
Proof.
  intros draw s0 Ha.
  destruct (@dealHands_succeeds [0; 1; 2; 3]
              (set_Deck (Some (Shuffle draw NewDeck)) s0)
              (Shuffle draw NewDeck) eq_refl) as [d1 E1].
  { intros i Hi. apply AllPlayersSeated_get; [exact Ha|]. simpl in Hi. lia. }
  assert (Hnd : NoDup [0; 1; 2; 3]) by (repeat constructor; simpl; intuition lia).
  destruct (@dealHands_sizes [0; 1; 2; 3]
              (set_Deck (Some (Shuffle draw NewDeck)) s0) d1
              (Shuffle draw NewDeck) Hnd eq_refl) as [(d' & Hd' & Hl') Hseats].
  { unfold len. rewrite Shuffle_length. simpl. lia. }
  { exact E1. }
  assert (E2 : exists kitty d2, DeckDeal 6 d1 = Some (kitty, d2)).
  { unfold DeckDeal. rewrite Hd'. destruct (Deal 6 d'). eauto. }
  destruct E2 as (kitty & d2 & E2).
  exists d1, kitty, d2. split; [exact E1|]. split; [exact E2|].
  destruct (@deal_cards (set_Deck (Some (Shuffle draw NewDeck)) s0) _ d1 kitty d2
              eq_refl E1 E2) as [Hd2 _].
  pose proof (DeckDeal_eq _ _ E2) as (d0 & Hd0 & Hk & Hs2).
  rewrite Hd' in Hd0. inversion Hd0; subst d0.
  assert (Hlen52 : len (Shuffle draw NewDeck) = 52)
    by (unfold len; rewrite Shuffle_length; reflexivity).
  assert (Hlen' : len d' = 28) by (rewrite Hl', Hlen52; reflexivity).
  destruct (@Deal_length 6 d') as [L1 L2]; [lia|].
  split.
  { rewrite Hd2 at 1. destruct s0; reflexivity. }
  split.
  { rewrite Hs2. simpl. rewrite (dealHands_seats _ _ E1). reflexivity. }
  split; [|split].
  - unfold handSizes, list4. rewrite Hs2. simpl.
    destruct (Hseats 0 ltac:(simpl; auto)) as (p0 & G0 & S0).
    destruct (Hseats 1 ltac:(simpl; auto)) as (p1 & G1 & S1).
    destruct (Hseats 2 ltac:(simpl; auto)) as (p2 & G2 & S2).
    destruct (Hseats 3 ltac:(simpl; auto)) as (p3 & G3 & S3).
    unfold get4 in G0, G1, G2, G3. simpl in G0, G1, G2, G3.
    inversion G0 as [G0']. inversion G1 as [G1'].
    inversion G2 as [G2']. inversion G3 as [G3'].
    rewrite G0', G1', G2', G3'. simpl. now rewrite S0, S1, S2, S3.
  - rewrite Hk. exact L1.
  - assert (Hdk : Deck d2 = Some (snd (Deal 6 d'))) by (rewrite Hs2; reflexivity).
    unfold deckOf. rewrite Hdk, L2, Hlen'. reflexivity.
Qed.

(** A record at the start of the bidding of a hand. *)
Lemma Sound_dealt :
  forall s,
    Phase s = PhaseBidding ->
    SeatsOK s ->
    seatsOf (Players s) = mkArr4 (Some 0) (Some 1) (Some 2) (Some 3) ->
    Bids s = [] -> TricksPlayed s = 0 -> CompletedTricks s = [] ->
    CardsWon s = mkArr2 [] [] ->
    handSizes s = [6; 6; 6; 6] -> len (Kitty s) = 6 -> len (deckOf s) = 22 ->
    Sound s.
Proof.
  intros s Hph Hseats Hfull Hbids Htp Hct Hcw Hh Hk Hd.
  unfold Sound, BidsOK, DiscardOK, TricksOK, DealOK.
  rewrite Hph, Hbids, Hct, Htp, Hcw.
  split; [exact Hseats|]. split; [|split; [|split]].
  - split; [reflexivity|]. split; [apply seatOrder_nil|].
    split; [intros l1 b l2 E; destruct l1; discriminate|].
    split; [discriminate|]. discriminate.
  - split; [discriminate|]. split; [discriminate|]. congruence.
  - split; [discriminate|]. split; [reflexivity|]. split; [reflexivity|].
    split; [discriminate|].
    split; [intros [E | E]; discriminate|]. split; [intros ct []|]. reflexivity.
  - auto.
Qed.

Lemma applyStartGame_Sound :
  forall rnd s a,
    Sound s ->
    applyStartGame rnd s a <> Panicked
    /\ forall s', recordAfter (applyStartGame rnd s a) = Some s' -> Sound s'.
Proof.
  intros rnd s a H.
  destruct (applyStartGame rnd s a) as [s1|e s1|] eqn:E.
  - split; [discriminate|]. intros s' E'. injection E' as <-.
    pose proof (proj2 (applyStartGame_spec rnd s a) s1 E) as Hspec.
    destruct Hspec as (Hp & _ & Hb & _ & Htp & Hct & Hcw & _ & _ & _ & _ & Hh & Hk & Hd & _).
    apply applyStartGame_Done in E.
    destruct E as (Ep & _ & Ha & d1 & kitty & d2 & E1 & E2 & -> & Hd2).
    pose proof H as H'. sound_parts H'.
    assert (Hs2 : seatsOf (Players d2) = seatsOf (Players s)).
    { pose proof (DeckDeal_eq _ _ E2) as (d0 & _ & _ & ->). simpl.
      rewrite (dealHands_seats _ _ E1). reflexivity. }
    assert (Hfull : seatsOf (Players d2) = mkArr4 (Some 0) (Some 1) (Some 2) (Some 3)).
    { rewrite Hs2. apply seated_seatsOf_full; assumption. }
    apply Sound_dealt; auto.
    unfold SeatsOK. simpl. rewrite Hs2.
    assert (F : House d2 = House s /\ Teams d2 = Teams s)
      by (rewrite Hd2; simpl; split; reflexivity).
    destruct F as (-> & ->).
    split; [intros _; rewrite <- Hs2; exact Hfull|]. auto.
  - apply applyStartGame_Failed in E. subst s1.
    split; [discriminate|]. intros s' E'. injection E' as <-. exact H.
  - exfalso. unfold applyStartGame in E.
    destruct (negb (Phase_eqb (Phase s) PhaseLobby)); [discriminate|].
    destruct (negb (PlayerIndex a =? House s)); [discriminate|].
    destruct (negb (AllPlayersSeated s)) eqn:Ea; [discriminate|].
    apply negb_false_iff in Ea.
    destruct (deal_round (draw rnd) s Ea) as (d1 & kitty & d2 & E1 & E2 & _).
    rewrite E1, E2 in E. discriminate.
Qed.

Lemma StartNewHand_Sound :
  forall rnd s,
    Inv s -> Sound s -> Phase s <> PhaseLobby ->
    StartNewHand rnd s <> Panicked
    /\ forall s', recordAfter (StartNewHand rnd s) = Some s' -> Sound s'.
Proof.
  intros rnd s HI H Hnl. pose proof H as H'. sound_parts H'. inv_parts HI.
  assert (Hfull := Sfull Hnl).
  assert (Ha : AllPlayersSeated (set_Dealer (NextPlayer (Dealer s)) s) = true)
    by (apply seatsOf_full_seated; exact Hfull).
  destruct (deal_round (draw rnd) (set_Dealer (NextPlayer (Dealer s)) s) Ha)
    as (d1 & kitty & d2 & E1 & E2 & Hd2 & Hs2 & Hh & Hk & Hd).
  unfold StartNewHand. cbv zeta. rewrite E1, E2.
  split; [discriminate|]. intros s' E. injection E as <-.
  assert (F : House d2 = House s /\ Teams d2 = Teams s)
    by (rewrite Hd2; simpl; split; reflexivity).
  destruct F as (F1 & F2).
  simpl in Hs2.
  apply Sound_dealt; try reflexivity.
  - unfold SeatsOK. simpl. rewrite Hs2, F1, F2.
    split; [intros _; exact Hfull|]. auto.
  - simpl. rewrite Hs2. exact Hfull.
  - exact Hh.
  - exact Hk.
  - exact Hd.
Qed.

Lemma snoc_split :
  forall A (old : list A) (new : A) l1 b l2,
    old ++ [new] = l1 ++ b :: l2 ->
    (l2 = [] /\ l1 = old /\ b = new)
    \/ (exists l2', l2 = l2' ++ [new] /\ old = l1 ++ b :: l2').
Proof.
  intros A old new l1 b l2 H.
  destruct (@exists_last _ (b :: l2) ltac:(discriminate)) as (l2' & z & E).
  rewrite E in H. rewrite app_assoc in H.
  apply app_inj_tail in H. destruct H as [Hold <-].
  destruct l2' as [|b' l2'].
  - left. simpl in E. injection E as -> ->. rewrite app_nil_r in Hold. auto.
  - right. simpl in E. injection E as <- ->. exists l2'. split; [reflexivity|].
    exact Hold.
Qed.

Lemma applyPlaceBid_Sound :
  forall s a,
    Inv s -> Sound s ->
    applyPlaceBid s a <> Panicked
    /\ forall s', recordAfter (applyPlaceBid s a) = Some s' -> Sound s'.
Proof.
  intros s a HI H. split; [apply applyPlaceBid_no_panic|].
  intros s' E.
  assert (HI' : Inv s') by (eapply applyPlaceBid_Inv; eauto).
  destruct (applyPlaceBid s a) as [s1|e s1|] eqn:EA; try discriminate;
    simpl in E; injection E as <-.
  2:{ apply applyPlaceBid_Failed in EA. subst. exact H. }
  apply applyPlaceBid_Done in EA.
  destruct EA as (Hph & Hpl & Hamt & Hshape). cbv zeta in Hshape.
  pose proof H as H'. sound_parts H'. pose proof HI as HI0. inv_parts HI0.
  destruct (Ibidding Hph) as (Hlen & Hcp).
  set (bids := Bids s ++ [mkBid (PlayerIndex a) (recordedAmount s a)]) in *.
  assert (Hnl : Phase s <> PhaseLobby) by congruence.
  assert (Horder : seatOrder (Dealer s + 1) (map Bid_PlayerIndex bids)).
  { unfold bids. rewrite map_app. simpl. apply seatOrder_snoc; [exact Border|].
    rewrite Hpl, Hcp. unfold len. rewrite length_map. reflexivity. }
  assert (Hrise : forall l1 b l2, bids = l1 ++ b :: l2 -> Amount b <> 0 ->
                                  forall b', In b' l1 -> Amount b' < Amount b).
  { intros l1 b l2 Hb Hnz b' Hb'. unfold bids in Hb.
    apply snoc_split in Hb. destruct Hb as [(_ & -> & ->) | (l2' & _ & Hold)].
    - simpl in *.
      pose proof (highBidScan_spec (Bids s) 0 0) as Hscan. cbv zeta in Hscan.
      destruct Hscan as (_ & Hmax & _). specialize (Hmax b' Hb').
      unfold recordedAmount in *.
      destruct ((PlayerIndex a =? Dealer s)
                && ((len (Bids s) =? 3) && (fst (highBidScan (Bids s) 0 0) =? 0))
                && (BidAmount a =? 0)) eqn:Ef.
      + apply andb_true_iff in Ef. destruct Ef as (Ef & _).
        apply andb_true_iff in Ef. destruct Ef as (_ & Ef).
        apply andb_true_iff in Ef. destruct Ef as (_ & Ef). lia.
      + destruct Hamt as [Hz | (_ & Hgt)]; [congruence | lia].
    - eapply Brise; eauto. }
  destruct (len bids =? 4) eqn:E4.
  - (* the bidding is over *)
    apply Z.eqb_eq in E4. subst s1.
    pose proof (highBidScan_spec bids 0 (Dealer s)) as Hscan. cbv zeta in Hscan.
    destruct (highBidScan bids 0 (Dealer s)) as [h w] eqn:Ehw. simpl in Hscan.
    destruct Hscan as (_ & Hmax & Hfrom).
    destruct HI' as (_ & _ & _ & _ & _ & Iamounts' & _ & Ifour' & _). simpl in *.
    destruct (Ifour' E4) as (bb & Hbb & Hb2).
    pose proof (Hmax bb Hbb) as Hbh.
    destruct Hfrom as [(Hh0 & _) | (bw & Hbw & Hbwa & Hbwp & _)]; [lia|].
    assert (Hbwv : 0 <= w <= 3).
    { rewrite <- Hbwp. eapply seatOrder_valid; [exact Horder|].
      apply in_map. exact Hbw. }
    assert (Hin : In (mkBid w h) bids).
    { rewrite <- Hbwa, <- Hbwp. destruct bw. exact Hbw. }
    destruct (Iamounts' bw Hbw) as [Hz | Hr]; [lia|].
    unfold Sound, SeatsOK, BidsOK, DiscardOK, TricksOK, DealOK. simpl.
    split; [|split; [|split; [|split]]].
    + auto.
    + split; [discriminate|]. split; [exact Horder|]. split; [exact Hrise|].
      split; [|reflexivity]. intros _. split; [exact E4|]. split; [lia|].
      split; [exact Hbwv|]. split; [exact Hin|]. exact Hmax.
    + split; [discriminate|]. split; [discriminate|]. congruence.
    + split; [discriminate|]. split; [exact Tcount|].
      split; [intros _; apply Tearly; auto|]. split; [discriminate|].
      split; [intros [? | ?]; discriminate|]. auto.
    + discriminate.
  - subst s1.
    unfold Sound, SeatsOK, BidsOK, DiscardOK, TricksOK, DealOK. simpl.
    rewrite Hph in *.
    split; [|split; [|split; [|split]]].
    + auto.
    + split; [discriminate|]. split; [exact Horder|]. split; [exact Hrise|].
      split; discriminate.
    + split; [discriminate|]. split; [discriminate|]. congruence.
    + split; [discriminate|]. split; [exact Tcount|].
      split; [intros _; apply Tearly; auto|]. split; [discriminate|].
      split; [intros [? | ?]; discriminate|]. auto.
    + intros _. apply Ddeal. exact Hph.
Qed.

(* ------------------------------------------------------------------ *)
(** ** Moving cards keeps the seats *)

Lemma takeKittyLoop_seats :
  forall cardIDs seat s p,
    get4 seat (Players s) = Some (Some p) ->
    takeKittyLoop cardIDs seat s <> Panicked
    /\ forall s', recordAfter (takeKittyLoop cardIDs seat s) = Some s' ->
                  seatsOf (Players s') = seatsOf (Players s).
Proof.
  induction cardIDs as [|cid rest IH]; intros seat s p Hg; simpl.
  - split; [discriminate|]. intros s' E. injection E as <-. reflexivity.
  - destruct (findCard cid (Kitty s)) as [[idx card]|];
      [|split; [discriminate | intros s' E; injection E as <-; reflexivity]].
    simpl Players. rewrite Hg.
    match goal with
    | |- context [setPlayer seat ?q ?st] =>
        destruct (@setPlayer_valid seat q st (get4_valid _ _ Hg)) as (ps & Hps & Hsp);
          rewrite Hsp
    end.
    assert (Hg' : get4 seat (Players (set_Players ps (set_Kitty (removeAt idx (Kitty s)) s)))
                  = Some (Some (set_Hand (Hand p ++ [card]) p))).
    { simpl. eapply get4_set4_same; eauto. }
    destruct (IH seat _ _ Hg') as (Hnp & Hs).
    split; [exact Hnp|]. intros s' E. rewrite (Hs s' E). simpl.
    eapply seatsOf_set; eauto.
Qed.

Lemma discardLoop_seats :
  forall cardIDs seat s p,
    get4 seat (Players s) = Some (Some p) ->
    discardLoop cardIDs seat s <> Panicked
    /\ forall s', recordAfter (discardLoop cardIDs seat s) = Some s' ->
                  seatsOf (Players s') = seatsOf (Players s)
                  /\ exists p', get4 seat (Players s') = Some (Some p').
Proof.
  induction cardIDs as [|cid rest IH]; intros seat s p Hg; simpl.
  - split; [discriminate|]. intros s' E. injection E as <-. eauto.
  - rewrite Hg.
    destruct (findCard cid (Hand p)) as [[idx card]|];
      [|split; [discriminate | intros s' E; injection E as <-; eauto]].
    match goal with
    | |- context [setPlayer seat ?q ?st] =>
        destruct (@setPlayer_valid seat q st (get4_valid _ _ Hg)) as (ps & Hps & Hsp);
          rewrite Hsp
    end.
    assert (Hg' : get4 seat (Players (set_Players ps s))
                  = Some (Some (set_Hand (removeAt idx (Hand p)) p))).
    { simpl. eapply get4_set4_same; eauto. }
    destruct (IH seat _ _ Hg') as (Hnp & Hs).
    split; [exact Hnp|]. intros s' E. destruct (Hs s' E) as (Hseats & Hp').
    split; [|exact Hp']. rewrite Hseats. simpl. eapply seatsOf_set; eauto.
Qed.

Lemma processDiscard_seats :
  forall s seat cardIDs p,
    get4 seat (Players s) = Some (Some p) ->
    processDiscard s seat cardIDs <> Panicked
    /\ forall s', recordAfter (processDiscard s seat cardIDs) = Some s' ->
                  seatsOf (Players s') = seatsOf (Players s).
Proof.
  intros s seat cardIDs p Hg. pose proof (get4_valid _ _ Hg) as Hv.
  unfold processDiscard. rewrite Hg.
  destruct (@discardLoop_seats cardIDs seat s p Hg) as (Hnp & Hs).
  destruct (discardLoop cardIDs seat s) as [s1|e s1|] eqn:EL; [| |congruence].
  2:{ split; [discriminate|]. intros s' E. injection E as <-.
      destruct (Hs s1 eq_refl) as (Hseats & _). exact Hseats. }
  destruct (Hs s1 eq_refl) as (Hseats & p1 & Hp1).
  assert (Hmid : exists s2,
             (if (len cardIDs >? 0)
                 && match Deck s1 with Some _ => true | None => false end
              then match DeckDeal (len cardIDs) s1 with
                   | Some (newCards, state) =>
                       match get4 seat (Players state) with
                       | Some (Some player) =>
                           setPlayer seat (set_Hand (Hand player ++ newCards) player) state
                       | _ => None
                       end
                   | None => None
                   end
              else Some s1) = Some s2
             /\ seatsOf (Players s2) = seatsOf (Players s1)).
  { destruct ((len cardIDs >? 0) && _) eqn:Ec; [|eauto].
    apply andb_true_iff in Ec. destruct Ec as (_ & Ed).
    unfold DeckDeal. destruct (Deck s1) as [d|]; [|discriminate].
    destruct (Deal (len cardIDs) d) as [cards d'] eqn:ED. simpl Players. rewrite Hp1.
    match goal with
    | |- context [setPlayer seat ?q ?st] =>
        destruct (@setPlayer_valid seat q st Hv) as (ps & Hps & Hsp); rewrite Hsp
    end.
    eexists. split; [reflexivity|]. simpl. eapply seatsOf_set; eauto. }
  destruct Hmid as (s2 & -> & Hs2).
  destruct (@set4_valid _ seat true (DiscardComplete s2) Hv) as (dc & Hdc). rewrite Hdc.
  simpl PendingDiscards.
  destruct (@set4_valid _ seat (@None (list string)) (PendingDiscards s2) Hv)
    as (pd & Hpd). rewrite Hpd.
  split; [discriminate|]. intros s' E. injection E as <-. simpl. congruence.
Qed.

(** One pass over the seats in the discard phase, with the four seats
    taken: it does not panic; when it returns, the seat it stops at has not
    completed its discard; when it breaks, one more seat has completed. *)
Lemma scanSeats_seats :
  forall n next s,
    0 <= next <= 3 ->
    seatsOf (Players s) = mkArr4 (Some 0) (Some 1) (Some 2) (Some 3) ->
    match scanSeats n next s with
    | PassPanic => False
    | PassAllDone s' => s' = s
    | PassReturn s' =>
        discardTouch s s' /\ seatsOf (Players s') = seatsOf (Players s)
        /\ DiscardComplete s' = DiscardComplete s
        /\ get4 (CurrentPlayer s') (DiscardComplete s') = Some false
    | PassBreak s' =>
        discardTouch s s' /\ seatsOf (Players s') = seatsOf (Players s)
        /\ 0 <= CurrentPlayer s' <= 3
        /\ forall i, get4 i (DiscardComplete s) = Some true ->
                     get4 i (DiscardComplete s') = Some true
    end.
Proof.
  induction n as [|n IH]; intros next s Hv Hfull; simpl.
  - reflexivity.
  - destruct (get4_in_range (DiscardComplete s) Hv) as [done Hdone]. rewrite Hdone.
    destruct done.
    + apply IH; [apply NextPlayer_valid; lia | exact Hfull].
    + simpl PendingDiscards.
      destruct (get4_in_range (PendingDiscards s) Hv) as [pending Hpend]. rewrite Hpend.
      destruct ((len (ids pending) >? 0) || _).
      * destruct (@seatsOf_full_get (Players s) next Hfull Hv) as [p Hp].
        assert (Hp' : get4 next (Players (set_CurrentPlayer next s)) = Some (Some p))
          by exact Hp.
        destruct (@processDiscard_seats (set_CurrentPlayer next s) next (ids pending) p Hp')
          as (Hnp & Hseats).
        pose proof (processDiscard_flags (set_CurrentPlayer next s) next (ids pending))
          as Hflags.
        destruct (processDiscard (set_CurrentPlayer next s) next (ids pending))
          as [s1|e s1|]; [| |congruence].
        -- destruct Hflags as (Ht & Hdc). simpl in Hdc.
           split; [|split; [|split]].
           ++ eapply discardTouch_trans; [apply discardTouch_CurrentPlayer|].
              apply handTouch_discardTouch. exact Ht.
           ++ rewrite (Hseats s1 eq_refl). reflexivity.
           ++ rewrite (handTouch_CurrentPlayer Ht). simpl. exact Hv.
           ++ intros i Hi. destruct (Z.eq_dec i next) as [-> | Hne].
              ** eapply get4_set4_same; eauto.
              ** rewrite (get4_set4_other _ _ Hdc) by congruence. exact Hi.
        -- destruct Hflags as (Ht & Hdc). simpl in Hdc.
           destruct (@set4_valid _ next (@None (list string)) (PendingDiscards s1) Hv)
             as (pd & Hpd). rewrite Hpd.
           split; [|split; [|split]].
           ++ eapply discardTouch_trans; [apply discardTouch_CurrentPlayer|].
              eapply discardTouch_trans; [apply handTouch_discardTouch; exact Ht|].
              apply handTouch_discardTouch. apply handTouch_PendingDiscards.
           ++ simpl. rewrite (Hseats s1 eq_refl). reflexivity.
           ++ simpl. exact Hdc.
           ++ simpl. rewrite (handTouch_CurrentPlayer Ht). simpl. rewrite Hdc. exact Hdone.
      * split; [apply discardTouch_CurrentPlayer|]. split; [reflexivity|].
        split; [reflexivity|]. simpl. exact Hdone.
Qed.

(** The loop over the passes: it ends without a panic, either at a seat
    that has not completed its discard or, all seats done, with the start
    of the play. *)
Lemma pendingLoop_seats :
  forall fuel s,
    -1 <= CurrentPlayer s <= 3 ->
    seatsOf (Players s) = mkArr4 (Some 0) (Some 1) (Some 2) (Some 3) ->
    match pendingLoop fuel s with
    | None => True
    | Some (Done s') =>
        exists s1,
          discardTouch s s1 /\ seatsOf (Players s1) = seatsOf (Players s)
          /\ (forall i, get4 i (DiscardComplete s) = Some true ->
                        get4 i (DiscardComplete s1) = Some true)
          /\ ((s' = s1 /\ get4 (CurrentPlayer s1) (DiscardComplete s1) = Some false)
              \/ s' = startPlaying s1)
    | Some _ => False
    end.
Proof.
  induction fuel as [|fuel IH]; intros s Hcp Hfull; simpl; [exact I|].
  unfold pendingPass.
  pose proof (@scanSeats_seats 4 (NextPlayer (CurrentPlayer s)) s
                (NextPlayer_valid Hcp) Hfull) as Hscan.
  destruct (scanSeats 4 (NextPlayer (CurrentPlayer s)) s) as [s1|s1|s1|];
    [| | |contradiction].
  - destruct Hscan as (Ht & Hseats & Hdc & Hturn).
    exists s1. split; [exact Ht|]. split; [exact Hseats|].
    split; [intros i Hi; rewrite Hdc; exact Hi|]. left. auto.
  - destruct Hscan as (Ht & Hseats & Hcp1 & Hmono).
    assert (Hcp1' : -1 <= CurrentPlayer s1 <= 3) by lia.
    assert (Hfull1 : seatsOf (Players s1) = mkArr4 (Some 0) (Some 1) (Some 2) (Some 3))
      by congruence.
    specialize (IH s1 Hcp1' Hfull1).
    destruct (pendingLoop fuel s1) as [[s'|e s'|]|]; try contradiction; [|exact I].
    destruct IH as (s2 & Ht2 & Hseats2 & Hmono2 & Hres).
    exists s2. split; [eapply discardTouch_trans; eauto|].
    split; [congruence|]. split; [auto|]. exact Hres.
  - subst s1. exists s. split; [apply discardTouch_refl|]. split; [reflexivity|].
    split; [auto|]. right. reflexivity.
Qed.

(** C10: the advancement procedure leaves its loop within five passes on
    every record (with the same result for any larger bound), and it is
    the loop of its passes: it returns when a pass returns, goes on with
    the record a pass leaves when the pass breaks, and starts play when a
    pass runs out.  A pass looks at the seats in turn from the seat after
    the seat to act and stops at the first that is not complete: with no
    selection pending it makes it the seat to act and returns; with a
    selection that fails it drops the selection and returns; with a
    selection that succeeds the seat is marked complete and one more seat
    is complete than before.  A pass runs out only when all four seats
    are complete.  So the procedure never returns an error, and when it
    returns either it waits, in the phase it was called in, at a seat
    that is not complete and has no selection pending, or all four seats
    are complete and the phase is playing, with the bid winner to act and
    leading an empty trick; the seats that were complete stay complete.
    With the four seats taken and the seat to act a seat (or -1, none
    yet) it does return. *)
Theorem pending_discards_terminate :
  forall s : GameState,
    (exists r, pendingLoop 5 s = Some r
               /\ processPendingDiscards s = r
               /\ forall fuel, (5 <= fuel)%nat -> pendingLoop fuel s = Some r)
    /\ processPendingDiscards s
       = match pendingPass s with
         | PassReturn s' => Done s'
         | PassBreak s' => processPendingDiscards s'
         | PassAllDone s' => Done (startPlaying s')
         | PassPanic => Panicked
         end
    /\ (forall s', pendingPass s = PassBreak s' ->
          completeCount s' = S (completeCount s)
          /\ exists k seat cardIDs,
               (k < 4)%nat
               /\ seat = Nat.iter k NextPlayer (NextPlayer (CurrentPlayer s))
               /\ (forall j, (j < k)%nat ->
                     get4 (Nat.iter j NextPlayer (NextPlayer (CurrentPlayer s)))
                          (DiscardComplete s) = Some true)
               /\ get4 seat (DiscardComplete s) = Some false
               /\ get4 seat (PendingDiscards s) = Some (Some cardIDs)
               /\ processDiscard (set_CurrentPlayer seat s) seat cardIDs = Done s'
               /\ get4 seat (DiscardComplete s') = Some true)
    /\ (forall s', pendingPass s = PassReturn s' ->
          exists k seat,
            (k < 4)%nat
            /\ seat = Nat.iter k NextPlayer (NextPlayer (CurrentPlayer s))
            /\ (forall j, (j < k)%nat ->
                  get4 (Nat.iter j NextPlayer (NextPlayer (CurrentPlayer s)))
                       (DiscardComplete s) = Some true)
            /\ get4 seat (DiscardComplete s) = Some false
            /\ CurrentPlayer s' = seat
            /\ DiscardComplete s' = DiscardComplete s
            /\ ((get4 seat (PendingDiscards s) = Some None
                 /\ s' = set_CurrentPlayer seat s)
                \/ exists cardIDs e s1 pd,
                     get4 seat (PendingDiscards s) = Some (Some cardIDs)
                     /\ processDiscard (set_CurrentPlayer seat s) seat cardIDs
                        = Failed e s1
                     /\ set4 seat None (PendingDiscards s1) = Some pd
                     /\ s' = set_PendingDiscards pd s1))
    /\ (forall s', pendingPass s = PassAllDone s' ->
          s' = s /\ DiscardComplete s = fill4 true)
    /\ (DiscardComplete s = fill4 true -> -1 <= CurrentPlayer s <= 3 ->
        pendingPass s = PassAllDone s
        /\ exists s',
             processPendingDiscards s = Done s'
             /\ Phase s' = PhasePlaying
             /\ CurrentPlayer s' = BidWinner s
             /\ CurrentTrick s'
                = Some {| Cards := []; Leader := BidWinner s;
                          LeadSuit := Spades; Winner := 0 |})
    /\ (forall e s', processPendingDiscards s <> Failed e s')
    /\ (forall s', processPendingDiscards s = Done s' ->
          (forall i, get4 i (DiscardComplete s) = Some true ->
                     get4 i (DiscardComplete s') = Some true)
          /\ ((get4 (CurrentPlayer s') (DiscardComplete s') = Some false
               /\ get4 (CurrentPlayer s') (PendingDiscards s') = Some None
               /\ Phase s' = Phase s /\ CurrentTrick s' = CurrentTrick s)
              \/ (DiscardComplete s' = fill4 true
                  /\ Phase s' = PhasePlaying
                  /\ CurrentPlayer s' = BidWinner s
                  /\ CurrentTrick s'
                     = Some {| Cards := []; Leader := BidWinner s;
                               LeadSuit := Spades; Winner := 0 |})))
    /\ (-1 <= CurrentPlayer s <= 3 ->
        seatsOf (Players s) = mkArr4 (Some 0) (Some 1) (Some 2) (Some 3) ->
        exists s', processPendingDiscards s = Done s').
Proof.
  intro s.
  pose proof (scanSeats_spec 4 (NextPlayer (CurrentPlayer s)) s) as HS.
  fold (pendingPass s) in HS.
  destruct (pendingLoop_total s) as [r Hr].
  assert (Hrun : processPendingDiscards s = r)
    by (unfold processPendingDiscards; now rewrite Hr).
  pose proof (pendingLoop_result _ _ Hr) as Hres.
  split; [|split; [|split; [|split; [|split; [|split; [|split; [|split]]]]]]].
  - exists r. split; [exact Hr|]. split; [exact Hrun|].
    intros fuel Hf. now apply pendingLoop_more_fuel with 5%nat.
  - apply processPendingDiscards_unfold.
  - intros s' H. rewrite H in HS.
    split; [exact (proj1 (scanSeats_break _ _ _ H))|].
    destruct HS as (k & seat & cardIDs & Hk & Hseat & Hbefore & Hopen & Hp & Hproc).
    exists k, seat, cardIDs. repeat (split; [assumption|]).
    pose proof (processDiscard_flags (set_CurrentPlayer seat s) seat cardIDs) as HF.
    rewrite Hproc in HF. destruct HF as [_ F].
    exact (get4_set4_same _ _ _ F).
  - intros s' H. rewrite H in HS.
    destruct HS as (k & seat & Hk & Hseat & Hbefore & Hopen & Hcase).
    exists k, seat. repeat (split; [assumption|]).
    destruct Hcase as [[Hnone ->] | (cardIDs & e & s1 & pd & Hp & Hproc & Hpd & ->)].
    + split; [reflexivity|]. split; [reflexivity|]. left. auto.
    + pose proof (processDiscard_flags (set_CurrentPlayer seat s) seat cardIDs) as HF.
      rewrite Hproc in HF. destruct HF as [T F].
      pose proof (handTouch_CurrentPlayer T) as Hcp.
      split; [exact Hcp|]. split; [exact F|].
      right. exists cardIDs, e, s1, pd. auto.
  - intros s' H. now apply pendingPass_all_done.
  - intros Hall Hv.
    assert (Hp : pendingPass s = PassAllDone s).
    { unfold pendingPass. apply scanSeats_all_complete; [exact Hall|].
      apply NextPlayer_valid. exact Hv. }
    split; [exact Hp|]. exists (startPlaying s).
    rewrite processPendingDiscards_unfold, Hp. repeat split.
  - intros e s' H. rewrite Hrun in H. rewrite H in Hres. exact Hres.
  - intros s' H. rewrite Hrun in H. rewrite H in Hres.
    destruct Hres as (Hkeep & _ & Hcase). split; assumption.
  - intros Hv Hfull. pose proof (@pendingLoop_seats 5 s Hv Hfull) as HL.
    rewrite Hr in HL. rewrite Hrun.
    destruct r as [s'|e s'|]; [exists s'; reflexivity | contradiction | contradiction].
Qed.

Lemma pending_discards_terminate_witness :
  (exists s',
      pendingPass pendingTableDrawn = PassBreak s'
      /\ completeCount s' = S (completeCount pendingTableDrawn)
      /\ get4 2 (DiscardComplete s') = Some true)
  /\ (exists s',
         processPendingDiscards pendingTableDrawn = Done s'
         /\ CurrentPlayer s' = 3
         /\ get4 3 (DiscardComplete s') = Some false
         /\ get4 3 (PendingDiscards s') = Some None
         /\ Phase s' = PhaseDiscard)
  /\ (exists s',
         processPendingDiscards allDrawnTable = Done s'
         /\ Phase s' = PhasePlaying /\ CurrentPlayer s' = 0).
Proof.
  destruct (pending_discards_terminate pendingTableDrawn)
    as (_ & _ & Hbreak & _ & _ & _ & _ & Hdone & _).
  destruct (pending_discards_terminate allDrawnTable)
    as (_ & _ & _ & _ & _ & Hall & _ & _ & _).
  split; [|split].
  - eexists. split; [vm_compute; reflexivity|].
    match goal with
    | |- completeCount ?st = _ /\ _ =>
        destruct (Hbreak st eq_refl) as (Hc & k & seat & cardIDs & _ & _ & _ & _ & _ & _ & _)
    end.
    split; [exact Hc | reflexivity].
  - eexists. split; [vm_compute; reflexivity|].
    match goal with
    | |- CurrentPlayer ?st = _ /\ _ =>
        destruct (Hdone st eq_refl) as (_ & [(H1 & H2 & H3 & _) | (H1 & _)])
    end.
    + split; [reflexivity|]. split; [exact H1|]. split; [exact H2 | exact H3].
    + vm_compute in H1. discriminate.
  - destruct Hall as (_ & s' & H1 & H2 & H3 & _).
    + reflexivity.
    + vm_compute. split; discriminate.
    + exists s'. split; [exact H1|]. split; [exact H2 | exact H3].
Defined.

Lemma discardTouch_rest :
  forall s s',
    discardTouch s s' ->
    House s' = House s /\ WinningBid s' = WinningBid s /\ Trump s' = Trump s
    /\ TricksPlayed s' = TricksPlayed s /\ CardsWon s' = CardsWon s.
Proof. intros s s' H. rewrite H. simpl. auto. Qed.

(** A record in the discard phase after some discard processing. *)
Lemma Sound_discard :
  forall s s',
    SeatsOK s -> BidsOK s -> TricksOK s ->
    Phase s = PhaseDiscard -> Trump s <> None -> Kitty s = [] ->
    discardTouch s s' ->
    seatsOf (Players s') = seatsOf (Players s) ->
    get4 (CurrentPlayer s') (DiscardComplete s') = Some false ->
    get4 (BidWinner s) (DiscardComplete s') = Some true ->
    Sound s'.
Proof.
  intros s s' (Sfull & Sseat & Shouse & Steams)
         (Blobby & Border & Brise & Bpost & Bkitty)
         (Ttrick & Tcount & Tearly & Tplaying & Tover & Tdone & Tpiles)
         Hph Htrump Hkitty Ht Hseats Hturn Hbw.
  destruct (discardTouch_fields Ht) as (F1 & F2 & F3 & F4 & F5 & F6 & F7 & F8 & F9).
  destruct (discardTouch_rest Ht) as (G1 & G2 & G3 & G4 & G5).
  unfold Sound, SeatsOK, BidsOK, DiscardOK, TricksOK, DealOK.
  rewrite F1, F2, F4, F5, F6, F7, F9, G1, G2, G3, G4, G5, Hseats, Hph in *.
  split; [|split; [|split; [|split]]].
  - auto.
  - split; [discriminate|]. split; [exact Border|]. split; [exact Brise|].
    split; [exact Bpost|]. discriminate.
  - split; [auto|]. split; [auto|]. auto.
  - split; [discriminate|]. split; [exact Tcount|]. split; [exact Tearly|].
    split; [discriminate|]. split; [exact Tover|]. auto.
  - discriminate.
Qed.

(** The start of the play, when the four seats have discarded. *)
Lemma Sound_startPlaying :
  forall s s',
    SeatsOK s -> BidsOK s -> TricksOK s ->
    Phase s = PhaseDiscard -> Trump s <> None -> Kitty s = [] ->
    discardTouch s s' ->
    seatsOf (Players s') = seatsOf (Players s) ->
    Sound (startPlaying s').
Proof.
  intros s s' (Sfull & Sseat & Shouse & Steams)
         (Blobby & Border & Brise & Bpost & Bkitty)
         (Ttrick & Tcount & Tearly & Tplaying & Tover & Tdone & Tpiles)
         Hph Htrump Hkitty Ht Hseats.
  destruct (discardTouch_fields Ht) as (F1 & F2 & F3 & F4 & F5 & F6 & F7 & F8 & F9).
  destruct (discardTouch_rest Ht) as (G1 & G2 & G3 & G4 & G5).
  rewrite Hph in *.
  destruct (Bpost eq_refl) as (B1 & B2 & B3 & B4 & B5).
  unfold Sound, SeatsOK, BidsOK, DiscardOK, TricksOK, DealOK, startPlaying. simpl.
  rewrite F2, F4, F5, F6, F7, F9, G1, G2, G3, G4, G5, Hseats.
  split; [|split; [|split; [|split]]].
  - split; [intros _; apply Sfull; discriminate|]. auto.
  - split; [discriminate|]. split; [exact Border|]. split; [exact Brise|].
    split; [auto|]. discriminate.
  - split; [auto|]. split; [discriminate|]. auto.
  - split.
    { intros _. eexists. split; [reflexivity|]. unfold len. simpl.
      split; [lia|]. split; [exact B3|]. split; [apply seatOrder_nil|].
      rewrite Z.add_0_r. rewrite Z.mod_small by lia. reflexivity. }
    split; [exact Tcount|]. split; [intros [E | [E | E]]; discriminate|].
    split; [intros _; rewrite Tearly by auto; lia|].
    split; [intros [E | E]; discriminate|]. auto.
  - discriminate.
Qed.

(** [processPendingDiscards] on a record of the discard phase. *)
Lemma processPendingDiscards_Sound :
  forall s s0,
    SeatsOK s0 -> BidsOK s0 -> TricksOK s0 ->
    Phase s0 = PhaseDiscard -> Trump s0 <> None -> Kitty s0 = [] ->
    discardTouch s0 s ->
    seatsOf (Players s) = seatsOf (Players s0) ->
    -1 <= CurrentPlayer s <= 3 ->
    get4 (BidWinner s0) (DiscardComplete s) = Some true ->
    processPendingDiscards s <> Panicked
    /\ forall s', recordAfter (processPendingDiscards s) = Some s' -> Sound s'.
Proof.
  intros s s0 HS HB HT Hph Htrump Hkitty Ht Hseats Hcp Hbw.
  assert (Hfull : seatsOf (Players s) = mkArr4 (Some 0) (Some 1) (Some 2) (Some 3)).
  { rewrite Hseats. destruct HS as (Sfull & _). apply Sfull. congruence. }
  unfold processPendingDiscards.
  destruct (pendingLoop_total s) as [r Hr]. rewrite Hr.
  pose proof (@pendingLoop_seats 5 s Hcp Hfull) as HL. rewrite Hr in HL.
  destruct r as [s'|e s'|]; try contradiction.
  split; [discriminate|]. intros s'' E. injection E as <-.
  destruct HL as (s1 & Ht1 & Hseats1 & Hmono & Hres).
  assert (Ht01 : discardTouch s0 s1) by (eapply discardTouch_trans; eauto).
  assert (Hs01 : seatsOf (Players s1) = seatsOf (Players s0)) by congruence.
  destruct Hres as [(-> & Hturn) | ->].
  - eapply Sound_discard; eauto.
  - eapply Sound_startPlaying; eauto.
Qed.

Lemma applyTakeKitty_Sound :
  forall s a,
    Sound s ->
    applyTakeKitty s a <> Panicked
    /\ forall s', recordAfter (applyTakeKitty s a) = Some s' -> Sound s'.
Proof.
  intros s a H. unfold applyTakeKitty.
  destruct (negb (Phase_eqb (Phase s) PhaseKitty)) eqn:Ep;
    [split; [discriminate | intros s' E; injection E as <-; exact H]|].
  apply negb_false_iff, Phase_eqb_eq in Ep.
  destruct (negb (PlayerIndex a =? BidWinner s)) eqn:Eb;
    [split; [discriminate | intros s' E; injection E as <-; exact H]|].
  apply negb_false_iff, Z.eqb_eq in Eb.
  pose proof H as H'. sound_parts H'.
  assert (Hpost : postBid (Phase s) = true) by (rewrite Ep; reflexivity).
  destruct (Bpost Hpost) as (_ & _ & Hbw & _).
  assert (Hv : 0 <= PlayerIndex a <= 3) by lia.
  assert (Hfull : seatsOf (Players s) = mkArr4 (Some 0) (Some 1) (Some 2) (Some 3))
    by (apply Sfull; congruence).
  destruct (@seatsOf_full_get (Players s) (PlayerIndex a) Hfull Hv) as [p Hp].
  rewrite Hp.
  destruct (@takeKittyLoop_seats (ids (CardIDs a)) (PlayerIndex a) s p Hp) as (Hnp & Hs).
  pose proof (@takeKittyLoop_cards (ids (CardIDs a)) (PlayerIndex a) s) as Hshape.
  assert (Hframe : forall s1,
             seatsOf (Players s1) = seatsOf (Players s) ->
             s1 = set_Players (Players s1) (set_Kitty (Kitty s1) s) ->
             Sound s1).
  { intros s1 Hseats Heq.
    apply Sound_frame with s; auto; try (rewrite Heq; reflexivity);
      try (rewrite Ep; congruence).
    - rewrite Hseats. exact Sseat.
    - rewrite Heq. simpl. exact Shouse.
    - rewrite Heq. simpl. same_teams.
    - rewrite Heq. simpl. auto. }
  destruct (takeKittyLoop (ids (CardIDs a)) (PlayerIndex a) s) as [s1|e s1|];
    [| |congruence].
  - split; [discriminate|]. intros s' E. injection E as <-.
    destruct (Hshape s1 eq_refl) as (Heq & _).
    apply Hframe.
    + simpl. apply Hs. reflexivity.
    + simpl. rewrite Heq. reflexivity.
  - split; [discriminate|]. intros s' E. injection E as <-.
    destruct (Hshape s1 eq_refl) as (Heq & _).
    apply Hframe; [apply Hs; reflexivity | exact Heq].
Qed.

Lemma deal_to_seat_seats :
  forall n seat player s,
    get4 seat (Players s) = Some (Some player) ->
    Deck s <> None ->
    exists s2,
      match DeckDeal n s with
      | Some (newCards, st) =>
          setPlayer seat (set_Hand (Hand player ++ newCards) player) st
      | None => None
      end = Some s2
      /\ seatsOf (Players s2) = seatsOf (Players s)
      /\ s2 = set_Players (Players s2) (set_Deck (Deck s2) s).
Proof.
  intros n seat player s Hg Hd. pose proof (get4_valid _ _ Hg) as Hv.
  unfold DeckDeal. destruct (Deck s) as [d|]; [|congruence].
  destruct (Deal n d) as [cards d'].
  match goal with
  | |- context [setPlayer seat ?q ?st] =>
      destruct (@setPlayer_valid seat q st Hv) as (ps & Hps & Hsp); rewrite Hsp
  end.
  eexists. split; [reflexivity|]. simpl. split.
  - eapply seatsOf_set; eauto.
  - destruct s; reflexivity.
Qed.

(** The record of the kitty phase with the phase moved on and the kitty
    cleared, as [applyDiscard] leaves them. *)
Lemma Sound_to_discard :
  forall s,
    Sound s -> Phase s = PhaseKitty ->
    SeatsOK (set_Phase PhaseDiscard (set_Kitty [] s))
    /\ BidsOK (set_Phase PhaseDiscard (set_Kitty [] s))
    /\ TricksOK (set_Phase PhaseDiscard (set_Kitty [] s)).
Proof.
  intros s H Hph. sound_parts H. rewrite Hph in *.
  unfold SeatsOK, BidsOK, TricksOK. simpl.
  split; [|split].
  - split; [intros _; apply Sfull; discriminate|]. auto.
  - split; [discriminate|]. split; [exact Border|]. split; [exact Brise|].
    split; [intros _; apply Bpost; reflexivity|]. discriminate.
  - split; [discriminate|]. split; [exact Tcount|].
    split; [intros _; apply Tearly; auto|]. split; [discriminate|].
    split; [intros [E | E]; discriminate|]. auto.
Qed.

Lemma get4_fill4 : forall A i (v : A), 0 <= i <= 3 -> get4 i (fill4 v) = Some v.
Proof.
  intros A i v Hi. destruct (valid_cases Hi) as [-> | [-> | [-> | ->]]]; reflexivity.
Qed.

Lemma applyDiscard_Sound :
  forall s a,
    Inv s -> Sound s ->
    applyDiscard s a <> Panicked
    /\ forall s', recordAfter (applyDiscard s a) = Some s' -> Sound s'.
Proof.
  intros s a HI H. unfold applyDiscard.
  destruct (negb (Phase_eqb (Phase s) PhaseKitty)) eqn:Ep;
    [split; [discriminate | intros s' E; injection E as <-; exact H]|].
  apply negb_false_iff, Phase_eqb_eq in Ep.
  destruct (negb (PlayerIndex a =? BidWinner s)) eqn:Eb;
    [split; [discriminate | intros s' E; injection E as <-; exact H]|].
  apply negb_false_iff, Z.eqb_eq in Eb.
  destruct (Trump s) as [trump|] eqn:Etr;
    [|split; [discriminate | intros s' E; injection E as <-; exact H]].
  destruct (len (Kitty s) >? 0) eqn:Ek;
    [split; [discriminate | intros s' E; injection E as <-; exact H]|].
  pose proof H as H'. sound_parts H'. inv_parts HI.
  assert (Hpost : postBid (Phase s) = true) by (rewrite Ep; reflexivity).
  destruct (Bpost Hpost) as (_ & _ & Hbw & _).
  assert (Hv : 0 <= PlayerIndex a <= 3) by lia.
  assert (Hfull : seatsOf (Players s) = mkArr4 (Some 0) (Some 1) (Some 2) (Some 3))
    by (apply Sfull; congruence).
  destruct (@seatsOf_full_get (Players s) (PlayerIndex a) Hfull Hv) as [p Hp].
  rewrite Hp.
  destruct (@discardLoop_seats (ids (CardIDs a)) (PlayerIndex a) s p Hp) as (Hnp & Hs).
  pose proof (@discardLoop_Players (ids (CardIDs a)) (PlayerIndex a) s) as Hshape.
  assert (Hframe : forall s1,
             seatsOf (Players s1) = seatsOf (Players s) ->
             s1 = set_Players (Players s1) s ->
             Sound s1).
  { intros s1 Hseats Heq.
    apply Sound_frame with s; auto; try (rewrite Heq; reflexivity);
      try (rewrite Ep; congruence).
    - rewrite Hseats. exact Sseat.
    - rewrite Heq. simpl. exact Shouse.
    - rewrite Heq. simpl. same_teams.
    - rewrite Heq. simpl. congruence. }
  destruct (discardLoop (ids (CardIDs a)) (PlayerIndex a) s) as [s1|e s1|];
    [| |congruence].
  2:{ split; [discriminate|]. intros s' E. injection E as <-.
      apply Hframe; [apply Hs; reflexivity | apply Hshape; reflexivity]. }
  destruct (Hs s1 eq_refl) as (Hseats1 & p1 & Hp1).
  pose proof (Hshape s1 eq_refl) as Heq1.
  rewrite Hp1.
  destruct (len (Hand p1) >? 6);
    [split; [discriminate | intros s' E; injection E as <-; apply Hframe; auto]|].
  assert (Hmid : exists s2,
             (if (len (Hand p1) <? 6)
                 && match Deck s1 with Some _ => true | None => false end
              then match DeckDeal (6 - len (Hand p1)) s1 with
                   | Some (newCards, state) =>
                       setPlayer (PlayerIndex a) (set_Hand (Hand p1 ++ newCards) p1) state
                   | None => None
                   end
              else Some s1) = Some s2
             /\ seatsOf (Players s2) = seatsOf (Players s1)
             /\ s2 = set_Players (Players s2) (set_Deck (Deck s2) s1)).
  { destruct ((len (Hand p1) <? 6) && _) eqn:Ec.
    - apply andb_true_iff in Ec. destruct Ec as (_ & Ed).
      apply deal_to_seat_seats; [exact Hp1|].
      destruct (Deck s1); [discriminate | discriminate Ed].
    - exists s1. split; [reflexivity|]. split; [reflexivity|]. destruct s1; reflexivity. }
  cbv zeta. destruct Hmid as (s2 & -> & Hseats2 & Heq2).
  assert (Heq : s2 = set_Players (Players s2) (set_Deck (Deck s2) s)).
  { rewrite Heq2 at 1. rewrite Heq1. destruct s; reflexivity. }
  assert (F : BidWinner s2 = BidWinner s /\ Dealer s2 = Dealer s)
    by (rewrite Heq; simpl; auto).
  destruct F as (F1 & F2).
  simpl BidWinner. simpl DiscardComplete. rewrite F1.
  assert (Hbwv : 0 <= BidWinner s <= 3) by lia.
  destruct (@set4_valid _ (BidWinner s) true (fill4 false) Hbwv) as (dc & Hdc).
  rewrite Hdc. simpl CurrentPlayer. unfold PlayerAfterDealer. simpl Dealer. rewrite F2.
  set (s0 := set_Phase PhaseDiscard (set_Kitty [] s)).
  destruct (Sound_to_discard H Ep) as (HS0 & HB0 & HT0). fold s0 in HS0, HB0, HT0.
  match goal with
  | |- context [processPendingDiscards ?st] => set (s4 := st)
  end.
  assert (Ht : discardTouch s0 s4).
  { unfold discardTouch, s4, s0. simpl. rewrite Heq at 1. destruct s; reflexivity. }
  assert (Hseats4 : seatsOf (Players s4) = seatsOf (Players s0))
    by (unfold s4, s0; simpl; congruence).
  assert (Hcp : 0 <= CurrentPlayer s4 <= 3)
    by (unfold s4; simpl; apply NextPlayer_valid; lia).
  assert (Hbw4 : get4 (BidWinner s0) (DiscardComplete s4) = Some true).
  { unfold s4, s0. simpl. eapply get4_set4_same; eauto. }
  assert (Htr0 : Trump s0 <> None) by (unfold s0; simpl; congruence).
  destruct (NextPlayer (Dealer s) =? BidWinner s) eqn:Ecp.
  - apply processPendingDiscards_Sound with s0; auto. lia.
  - split; [discriminate|]. intros s' E. injection E as <-.
    apply Sound_discard with s0; auto.
    unfold s4. simpl. apply Z.eqb_neq in Ecp.
    rewrite (get4_set4_other _ _ Hdc) by congruence.
    apply get4_fill4. apply NextPlayer_valid. lia.
Qed.

Lemma applyDiscardDraw_Sound :
  forall s a,
    Sound s -> 0 <= PlayerIndex a <= 3 ->
    applyDiscardDraw s a <> Panicked
    /\ forall s', recordAfter (applyDiscardDraw s a) = Some s' -> Sound s'.
Proof.
  intros s a H Hv. unfold applyDiscardDraw.
  destruct (negb (Phase_eqb (Phase s) PhaseDiscard)) eqn:Ep;
    [split; [discriminate | intros s' E; injection E as <-; exact H]|].
  apply negb_false_iff, Phase_eqb_eq in Ep.
  destruct (get4_in_range (DiscardComplete s) Hv) as [done Hdone]. rewrite Hdone.
  destruct done;
    [split; [discriminate | intros s' E; injection E as <-; exact H]|].
  pose proof H as H'. sound_parts H'.
  destruct (Dturn Ep) as (Hturn & Hbw).
  assert (Hnl : Phase s <> PhaseLobby) by congruence.
  assert (Htr : Trump s <> None) by (apply Dtrump; rewrite Ep; reflexivity).
  assert (Hk : Kitty s = []) by (apply Dkitty; congruence).
  destruct H as (HS & HB & HD & HT & HDl).
  destruct (negb (PlayerIndex a =? CurrentPlayer s)) eqn:Ecp.
  - destruct (@set4_valid _ (PlayerIndex a) (CardIDs a) (PendingDiscards s) Hv)
      as (pd & Hpd). rewrite Hpd.
    split; [discriminate|]. intros s' E. injection E as <-.
    apply Sound_discard with s; auto.
    apply handTouch_discardTouch. apply handTouch_PendingDiscards.
  - apply negb_false_iff, Z.eqb_eq in Ecp.
    assert (Hfull := Sfull Hnl).
    destruct (@seatsOf_full_get (Players s) (PlayerIndex a) Hfull Hv) as [p Hp].
    destruct (@processDiscard_seats s (PlayerIndex a) (ids (CardIDs a)) p Hp)
      as (Hnp & Hseats).
    pose proof (processDiscard_flags s (PlayerIndex a) (ids (CardIDs a))) as Hflags.
    destruct (processDiscard s (PlayerIndex a) (ids (CardIDs a))) as [s1|e s1|];
      [| |congruence].
    + destruct Hflags as (Ht & Hdc).
      apply processPendingDiscards_Sound with s; auto.
      * apply handTouch_discardTouch. exact Ht.
      * rewrite (handTouch_CurrentPlayer Ht). lia.
      * destruct (Z.eq_dec (BidWinner s) (PlayerIndex a)) as [-> | Hne].
        -- eapply get4_set4_same; eauto.
        -- rewrite (get4_set4_other _ _ Hdc) by congruence. exact Hbw.
    + destruct Hflags as (Ht & Hdc).
      split; [discriminate|]. intros s' E. injection E as <-.
      apply Sound_discard with s; auto.
      * apply handTouch_discardTouch. exact Ht.
      * rewrite (handTouch_CurrentPlayer Ht), Hdc. exact Hturn.
      * rewrite Hdc. exact Hbw.
Qed.

Lemma wonBy_snoc :
  forall team tricks ct,
    wonBy team (tricks ++ [ct])
    = wonBy team tricks
      ++ (if GetTeamForPlayer (CT_Winner ct) =? team then map TC_Card (CT_Cards ct) else []).
Proof.
  intros team tricks ct. unfold wonBy. rewrite flat_map_app. simpl.
  rewrite app_nil_r. reflexivity.
Qed.

Lemma creditCards_piles :
  forall winner cards tricks s s',
    CardsWon s = mkArr2 (wonBy 0 tricks) (wonBy 1 tricks) ->
    creditCards (GetTeamForPlayer winner) cards s = Some s' ->
    CardsWon s' = mkArr2 (wonBy 0 (tricks ++ [mkCompletedTrick cards winner]))
                         (wonBy 1 (tricks ++ [mkCompletedTrick cards winner])).
Proof.
  intros winner cards tricks s s' Hp Hc. unfold creditCards in Hc.
  rewrite !wonBy_snoc. simpl.
  destruct (GetTeamForPlayer_cases winner) as [E | E]; rewrite E in *; simpl in *;
    injection Hc as <-; simpl; rewrite Hp; simpl; rewrite ?app_nil_r; reflexivity.
Qed.

Lemma next_seat_mod :
  forall leader n, NextPlayer ((leader + n) mod 4) = (leader + (n + 1)) mod 4.
Proof.
  intros leader n.
  pose proof (Z.mod_pos_bound (leader + n) 4 ltac:(lia)) as Hb.
  rewrite NextPlayer_seat by lia.
  rewrite Z.add_mod_idemp_l by lia. f_equal. lia.
Qed.

Lemma applyPlayCard_Sound :
  forall s a,
    Sound s -> 0 <= PlayerIndex a <= 3 ->
    applyPlayCard s a <> Panicked
    /\ forall s', recordAfter (applyPlayCard s a) = Some s' -> Sound s'.
Proof.
  intros s a H Hv. unfold applyPlayCard.
  destruct (negb (Phase_eqb (Phase s) PhasePlaying)) eqn:Ep;
    [split; [discriminate | intros s' E; injection E as <-; exact H]|].
  apply negb_false_iff, Phase_eqb_eq in Ep.
  destruct (negb (PlayerIndex a =? CurrentPlayer s)) eqn:Ecp;
    [split; [discriminate | intros s' E; injection E as <-; exact H]|].
  apply negb_false_iff, Z.eqb_eq in Ecp.
  pose proof H as H'. sound_parts H'.
  assert (Hnl : Phase s <> PhaseLobby) by congruence.
  assert (Hfull := Sfull Hnl).
  destruct (@seatsOf_full_get (Players s) (PlayerIndex a) Hfull Hv) as [p Hp].
  rewrite Hp.
  destruct (findCard (CardID a) (Hand p)) as [[cardIdx card]|] eqn:Ef;
    [|split; [discriminate | intros s' E; injection E as <-; exact H]].
  assert (Htr : Trump s <> None) by (apply Dtrump; rewrite Ep; reflexivity).
  destruct (Trump s) as [trump|] eqn:Etrump; [|congruence].
  destruct (Ttrick Ep) as (trick & Etrick & Hlen & Hleader & Horder & Hturn).
  rewrite Etrick. cbv zeta.
  set (trick1 := if len (Cards trick) =? 0
                 then set_LeadSuit (if IsTrump card trump then trump else CSuit card) trick
                 else trick) in *.
  assert (Hc1 : Cards trick1 = Cards trick)
    by (unfold trick1; destruct (len (Cards trick) =? 0); reflexivity).
  assert (Hl1 : Leader trick1 = Leader trick)
    by (unfold trick1; destruct (len (Cards trick) =? 0); reflexivity).
  match goal with
  | |- context [if ?c then Failed ErrMustFollowSuit _ else _] => destruct c eqn:Efollow
  end.
  { split; [discriminate|]. intros s' E. injection E as <-.
    assert (Hpos : (len (Cards trick1) >? 0) = true)
      by (apply andb_true_iff in Efollow; tauto).
    assert (Ht1 : trick1 = trick).
    { unfold trick1. destruct (len (Cards trick) =? 0) eqn:E0; [|reflexivity].
      rewrite Hc1 in Hpos. lia. }
    rewrite Ht1, set_CurrentTrick_same by exact Etrick. exact H. }
  match goal with
  | |- context [setPlayer (PlayerIndex a) ?q ?st] =>
      destruct (@setPlayer_valid (PlayerIndex a) q st Hv) as (ps & Hps & Hsp);
        rewrite Hsp
  end.
  simpl in Hps.
  assert (Hseats : seatsOf ps = seatsOf (Players s))
    by (eapply seatsOf_set; eauto).
  set (cards := Cards trick1 ++ [mkTrickCard card (PlayerIndex a)]) in *.
  assert (Hlen2 : len cards = len (Cards trick) + 1).
  { unfold cards. rewrite len_app, Hc1. reflexivity. }
  assert (Horder2 : seatOrder (Leader trick) (map TC_PlayerIndex cards)).
  { unfold cards. rewrite map_app, Hc1. simpl. apply seatOrder_snoc; [exact Horder|].
    rewrite Ecp, Hturn. unfold len. rewrite length_map. reflexivity. }
  simpl Cards. fold cards.
  destruct (len cards =? 4) eqn:E4.
  - (* the trick is complete *)
    apply Z.eqb_eq in E4.
    set (full := set_Cards cards trick1) in *.
    set (winner := determineTrickWinner full trump) in *.
    assert (Hne : Cards full <> []).
    { unfold full, cards. simpl. destruct (Cards trick1); discriminate. }
    destruct (trick_winner_card full trump Hne) as (w & Hw & Hwinner & _).
    fold winner in Hwinner. simpl in Hw.
    assert (Hwv : 0 <= winner <= 3).
    { rewrite Hwinner. eapply seatOrder_valid; [exact Horder2|].
      apply in_map. exact Hw. }
    simpl TricksPlayed. simpl CompletedTricks.
    match goal with
    | |- context [creditCards (GetTeamForPlayer winner) ?cs ?st] =>
        destruct (creditCards_team winner cs st) as [s2 Hcredit];
          pose proof (creditCards_eq _ _ _ Hcredit) as Heq2;
          pose proof (@creditCards_piles winner cs (CompletedTricks s) st s2) as Hpiles;
          rewrite Hcredit
    end.
    simpl in Hpiles. specialize (Hpiles Tpiles Hcredit).
    assert (Htp : int_add (TricksPlayed s) 1 = TricksPlayed s + 1).
    { apply int_add_small. specialize (Tplaying Ep).
      rewrite Tcount in *. unfold min_int, max_int, len in *. lia. }
    assert (F : Phase s2 = PhasePlaying /\ seatsOf (Players s2) = seatsOf (Players s)
                /\ House s2 = House s /\ Teams s2 = Teams s /\ Bids s2 = Bids s
                /\ Dealer s2 = Dealer s /\ WinningBid s2 = WinningBid s
                /\ BidWinner s2 = BidWinner s /\ Trump s2 = Some trump
                /\ Kitty s2 = Kitty s
                /\ TricksPlayed s2 = TricksPlayed s + 1
                /\ CompletedTricks s2
                   = CompletedTricks s ++ [mkCompletedTrick cards winner]).
    { rewrite Heq2. simpl. rewrite Htp, Ep, Etrump, Hseats. repeat split; reflexivity. }
    destruct F as (F1 & F2 & F3 & F4 & F5 & F6 & F7 & F8 & F9 & F10 & F11 & F12).
    assert (Hdone' : forall ct, In ct (CompletedTricks s2) ->
               len (CT_Cards ct) = 4
               /\ (exists leader, 0 <= leader <= 3
                                  /\ seatOrder leader (map TC_PlayerIndex (CT_Cards ct)))
               /\ exists tc, In tc (CT_Cards ct) /\ CT_Winner ct = TC_PlayerIndex tc).
    { intros ct Hct. rewrite F12 in Hct. apply in_app_or in Hct.
      destruct Hct as [Hct | [<- | []]]; [apply Tdone; exact Hct|]. simpl.
      split; [exact E4|]. split; [exists (Leader trick); auto|].
      exists w. auto. }
    assert (Hcount' : TricksPlayed s2 = len (CompletedTricks s2)).
    { rewrite F11, F12, len_app, Tcount. reflexivity. }
    simpl TricksPlayed. rewrite F11.
    destruct (TricksPlayed s + 1 =? 6) eqn:E6.
    + apply Z.eqb_eq in E6.
      split; [discriminate|]. intros s' E. injection E as <-.
      unfold Sound, SeatsOK, BidsOK, DiscardOK, TricksOK, DealOK. simpl.
      rewrite F2, F3, F4, F5, F6, F7, F8, F9, F10, F11, Hpiles.
      rewrite Ep in *.
      split; [|split; [|split; [|split]]].
      * split; [intros _; exact Hfull|]. auto.
      * split; [discriminate|]. split; [exact Border|]. split; [exact Brise|].
        split; [intros _; apply Bpost; reflexivity|]. discriminate.
      * split; [discriminate|]. split; [discriminate|].
        intros _ _. apply Dkitty; discriminate.
      * split; [discriminate|]. split; [rewrite <- F11; exact Hcount'|].
        split; [intros [E | [E | E]]; discriminate|]. split; [discriminate|].
        split; [intros _; exact E6|]. split; [exact Hdone'|]. rewrite F12. reflexivity.
      * discriminate.
    + apply Z.eqb_neq in E6. specialize (Tplaying Ep).
      split; [discriminate|]. intros s' E. injection E as <-.
      unfold Sound, SeatsOK, BidsOK, DiscardOK, TricksOK, DealOK. simpl.
      rewrite F1, F2, F3, F4, F5, F6, F7, F8, F9, F10, F11, Hpiles.
      rewrite Ep in *.
      split; [|split; [|split; [|split]]].
      * split; [intros _; exact Hfull|]. auto.
      * split; [discriminate|]. split; [exact Border|]. split; [exact Brise|].
        split; [intros _; apply Bpost; reflexivity|]. discriminate.
      * split; [discriminate|]. split; [discriminate|].
        intros _ _. apply Dkitty; discriminate.
      * split.
        { intros _. eexists. split; [reflexivity|]. unfold len. simpl.
          split; [lia|]. split; [exact Hwv|]. split; [apply seatOrder_nil|].
          rewrite Z.add_0_r. rewrite Z.mod_small by lia. reflexivity. }
        split; [rewrite <- F11; exact Hcount'|].
        split; [intros [E | [E | E]]; discriminate|]. split; [intros _; lia|].
        split; [intros [E | E]; discriminate|]. split; [exact Hdone'|].
        rewrite F12. reflexivity.
      * discriminate.
  - (* the trick goes on *)
    apply Z.eqb_neq in E4.
    split; [discriminate|]. intros s' E. injection E as <-.
    unfold Sound, SeatsOK, BidsOK, DiscardOK, TricksOK, DealOK. simpl.
    rewrite Hseats, Etrump. rewrite Ep in *.
    split; [|split; [|split; [|split]]].
    + split; [intros _; exact Hfull|]. auto.
    + split; [discriminate|]. split; [exact Border|]. split; [exact Brise|].
      split; [intros _; apply Bpost; reflexivity|]. discriminate.
    + split; [discriminate|]. split; [discriminate|].
      intros _ _. apply Dkitty; discriminate.
    + split.
      { intros _. eexists. split; [reflexivity|]. simpl. fold cards. rewrite Hl1.
        split; [lia|]. split; [exact Hleader|]. split; [exact Horder2|].
        rewrite Hturn, Hlen2. apply next_seat_mod. }
      split; [exact Tcount|]. split; [intros [E | [E | E]]; discriminate|].
      split; [intros _; apply Tplaying; reflexivity|].
      split; [intros [E | E]; discriminate|]. auto.
    + discriminate.
Qed.

Lemma Sound_set_Teams :
  forall s t0 t1,
    Sound s -> PlayerIndices t0 = [0; 2] -> PlayerIndices t1 = [1; 3] ->
    Sound (set_Teams (mkArr2 (Some t0) (Some t1)) s).
Proof.
  intros s t0 t1 H Hi0 Hi1. pose proof H as H'. sound_parts H'.
  unfold Sound, SeatsOK, BidsOK, DiscardOK, TricksOK, DealOK. simpl.
  split; [|split; [|split; [|split]]].
  - split; [exact Sfull|]. split; [exact Sseat|]. split; [exact Shouse|].
    exists t0, t1. auto.
  - split_ands; assumption.
  - split_ands; assumption.
  - split_ands; assumption.
  - exact Ddeal.
Qed.

Lemma Sound_finished :
  forall s, Sound s -> Phase s = PhaseScoring -> Sound (set_Phase PhaseFinished s).
Proof.
  intros s H Hp. pose proof H as H'. sound_parts H'.
  unfold Sound, SeatsOK, BidsOK, DiscardOK, TricksOK, DealOK. simpl.
  rewrite Hp in *.
  assert (Hnl : PhaseScoring <> PhaseLobby) by discriminate.
  split; [|split; [|split; [|split]]].
  - split; [intros _; exact (Sfull Hnl)|]. auto.
  - split; [discriminate|]. split; [exact Border|]. split; [exact Brise|].
    split; [intros _; apply Bpost; reflexivity|]. discriminate.
  - split; [intros _; apply Dtrump; reflexivity|]. split; [discriminate|].
    intros _ _. apply Dkitty; discriminate.
  - split; [discriminate|]. split; [exact Tcount|].
    split; [intros [E | [E | E]]; discriminate|]. split; [discriminate|].
    split; [intros _; apply Tover; left; reflexivity|]. auto.
  - discriminate.
Qed.

Lemma handleScoring_Sound :
  forall s,
    Sound s -> Phase s = PhaseScoring ->
    handleScoring s <> Panicked
    /\ forall s', recordAfter (handleScoring s) = Some s' -> Sound s'.
Proof.
  intros s H Hp. pose proof H as H'. sound_parts H'.
  destruct Steams as (t0 & t1 & Ht & Hi0 & Hi1).
  assert (Hb0 : b0 (Teams s) = Some t0) by (rewrite Ht; reflexivity).
  assert (Hb1 : b1 (Teams s) = Some t1) by (rewrite Ht; reflexivity).
  unfold handleScoring, ApplyScore. rewrite Hb0, Hb1. simpl.
  unfold CheckGameOver. simpl.
  match goal with
  | |- context [if ?c then Some (true, 0) else _] => destruct c
  end; simpl.
  - split; [discriminate|]. intros s' E. injection E as <-.
    apply Sound_set_Teams; auto. apply Sound_finished; auto.
    apply Sound_set_Teams; auto.
  - match goal with
    | |- context [if ?c then Some (true, 1) else _] => destruct c
    end; simpl.
    + split; [discriminate|]. intros s' E. injection E as <-.
      apply Sound_set_Teams; auto. apply Sound_finished; auto.
      apply Sound_set_Teams; auto.
    + split; [discriminate|]. intros s' E. injection E as <-.
      apply Sound_set_Teams; auto.
Qed.

Lemma rejoinScan_Sound :
  forall seats tok s,
    Sound s -> Forall (fun i => 0 <= i <= 3) seats ->
    rejoinScan seats tok s <> Panicked
    /\ forall s', recordAfter (rejoinScan seats tok s) = Some s' -> Sound s'.
Proof.
  induction seats as [|i rest IH]; intros tok s H Hs; simpl.
  - split; [discriminate|]. intros s' E. injection E as <-. exact H.
  - inversion Hs as [|? ? Hi Hrest]; subst.
    destruct (get4 i (Players s)) as [[p|]|] eqn:Eg; try (apply IH; assumption).
    destruct (String.eqb (SessionToken p) tok); [|apply IH; assumption].
    destruct (@setPlayer_valid i (set_Connected true p) s Hi) as (ps & Hps & Hsp).
    rewrite Hsp. split; [discriminate|]. intros s' E. injection E as <-.
    eapply Sound_set_seat; eauto.
Qed.

Lemma HandleDisconnect_Sound :
  forall s client, Sound s -> Sound (HandleDisconnect s client).
Proof.
  intros s client H. unfold HandleDisconnect.
  destruct ((Client_SeatIndex client >=? 0) && (Client_SeatIndex client <? 4)); [|exact H].
  destruct (get4 _ (Players s)) as [[p|]|] eqn:Eg; try exact H.
  destruct (setPlayer _ _ s) as [s1|] eqn:E1; [|exact H].
  eapply Sound_set_seat; eauto.
Qed.

Lemma reseat_seats :
  forall hub i j,
    get4 i (seatsOf (mkArr4 (reseat 0 (a0 hub)) (reseat 1 (a1 hub))
                            (reseat 2 (a2 hub)) (reseat 3 (a3 hub)))) = Some (Some j) ->
    j = i.
Proof.
  intros hub i j Hg.
  destruct (valid_cases (@get4_valid _ _ _ _ Hg)) as [-> | [-> | [-> | ->]]];
    [destruct (a0 hub) | destruct (a1 hub) | destruct (a2 hub) | destruct (a3 hub)];
    unfold get4, seatsOf, map4, reseat in Hg; simpl in Hg; congruence.
Qed.

Lemma handleNewHand_Sound :
  forall rnd hub s client,
    Inv s -> Sound s ->
    handleNewHand rnd hub s client <> Panicked
    /\ forall s', recordAfter (handleNewHand rnd hub s client) = Some s' -> Sound s'.
Proof.
  intros rnd hub s client HI H. unfold handleNewHand.
  destruct (negb (Phase_eqb (Phase s) PhaseScoring)
            && negb (Phase_eqb (Phase s) PhaseFinished)) eqn:Ephase;
    [split; [discriminate | intros s' E; injection E as <-; exact H]|].
  destruct (Phase_eqb (Phase s) PhaseFinished) eqn:Efin.
  - pose proof H as H'. sound_parts H'.
    destruct Steams as (t0 & t1 & Ht & _). rewrite Ht. simpl.
    split; [discriminate|]. intros s' E. injection E as <-.
    apply Sound_lobby; simpl; try reflexivity; try lia.
    + apply reseat_seats.
    + eexists. eexists. split; [reflexivity|]. split; reflexivity.
  - apply StartNewHand_Sound; auto.
    intro Hl. rewrite Hl in Ephase. discriminate.
Qed.

Lemma ApplyAction_Sound :
  forall rnd s a,
    Inv s -> Sound s ->
    (AType a <> ActionJoinSeat -> 0 <= PlayerIndex a <= 3) ->
    ApplyAction rnd s a <> Panicked
    /\ forall s', recordAfter (ApplyAction rnd s a) = Some s' -> Sound s'.
Proof.
  intros rnd s a HI H Hv. unfold ApplyAction.
  destruct (AType a) eqn:Et.
  - apply applyJoinSeat_Sound; auto.
  - apply applyLeaveSeat_Sound; auto.
  - apply applyChangeName_Sound; auto.
  - apply applyKickPlayer_Sound; auto.
  - apply applyTransferHouse_Sound; auto.
  - apply applyStartGame_Sound; auto.
  - apply applyPlaceBid_Sound; auto.
  - apply applySelectTrump_Sound; auto.
  - apply applyTakeKitty_Sound; auto.
  - apply applyDiscard_Sound; auto.
  - apply applyDiscardDraw_Sound; auto. apply Hv. discriminate.
  - apply applyPlayCard_Sound; auto. apply Hv. discriminate.
  - apply applyResetGame_Sound; auto. apply Hv. discriminate.
  - split; [discriminate|]. intros s' E. injection E as <-. exact H.
Qed.

Lemma applyLeaveSeat_Phase :
  forall s a s', recordAfter (applyLeaveSeat s a) = Some s' -> Phase s' = Phase s.
Proof.
  intros s a s' H. unfold applyLeaveSeat in H.
  destruct ((PlayerIndex a <? 0) || (PlayerIndex a >? 3));
    [injection H as <-; reflexivity|].
  destruct (get4 (PlayerIndex a) (Players s)) as [[p|]|]; try discriminate;
    [|injection H as <-; reflexivity].
  destruct (Phase_eqb (Phase s) PhaseLobby).
  - destruct (set4 _ None (Players s)); [|discriminate]. injection H as <-. reflexivity.
  - destruct (setPlayer _ _ s) as [s1|] eqn:E1; [|discriminate].
    apply setPlayer_eq in E1. destruct E1 as (ps & _ & ->).
    injection H as <-. reflexivity.
Qed.

(** The record a message leaves is sound, and the only message on which
    the handlers' own code panics is a request for a seat outside the
    table while a game is on. *)
Lemma HandleMessage_Sound :
  forall rnd hub s client msg,
    Inv s -> Sound s -> clientOk client ->
    (HandleMessage rnd hub s client msg = Panicked ->
     Msg_Type msg = MsgJoinTable /\ Phase s <> PhaseLobby
     /\ exists seat, Msg_SeatIndex msg = Some seat /\ (seat < 0 \/ 3 < seat))
    /\ forall s', recordAfter (HandleMessage rnd hub s client msg) = Some s' -> Sound s'.
Proof.
  intros rnd hub s client msg HI H Hc. unfold clientOk in Hc.
  assert (Hok : forall o : Outcome,
             (o <> Panicked /\ forall s', recordAfter o = Some s' -> Sound s') ->
             (o = Panicked ->
              Msg_Type msg = MsgJoinTable /\ Phase s <> PhaseLobby
              /\ exists seat, Msg_SeatIndex msg = Some seat /\ (seat < 0 \/ 3 < seat))
             /\ forall s', recordAfter o = Some s' -> Sound s').
  { intros o [Hn Hs]. split; [intro E; contradiction | exact Hs]. }
  assert (Hstay : forall e, Failed e s <> Panicked
                            /\ forall s', recordAfter (Failed e s) = Some s' -> Sound s').
  { intro e. split; [discriminate|]. intros s' E. injection E as <-. exact H. }
  assert (Hact : forall a,
             0 <= PlayerIndex a <= 3 ->
             ApplyAction rnd s a <> Panicked
             /\ forall s', recordAfter (ApplyAction rnd s a) = Some s' -> Sound s').
  { intros a Hv. apply ApplyAction_Sound; auto. }
  assert (Hseat : forall e a,
             PlayerIndex a = Client_SeatIndex client ->
             (if Client_SeatIndex client <? 0 then Failed e s else ApplyAction rnd s a)
             <> Panicked
             /\ forall s',
                 recordAfter (if Client_SeatIndex client <? 0 then Failed e s
                              else ApplyAction rnd s a) = Some s' -> Sound s').
  { intros e a Ha. destruct (Client_SeatIndex client <? 0) eqn:E; [apply Hstay|].
    apply Hact. rewrite Ha. lia. }
  unfold HandleMessage. destruct (Msg_Type msg) eqn:Etype.
  - (* join *)
    unfold handleJoinTable.
    destruct (Msg_SeatIndex msg) as [seatIndex|] eqn:Eseat; [|apply Hok, Hstay].
    assert (Hleft : exists e s1,
              Inv s1 /\ Sound s1 /\ Phase s1 = Phase s
              /\ ((if (Client_SeatIndex client >=? 0)
                      && negb (Client_SeatIndex client =? seatIndex)
                   then ApplyAction rnd s
                          (mkAction ActionLeaveSeat (Client_SeatIndex client) "" 0 "" ""
                                    None 0)
                   else Done s) = Done s1
                  \/ (if (Client_SeatIndex client >=? 0)
                         && negb (Client_SeatIndex client =? seatIndex)
                      then ApplyAction rnd s
                             (mkAction ActionLeaveSeat (Client_SeatIndex client) "" 0 "" ""
                                       None 0)
                      else Done s) = Failed e s1)).
    { destruct ((Client_SeatIndex client >=? 0)
                && negb (Client_SeatIndex client =? seatIndex)) eqn:Econd.
      - apply andb_true_iff in Econd. destruct Econd as [Ege _].
        match goal with
        | |- context [ApplyAction rnd s ?a] =>
            destruct (Hact a ltac:(simpl; lia)) as [Hn Hs];
              pose proof (@ApplyAction_Inv rnd s a) as HA;
              pose proof (@applyLeaveSeat_Phase s a) as HP;
              change (ApplyAction rnd s a) with (applyLeaveSeat s a) in *;
              destruct (applyLeaveSeat s a) as [s1|e s1|] eqn:EL; [| |contradiction]
        end.
        + exists ErrInvalidAction, s1.
          split; [apply HA; [exact HI | discriminate | reflexivity]|].
          split; [apply Hs; reflexivity|]. split; [apply HP; reflexivity|]. auto.
        + exists e, s1.
          split; [apply HA; [exact HI | discriminate | reflexivity]|].
          split; [apply Hs; reflexivity|]. split; [apply HP; reflexivity|]. auto.
      - exists ErrInvalidAction, s. auto. }
    destruct Hleft as (e & s1 & HI1 & H1 & Hp1 & [-> | ->]);
      [|apply Hok; split; [discriminate|]; intros s' E; injection E as <-; exact H1].
    destruct (negb (Phase_eqb (Phase s1) PhaseLobby)) eqn:Elobby.
    + apply negb_true_iff in Elobby.
      assert (Hnl : Phase s <> PhaseLobby).
      { rewrite <- Hp1. intro El. rewrite El in Elobby. discriminate. }
      destruct (get4 seatIndex (Players s1)) as [[player|]|] eqn:Eg.
      * apply Hok.
        destruct (negb (String.eqb (Name player) "") && Connected player);
          [split; [discriminate | intros s' E; injection E as <-; exact H1]|].
        pose proof (@get4_valid _ _ _ _ Eg) as Hr.
        match goal with
        | |- context [setPlayer seatIndex ?q s1] =>
            destruct (@setPlayer_valid seatIndex q s1 ltac:(lia)) as (ps & Hps & Hsp);
              rewrite Hsp
        end.
        split; [discriminate|]. intros s' E. injection E as <-.
        eapply Sound_set_seat; eauto.
      * apply Hok. split; [discriminate|]. intros s' E. injection E as <-. exact H1.
      * split; [|discriminate]. intros _. split; [reflexivity|]. split; [exact Hnl|].
        exists seatIndex. split; [reflexivity|].
        destruct (Z_lt_dec seatIndex 0) as [|Hge]; [left; assumption|].
        destruct (Z_lt_dec 3 seatIndex) as [|Hle]; [right; assumption|].
        destruct (@get4_in_range _ seatIndex (Players s1) ltac:(lia)) as [v Hv].
        congruence.
    + apply Hok. apply ApplyAction_Sound; auto. simpl. congruence.
  - apply Hok. unfold handleLeaveSeat. apply Hseat. reflexivity.
  - apply Hok. unfold handleChangeName. apply Hseat. reflexivity.
  - apply Hok. unfold handleKickPlayer.
    destruct (Msg_SeatIndex msg) as [targetSeat|].
    + apply Hseat. reflexivity.
    + destruct (Client_SeatIndex client <? 0); apply Hstay.
  - apply Hok. unfold handleTransferHouse.
    destruct (Msg_SeatIndex msg) as [targetSeat|].
    + apply Hseat. reflexivity.
    + destruct (Client_SeatIndex client <? 0); apply Hstay.
  - apply Hok. unfold handleStartGame. apply Hact. simpl. lia.
  - apply Hok. unfold handlePlaceBid. apply Hseat. reflexivity.
  - apply Hok. unfold handleSelectTrump. apply Hseat. reflexivity.
  - apply Hok. unfold handleTakeKitty. apply Hseat. reflexivity.
  - apply Hok. unfold handleDiscard. apply Hseat. reflexivity.
  - apply Hok. unfold handleDiscardDraw. apply Hseat. reflexivity.
  - apply Hok. unfold handlePlayCard.
    destruct (Client_SeatIndex client <? 0) eqn:E; [apply Hstay|].
    match goal with
    | |- context [ApplyAction rnd s ?a] =>
        destruct (Hact a ltac:(simpl; lia)) as [Hn Hs];
          destruct (ApplyAction rnd s a) as [s1|e s1|]; [| |contradiction]
    end.
    + destruct (Phase_eqb (Phase s1) PhaseScoring) eqn:Ep.
      * apply Phase_eqb_eq in Ep. apply handleScoring_Sound; auto.
      * split; [discriminate|]. intros s' E'. injection E' as <-. apply Hs. reflexivity.
    + split; [discriminate|]. exact Hs.
  - apply Hok. unfold handleRejoin. apply rejoinScan_Sound; auto.
    repeat constructor; lia.
  - apply Hok. apply handleNewHand_Sound; auto.
  - apply Hok. unfold handleResetGame. apply Hseat. reflexivity.
  - apply Hok. apply Hstay.
Qed.

Lemma reachable_Sound : forall s, reachable s -> Sound s.
Proof.
  intros s H. induction H.
  - apply Sound_NewGameState.
  - pose proof (reachable_Inv H) as HI.
    destruct (@HandleMessage_Sound rnd hub s client msg HI IHreachable H0) as [_ Hs].
    apply Hs. assumption.
  - apply HandleDisconnect_Sound. assumption.
Qed.

(* ================================================================== *)
(** * The later tables are reachable *)

Lemma biddingTable_reachable : reachable biddingTable.
Proof.
  apply runMessages_reachable
    with (msgs := [(clientAt 0, Message0 MsgStartGame);
                   (clientAt 1, bidMsg 2); (clientAt 2, bidMsg 3)])
         (s := seatedTable).
  - apply seatedTable_reachable.
  - clients_ok.
  - vm_compute. reflexivity.
Qed.

Lemma discardTable_reachable : reachable discardTable.
Proof.
  apply runMessages_reachable
    with (msgs := [(clientAt 0, discardMsg [])]) (s := trumpChosenTable).
  - apply trumpChosenTable_reachable.
  - clients_ok.
  - vm_compute. reflexivity.
Qed.

Lemma playingTable_reachable : reachable playingTable.
Proof.
  apply runMessages_reachable
    with (msgs := [(clientAt 1, discardDrawMsg []); (clientAt 2, discardDrawMsg []);
                   (clientAt 3, discardDrawMsg [])])
         (s := discardTable).
  - apply discardTable_reachable.
  - clients_ok.
  - vm_compute. reflexivity.
Qed.

Lemma secondTrickTable_reachable : reachable secondTrickTable.
Proof.
  apply runMessages_reachable
    with (msgs := [(clientAt 0, playCardMsg "2_spades"); (clientAt 1, playCardMsg "8_spades");
                   (clientAt 2, playCardMsg "ace_spades"); (clientAt 3, playCardMsg "7_hearts");
                   (clientAt 2, playCardMsg "2_hearts")])
         (s := playingTable).
  - apply playingTable_reachable.
  - clients_ok.
  - vm_compute. reflexivity.
Qed.

Lemma handOverTable_reachable : reachable handOverTable.
Proof.
  apply runMessages_reachable
    with (msgs :=
            [(clientAt 3, playCardMsg "8_hearts"); (clientAt 0, playCardMsg "3_spades");
             (clientAt 1, playCardMsg "9_spades");
             (clientAt 1, playCardMsg "10_spades"); (clientAt 2, playCardMsg "3_hearts");
             (clientAt 3, playCardMsg "9_hearts"); (clientAt 0, playCardMsg "4_spades");
             (clientAt 1, playCardMsg "jack_spades"); (clientAt 2, playCardMsg "4_hearts");
             (clientAt 3, playCardMsg "10_hearts"); (clientAt 0, playCardMsg "5_spades");
             (clientAt 1, playCardMsg "queen_spades"); (clientAt 2, playCardMsg "5_hearts");
             (clientAt 3, playCardMsg "jack_hearts"); (clientAt 0, playCardMsg "6_spades");
             (clientAt 1, playCardMsg "king_spades"); (clientAt 2, playCardMsg "6_hearts");
             (clientAt 3, playCardMsg "queen_hearts"); (clientAt 0, playCardMsg "7_spades")])
         (s := secondTrickTable).
  - apply secondTrickTable_reachable.
  - clients_ok.
  - vm_compute. reflexivity.
Qed.

(* ================================================================== *)
(** * The course of a hand, on every reachable record *)

(** X21: On every reachable record the player in seat [i] carries the
    seat index [i]; once a game has started all four seats hold a player;
    the house is a seat or -1; and the teams are seats 0 and 2 against
    seats 1 and 3. *)
Theorem seats_match_players :
  forall s,
    reachable s ->
    (forall i p, get4 i (Players s) = Some (Some p) -> SeatIndex p = i)
    /\ (Phase s <> PhaseLobby ->
        forall i, 0 <= i <= 3 -> exists p, get4 i (Players s) = Some (Some p))
    /\ -1 <= House s <= 3
    /\ exists t0 t1, Teams s = mkArr2 (Some t0) (Some t1)
                     /\ PlayerIndices t0 = [0; 2] /\ PlayerIndices t1 = [1; 3].
Proof.
  intros s Hr. pose proof (reachable_Sound Hr) as H. sound_parts H.
  split; [|split; [|split; [exact Shouse | exact Steams]]].
  - intros i p Hg. apply Sseat. rewrite get4_seatsOf, Hg. reflexivity.
  - intros Hnl i Hi. apply seatsOf_full_get; auto.
Qed.

Lemma seats_match_players_witness :
  (forall i p, get4 i (Players secondTrickTable) = Some (Some p) -> SeatIndex p = i)
  /\ (Phase secondTrickTable <> PhaseLobby ->
      forall i, 0 <= i <= 3 -> exists p, get4 i (Players secondTrickTable) = Some (Some p))
  /\ -1 <= House secondTrickTable <= 3
  /\ exists t0 t1, Teams secondTrickTable = mkArr2 (Some t0) (Some t1)
                   /\ PlayerIndices t0 = [0; 2] /\ PlayerIndices t1 = [1; 3].
Proof.
  apply (@seats_match_players secondTrickTable). apply secondTrickTable_reachable.
Defined.

(** X22: The bids of a hand are recorded in seat order, starting with
    the seat after the dealer, and every bid that is not a pass is higher
    than all the bids before it. *)
Theorem bids_in_seat_order_and_rising :
  forall s,
    reachable s ->
    seatOrder (Dealer s + 1) (map Bid_PlayerIndex (Bids s))
    /\ forall l1 b l2, Bids s = l1 ++ b :: l2 -> Amount b <> 0 ->
         forall b', In b' l1 -> Amount b' < Amount b.
Proof.
  intros s Hr. pose proof (reachable_Sound Hr) as H. sound_parts H. auto.
Qed.

Lemma bids_in_seat_order_and_rising_witness :
  seatOrder (Dealer biddingTable + 1) (map Bid_PlayerIndex (Bids biddingTable))
  /\ forall l1 b l2, Bids biddingTable = l1 ++ b :: l2 -> Amount b <> 0 ->
       forall b', In b' l1 -> Amount b' < Amount b.
Proof.
  apply (@bids_in_seat_order_and_rising biddingTable). apply biddingTable_reachable.
Defined.

(** X23: After the bidding of a hand all four seats have bid, the
    winning bid is between 2 and 6, it is the bid of the bid winner as
    recorded, and no bid is higher. *)
Theorem bid_winner_holds_highest_bid :
  forall s,
    reachable s -> postBid (Phase s) = true ->
    len (Bids s) = 4
    /\ 2 <= WinningBid s <= 6 /\ 0 <= BidWinner s <= 3
    /\ In (mkBid (BidWinner s) (WinningBid s)) (Bids s)
    /\ forall b, In b (Bids s) -> Amount b <= WinningBid s.
Proof.
  intros s Hr Hp. pose proof (reachable_Sound Hr) as H. sound_parts H. auto.
Qed.

Lemma bid_winner_holds_highest_bid_witness :
  len (Bids playingTable) = 4
  /\ 2 <= WinningBid playingTable <= 6 /\ 0 <= BidWinner playingTable <= 3
  /\ In (mkBid (BidWinner playingTable) (WinningBid playingTable)) (Bids playingTable)
  /\ forall b, In b (Bids playingTable) -> Amount b <= WinningBid playingTable.
Proof.
  apply (@bid_winner_holds_highest_bid playingTable).
  - apply playingTable_reachable.
  - reflexivity.
Defined.

(** X24: In the discard phase trump is chosen and the kitty is gone, the
    bid winner has completed the discard, and the seat whose turn it is
    has not. *)
Theorem discard_phase_turns :
  forall s,
    reachable s -> Phase s = PhaseDiscard ->
    Trump s <> None /\ Kitty s = []
    /\ get4 (BidWinner s) (DiscardComplete s) = Some true
    /\ get4 (CurrentPlayer s) (DiscardComplete s) = Some false.
Proof.
  intros s Hr Hp. pose proof (reachable_Sound Hr) as H. sound_parts H.
  destruct (Dturn Hp) as [Hcur Hwin].
  split; [|split; [|split; [exact Hwin | exact Hcur]]].
  - apply Dtrump. rewrite Hp. reflexivity.
  - apply Dkitty; rewrite Hp; discriminate.
Qed.

Lemma discard_phase_turns_witness :
  Trump discardTable <> None /\ Kitty discardTable = []
  /\ get4 (BidWinner discardTable) (DiscardComplete discardTable) = Some true
  /\ get4 (CurrentPlayer discardTable) (DiscardComplete discardTable) = Some false.
Proof.
  apply (@discard_phase_turns discardTable).
  - apply discardTable_reachable.
  - reflexivity.
Defined.

(** X25: While a hand is played there is an open trick with at most
    three cards, played in seat order from the leader of the trick, and
    the turn is with the seat after the last card; trump is chosen and at
    most five tricks are complete. *)
Theorem open_trick_follows_seats :
  forall s,
    reachable s -> Phase s = PhasePlaying ->
    Trump s <> None /\ TricksPlayed s <= 5
    /\ exists trick,
         CurrentTrick s = Some trick
         /\ len (Cards trick) <= 3 /\ 0 <= Leader trick <= 3
         /\ seatOrder (Leader trick) (map TC_PlayerIndex (Cards trick))
         /\ CurrentPlayer s = (Leader trick + len (Cards trick)) mod 4.
Proof.
  intros s Hr Hp. pose proof (reachable_Sound Hr) as H. sound_parts H.
  split; [|split; [exact (Tplaying Hp) | exact (Ttrick Hp)]].
  apply Dtrump. rewrite Hp. reflexivity.
Qed.

Lemma open_trick_follows_seats_witness :
  Trump secondTrickTable <> None /\ TricksPlayed secondTrickTable <= 5
  /\ exists trick,
       CurrentTrick secondTrickTable = Some trick
       /\ len (Cards trick) <= 3 /\ 0 <= Leader trick <= 3
       /\ seatOrder (Leader trick) (map TC_PlayerIndex (Cards trick))
       /\ CurrentPlayer secondTrickTable = (Leader trick + len (Cards trick)) mod 4.
Proof.
  apply (@open_trick_follows_seats secondTrickTable).
  - apply secondTrickTable_reachable.
  - reflexivity.
Defined.

(** X26: [TricksPlayed] counts the completed tricks of the hand: none
    before play begins and six once the hand is scored.  Every completed
    trick has four cards, played in seat order from some seat, and its
    winner is one of the four seats that played; and the pile of cards
    won by a team is exactly the cards of the tricks its seats won, in
    the order of play. *)
Theorem completed_tricks_and_piles :
  forall s,
    reachable s ->
    TricksPlayed s = len (CompletedTricks s)
    /\ (Phase s = PhaseBidding \/ Phase s = PhaseKitty \/ Phase s = PhaseDiscard ->
        TricksPlayed s = 0)
    /\ (Phase s = PhaseScoring \/ Phase s = PhaseFinished -> TricksPlayed s = 6)
    /\ (forall ct, In ct (CompletedTricks s) ->
          len (CT_Cards ct) = 4
          /\ (exists leader, 0 <= leader <= 3
                             /\ seatOrder leader (map TC_PlayerIndex (CT_Cards ct)))
          /\ exists tc, In tc (CT_Cards ct) /\ CT_Winner ct = TC_PlayerIndex tc)
    /\ CardsWon s = mkArr2 (wonBy 0 (CompletedTricks s)) (wonBy 1 (CompletedTricks s)).
Proof.
  intros s Hr. pose proof (reachable_Sound Hr) as H. sound_parts H.
  split; [exact Tcount|]. split; [exact Tearly|]. split; [exact Tover|].
  split; [exact Tdone | exact Tpiles].
Qed.

Lemma completed_tricks_and_piles_witness :
  TricksPlayed handOverTable = len (CompletedTricks handOverTable)
  /\ (Phase handOverTable = PhaseBidding \/ Phase handOverTable = PhaseKitty
      \/ Phase handOverTable = PhaseDiscard -> TricksPlayed handOverTable = 0)
  /\ (Phase handOverTable = PhaseScoring \/ Phase handOverTable = PhaseFinished ->
      TricksPlayed handOverTable = 6)
  /\ (forall ct, In ct (CompletedTricks handOverTable) ->
        len (CT_Cards ct) = 4
        /\ (exists leader, 0 <= leader <= 3
                           /\ seatOrder leader (map TC_PlayerIndex (CT_Cards ct)))
        /\ exists tc, In tc (CT_Cards ct) /\ CT_Winner ct = TC_PlayerIndex tc)
  /\ CardsWon handOverTable
     = mkArr2 (wonBy 0 (CompletedTricks handOverTable))
              (wonBy 1 (CompletedTricks handOverTable)).
Proof.
  apply (@completed_tricks_and_piles handOverTable). apply handOverTable_reachable.
Defined.

(** X27: During the bidding every seat holds six cards, the kitty holds
    six and the deck the other twenty-two. *)
Theorem bidding_hand_sizes :
  forall s,
    reachable s -> Phase s = PhaseBidding ->
    handSizes s = [6; 6; 6; 6] /\ len (Kitty s) = 6 /\ len (deckOf s) = 22.
Proof.
  intros s Hr Hp. pose proof (reachable_Sound Hr) as H. sound_parts H. auto.
Qed.

Lemma bidding_hand_sizes_witness :
  handSizes biddingTable = [6; 6; 6; 6] /\ len (Kitty biddingTable) = 6
  /\ len (deckOf biddingTable) = 22.
Proof.
  apply (@bidding_hand_sizes biddingTable).
  - apply biddingTable_reachable.
  - reflexivity.
Defined.

(* ================================================================== *)
(** * The connection registry *)

Lemma in_seats_range : forall i, (i >=? 0) && (i <? 4) = true <-> 0 <= i <= 3.
Proof. intro i. rewrite andb_true_iff. lia. Qed.

Lemma get4_setSeat_same :
  forall i v seats, 0 <= i <= 3 -> get4 i (setSeat i v seats) = Some v.
Proof.
  intros i v seats Hi. unfold setSeat.
  rewrite (proj2 (in_seats_range i) Hi).
  destruct (@set4_valid _ i v seats Hi) as [seats' Hs]. rewrite Hs.
  exact (get4_set4_same _ _ _ Hs).
Qed.

Lemma get4_setSeat_other :
  forall i j v seats, j <> i -> get4 j (setSeat i v seats) = get4 j seats.
Proof.
  intros i j v seats Hne. unfold setSeat.
  destruct ((i >=? 0) && (i <? 4)); [|reflexivity].
  destruct (set4 i v seats) as [seats'|] eqn:Hs; [|reflexivity].
  apply (get4_set4_other _ _ Hs). congruence.
Qed.

(** A seat that still names a client after seat [i] was cleared is
    another seat. *)
Lemma get4_cleared :
  forall i j seats (c : nat),
    get4 j (setSeat i None seats) = Some (Some c) ->
    j <> i /\ get4 j seats = Some (Some c).
Proof.
  intros i j seats c Hg.
  destruct (Z.eq_dec j i) as [-> | Hne].
  - pose proof (@get4_valid _ _ _ _ Hg) as Hi.
    rewrite get4_setSeat_same in Hg by exact Hi. discriminate.
  - rewrite get4_setSeat_other in Hg by exact Hne. auto.
Qed.

Lemma HubOK_SeatClient :
  forall h c seatIndex,
    HubOK h -> (c < Hub_Next h)%nat -> 0 <= seatIndex <= 3 ->
    HubOK (SeatClient h c seatIndex).
Proof.
  intros h c seatIndex [Hc Hs] Hlt Hi. split; simpl.
  - intros c' Hc'. unfold setSeatIndex. destruct (Nat.eqb c' c); [|auto].
    unfold clientOk. simpl. lia.
  - intros i c' Hg. unfold setSeatIndex.
    destruct (Z.eq_dec i seatIndex) as [-> | Hne].
    + rewrite get4_setSeat_same in Hg by exact Hi. injection Hg as <-.
      rewrite Nat.eqb_refl. simpl. auto.
    + rewrite get4_setSeat_other in Hg by exact Hne.
      apply get4_cleared in Hg. destruct Hg as [Hold Hg].
      destruct (Hs _ _ Hg) as [Hlt' Hsi]. split; [exact Hlt'|].
      destruct (Nat.eqb c' c) eqn:E; [|exact Hsi].
      apply Nat.eqb_eq in E. subst c'. congruence.
Qed.

Lemma HubOK_UnseatClient :
  forall h c, HubOK h -> HubOK (UnseatClient h c).
Proof.
  intros h c [Hc Hs]. split; simpl.
  - intros c' Hc'. unfold setSeatIndex. destruct (Nat.eqb c' c); [|auto].
    unfold clientOk. simpl. lia.
  - intros i c' Hg. unfold setSeatIndex.
    apply get4_cleared in Hg. destruct Hg as [Hold Hg].
    destruct (Hs _ _ Hg) as [Hlt' Hsi]. split; [exact Hlt'|].
    destruct (Nat.eqb c' c) eqn:E; [|exact Hsi].
    apply Nat.eqb_eq in E. subst c'. congruence.
Qed.

Lemma HubOK_setToken :
  forall h c tok, HubOK h -> HubOK (setToken c tok h).
Proof.
  intros h c tok [Hc Hs]. split; simpl.
  - intros c' Hc'. destruct (Nat.eqb c' c); [|auto].
    specialize (Hc c' Hc'). unfold clientOk in *. simpl. exact Hc.
  - intros i c' Hg. destruct (Hs _ _ Hg) as [Hlt Hsi]. split; [exact Hlt|].
    destruct (Nat.eqb c' c); [simpl|]; exact Hsi.
Qed.

Lemma HubOK_connectClient : forall h, HubOK h -> HubOK (connectClient h).
Proof.
  intros h [Hc Hs]. split; simpl.
  - intros c' Hc'. destruct (Nat.eqb c' (Hub_Next h)) eqn:E.
    + unfold clientOk. simpl. lia.
    + apply Nat.eqb_neq in E. apply Hc. lia.
  - intros i c' Hg. destruct (Hs _ _ Hg) as [Hlt Hsi]. split; [lia|].
    destruct (Nat.eqb c' (Hub_Next h)) eqn:E; [|exact Hsi].
    apply Nat.eqb_eq in E. lia.
Qed.

Lemma HubOK_unregisterClient :
  forall h c, HubOK h -> HubOK (unregisterClient h c).
Proof.
  intros h c [Hc Hs]. unfold unregisterClient.
  destruct (existsb (Nat.eqb c) (Hub_Clients h)); [|split; assumption].
  split; simpl; [exact Hc|].
  intros i c' Hg. apply get4_cleared in Hg. destruct Hg as [_ Hg]. auto.
Qed.

Lemma HubOK_dropClient : forall h c, HubOK h -> HubOK (dropClient h c).
Proof. intros h c [Hc Hs]. split; simpl; assumption. Qed.

Lemma HubOK_NewHub : HubOK NewHub.
Proof.
  split; simpl.
  - intros c Hc. lia.
  - intros i c Hg. pose proof (@get4_valid _ _ _ _ Hg) as Hi.
    destruct (valid_cases Hi) as [-> | [-> | [-> | ->]]]; discriminate.
Qed.

(** ** The game record of the server is the one of [HandleMessage] *)

Lemma applyJoinSeat_Done_seat :
  forall rnd s a s',
    applyJoinSeat rnd s a = Done s' ->
    get4 (PlayerIndex a) (Players s')
    = Some (Some (mkPlayer (PlayerName a) (PlayerIndex a) [] (GenerateSessionToken rnd) true)).
Proof.
  intros rnd s a s' H. unfold applyJoinSeat in H.
  destruct (negb (Phase_eqb (Phase s) PhaseLobby)); [discriminate|].
  destruct ((PlayerIndex a <? 0) || (PlayerIndex a >? 3)); [discriminate|].
  destruct (get4 (PlayerIndex a) (Players s)) as [[p|]|]; try discriminate.
  destruct (setPlayer _ _ s) as [s1|] eqn:E1; [|discriminate].
  apply setPlayer_eq in E1. destruct E1 as (ps & Hps & ->).
  pose proof (get4_set4_same _ _ _ Hps) as Hg.
  destruct (House s =? -1); injection H as <-; simpl; exact Hg.
Qed.

Lemma serveRejoinScan_game :
  forall seats gs c tok,
    gameOutcome (serveRejoinScan seats gs c tok) = rejoinScan seats tok (Srv_State gs).
Proof.
  induction seats as [|i rest IH]; intros gs c tok; simpl; [reflexivity|].
  destruct (get4 i (Players (Srv_State gs))) as [[p|]|]; auto.
  destruct (String.eqb (SessionToken p) tok); auto.
  destruct (setPlayer i _ (Srv_State gs)); reflexivity.
Qed.

Lemma takeSeat_game :
  forall rnd gs c msg seatIndex,
    gameOutcome (takeSeat rnd gs c msg seatIndex)
    = (let state := Srv_State gs in
       if negb (Phase_eqb (Phase state) PhaseLobby) then
         match get4 seatIndex (Players state) with
         | Some seat =>
             match seat with
             | None => Failed ErrInvalidAction state
             | Some player =>
                 if negb (String.eqb (Name player) "") && Connected player
                 then Failed ErrSeatTaken state
                 else
                   match setPlayer seatIndex
                           (set_SessionToken (GenerateSessionToken rnd)
                              (set_Connected true (set_Name (Msg_PlayerName msg) player)))
                           state with
                   | Some state => Done state
                   | None => Panicked
                   end
             end
         | None => Panicked
         end
       else
         ApplyAction rnd state
           (mkAction ActionJoinSeat seatIndex (Msg_PlayerName msg) 0 "" "" None 0)).
Proof.
  intros rnd gs c msg seatIndex. unfold takeSeat. cbv zeta.
  destruct (negb (Phase_eqb (Phase (Srv_State gs)) PhaseLobby)).
  - destruct (get4 seatIndex (Players (Srv_State gs))) as [[player|]|]; try reflexivity.
    destruct (negb (String.eqb (Name player) "") && Connected player); [reflexivity|].
    destruct (setPlayer seatIndex _ (Srv_State gs)); reflexivity.
  - match goal with
    | |- context [ApplyAction rnd ?s1 ?a] =>
        pose proof (@applyJoinSeat_Done_seat rnd s1 a) as HJ;
          change (ApplyAction rnd s1 a) with (applyJoinSeat rnd s1 a) in *;
          destruct (applyJoinSeat rnd s1 a) as [s2|e s2|]; try reflexivity
    end.
    simpl in HJ. rewrite (HJ s2 eq_refl). reflexivity.
Qed.

Lemma serveMessage_game :
  forall rnd gs c msg,
    gameOutcome (serveMessage rnd gs c msg)
    = HandleMessage rnd (hubSeats (Srv_Hub gs)) (Srv_State gs)
                    (Hub_Heap (Srv_Hub gs) c) msg.
Proof.
  intros rnd gs c msg. unfold serveMessage, HandleMessage.
  assert (Hon : forall hub o, gameOutcome (onState hub o) = o)
    by (intros hub [s|e s|]; reflexivity).
  destruct (Msg_Type msg); try apply Hon.
  - (* join *)
    unfold serveJoinTable, handleJoinTable.
    destruct (Msg_SeatIndex msg) as [seatIndex|]; [|reflexivity].
    set (client := Hub_Heap (Srv_Hub gs) c).
    destruct ((Client_SeatIndex client >=? 0)
              && negb (Client_SeatIndex client =? seatIndex)).
    + destruct (ApplyAction rnd (Srv_State gs) _) as [s1|e s1|]; try reflexivity.
      apply takeSeat_game.
    + apply takeSeat_game.
  - (* leave *)
    unfold serveLeaveSeat, handleLeaveSeat.
    destruct (Client_SeatIndex (Hub_Heap (Srv_Hub gs) c) <? 0); [reflexivity|].
    destruct (ApplyAction rnd (Srv_State gs) _); reflexivity.
  - (* kick *)
    unfold serveKickPlayer, handleKickPlayer.
    destruct (Client_SeatIndex (Hub_Heap (Srv_Hub gs) c) <? 0); [reflexivity|].
    destruct (Msg_SeatIndex msg) as [targetSeat|]; [|reflexivity].
    destruct (ApplyAction rnd (Srv_State gs) _); reflexivity.
  - (* rejoin *)
    unfold serveRejoin, handleRejoin. apply serveRejoinScan_game.
Qed.

(** ** What a message does to the hub *)

Lemma serveRejoinScan_HubOK :
  forall seats gs c tok err gs',
    HubOK (Srv_Hub gs) -> (c < Hub_Next (Srv_Hub gs))%nat ->
    Forall (fun i => 0 <= i <= 3) seats ->
    serveRejoinScan seats gs c tok = Replied err gs' ->
    HubOK (Srv_Hub gs') /\ Hub_Next (Srv_Hub gs') = Hub_Next (Srv_Hub gs).
Proof.
  induction seats as [|i rest IH]; intros gs c tok err gs' Hok Hlt Hs H; simpl in H.
  - injection H as _ <-. auto.
  - inversion Hs as [|? ? Hi Hrest]; subst.
    destruct (get4 i (Players (Srv_State gs))) as [[p|]|]; eauto.
    destruct (String.eqb (SessionToken p) tok); eauto.
    destruct (setPlayer i _ (Srv_State gs)); [|discriminate].
    injection H as _ <-. simpl.
    split; [|reflexivity]. apply HubOK_setToken, HubOK_SeatClient; auto.
Qed.

Lemma takeSeat_HubOK :
  forall rnd gs c msg seatIndex err gs',
    HubOK (Srv_Hub gs) -> (c < Hub_Next (Srv_Hub gs))%nat ->
    takeSeat rnd gs c msg seatIndex = Replied err gs' ->
    HubOK (Srv_Hub gs') /\ Hub_Next (Srv_Hub gs') = Hub_Next (Srv_Hub gs).
Proof.
  intros rnd gs c msg seatIndex err gs' Hok Hlt E. unfold takeSeat in E. cbv zeta in E.
  destruct (negb (Phase_eqb (Phase (Srv_State gs)) PhaseLobby)).
  - destruct (get4 seatIndex (Players (Srv_State gs))) as [[player|]|] eqn:Eg;
      try discriminate; [|injection E as _ <-; auto].
    pose proof (@get4_valid _ _ _ _ Eg) as Hi.
    destruct (negb (String.eqb (Name player) "") && Connected player);
      [injection E as _ <-; auto|].
    destruct (setPlayer seatIndex _ (Srv_State gs)); [|discriminate].
    injection E as _ <-. simpl. split; [|reflexivity].
    apply HubOK_setToken, HubOK_SeatClient; auto.
  - destruct (ApplyAction rnd (Srv_State gs) _) as [s2|e s2|]; try discriminate;
      [|injection E as _ <-; auto].
    destruct (get4 seatIndex (Players s2)) as [[p|]|] eqn:Eg; try discriminate.
    pose proof (@get4_valid _ _ _ _ Eg) as Hi.
    injection E as _ <-. simpl. split; [|reflexivity].
    apply HubOK_setToken, HubOK_SeatClient; auto.
Qed.

Lemma serveMessage_HubOK :
  forall rnd gs c msg err gs',
    HubOK (Srv_Hub gs) -> (c < Hub_Next (Srv_Hub gs))%nat ->
    serveMessage rnd gs c msg = Replied err gs' ->
    HubOK (Srv_Hub gs') /\ Hub_Next (Srv_Hub gs') = Hub_Next (Srv_Hub gs).
Proof.
  intros rnd gs c msg err gs' Hok Hlt H. unfold serveMessage in H.
  assert (Hon : forall o, onState (Srv_Hub gs) o = Replied err gs' ->
                          HubOK (Srv_Hub gs') /\ Hub_Next (Srv_Hub gs') = Hub_Next (Srv_Hub gs)).
  { intros [s|e s|] E; simpl in E; try discriminate; injection E as _ <-; auto. }
  destruct (Msg_Type msg); try (eapply Hon; exact H).
  - (* join *)
    unfold serveJoinTable in H.
    destruct (Msg_SeatIndex msg) as [seatIndex|]; [|injection H as _ <-; auto].
    set (client := Hub_Heap (Srv_Hub gs) c) in *.
    destruct ((Client_SeatIndex client >=? 0)
              && negb (Client_SeatIndex client =? seatIndex)).
    + destruct (ApplyAction rnd (Srv_State gs) _) as [s1|e s1|]; try discriminate.
      * apply takeSeat_HubOK in H; [exact H | apply HubOK_UnseatClient; exact Hok | exact Hlt].
      * injection H as _ <-. auto.
    + apply takeSeat_HubOK in H; auto.
  - (* leave *)
    unfold serveLeaveSeat in H.
    destruct (Client_SeatIndex (Hub_Heap (Srv_Hub gs) c) <? 0); [injection H as _ <-; auto|].
    destruct (ApplyAction rnd (Srv_State gs) _); try discriminate;
      injection H as _ <-; simpl; auto.
    split; [apply HubOK_UnseatClient; exact Hok | reflexivity].
  - (* kick *)
    unfold serveKickPlayer in H.
    destruct (Client_SeatIndex (Hub_Heap (Srv_Hub gs) c) <? 0); [injection H as _ <-; auto|].
    destruct (Msg_SeatIndex msg) as [targetSeat|]; [|injection H as _ <-; auto].
    destruct (ApplyAction rnd (Srv_State gs) _); try discriminate;
      injection H as _ <-; simpl; auto.
    destruct (GetClientBySeat (Srv_Hub gs) targetSeat); auto.
    split; [apply HubOK_UnseatClient; exact Hok | reflexivity].
  - (* rejoin *)
    unfold serveRejoin in H.
    apply (@serveRejoinScan_HubOK [0; 1; 2; 3] gs c (Msg_Token msg) err gs' Hok Hlt);
      [|exact H].
    repeat (apply Forall_cons; [lia|]). apply Forall_nil.
Qed.

Lemma serverReachable_inv :
  forall gs, serverReachable gs -> HubOK (Srv_Hub gs) /\ reachable (Srv_State gs).
Proof.
  intros gs H. induction H as [targetScore | gs H [Hok Hr] | rnd gs c msg err gs' H [Hok Hr] Hlt E
                               | gs c H [Hok Hr] Hlt | gs c H [Hok Hr] Hlt]; simpl.
  - split; [apply HubOK_NewHub | apply reach_new].
  - split; [apply HubOK_connectClient; exact Hok | exact Hr].
  - split; [exact (proj1 (@serveMessage_HubOK rnd gs c msg err gs' Hok Hlt E))|].
    apply reach_message
      with rnd (hubSeats (Srv_Hub gs)) (Hub_Heap (Srv_Hub gs) c) msg (Srv_State gs).
    + exact Hr.
    + apply (proj1 Hok). exact Hlt.
    + rewrite <- serveMessage_game, E. destruct err; reflexivity.
  - split; [apply HubOK_unregisterClient; exact Hok | exact Hr].
  - split; [apply HubOK_dropClient; exact Hok | exact Hr].
Qed.

Lemma oneSeatedServer_reachable : serverReachable oneSeatedServer.
Proof.
  apply server_message with rnd0 connectedServer 0%nat (joinMsg 0) (@None Error).
  - apply (server_connect (server_new 52)).
  - simpl. lia.
  - reflexivity.
Qed.

Lemma GetClientBySeat_get :
  forall h i c, GetClientBySeat h i = Some c -> get4 i (Hub_Seats h) = Some (Some c).
Proof.
  intros h i c H. unfold GetClientBySeat in H.
  destruct ((i >=? 0) && (i <? 4)); [|discriminate].
  destruct (get4 i (Hub_Seats h)) as [[c'|]|]; congruence.
Qed.

(** X28: On every server the process reaches, the game record is one of
    the reachable records, every client that connected has seat index -1
    or a seat 0..3, the client the hub has registered at a seat has that
    seat as its seat index, and so no client is registered at two
    seats. *)
Theorem server_registry_consistent :
  forall gs,
    serverReachable gs ->
    reachable (Srv_State gs)
    /\ (forall c, (c < Hub_Next (Srv_Hub gs))%nat ->
          -1 <= Client_SeatIndex (Hub_Heap (Srv_Hub gs) c) <= 3)
    /\ (forall i c, GetClientBySeat (Srv_Hub gs) i = Some c ->
          Client_SeatIndex (Hub_Heap (Srv_Hub gs) c) = i)
    /\ (forall i j c, GetClientBySeat (Srv_Hub gs) i = Some c ->
          GetClientBySeat (Srv_Hub gs) j = Some c -> i = j).
Proof.
  intros gs H. destruct (serverReachable_inv H) as [[Hc Hs] Hr].
  split; [exact Hr|]. split; [exact Hc|].
  assert (Hseat : forall i c, GetClientBySeat (Srv_Hub gs) i = Some c ->
                              Client_SeatIndex (Hub_Heap (Srv_Hub gs) c) = i).
  { intros i c Hg. apply GetClientBySeat_get in Hg. apply (Hs _ _ Hg). }
  split; [exact Hseat|].
  intros i j c Hi Hj. rewrite <- (Hseat _ _ Hi), <- (Hseat _ _ Hj). reflexivity.
Qed.

Lemma server_registry_consistent_witness :
  reachable (Srv_State oneSeatedServer)
  /\ (forall c, (c < Hub_Next (Srv_Hub oneSeatedServer))%nat ->
        -1 <= Client_SeatIndex (Hub_Heap (Srv_Hub oneSeatedServer) c) <= 3)
  /\ (forall i c, GetClientBySeat (Srv_Hub oneSeatedServer) i = Some c ->
        Client_SeatIndex (Hub_Heap (Srv_Hub oneSeatedServer) c) = i)
  /\ (forall i j c, GetClientBySeat (Srv_Hub oneSeatedServer) i = Some c ->
        GetClientBySeat (Srv_Hub oneSeatedServer) j = Some c -> i = j).
Proof.
  apply (@server_registry_consistent oneSeatedServer). apply oneSeatedServer_reachable.
Defined.

Lemma seated_with_token :
  forall h c seat tok,
    0 <= seat <= 3 ->
    GetClientBySeat (setToken c tok (SeatClient h c seat)) seat = Some c
    /\ Client_SeatIndex (Hub_Heap (setToken c tok (SeatClient h c seat)) c) = seat
    /\ Client_Token (Hub_Heap (setToken c tok (SeatClient h c seat)) c) = tok.
Proof.
  intros h c seat tok Hi. unfold GetClientBySeat. simpl.
  rewrite (proj2 (in_seats_range seat) Hi), get4_setSeat_same by exact Hi.
  unfold setSeatIndex. rewrite Nat.eqb_refl. simpl. auto.
Qed.

Lemma takeSeat_registers :
  forall rnd gs c msg seat gs',
    takeSeat rnd gs c msg seat = Replied None gs' ->
    exists p,
      GetClientBySeat (Srv_Hub gs') seat = Some c
      /\ Client_SeatIndex (Hub_Heap (Srv_Hub gs') c) = seat
      /\ get4 seat (Players (Srv_State gs')) = Some (Some p)
      /\ Client_Token (Hub_Heap (Srv_Hub gs') c) = SessionToken p
      /\ SessionToken p = GenerateSessionToken rnd
      /\ Name p = Msg_PlayerName msg /\ Connected p = true.
Proof.
  intros rnd gs c msg seat gs' E. unfold takeSeat in E. cbv zeta in E.
  destruct (negb (Phase_eqb (Phase (Srv_State gs)) PhaseLobby)).
  - destruct (get4 seat (Players (Srv_State gs))) as [[player|]|] eqn:Eg;
      try discriminate.
    pose proof (@get4_valid _ _ _ _ Eg) as Hi.
    destruct (negb (String.eqb (Name player) "") && Connected player); [discriminate|].
    destruct (setPlayer seat _ (Srv_State gs)) as [s1|] eqn:E1; [|discriminate].
    apply setPlayer_eq in E1. destruct E1 as (ps & Hps & ->).
    injection E as <-. simpl Srv_Hub. simpl Srv_State.
    destruct (@seated_with_token (Srv_Hub gs) c seat (GenerateSessionToken rnd) Hi)
      as (G1 & G2 & G3).
    eexists. split; [exact G1|]. split; [exact G2|].
    split; [simpl; exact (get4_set4_same _ _ _ Hps)|].
    split; [exact G3|]. simpl. auto.
  - match type of E with
    | context [ApplyAction rnd ?s1 ?a] =>
        pose proof (@applyJoinSeat_Done_seat rnd s1 a) as HJ;
          change (ApplyAction rnd s1 a) with (applyJoinSeat rnd s1 a) in *;
          destruct (applyJoinSeat rnd s1 a) as [s2|e s2|]; try discriminate
    end.
    simpl in HJ. specialize (HJ s2 eq_refl). rewrite HJ in E.
    pose proof (@get4_valid _ _ _ _ HJ) as Hi.
    injection E as <-. simpl Srv_Hub. simpl Srv_State.
    destruct (@seated_with_token (Srv_Hub gs) c seat (GenerateSessionToken rnd) Hi)
      as (G1 & G2 & G3).
    eexists. split; [exact G1|]. split; [exact G2|].
    split; [exact HJ|]. split; [exact G3|]. simpl. auto.
Qed.

(** X29: A join that the server accepts, in the lobby or as a take-over
    in the middle of a game, registers the sending client at the seat it
    asked for, and hands it the fresh session token of the player record
    at that seat, which carries the requested name and is connected. *)
Theorem join_registers_client :
  forall rnd gs c msg gs',
    Msg_Type msg = MsgJoinTable ->
    serveMessage rnd gs c msg = Replied None gs' ->
    exists seat p,
      Msg_SeatIndex msg = Some seat
      /\ GetClientBySeat (Srv_Hub gs') seat = Some c
      /\ Client_SeatIndex (Hub_Heap (Srv_Hub gs') c) = seat
      /\ get4 seat (Players (Srv_State gs')) = Some (Some p)
      /\ Client_Token (Hub_Heap (Srv_Hub gs') c) = SessionToken p
      /\ SessionToken p = GenerateSessionToken rnd
      /\ Name p = Msg_PlayerName msg /\ Connected p = true.
Proof.
  intros rnd gs c msg gs' Ht E. unfold serveMessage in E. rewrite Ht in E.
  unfold serveJoinTable in E.
  destruct (Msg_SeatIndex msg) as [seat|]; [|discriminate].
  exists seat.
  assert (Hgo : forall gs0, takeSeat rnd gs0 c msg seat = Replied None gs' ->
            exists p,
              Some seat = Some seat
              /\ GetClientBySeat (Srv_Hub gs') seat = Some c
              /\ Client_SeatIndex (Hub_Heap (Srv_Hub gs') c) = seat
              /\ get4 seat (Players (Srv_State gs')) = Some (Some p)
              /\ Client_Token (Hub_Heap (Srv_Hub gs') c) = SessionToken p
              /\ SessionToken p = GenerateSessionToken rnd
              /\ Name p = Msg_PlayerName msg /\ Connected p = true).
  { intros gs0 E0. destruct (takeSeat_registers _ _ _ _ _ E0) as [p Hp].
    exists p. split; [reflexivity | exact Hp]. }
  cbv zeta in E.
  destruct ((Client_SeatIndex (Hub_Heap (Srv_Hub gs) c) >=? 0)
            && negb (Client_SeatIndex (Hub_Heap (Srv_Hub gs) c) =? seat)).
  - destruct (ApplyAction rnd (Srv_State gs) _) as [s1|e s1|]; try discriminate.
    eapply Hgo; exact E.
  - eapply Hgo; exact E.
Qed.

Lemma join_registers_client_witness :
  exists seat p,
    Msg_SeatIndex (joinMsg 0) = Some seat
    /\ GetClientBySeat (Srv_Hub oneSeatedServer) seat = Some 0%nat
    /\ Client_SeatIndex (Hub_Heap (Srv_Hub oneSeatedServer) 0%nat) = seat
    /\ get4 seat (Players (Srv_State oneSeatedServer)) = Some (Some p)
    /\ Client_Token (Hub_Heap (Srv_Hub oneSeatedServer) 0%nat) = SessionToken p
    /\ SessionToken p = GenerateSessionToken rnd0
    /\ Name p = Msg_PlayerName (joinMsg 0) /\ Connected p = true.
Proof.
  apply (@join_registers_client rnd0 connectedServer 0%nat (joinMsg 0) oneSeatedServer).
  - reflexivity.
  - reflexivity.
Defined.

(* ================================================================== *)
(** * The sends of the server *)
























